(** * Half-Atwood lab simulator: signal synthesis, window selection,
      windowed statistics.

    A shallow embedding of [src/regression.js], [src/signals.js],
    [src/physics.js], [src/presets.js], of the state and the store of
    [src/state.js], of the selection of [src/graphs.js]
    ([normalizeSelection] and the pointer and key handlers of
    [TimeSeriesGraph]), of the readout, the cart and the playback of
    [src/machineView.js], of [quoteCsv] of [src/export.js] and of the
    measurement logic, the handlers and the views of [src/app.js],
    together with the properties stated for them.

    JavaScript numbers are IEEE-754 binary64 values.  The embedding is
    written once over an interface [Number] of the arithmetic the source
    uses, and the interface has two instances:

    - [IEEE754]: Rocq's primitive binary64 floats, the arithmetic the
      program really runs with; definitions evaluate on it;
    - [ExactReal]: the real numbers, i.e. the program run without rounding,
      used for the facts that need the algebra of an ordered field.

    Statements that hold whatever the arithmetic are proved over the
    interface and so hold for both.  A loop whose bound is a number is
    given fuel: [None] stands for a run that has not ended within it. *)

From Stdlib Require Import String ZArith List Bool Lia.
From Stdlib Require Import Floats.
From Stdlib Require Import Reals Lra.
Import ListNotations.

Set Implicit Arguments.

(* ================================================================== *)
(** ** The arithmetic of JavaScript numbers, as an interface *)

Class Number (num : Type) : Type := {
  ofZ : Z -> num;                      (* an integer literal or an array length *)
  nadd : num -> num -> num;            (* a + b *)
  nsub : num -> num -> num;            (* a - b *)
  nmul : num -> num -> num;            (* a * b *)
  ndiv : num -> num -> num;            (* a / b *)
  nlt : num -> num -> bool;            (* a < b *)
  nle : num -> num -> bool;            (* a <= b *)
  neq : num -> num -> bool;            (* a === b *)
  Math_min : num -> num -> num;
  Math_max : num -> num -> num;
  Math_abs : num -> num;
  Math_floor : num -> num;
  Math_sqrt : num -> num;
  ToUint32 : num -> Z                  (* x >>> 0 *)
}.

(** The transcendental functions of [Math]; ECMAScript leaves their
    results implementation-approximated. *)
Class Libm (num : Type) : Type := {
  Math_sin : num -> num;
  Math_cos : num -> num;
  Math_exp : num -> num;
  Math_log : num -> num;
  Math_PI : num
}.

Declare Scope js_scope.
Delimit Scope js_scope with js.
Notation "a + b" := (nadd a b) : js_scope.
Notation "a - b" := (nsub a b) : js_scope.
Notation "a * b" := (nmul a b) : js_scope.
Notation "a / b" := (ndiv a b) : js_scope.
Notation "a <? b" := (nlt a b) (at level 70, no associativity) : js_scope.
Notation "a <=? b" := (nle a b) (at level 70, no associativity) : js_scope.
Notation "a >? b" := (nlt b a) (at level 70, no associativity) : js_scope.
Notation "a >=? b" := (nle b a) (at level 70, no associativity) : js_scope.
Notation "a === b" := (neq a b) (at level 70, no associativity) : js_scope.

Section Literals.
Context {num : Type} {N : Number num}.
Local Open Scope js_scope.

(** A decimal literal [n/d] with [d] a power of ten: the correctly rounded
    quotient of two exactly representable integers is the double nearest
    to the decimal, which is the value of the literal. *)
Definition lit (n d : Z) : num := ofZ n / ofZ d.

(** [Number.NaN]: in binary64 arithmetic the quotient 0/0.  (Exact
    arithmetic has no such value; there the constant is only a placeholder,
    met by no statement made for that instance.) *)
Definition NaN : num := ofZ 0 / ofZ 0.

(** [array.length] as a number. *)
Definition lengthOf {A : Type} (l : list A) : num := ofZ (Z.of_nat (length l)).

(** [x ** 2]. *)
Definition sq (x : num) : num := x * x.

(** [x] is not NaN: it compares equal to itself. *)
Definition isNumber (x : num) : Prop := (x === x) = true.
End Literals.

(* ------------------------------------------------------------------ *)
(** *** Instance: IEEE-754 binary64 *)

Module IEEE.
Local Open Scope float_scope.

Definition ofZ (z : Z) : float := SF2Prim (binary_normalize prec emax z 0 false).

Definition isNegZero (a : float) : bool := PrimFloat.Leibniz.eqb a neg_zero.

(** [Math.min]: NaN if either argument is NaN, and -0 is below +0. *)
Definition min (a b : float) : float :=
  if is_nan a || is_nan b then nan
  else if a <? b then a
  else if b <? a then b
  else if isNegZero a then a else b.

Definition max (a b : float) : float :=
  if is_nan a || is_nan b then nan
  else if a <? b then b
  else if b <? a then a
  else if isNegZero a then b else a.

(** The integer part of a finite value [(-1)^s * m * 2^e], rounded down. *)
Definition floorZ (s : bool) (m : positive) (e : Z) : Z :=
  let v := if s then Z.neg m else Z.pos m in
  if (0 <=? e)%Z then (v * 2 ^ e)%Z else (v / 2 ^ (- e))%Z.

(** The integer part rounded toward zero. *)
Definition truncZ (s : bool) (m : positive) (e : Z) : Z :=
  let a := if (0 <=? e)%Z then (Z.pos m * 2 ^ e)%Z else (Z.pos m / 2 ^ (- e))%Z in
  if s then (- a)%Z else a.

Definition floor (x : float) : float :=
  match Prim2SF x with
  | S754_finite s m e => if (0 <=? e)%Z then x else ofZ (floorZ s m e)
  | _ => x
  end.

(** [ToUint32]: NaN, zeros and infinities give 0; otherwise the integer
    part modulo 2^32. *)
Definition toUint32 (x : float) : Z :=
  match Prim2SF x with
  | S754_finite s m e => (truncZ s m e mod 4294967296)%Z
  | _ => 0%Z
  end.
End IEEE.

#[export] Instance IEEE754 : Number float := {
  ofZ := IEEE.ofZ;
  nadd := PrimFloat.add;
  nsub := PrimFloat.sub;
  nmul := PrimFloat.mul;
  ndiv := PrimFloat.div;
  nlt := PrimFloat.ltb;
  nle := PrimFloat.leb;
  neq := PrimFloat.eqb;
  Math_min := IEEE.min;
  Math_max := IEEE.max;
  Math_abs := PrimFloat.abs;
  Math_floor := IEEE.floor;
  Math_sqrt := PrimFloat.sqrt;
  ToUint32 := IEEE.toUint32
}.

(* ------------------------------------------------------------------ *)
(** *** Instance: exact real arithmetic *)

Module Exact.
Local Open Scope R_scope.

Definition ltb (a b : R) : bool := if Rlt_dec a b then true else false.
Definition leb (a b : R) : bool := if Rle_dec a b then true else false.
Definition eqb (a b : R) : bool := if Req_dec_T a b then true else false.

Definition floor (x : R) : R := IZR (Zfloor x).

Definition toUint32 (x : R) : Z :=
  ((if Rle_dec 0 x then Zfloor x else - Zfloor (- x)) mod 4294967296)%Z.
End Exact.

#[export] Instance ExactReal : Number R := {
  ofZ := IZR;
  nadd := Rplus;
  nsub := Rminus;
  nmul := Rmult;
  ndiv := Rdiv;
  nlt := Exact.ltb;
  nle := Exact.leb;
  neq := Exact.eqb;
  Math_min := Rmin;
  Math_max := Rmax;
  Math_abs := Rabs;
  Math_floor := Exact.floor;
  Math_sqrt := sqrt;
  ToUint32 := Exact.toUint32
}.

#[export] Instance ExactLibm : Libm R := {
  Math_sin := sin;
  Math_cos := cos;
  Math_exp := exp;
  Math_log := ln;
  Math_PI := PI
}.

(* ================================================================== *)
(** ** regression.js *)

Module Regression.
Section Defs.
Context {num : Type} {N : Number num}.
Local Open Scope js_scope.

Record FitResult : Type := {
  slope : num;
  intercept : num;
  r2 : num;
  count : nat
}.

(** [values.reduce((sum, value) => sum + value, 0)] *)
Definition sum (values : list num) : num :=
  fold_left (fun sum value => sum + value) values (ofZ 0).

Definition mean (values : list num) : num :=
  if Nat.eqb (length values) 0 then NaN
  else sum values / lengthOf values.

Record Selected : Type := {
  times : list num;
  values : list num
}.

(** The loop of [sliceWindow], [index] running over [times]; [vs] is
    [values] from [index] on, and [values[index]] beyond its end is
    [undefined], which every use as a number reads as NaN. *)
Fixpoint sliceLoop (start end_ : num) (ts vs : list num) : Selected :=
  match ts with
  | [] => {| times := []; values := [] |}
  | time :: ts' =>
      let rest := sliceLoop start end_ ts' (tl vs) in
      if (time >=? start) && (time <=? end_)
      then {| times := time :: times rest; values := hd NaN vs :: values rest |}
      else rest
  end.

Definition sliceWindow (ts vs : list num) (startS endS : num) : Selected :=
  let start := Math_min startS endS in
  let end_ := Math_max startS endS in
  sliceLoop start end_ ts vs.

Definition meanInWindow (ts vs : list num) (startS endS : num) : num :=
  let selected := sliceWindow ts vs startS endS in
  mean (values selected).

(** One turn of the first loop of [linearRegression]: the running
    [(ssxx, ssxy, sst)] and the point [(x[index], y[index])]. *)
Definition accumulate (xMean yMean : num) (acc : num * num * num) (p : num * num)
  : num * num * num :=
  let '(ssxx, ssxy, sst) := acc in
  let dx := fst p - xMean in
  let dy := snd p - yMean in
  (ssxx + dx * dx, ssxy + dx * dy, sst + dy * dy).

Definition sumsOfSquares (x y : list num) : num * num * num :=
  fold_left (accumulate (mean x) (mean y)) (combine x y) (ofZ 0, ofZ 0, ofZ 0).

Definition ssxxOf (x y : list num) : num := fst (fst (sumsOfSquares x y)).
Definition ssxyOf (x y : list num) : num := snd (fst (sumsOfSquares x y)).
Definition sstOf (x y : list num) : num := snd (sumsOfSquares x y).

(** The second loop: the residual sum of squares. *)
Definition residualOf (slope intercept : num) (x y : list num) : num :=
  fold_left
    (fun residual p =>
       let predicted := slope * fst p + intercept in
       residual + sq (snd p - predicted))
    (combine x y) (ofZ 0).

Definition linearRegression (x y : list num) : option FitResult :=
  if negb (Nat.eqb (length x) (length y)) || Nat.ltb (length x) 2 then None
  else
    let xMean := mean x in
    let yMean := mean y in
    let '(ssxx, ssxy, sst) := sumsOfSquares x y in
    if ssxx === ofZ 0 then None
    else
      let slope := ssxy / ssxx in
      let intercept := yMean - slope * xMean in
      let residual := residualOf slope intercept x y in
      let r2 := if sst === ofZ 0 then ofZ 1 else ofZ 1 - residual / sst in
      Some {| slope := slope; intercept := intercept; r2 := r2; count := length x |}.

(** The divisors of the divisions [linearRegression(x, y)] carries out,
    in the order it meets them: the two lengths in [mean], [ssxx] for the
    slope, [sst] for [r2]. *)
Inductive Divisor : Type :=
| ByLength (n : nat)
| ByValue (d : num).

Definition divisors (x y : list num) : list Divisor :=
  if negb (Nat.eqb (length x) (length y)) || Nat.ltb (length x) 2 then []
  else
    [ByLength (length x); ByLength (length y)]
    ++ (if ssxxOf x y === ofZ 0 then []
        else ByValue (ssxxOf x y)
             :: (if sstOf x y === ofZ 0 then [] else [ByValue (sstOf x y)])).

Definition nonzero (d : Divisor) : Prop :=
  match d with
  | ByLength n => n <> 0%nat
  | ByValue v => (v === ofZ 0) = false
  end.

Definition linearRegressionInWindow (ts vs : list num) (startS endS : num)
  : option FitResult :=
  let selected := sliceWindow ts vs startS endS in
  linearRegression (times selected) (values selected).
End Defs.

Arguments FitResult num : clear implicits.
Arguments Selected num : clear implicits.
Arguments Divisor num : clear implicits.
End Regression.


(* ================================================================== *)
(** ** presets.js *)

Module Presets.

Inductive ScenarioId : Type := cart_only | cart_plus_pad.

Section Defs.
Context {num : Type} {N : Number num}.
Local Open Scope js_scope.

Record ScenarioFrictionConfig : Type := {
  dragN : num;
  startThresholdN : num
}.

(** [scenario] is the object with the keys [cart_only] and
    [cart_plus_pad]. *)
Record TeacherPreset : Type := {
  id : string;
  label : string;
  noiseDefault : bool;
  cartMassKg : num;
  padMassKg : num;
  scenario : ScenarioId -> ScenarioFrictionConfig
}.

Definition HANGING_MASS_STEPS_KG : list num :=
  [lit 1 10; lit 2 10; lit 3 10; lit 4 10; lit 5 10; lit 6 10].

Definition PRESETS : list TeacherPreset :=
  [ {| id := "low"; label := "Low Friction"; noiseDefault := false;
       cartMassKg := lit 5 10; padMassKg := lit 2 10;
       scenario := fun s =>
         match s with
         | cart_only => {| dragN := lit 6 100; startThresholdN := lit 4 100 |}
         | cart_plus_pad => {| dragN := lit 105 100; startThresholdN := lit 95 100 |}
         end |};
    {| id := "medium"; label := "Medium Friction"; noiseDefault := false;
       cartMassKg := lit 5 10; padMassKg := lit 22 100;
       scenario := fun s =>
         match s with
         | cart_only => {| dragN := lit 9 100; startThresholdN := lit 6 100 |}
         | cart_plus_pad => {| dragN := lit 135 100; startThresholdN := lit 115 100 |}
         end |};
    {| id := "high"; label := "High Friction"; noiseDefault := true;
       cartMassKg := lit 5 10; padMassKg := lit 24 100;
       scenario := fun s =>
         match s with
         | cart_only => {| dragN := lit 12 100; startThresholdN := lit 8 100 |}
         | cart_plus_pad => {| dragN := lit 17 10; startThresholdN := lit 135 100 |}
         end |} ].

(** [None] stands for the thrown [Error("Unknown preset: ...")]. *)
Definition getPresetById (presetId : string) : option TeacherPreset :=
  find (fun item => String.eqb (id item) presetId) PRESETS.

Definition scenarioTitle (s : ScenarioId) : string :=
  match s with
  | cart_plus_pad => "Cart + Friction Pad"
  | cart_only => "Cart Only"
  end.
End Defs.

Arguments ScenarioFrictionConfig num : clear implicits.
Arguments TeacherPreset num : clear implicits.
End Presets.

(* ================================================================== *)
(** ** physics.js *)

Module Physics.
Import Presets.

Section Defs.
Context {num : Type} {N : Number num}.
Local Open Scope js_scope.

Definition G : num := lit 981 100.
Definition TRACK_LENGTH_M : num := lit 12 10.

Record ScenarioConfig : Type := {
  scenario : ScenarioId;
  scenarioLabel : string;
  presetId : string;
  presetLabel : string;
  cartMassKg : num;
  padMassKg : num;
  systemMassKg : num;
  dragN : num;
  startThresholdN : num
}.

Record TrialInput : Type := {
  input_scenario : ScenarioId;
  input_presetId : string;
  input_hangingMassKg : num
}.

Record TrialPhysics : Type := {
  config : ScenarioConfig;
  hangingMassKg : num;
  pullingForceN : num;
  netForceN : num;
  accelerationMps2 : num;
  tensionN : num;
  moved : bool;
  travelTimeS : option num
}.

(** [None] when [getPresetById] throws.  The lookup
    [preset.scenario[input.scenario]] finds an entry for both members of
    [ScenarioId], so the "Unsupported scenario" throw is not reached. *)
Definition getScenarioConfig (input : TrialInput) : option ScenarioConfig :=
  match getPresetById (input_presetId input) with
  | None => None
  | Some preset =>
      let scenarioFriction := Presets.scenario preset (input_scenario input) in
      let systemMassKg :=
        match input_scenario input with
        | cart_plus_pad => Presets.cartMassKg preset + Presets.padMassKg preset
        | cart_only => Presets.cartMassKg preset
        end in
      Some {| scenario := input_scenario input;
              scenarioLabel := scenarioTitle (input_scenario input);
              presetId := Presets.id preset;
              presetLabel := Presets.label preset;
              cartMassKg := Presets.cartMassKg preset;
              padMassKg := Presets.padMassKg preset;
              systemMassKg := systemMassKg;
              dragN := Presets.dragN scenarioFriction;
              startThresholdN := Presets.startThresholdN scenarioFriction |}
  end.

(** The acceleration [computeTrialPhysics] computes once the start
    threshold is passed. *)
Definition computedAcceleration (config : ScenarioConfig) (hangingMassKg : num) : num :=
  let pullingForceN := hangingMassKg * G in
  let netForceN := pullingForceN - dragN config in
  let totalAcceleratedMassKg := systemMassKg config + hangingMassKg in
  netForceN / totalAcceleratedMassKg.

Definition computeTrialPhysics (input : TrialInput) : option TrialPhysics :=
  match getScenarioConfig input with
  | None => None
  | Some config =>
      let pullingForceN := input_hangingMassKg input * G in
      if pullingForceN <=? startThresholdN config then
        Some {| config := config;
                hangingMassKg := input_hangingMassKg input;
                pullingForceN := pullingForceN;
                netForceN := ofZ 0;
                accelerationMps2 := ofZ 0;
                tensionN := pullingForceN;
                moved := false;
                travelTimeS := None |}
      else
        let netForceN := pullingForceN - dragN config in
        let totalAcceleratedMassKg := systemMassKg config + input_hangingMassKg input in
        let accelerationMps2 := netForceN / totalAcceleratedMassKg in
        if accelerationMps2 <=? ofZ 0 then
          Some {| config := config;
                  hangingMassKg := input_hangingMassKg input;
                  pullingForceN := pullingForceN;
                  netForceN := netForceN;
                  accelerationMps2 := ofZ 0;
                  tensionN := pullingForceN;
                  moved := false;
                  travelTimeS := None |}
        else
          let tensionN := systemMassKg config * accelerationMps2 + dragN config in
          let travelTimeS := Math_sqrt (ofZ 2 * TRACK_LENGTH_M / accelerationMps2) in
          Some {| config := config;
                  hangingMassKg := input_hangingMassKg input;
                  pullingForceN := pullingForceN;
                  netForceN := netForceN;
                  accelerationMps2 := accelerationMps2;
                  tensionN := tensionN;
                  moved := true;
                  travelTimeS := Some travelTimeS |}
  end.
End Defs.

Arguments ScenarioConfig num : clear implicits.
Arguments TrialInput num : clear implicits.
Arguments TrialPhysics num : clear implicits.
End Physics.


(* ================================================================== *)
(** ** signals.js *)

Module Signals.
Import Physics.

(** *** The 32-bit integer operators

    Every bitwise operator first reduces its operands modulo 2^32; the
    results below are the unsigned 32-bit patterns. *)

Definition u32 (z : Z) : Z := (z mod 4294967296)%Z.
Definition xor32 (a b : Z) : Z := Z.lxor (u32 a) (u32 b).        (* a ^ b *)
Definition or32 (a b : Z) : Z := Z.lor (u32 a) (u32 b).          (* a | b *)
Definition ushr32 (a : Z) (k : Z) : Z := Z.shiftr (u32 a) k.     (* a >>> k *)
Definition imul (a b : Z) : Z := u32 (u32 a * u32 b).            (* Math.imul(a, b) *)

Section Defs.
Context {num : Type} {N : Number num} {L : Libm num}.
Local Open Scope js_scope.

Record SignalPhases : Type := {
  initialStartS : num;
  accelStartS : num;
  accelEndS : num;
  stopEndS : num
}.

Record Interval : Type := {
  startS : num;
  endS : num
}.

Record TrialSignals : Type := {
  timesS : list num;
  forceN : list num;
  velocityMps : list num;
  motionWindow : option Interval;
  phases : SignalPhases
}.

Definition clamp (value min max : num) : num :=
  Math_min max (Math_max min value).

(** *** createRng

    The closure's variable [state] is a number; [createRng] returns the
    closure, here its initial state. *)
Definition createRng (seed : num) : num := ofZ (ToUint32 seed).

(** One call of the closure: the value returned and the new [state]. *)
Definition rngNext (state : num) : num * num :=
  let state := state + ofZ 0x6d2b79f5 in
  let t := ToUint32 state in
  let t := imul (xor32 t (ushr32 t 15)) (or32 t 1) in
  let t := xor32 t (t + imul (xor32 t (ushr32 t 7)) (or32 t 61))%Z in
  (ofZ (ushr32 (xor32 t (ushr32 t 14)) 0) / ofZ 4294967296, state).

(** *** buildNoiseSampler

    The sampler is either the constant [() => 0] or the Box-Muller closure
    over the state of its generator. *)
Inductive NoiseSampler : Type :=
| Silent
| Gaussian (state : num).

Definition buildNoiseSampler (presetSeed : num) (noiseEnabled : bool) : NoiseSampler :=
  if negb noiseEnabled then Silent
  else Gaussian (createRng presetSeed).

(** The first uniform draw of a call, clamped. *)
Definition clampedDraw (u : num) : num :=
  clamp u (lit 1 100000000) (ofZ 1 - lit 1 100000000).

Definition boxMuller (u1 u2 : num) : num :=
  Math_sqrt (ofZ (-2) * Math_log u1) * Math_cos (ofZ 2 * Math_PI * u2).

(** One call [noise(scale)]: the value returned and the sampler after
    the call. *)
Definition noise (sampler : NoiseSampler) (scale : num) : num * NoiseSampler :=
  match sampler with
  | Silent => (ofZ 0, Silent)
  | Gaussian state =>
      let '(r1, state) := rngNext state in
      let u1 := clampedDraw r1 in
      let '(u2, state) := rngNext state in
      let z := boxMuller u1 u2 in
      (z * scale, Gaussian state)
  end.

(** *** generateTrialSignals *)

Record Options : Type := {
  noiseEnabled : bool;
  seed : num;
  durationS : option num;
  sampleRateHz : option num
}.

(** [value ?? fallback] *)
Definition orElse (value : option num) (fallback : num) : num :=
  match value with
  | Some v => v
  | None => fallback
  end.

Definition initialStart : num := ofZ 0.
Definition accelStart : num := lit 7 10.

Definition accelDurationS (physics : TrialPhysics num) : num :=
  if moved physics
  then clamp (orElse (travelTimeS physics) (lit 18 10) * lit 8 10) (lit 11 10) (ofZ 2)
  else ofZ 0.

Definition accelEnd (physics : TrialPhysics num) (durationS : num) : num :=
  if moved physics
  then clamp (accelStart + accelDurationS physics) (lit 18 10) (durationS - lit 12 10)
  else accelStart.

Definition rampWindowS (physics : TrialPhysics num) : num :=
  if moved physics
  then Math_min (lit 24 100) (Math_max (lit 12 100) (lit 14 100 * accelDurationS physics))
  else ofZ 0.

Definition linearStartS (physics : TrialPhysics num) : num :=
  accelStart + rampWindowS physics.

Definition linearEndS (physics : TrialPhysics num) (durationS : num) : num :=
  accelEnd physics durationS - rampWindowS physics.

Definition stopDurationS (physics : TrialPhysics num) : num :=
  if moved physics then lit 45 100 else ofZ 0.

Definition stopEnd (physics : TrialPhysics num) (durationS : num) : num :=
  if moved physics
  then clamp (accelEnd physics durationS + stopDurationS physics)
             (accelEnd physics durationS + lit 35 100) (durationS - lit 35 100)
  else accelStart + lit 35 100.

Definition peakVelocity (physics : TrialPhysics num) (durationS : num) : num :=
  if moved physics
  then accelerationMps2 physics * (accelEnd physics durationS - accelStart)
  else ofZ 0.

(** The velocity inside the acceleration phase. *)
Definition accelVelocity (physics : TrialPhysics num) (durationS t : num) : num :=
  let a := accelerationMps2 physics in
  let rampWindowS := rampWindowS physics in
  let linearStartS := linearStartS physics in
  let linearEndS := linearEndS physics durationS in
  if t <? linearStartS then
    let u := clamp ((t - accelStart) / rampWindowS) (ofZ 0) (ofZ 1) in
    lit 5 10 * a * rampWindowS * u * u
  else if t <=? linearEndS then
    let vRamp := lit 5 10 * a * rampWindowS in
    vRamp + a * (t - linearStartS)
  else
    let u := clamp ((t - linearEndS) / rampWindowS) (ofZ 0) (ofZ 1) in
    let vRamp := lit 5 10 * a * rampWindowS in
    let vLinear := vRamp + a * (linearEndS - linearStartS) in
    vLinear + a * rampWindowS * (u - lit 5 10 * u * u).

(** [(force, velocity)] of a moved trial at time [t], before the noise. *)
Definition movedSample (physics : TrialPhysics num) (durationS t : num) : num * num :=
  let accelEndS := accelEnd physics durationS in
  let stopEndS := stopEnd physics durationS in
  if t <? accelStart then
    let phaseRatio := t / accelStart in
    (tensionN physics * (lit 15 100 + lit 85 100 * phaseRatio)
       + lit 1 100 * Math_sin (ofZ 8 * t),
     lit 4 1000 * Math_sin (ofZ 9 * t))
  else if t <=? accelEndS then
    let dt := t - accelStart in
    let oscillation := lit 35 1000 * Math_exp (ofZ (-3) * dt) * Math_sin (ofZ 14 * dt) in
    (tensionN physics + oscillation, accelVelocity physics durationS t)
  else if t <=? stopEndS then
    let dt := t - accelEndS in
    let ratio := clamp (dt / stopDurationS physics) (ofZ 0) (ofZ 1) in
    ((ofZ 1 - ratio) * tensionN physics * lit 7 10
       + lit 3 100 * Math_sin (ofZ 18 * dt) * Math_exp (ofZ (-4) * dt),
     peakVelocity physics durationS * Math_exp (lit (-32) 10 * dt))
  else
    let dt := t - stopEndS in
    (lit 1 100 * Math_sin (ofZ 14 * dt) * Math_exp (ofZ (-4) * dt),
     lit 2 1000 * Math_sin (ofZ 11 * dt) * Math_exp (ofZ (-4) * dt)).

(** [(force, velocity)] of a trial that did not move, before the noise;
    [pulse] is 1 or 0 and is tested for truth in the velocity. *)
Definition stuckSample (physics : TrialPhysics num) (t : num) : num * num :=
  let pulseOn := Math_sin (ofZ 10 * t) >? lit 82 100 in
  let pulse := if pulseOn then ofZ 1 else ofZ 0 in
  (pullingForceN physics * (lit 9 10 + lit 5 100 * Math_sin (lit 38 10 * t))
     + pulse * lit 4 100,
   (if pulseOn then lit 15 1000 else ofZ 0) + lit 3 1000 * Math_sin (ofZ 11 * t)).

(** The body of the loop at time [t]: the sample pushed and the sampler
    after its two calls. *)
Definition sampleAt (physics : TrialPhysics num) (durationS t : num) (sampler : NoiseSampler)
  : (num * num) * NoiseSampler :=
  if moved physics then
    let '(force, velocity) := movedSample physics durationS t in
    let '(n1, sampler) := noise sampler (lit 1 100) in
    let force := force + n1 in
    let '(n2, sampler) := noise sampler (lit 6 1000) in
    let velocity := velocity + n2 in
    ((force, velocity), sampler)
  else
    let '(force, velocity) := stuckSample physics t in
    let '(n1, sampler) := noise sampler (lit 15 1000) in
    let force := force + n1 in
    let '(n2, sampler) := noise sampler (lit 3 1000) in
    let velocity := velocity + n2 in
    ((force, velocity), sampler).

(** The [for] loop from [index] on: the triples [(t, force, velocity)]
    pushed, in order.  [fuel] bounds the number of turns; [None] when it
    runs out before [index < count] fails. *)
Fixpoint sampleLoop (fuel : nat) (physics : TrialPhysics num)
  (durationS sampleRateHz count index : num) (sampler : NoiseSampler)
  : option (list (num * num * num)) :=
  match fuel with
  | O => None
  | S fuel =>
      if index <? count then
        let t := index / sampleRateHz in
        let '((force, velocity), sampler) := sampleAt physics durationS t sampler in
        match sampleLoop fuel physics durationS sampleRateHz count (index + ofZ 1) sampler with
        | Some rest => Some ((t, force, velocity) :: rest)
        | None => None
        end
      else Some []
  end.

Definition generateTrialSignals (fuel : nat) (physics : TrialPhysics num) (options : Options)
  : option TrialSignals :=
  let durationS := orElse (durationS options) (lit 45 10) in
  let sampleRateHz := orElse (sampleRateHz options) (ofZ 60) in
  let count := Math_floor (durationS * sampleRateHz) + ofZ 1 in
  let noise := buildNoiseSampler (seed options) (noiseEnabled options) in
  match sampleLoop fuel physics durationS sampleRateHz count (ofZ 0) noise with
  | None => None
  | Some samples =>
      Some {| timesS := map (fun s => fst (fst s)) samples;
              forceN := map (fun s => snd (fst s)) samples;
              velocityMps := map snd samples;
              motionWindow :=
                if moved physics
                then Some {| startS := accelStart; endS := accelEnd physics durationS |}
                else None;
              phases := {| initialStartS := initialStart;
                           accelStartS := accelStart;
                           accelEndS := accelEnd physics durationS;
                           stopEndS := stopEnd physics durationS |} |}
  end.
End Defs.

Arguments SignalPhases num : clear implicits.
Arguments Interval num : clear implicits.
Arguments TrialSignals num : clear implicits.
Arguments NoiseSampler num : clear implicits.
Arguments Options num : clear implicits.
End Signals.


(* ================================================================== *)
(** ** graphs.js: the selection helper *)

Module Graphs.
Import Signals.

Section Defs.
Context {num : Type} {N : Number num}.
Local Open Scope js_scope.

Definition normalizeSelection (selection : option (Interval num)) : option (Interval num) :=
  match selection with
  | None => None
  | Some selection =>
      Some {| startS := Math_min (startS selection) (endS selection);
              endS := Math_max (startS selection) (endS selection) |}
  end.
End Defs.
End Graphs.

(* ================================================================== *)
(** ** state.js *)

Module State.
Import Presets Physics Signals.

Section Defs.
Context {num : Type} {N : Number num}.

Record TrialMeasurement : Type := {
  forceWindow : option (Interval num);
  velocityWindow : option (Interval num);
  forceMeanN : option num;
  accelerationMps2 : option num
}.

Record TrialRecord : Type := {
  scenario : string;
  preset : string;
  trial_id : nat;
  hanging_mass_kg : num;
  force_mean_N : num;
  accel_mps2 : num;
  moved : bool;
  force_window_start_s : num;
  force_window_end_s : num;
  vel_window_start_s : num;
  vel_window_end_s : num;
  noise_enabled : bool;
  timestamp_iso : string
}.

Record CurrentTrial : Type := {
  id : nat;
  physics : TrialPhysics num;
  signals : TrialSignals num
}.

Record AppState : Type := {
  state_scenario : ScenarioId;
  presetId : string;
  hangingMassKg : num;
  noiseEnabled : bool;
  showFbd : bool;
  currentTrial : option CurrentTrial;
  measurement : TrialMeasurement;
  trialRecords : list TrialRecord;
  nextTrialId : nat
}.

Definition defaultMeasurement : TrialMeasurement :=
  {| forceWindow := None;
     velocityWindow := None;
     forceMeanN := None;
     accelerationMps2 := None |}.

Definition createInitialState : AppState :=
  {| state_scenario := cart_only;
     presetId := "low";
     hangingMassKg := lit 1 10;
     noiseEnabled := false;
     showFbd := true;
     currentTrial := None;
     measurement := defaultMeasurement;
     trialRecords := [];
     nextTrialId := 1 |}.
End Defs.

Arguments TrialMeasurement num : clear implicits.
Arguments TrialRecord num : clear implicits.
Arguments CurrentTrial num : clear implicits.
Arguments AppState num : clear implicits.
End State.

(* ================================================================== *)
(** ** app.js: the measurement logic *)

Module App.
Import Signals State.

Section Defs.
Context {num : Type} {N : Number num}.
Local Open Scope js_scope.

Definition MIN_SELECTION_WIDTH_S : num := lit 12 100.
Definition MIN_POINTS : nat := 6.

Definition isValidSelection (selection : option (Interval num)) : bool :=
  match selection with
  | None => false
  | Some selection =>
      Math_abs (endS selection - startS selection) >=? MIN_SELECTION_WIDTH_S
  end.

Definition normalize (selection : Interval num) : Interval num :=
  {| startS := Math_min (startS selection) (endS selection);
     endS := Math_max (startS selection) (endS selection) |}.

(** [store.update] with the two recomputed values; the rest of the state
    and of the measurement is carried over. *)
Definition withMeasurementValues (previous : AppState num)
  (forceMeanN accelerationMps2 : option num) : AppState num :=
  {| state_scenario := state_scenario previous;
     presetId := presetId previous;
     hangingMassKg := hangingMassKg previous;
     noiseEnabled := noiseEnabled previous;
     showFbd := showFbd previous;
     currentTrial := currentTrial previous;
     measurement :=
       {| forceWindow := forceWindow (measurement previous);
          velocityWindow := velocityWindow (measurement previous);
          forceMeanN := forceMeanN;
          accelerationMps2 := accelerationMps2 |};
     trialRecords := trialRecords previous;
     nextTrialId := nextTrialId previous |}.

(** The state the store holds after [updateMeasurementValues()];
    [renderMeasurementPanel] only writes to the page.  A window that
    [isValidSelection] accepted is not null, so [normalize] is applied to
    an interval and the [None] branches under the test are not reached. *)
Definition updateMeasurementValues (state : AppState num) : AppState num :=
  match currentTrial state with
  | None => withMeasurementValues state None None
  | Some trial =>
      let timesS := timesS (signals trial) in
      let forceN := forceN (signals trial) in
      let velocityMps := velocityMps (signals trial) in
      let forceMeanN :=
        if isValidSelection (forceWindow (measurement state)) then
          match forceWindow (measurement state) with
          | Some window =>
              let selection := normalize window in
              let selected :=
                Regression.sliceWindow timesS forceN (startS selection) (endS selection) in
              if Nat.leb MIN_POINTS (length (Regression.values selected))
              then Some (Regression.mean (Regression.values selected))
              else None
          | None => None
          end
        else None in
      let accelerationMps2 :=
        if isValidSelection (velocityWindow (measurement state)) then
          match velocityWindow (measurement state) with
          | Some window =>
              let selection := normalize window in
              match Regression.linearRegressionInWindow timesS velocityMps
                      (startS selection) (endS selection) with
              | Some fit =>
                  if Nat.leb MIN_POINTS (Regression.count fit)
                  then Some (Regression.slope fit)
                  else None
              | None => None
              end
          | None => None
          end
        else None in
      withMeasurementValues state forceMeanN accelerationMps2
  end.
End Defs.
End App.


(* ================================================================== *)
(** ** The truth of a number *)

Section Truthiness.
Context {num : Type} {N : Number num}.
Local Open Scope js_scope.

(** [a || b] on numbers: [b] when [a] is a zero or NaN, else [a]. *)
Definition orNumber (a b : num) : num :=
  if (a === ofZ 0) || negb (a === a) then b else a.
End Truthiness.

(* ================================================================== *)
(** ** export.js: quoting a CSV field *)

Module CsvExport.

(** The quotation mark, code 34. *)
Definition quotationMark : Ascii.ascii := Ascii.ascii_of_nat 34.

(** [value.replaceAll(quotationMark, two quotation marks)] *)
Fixpoint doubleQuotes (value : string) : string :=
  match value with
  | EmptyString => EmptyString
  | String c rest =>
      if Ascii.eqb c quotationMark
      then String quotationMark (String quotationMark (doubleQuotes rest))
      else String c (doubleQuotes rest)
  end.

(** [quoteCsv] of a string: the escaped text between two quotation
    marks. *)
Definition quoteCsv (value : string) : string :=
  let escaped := doubleQuotes value in
  String quotationMark (escaped ++ String quotationMark EmptyString).
End CsvExport.

(* ================================================================== *)
(** ** machineView.js *)

Module MachineView.
Import Physics Signals State.

Section Defs.
Context {num : Type} {N : Number num}.
Local Open Scope js_scope.

Definition clamp (value min max : num) : num :=
  Math_min max (Math_max min value).

(** The [while] loop of [interpolate]; [rest] is [xs] after [xs[index]],
    so [index < lastIndex] reads: [rest] is not empty. *)
Fixpoint seek (rest : list num) (x : num) (index : nat) : nat :=
  match rest with
  | [] => index
  | next :: rest' => if next <? x then seek rest' x (S index) else index
  end.

(** An array read beyond the end is [undefined], read as NaN. *)
Definition interpolate (xs ys : list num) (x : num) : num :=
  if Nat.eqb (length xs) 0 then ofZ 0
  else if x <=? nth 0 xs NaN then nth 0 ys NaN
  else
    let lastIndex := (length xs - 1)%nat in
    if x >=? nth lastIndex xs NaN then nth lastIndex ys NaN
    else
      let index := seek (tl xs) x 0 in
      let x1 := nth index xs NaN in
      let x2 := nth (index + 1) xs NaN in
      let y1 := nth index ys NaN in
      let y2 := nth (index + 1) ys NaN in
      let ratio := (x - x1) / orNumber (x2 - x1) (ofZ 1) in
      y1 + ratio * (y2 - y1).

Definition cartDisplacementM (trial : CurrentTrial num) (timeS : num) : num :=
  let phases := phases (signals trial) in
  let a := Physics.accelerationMps2 (physics trial) in
  if negb (Physics.moved (physics trial)) then ofZ 0
  else if timeS <=? accelStartS phases then ofZ 0
  else if timeS <=? accelEndS phases then
    let dt := timeS - accelStartS phases in
    lit 5 10 * a * dt * dt
  else
    let accelDt := accelEndS phases - accelStartS phases in
    let accelDistance := lit 5 10 * a * accelDt * accelDt in
    let peakVelocity := a * accelDt in
    if timeS <=? stopEndS phases then
      let stopDt := timeS - accelEndS phases in
      let stopDuration := orNumber (stopEndS phases - accelEndS phases) (lit 1 1000) in
      let decel := peakVelocity / stopDuration in
      accelDistance + peakVelocity * stopDt - lit 5 10 * decel * stopDt * stopDt
    else
      let stopDuration := orNumber (stopEndS phases - accelEndS phases) (lit 1 1000) in
      accelDistance + lit 5 10 * peakVelocity * stopDuration.

(** The fields of [HalfAtwoodView] that its playback reads and writes.
    [sliderMax] is [Number(timeSlider.max)], the number [setTrial] wrote
    there as text. *)
Record View : Type := {
  trial : option (CurrentTrial num);
  currentTimeS : num;
  playing : bool;
  lastFrame : option num;
  sliderMax : num
}.

(** What a method did besides changing the view: the calls of
    [onTimeUpdate], in order, and whether it asked for another animation
    frame. *)
Record Effects : Type := {
  timeUpdates : list (num * option (CurrentTrial num));
  frameRequested : bool
}.

Definition setTrial (view : View) (newTrial : option (CurrentTrial num)) : View * Effects :=
  match newTrial with
  | None =>
      ({| trial := None;
          currentTimeS := currentTimeS view;
          playing := false;
          lastFrame := lastFrame view;
          sliderMax := sliderMax view |},
       {| timeUpdates := [(ofZ 0, None)]; frameRequested := false |})
  | Some t =>
      let maxTime := last (timesS (signals t)) (lit 45 10) in
      ({| trial := Some t;
          currentTimeS := ofZ 0;
          playing := false;
          lastFrame := lastFrame view;
          sliderMax := maxTime |},
       {| timeUpdates := [(ofZ 0, Some t)]; frameRequested := false |})
  end.

Definition startPlayback (view : View) (restart : bool) : View * Effects :=
  match trial view with
  | None => (view, {| timeUpdates := []; frameRequested := false |})
  | Some t =>
      let time := if restart then ofZ 0 else currentTimeS view in
      ({| trial := trial view;
          currentTimeS := time;
          playing := true;
          lastFrame := None;
          sliderMax := sliderMax view |},
       {| timeUpdates := if restart then [(time, trial view)] else [];
          frameRequested := true |})
  end.

Definition pause (view : View) : View :=
  {| trial := trial view;
     currentTimeS := currentTimeS view;
     playing := false;
     lastFrame := lastFrame view;
     sliderMax := sliderMax view |}.

Definition animate (view : View) (timestamp : num) : View * Effects :=
  if negb (playing view) || match trial view with None => true | Some _ => false end
  then (view, {| timeUpdates := []; frameRequested := false |})
  else
    let previousFrame := orElse (lastFrame view) timestamp in
    let dt := (timestamp - previousFrame) / ofZ 1000 in
    let maxTime := sliderMax view in
    let time := clamp (currentTimeS view + dt) (ofZ 0) maxTime in
    let atEnd := time >=? maxTime in
    ({| trial := trial view;
        currentTimeS := time;
        playing := negb atEnd;
        lastFrame := Some timestamp;
        sliderMax := maxTime |},
     {| timeUpdates := [(time, trial view)]; frameRequested := negb atEnd |}).

(** [currentPhaseLabel(t)] *)
Definition currentPhaseLabel (view : View) (t : num) : string :=
  match trial view with
  | None => "No sustained motion"%string
  | Some trial =>
      if negb (Physics.moved (physics trial)) then "No sustained motion"%string
      else
        let phases := phases (signals trial) in
        if t <? accelStartS phases then "Initial setup phase"%string
        else if t <=? accelEndS phases then "Steady acceleration phase"%string
        else if t <=? stopEndS phases then "Stop/deceleration phase"%string
        else "Post-stop phase"%string
  end.
End Defs.

Arguments View num : clear implicits.
Arguments Effects num : clear implicits.
End MachineView.

(* ================================================================== *)
(** ** graphs.js: the time-series graph and its selection *)

Module TimeSeriesGraph.
Import Signals Graphs.

(** [dragMode]: "start", "end" or "new". *)
Inductive DragMode : Type := DragStart | DragEnd | DragNew.

(** A boundary of the selection: "start" or "end". *)
Inductive Boundary : Type := AtStart | AtEnd.

(** [event.key] of a key press, as far as [handleKeyDown] tells keys
    apart. *)
Inductive Key : Type := ArrowLeft | ArrowRight | OtherKey.

Section Defs.
Context {num : Type} {N : Number num}.
Local Open Scope js_scope.

Definition MARGIN_left : num := ofZ 74.
Definition MARGIN_right : num := ofZ 20.

Definition clamp (value min max : num) : num :=
  Math_min max (Math_max min value).

(** The horizontal part of [bounds]; the vertical part and the drawing
    are left out, no handler reads them. *)
Record Bounds : Type := {
  xMin : num;
  xMax : num;
  plotLeft : num;
  plotRight : num
}.

Record Graph : Type := {
  times : list num;
  values : list num;
  motionWindow : option (Interval num);
  selection : option (Interval num);
  dragMode : option DragMode;
  draggingPointerId : option Z;
  bounds : Bounds
}.

(** What the page gives when a method runs: [window.devicePixelRatio],
    and of the canvas its [clientWidth] and the left edge of
    [getBoundingClientRect()]. *)
Record Page : Type := {
  devicePixelRatio : num;
  clientWidth : num;
  rectLeft : num
}.

Record PointerEvent : Type := {
  clientX : num;
  pointerId : Z
}.

Record KeyboardEvent : Type := {
  key : Key;
  altKey : bool;
  shiftKey : bool
}.

(** [window.devicePixelRatio || 1] *)
Definition pixelRatio (page : Page) : num := orNumber (devicePixelRatio page) (ofZ 1).

(** [canvas.width] after [resizeCanvas]. *)
Definition canvasWidth (page : Page) : num :=
  Math_floor (clientWidth page * pixelRatio page).

Definition initialBounds : Bounds :=
  {| xMin := ofZ 0; xMax := lit 45 10; plotLeft := ofZ 0; plotRight := ofZ 0 |}.

(** The graph as its constructor leaves it. *)
Definition create : Graph :=
  {| times := []; values := []; motionWindow := None; selection := None;
     dragMode := None; draggingPointerId := None; bounds := initialBounds |}.

(** [render()], as far as it changes the graph: it sets [bounds]. *)
Definition renderedBounds (page : Page) (ts : list num) : Bounds :=
  {| xMin := match ts with [] => ofZ 0 | first :: _ => first end;
     xMax := match ts with [] => lit 45 10 | _ => last ts NaN end;
     plotLeft := MARGIN_left * pixelRatio page;
     plotRight := canvasWidth page - MARGIN_right * pixelRatio page |}.

Definition withSelection (graph : Graph) (sel : option (Interval num)) : Graph :=
  {| times := times graph; values := values graph; motionWindow := motionWindow graph;
     selection := sel;
     dragMode := dragMode graph; draggingPointerId := draggingPointerId graph;
     bounds := bounds graph |}.

Definition withDrag (graph : Graph) (mode : option DragMode) (pointer : option Z) : Graph :=
  {| times := times graph; values := values graph; motionWindow := motionWindow graph;
     selection := selection graph;
     dragMode := mode; draggingPointerId := pointer;
     bounds := bounds graph |}.

Definition render (page : Page) (graph : Graph) : Graph :=
  {| times := times graph; values := values graph; motionWindow := motionWindow graph;
     selection := selection graph;
     dragMode := dragMode graph; draggingPointerId := draggingPointerId graph;
     bounds := renderedBounds page (times graph) |}.

(** The argument of [setData]. *)
Record Payload : Type := {
  payload_timesS : list num;
  payload_values : list num;
  payload_motionWindow : option (Interval num);
  payload_selection : option (Interval num)
}.

Definition setData (page : Page) (graph : Graph) (payload : Payload) : Graph :=
  render page
    {| times := payload_timesS payload;
       values := payload_values payload;
       motionWindow := payload_motionWindow payload;
       selection := normalizeSelection (payload_selection payload);
       dragMode := dragMode graph; draggingPointerId := draggingPointerId graph;
       bounds := bounds graph |}.

(** A method returns the graph it leaves and the selections it passed
    to [onSelectionChange], in order.  The callback is taken not to call
    the graph in turn (those of app.js update the store). *)
Definition clearSelection (page : Page) (graph : Graph)
  : Graph * list (option (Interval num)) :=
  (render page (withSelection graph None), [None]).

Definition xToPx (b : Bounds) (timeS : num) : num :=
  let span := orNumber (xMax b - xMin b) (ofZ 1) in
  let ratio := (timeS - xMin b) / span in
  plotLeft b + ratio * (plotRight b - plotLeft b).

Definition pxToX (b : Bounds) (px : num) : num :=
  let width := orNumber (plotRight b - plotLeft b) (ofZ 1) in
  let ratio := (px - plotLeft b) / width in
  xMin b + ratio * (xMax b - xMin b).

Definition detectHandle (page : Page) (graph : Graph) (pointerX : num) : option Boundary :=
  match selection graph with
  | None => None
  | Some sel =>
      let ratio := pixelRatio page in
      let startPx := xToPx (bounds graph) (startS sel) in
      let endPx := xToPx (bounds graph) (endS sel) in
      let threshold := ofZ 9 * ratio in
      let distanceStart := Math_abs (pointerX - startPx) in
      let distanceEnd := Math_abs (pointerX - endPx) in
      if (distanceStart <? threshold) && (distanceStart <=? distanceEnd) then Some AtStart
      else if distanceEnd <? threshold then Some AtEnd
      else None
  end.

(** The time under the pointer, kept inside the plotted span. *)
Definition pointerTime (page : Page) (graph : Graph) (event : PointerEvent) : num :=
  let xPx := (clientX event - rectLeft page) * pixelRatio page in
  clamp (pxToX (bounds graph) xPx) (xMin (bounds graph)) (xMax (bounds graph)).

Definition handlePointerDown (page : Page) (graph : Graph) (event : PointerEvent)
  : Graph * list (option (Interval num)) :=
  match times graph with
  | [] => (graph, [])
  | _ =>
      let xPx := (clientX event - rectLeft page) * pixelRatio page in
      let timeS := pointerTime page graph event in
      match detectHandle page graph xPx with
      | Some handle =>
          let mode := match handle with AtStart => DragStart | AtEnd => DragEnd end in
          (render page (withDrag graph (Some mode) (Some (pointerId event))), [])
      | None =>
          let sel := Some {| startS := timeS; endS := timeS |} in
          (render page
             (withDrag (withSelection graph sel) (Some DragNew) (Some (pointerId event))),
           [sel])
      end
  end.

Definition samePointer (dragging : option Z) (pointer : Z) : bool :=
  match dragging with
  | Some id => Z.eqb id pointer
  | None => false
  end.

Definition handlePointerMove (page : Page) (graph : Graph) (event : PointerEvent)
  : Graph * list (option (Interval num)) :=
  if negb (samePointer (draggingPointerId graph) (pointerId event))
     || match times graph with [] => true | _ => false end
  then (graph, [])
  else
    let timeS := pointerTime page graph event in
    let sel :=
      match selection graph with
      | None => {| startS := timeS; endS := timeS |}
      | Some sel => sel
      end in
    let sel :=
      match dragMode graph with
      | Some DragStart => {| startS := timeS; endS := endS sel |}
      | Some DragEnd => {| startS := startS sel; endS := timeS |}
      | _ => {| startS := startS sel; endS := timeS |}
      end in
    let sel := normalizeSelection (Some sel) in
    (render page (withSelection graph sel), [sel]).

Definition handlePointerUp (graph : Graph) (event : PointerEvent) : Graph :=
  if negb (samePointer (draggingPointerId graph) (pointerId event)) then graph
  else withDrag graph None None.

Definition nudgeSelection (page : Page) (graph : Graph) (boundary : Boundary) (deltaS : num)
  : Graph * list (option (Interval num)) :=
  match times graph with
  | [] => (graph, [])
  | first :: _ =>
      let xMin := first in
      let xMax := last (times graph) NaN in
      let sel :=
        match selection graph with
        | Some sel => sel
        | None =>
            match motionWindow graph with
            | Some window =>
                let span := endS window - startS window in
                {| startS := startS window + span * lit 2 10;
                   endS := endS window - span * lit 2 10 |}
            | None =>
                let width := (xMax - xMin) * lit 2 10 in
                {| startS := xMin + width; endS := xMin + ofZ 2 * width |}
            end
        end in
      let sel :=
        match boundary with
        | AtStart => {| startS := clamp (startS sel + deltaS) xMin xMax; endS := endS sel |}
        | AtEnd => {| startS := startS sel; endS := clamp (endS sel + deltaS) xMin xMax |}
        end in
      let sel := normalizeSelection (Some sel) in
      (render page (withSelection graph sel), [sel])
  end.

Definition handleKeyDown (page : Page) (graph : Graph) (event : KeyboardEvent)
  : Graph * list (option (Interval num)) :=
  match key event with
  | OtherKey => (graph, [])
  | pressed =>
      let direction := match pressed with ArrowLeft => ofZ (-1) | _ => ofZ 1 end in
      let step := if altKey event then lit 1 100 else lit 2 100 in
      let boundary := if shiftKey event then AtStart else AtEnd in
      nudgeSelection page graph boundary (direction * step)
  end.
End Defs.

Arguments Bounds num : clear implicits.
Arguments Graph num : clear implicits.
Arguments Page num : clear implicits.
Arguments PointerEvent num : clear implicits.
Arguments Payload num : clear implicits.
End TimeSeriesGraph.

(* ================================================================== *)
(** ** state.js: the store *)

Module Store.
Import Presets State.

Section Defs.
Context {num : Type} {N : Number num}.

(** [Partial<AppState>]: the keys an object passed to [setState] has. *)
Record PartialState : Type := {
  partial_scenario : option ScenarioId;
  partial_presetId : option string;
  partial_hangingMassKg : option num;
  partial_noiseEnabled : option bool;
  partial_showFbd : option bool;
  partial_currentTrial : option (option (CurrentTrial num));
  partial_measurement : option (TrialMeasurement num);
  partial_trialRecords : option (list (TrialRecord num));
  partial_nextTrialId : option nat
}.

Definition keep {A : Type} (old : A) (new : option A) : A :=
  match new with
  | Some v => v
  | None => old
  end.

(** [{...state, ...partial}] *)
Definition spread (state : AppState num) (partial : PartialState) : AppState num :=
  {| state_scenario := keep (state_scenario state) (partial_scenario partial);
     presetId := keep (presetId state) (partial_presetId partial);
     hangingMassKg := keep (hangingMassKg state) (partial_hangingMassKg partial);
     noiseEnabled := keep (noiseEnabled state) (partial_noiseEnabled partial);
     showFbd := keep (showFbd state) (partial_showFbd partial);
     currentTrial := keep (currentTrial state) (partial_currentTrial partial);
     measurement := keep (measurement state) (partial_measurement partial);
     trialRecords := keep (trialRecords state) (partial_trialRecords partial);
     nextTrialId := keep (nextTrialId state) (partial_nextTrialId partial) |}.

(** A subscribed function, known by its identity.  It is taken not to
    call the store in turn (the one of app.js renders the page). *)
Definition Subscriber : Type := nat.

(** The closure of [createStore]: [state] and the [Set] of subscribers
    in insertion order. *)
Record Store : Type := {
  state : AppState num;
  subscribers : list Subscriber
}.

Definition createStore : Store :=
  {| state := createInitialState; subscribers := [] |}.

Definition getState (store : Store) : AppState num := state store.

(** The calls [notify()] makes, in order: each subscriber with the
    state. *)
Definition notify (store : Store) : list (Subscriber * AppState num) :=
  map (fun subscriber => (subscriber, state store)) (subscribers store).

(** A mutating method returns the store it leaves and the calls it
    made. *)
Definition setState (store : Store) (partial : PartialState)
  : Store * list (Subscriber * AppState num) :=
  let store := {| state := spread (state store) partial;
                  subscribers := subscribers store |} in
  (store, notify store).

Definition update (store : Store) (updater : AppState num -> AppState num)
  : Store * list (Subscriber * AppState num) :=
  let store := {| state := updater (state store);
                  subscribers := subscribers store |} in
  (store, notify store).

(** [subscribers.add(subscriber)]: a member is not added again. *)
Definition subscribe (store : Store) (subscriber : Subscriber) : Store :=
  {| state := state store;
     subscribers :=
       if existsb (Nat.eqb subscriber) (subscribers store)
       then subscribers store
       else subscribers store ++ [subscriber] |}.

(** The function [subscribe] returns: [subscribers.delete(subscriber)]. *)
Definition unsubscribe (store : Store) (subscriber : Subscriber) : Store :=
  {| state := state store;
     subscribers := filter (fun s => negb (Nat.eqb s subscriber)) (subscribers store) |}.

Definition resetMeasurement (store : Store) : Store * list (Subscriber * AppState num) :=
  let store :=
    {| state :=
         {| state_scenario := state_scenario (state store);
            presetId := presetId (state store);
            hangingMassKg := hangingMassKg (state store);
            noiseEnabled := noiseEnabled (state store);
            showFbd := showFbd (state store);
            currentTrial := currentTrial (state store);
            measurement := defaultMeasurement;
            trialRecords := trialRecords (state store);
            nextTrialId := nextTrialId (state store) |};
       subscribers := subscribers store |} in
  (store, notify store).
End Defs.

Arguments PartialState num : clear implicits.
Arguments Store num : clear implicits.
End Store.

(* ================================================================== *)
(** ** [Math.round] *)

Class Rounding (num : Type) : Type := {
  Math_round : num -> num
}.

Module IEEERound.
Local Open Scope float_scope.

(** The integer nearest to [(-1)^s * m * 2^e] for [e < 0], a tie going
    up. *)
Definition roundZ (s : bool) (m : positive) (e : Z) : Z :=
  let v := if s then Z.neg m else Z.pos m in
  ((2 * v + 2 ^ (- e)) / (2 * 2 ^ (- e)))%Z.

(** [Math.round]: an integral value, a zero, an infinity and NaN are
    returned unchanged; a value that rounds to zero keeps its sign. *)
Definition round (x : float) : float :=
  match Prim2SF x with
  | S754_finite s m e =>
      if (0 <=? e)%Z then x
      else
        let n := roundZ s m e in
        if (n =? 0)%Z then (if s then neg_zero else zero) else IEEE.ofZ n
  | _ => x
  end.
End IEEERound.

#[export] Instance IEEE754_rounding : Rounding float := {
  Math_round := IEEERound.round
}.

#[export] Instance ExactReal_rounding : Rounding R := {
  Math_round := fun x => IZR (Zfloor (x + 1 / 2))
}.

(* ================================================================== *)
(** ** app.js: the event handlers *)

Module AppEvents.
Import Presets Physics Signals State App.

(** How a handler ends: it returns, it throws, or (for the model of a
    loop) its fuel runs out. *)
Inductive Outcome (A : Type) : Type :=
| Returns (a : A)
| Throws
| OutOfFuel.

Arguments Returns {A} a.
Arguments Throws {A}.
Arguments OutOfFuel {A}.

(** The scenario as the string the state holds. *)
Definition scenarioName (s : ScenarioId) : string :=
  match s with
  | cart_only => "cart_only"
  | cart_plus_pad => "cart_plus_pad"
  end.

Section Defs.
Context {num : Type} {N : Number num} {L : Libm num} {Rd : Rounding num}.
Local Open Scope js_scope.

Definition availablePresets (scenario : ScenarioId) : list (TeacherPreset num) :=
  match scenario with
  | cart_only => filter (fun preset => String.eqb (Presets.id preset) "low") PRESETS
  | cart_plus_pad => PRESETS
  end.

(** [digits] is a literal 3 or 4 at every call; [10 ** digits] is then
    the integer. *)
Definition roundTo (value : num) (digits : nat) : num :=
  let factor := ofZ (10 ^ Z.of_nat digits) in
  Math_round (value * factor) / factor.

(** [text.charCodeAt(0)]: NaN for the empty string. *)
Definition charCodeAt0 (text : string) : num :=
  match text with
  | EmptyString => NaN
  | String c _ => ofZ (Z.of_nat (Ascii.nat_of_ascii c))
  end.

Definition withSettings (state : AppState num) (scenario : ScenarioId)
  (presetId : string) (noiseEnabled : bool) : AppState num :=
  {| state_scenario := scenario;
     State.presetId := presetId;
     State.hangingMassKg := State.hangingMassKg state;
     State.noiseEnabled := noiseEnabled;
     showFbd := showFbd state;
     currentTrial := currentTrial state;
     measurement := measurement state;
     trialRecords := trialRecords state;
     nextTrialId := nextTrialId state |}.

Definition withRecords (state : AppState num) (records : list (TrialRecord num))
  : AppState num :=
  {| state_scenario := state_scenario state;
     State.presetId := State.presetId state;
     State.hangingMassKg := State.hangingMassKg state;
     State.noiseEnabled := State.noiseEnabled state;
     showFbd := showFbd state;
     currentTrial := currentTrial state;
     measurement := measurement state;
     trialRecords := records;
     nextTrialId := nextTrialId state |}.

Definition withMeasurement (state : AppState num) (m : TrialMeasurement num)
  : AppState num :=
  {| state_scenario := state_scenario state;
     State.presetId := State.presetId state;
     State.hangingMassKg := State.hangingMassKg state;
     State.noiseEnabled := State.noiseEnabled state;
     showFbd := showFbd state;
     currentTrial := currentTrial state;
     measurement := m;
     trialRecords := trialRecords state;
     nextTrialId := nextTrialId state |}.

(** The "change" handler of the scenario select, as it changes the
    state.  [options[0]] of an empty array is [undefined], whose [id]
    throws. *)
Definition scenarioChanged (scenario : ScenarioId) (state : AppState num)
  : Outcome (AppState num) :=
  let options := availablePresets scenario in
  let nextPresetId :=
    if existsb (fun preset => String.eqb (Presets.id preset) (State.presetId state)) options
    then Some (State.presetId state)
    else option_map (@Presets.id num) (hd_error options) in
  match nextPresetId with
  | None => Throws
  | Some nextPresetId =>
      match getPresetById nextPresetId with
      | None => Throws
      | Some nextPreset =>
          Returns (withSettings state scenario nextPresetId (noiseDefault nextPreset))
      end
  end.

(** The "change" handler of the preset select; [value] is the value of
    the option chosen. *)
Definition presetChanged (value : string) (state : AppState num) : Outcome (AppState num) :=
  match getPresetById value with
  | None => Throws
  | Some preset =>
      Returns (withSettings state (state_scenario state) (Presets.id preset)
                 (noiseDefault preset))
  end.

(** The "change" handlers of the hanging-mass select and of the two
    checkboxes. *)
Definition hangingMassChanged (value : num) (state : AppState num) : AppState num :=
  {| state_scenario := state_scenario state;
     State.presetId := State.presetId state;
     State.hangingMassKg := value;
     State.noiseEnabled := State.noiseEnabled state;
     showFbd := showFbd state;
     currentTrial := currentTrial state;
     measurement := measurement state;
     trialRecords := trialRecords state;
     nextTrialId := nextTrialId state |}.

Definition noiseChanged (checked : bool) (state : AppState num) : AppState num :=
  withSettings state (state_scenario state) (State.presetId state) checked.

Definition showFbdChanged (checked : bool) (state : AppState num) : AppState num :=
  {| state_scenario := state_scenario state;
     State.presetId := State.presetId state;
     State.hangingMassKg := State.hangingMassKg state;
     State.noiseEnabled := State.noiseEnabled state;
     showFbd := checked;
     currentTrial := currentTrial state;
     measurement := measurement state;
     trialRecords := trialRecords state;
     nextTrialId := nextTrialId state |}.

(** The callbacks [onSelectionChange] of the two graphs. *)
Definition forceSelectionChanged (sel : option (Interval num)) (state : AppState num)
  : AppState num :=
  updateMeasurementValues
    (withMeasurement state
       {| forceWindow := sel;
          velocityWindow := velocityWindow (measurement state);
          forceMeanN := forceMeanN (measurement state);
          State.accelerationMps2 := State.accelerationMps2 (measurement state) |}).

Definition velocitySelectionChanged (sel : option (Interval num)) (state : AppState num)
  : AppState num :=
  updateMeasurementValues
    (withMeasurement state
       {| forceWindow := forceWindow (measurement state);
          velocityWindow := sel;
          forceMeanN := forceMeanN (measurement state);
          State.accelerationMps2 := State.accelerationMps2 (measurement state) |}).

Definition trialSeed (state : AppState num) : num :=
  Math_floor
    (ofZ (Z.of_nat (nextTrialId state)) * ofZ 997
     + State.hangingMassKg state * ofZ 10000
     + match state_scenario state with
       | cart_plus_pad => ofZ 7000
       | cart_only => ofZ 2000
       end
     + charCodeAt0 (State.presetId state)).

(** [runTrial()], as it changes the state: the trial is stored, the
    measurement is emptied and [updateMeasurementValues()] runs. *)
Definition runTrial (fuel : nat) (state : AppState num) : Outcome (AppState num) :=
  match computeTrialPhysics
          {| input_scenario := state_scenario state;
             input_presetId := State.presetId state;
             input_hangingMassKg := State.hangingMassKg state |} with
  | None => Throws
  | Some physics =>
      match generateTrialSignals fuel physics
              {| Signals.noiseEnabled := State.noiseEnabled state;
                 seed := trialSeed state;
                 durationS := None;
                 sampleRateHz := None |} with
      | None => OutOfFuel
      | Some signals =>
          Returns
            (updateMeasurementValues
               {| state_scenario := state_scenario state;
                  State.presetId := State.presetId state;
                  State.hangingMassKg := State.hangingMassKg state;
                  State.noiseEnabled := State.noiseEnabled state;
                  showFbd := showFbd state;
                  currentTrial :=
                    Some {| id := nextTrialId state;
                            State.physics := physics;
                            State.signals := signals |};
                  measurement :=
                    {| forceWindow := None;
                       velocityWindow := None;
                       forceMeanN := None;
                       State.accelerationMps2 := None |};
                  trialRecords := trialRecords state;
                  nextTrialId := nextTrialId state + 1 |})
      end
  end.

(** The "click" handler of the add button; [timestamp] is
    [new Date().toISOString()].  [normalize(null)] throws. *)
Definition addTrial (timestamp : string) (state : AppState num) : Outcome (AppState num) :=
  match currentTrial state with
  | None => Returns state
  | Some trial =>
      if negb (Physics.moved (physics trial)) then Returns state
      else
        match forceMeanN (measurement state), State.accelerationMps2 (measurement state) with
        | Some force, Some accel =>
            match forceWindow (measurement state), velocityWindow (measurement state),
                  getPresetById (N := N) (State.presetId state) with
            | Some forceWindow, Some velocityWindow, Some preset =>
                let forceWindow := normalize forceWindow in
                let velocityWindow := normalize velocityWindow in
                let record :=
                  {| State.scenario := scenarioName (state_scenario state);
                     preset := label preset;
                     trial_id := id trial;
                     hanging_mass_kg := roundTo (Physics.hangingMassKg (physics trial)) 3;
                     force_mean_N := roundTo force 4;
                     accel_mps2 := roundTo accel 4;
                     State.moved := true;
                     force_window_start_s := roundTo (startS forceWindow) 3;
                     force_window_end_s := roundTo (endS forceWindow) 3;
                     vel_window_start_s := roundTo (startS velocityWindow) 3;
                     vel_window_end_s := roundTo (endS velocityWindow) 3;
                     noise_enabled := State.noiseEnabled state;
                     timestamp_iso := timestamp |} in
                Returns (withRecords state (trialRecords state ++ [record]))
            | _, _, _ => Throws
            end
        | _, _ => Returns state
        end
  end.

Definition clearTrials (state : AppState num) : AppState num :=
  withRecords state [].

Definition removeTrial (trialId : nat) (state : AppState num) : AppState num :=
  withRecords state
    (filter (fun record => negb (Nat.eqb (trial_id record) trialId)) (trialRecords state)).

(** [renderFitView] and [renderChecklist]: the records of the scenario
    shown, the points and the fit handed to the scatter graph. *)
Definition relevantRecords (state : AppState num) : list (TrialRecord num) :=
  filter (fun record => String.eqb (State.scenario record) (scenarioName (state_scenario state)))
         (trialRecords state).

Definition fitPoints (state : AppState num) : list (num * num) :=
  map (fun record => (accel_mps2 record, force_mean_N record)) (relevantRecords state).

Definition fitOf (state : AppState num) : option (Regression.FitResult num) :=
  let points := fitPoints state in
  if Nat.leb 2 (length points)
  then Regression.linearRegression (map fst points) (map snd points)
  else None.

(** The flag [fitDone] of [renderChecklist]. *)
Definition fitDone (state : AppState num) : bool :=
  Nat.leb 2 (length (relevantRecords state)).

(** [canAddTrial] of [updateActionButtons]. *)
Definition canAddTrial (state : AppState num) : bool :=
  match currentTrial state with
  | None => false
  | Some trial =>
      Physics.moved (physics trial)
      && match forceMeanN (measurement state) with Some _ => true | None => false end
      && match State.accelerationMps2 (measurement state) with
         | Some _ => true
         | None => false
         end
      && isValidSelection (forceWindow (measurement state))
      && isValidSelection (velocityWindow (measurement state))
  end.

(** The loop of [renderTrialProgress]; [rest] is [times] after
    [times[maxIndex]]. *)
Fixpoint lastShown (rest : list num) (timeS : num) (maxIndex : nat) : nat :=
  match rest with
  | [] => maxIndex
  | next :: rest' => if next <=? timeS then lastShown rest' timeS (S maxIndex) else maxIndex
  end.

(** What [renderTrialProgress] hands to a graph for a trial: the samples
    shown at [timeS] and the motion window. *)
Definition shownTimes (trial : CurrentTrial num) (timeS : num) : list num :=
  let times := timesS (signals trial) in
  firstn (lastShown (tl times) timeS 0 + 1) times.

Definition shownForce (trial : CurrentTrial num) (timeS : num) : list num :=
  let times := timesS (signals trial) in
  firstn (lastShown (tl times) timeS 0 + 1) (forceN (signals trial)).

Definition shownVelocity (trial : CurrentTrial num) (timeS : num) : list num :=
  let times := timesS (signals trial) in
  firstn (lastShown (tl times) timeS 0 + 1) (velocityMps (signals trial)).

Definition shownMotionWindow (trial : CurrentTrial num) (timeS : num)
  : option (Interval num) :=
  match motionWindow (signals trial) with
  | None => None
  | Some window =>
      let shown := {| startS := startS window; endS := Math_min timeS (endS window) |} in
      if endS shown >? startS shown then Some shown else None
  end.
End Defs.
End AppEvents.

(* ================================================================== *)
(** ** Sample inputs *)

Module Examples.
Import Presets Physics Signals.

Section Defs.
Context {num : Type} {N : Number num}.
Local Open Scope js_scope.

(** The configuration of [{scenario: "cart_only", presetId: "low"}]. *)
Definition lowCartOnly : ScenarioConfig num :=
  {| scenario := cart_only;
     scenarioLabel := "Cart Only";
     presetId := "low";
     presetLabel := "Low Friction";
     cartMassKg := lit 5 10;
     padMassKg := lit 2 10;
     systemMassKg := lit 5 10;
     dragN := lit 6 100;
     startThresholdN := lit 4 100 |}.

(** A trial that moved: hanging mass 0.4 kg, travel time 0.75 s. *)
Definition movedTrial : TrialPhysics num :=
  {| config := lowCartOnly;
     hangingMassKg := lit 4 10;
     pullingForceN := lit 3924 1000;
     netForceN := lit 3864 1000;
     accelerationMps2 := lit 3864 900;
     tensionN := lit 3864 1800 + lit 6 100;
     moved := true;
     travelTimeS := Some (lit 75 100) |}.

(** A trial held by static friction. *)
Definition stuckTrial : TrialPhysics num :=
  {| config := lowCartOnly;
     hangingMassKg := lit 1 1000;
     pullingForceN := lit 981 100000;
     netForceN := ofZ 0;
     accelerationMps2 := ofZ 0;
     tensionN := lit 981 100000;
     moved := false;
     travelTimeS := None |}.

(** Ten samples at 10 Hz of a trial that did not move. *)
Definition tenSamples : TrialSignals num :=
  {| timesS := [ofZ 0; lit 1 10; lit 2 10; lit 3 10; lit 4 10;
                lit 5 10; lit 6 10; lit 7 10; lit 8 10; lit 9 10];
     forceN := [ofZ 1; ofZ 1; ofZ 1; ofZ 1; ofZ 1; ofZ 1; ofZ 1; ofZ 1; ofZ 1; ofZ 1];
     velocityMps := [ofZ 0; ofZ 1; ofZ 2; ofZ 3; ofZ 4; ofZ 5; ofZ 6; ofZ 7; ofZ 8; ofZ 9];
     motionWindow := None;
     phases := {| initialStartS := ofZ 0; accelStartS := lit 7 10;
                  accelEndS := lit 7 10; stopEndS := lit 105 100 |} |}.

(** The application state with that trial current and the given windows
    selected. *)
Definition stateWith (forceWindow velocityWindow : option (Interval num))
  : State.AppState num :=
  {| State.state_scenario := cart_only;
     State.presetId := "low";
     State.hangingMassKg := lit 1 1000;
     State.noiseEnabled := false;
     State.showFbd := true;
     State.currentTrial :=
       Some {| State.id := 1; State.physics := stuckTrial; State.signals := tenSamples |};
     State.measurement :=
       {| State.forceWindow := forceWindow;
          State.velocityWindow := velocityWindow;
          State.forceMeanN := None;
          State.accelerationMps2 := None |};
     State.trialRecords := [];
     State.nextTrialId := 2 |}.

Definition quietOptions (seed : num) (durationS sampleRateHz : option num) : Options num :=
  {| noiseEnabled := false;
     seed := seed;
     durationS := durationS;
     sampleRateHz := sampleRateHz |}.
End Defs.
End Examples.

(* ================================================================== *)
(** ** Notions used in the statements *)

Section Notions.
Import Signals App.
Context {num : Type} {N : Number num}.
Local Open Scope js_scope.

(** The test of [sliceWindow] on a time, for the window as given. *)
Definition inWindow (startS endS time : num) : bool :=
  (time >=? Math_min startS endS) && (time <=? Math_max startS endS).

(** The guard at the top of [linearRegression]. *)
Definition rejected (x y : list num) : bool :=
  negb (Nat.eqb (length x) (length y)) || Nat.ltb (length x) 2.

(** The sample times the loop of [generateTrialSignals] pushes from
    [index] on: its control, without the samples. *)
Fixpoint timeLoop (fuel : nat) (sampleRateHz count index : num) : option (list num) :=
  match fuel with
  | O => None
  | S fuel =>
      if index <? count then
        match timeLoop fuel sampleRateHz count (index + ofZ 1) with
        | Some rest => Some (index / sampleRateHz :: rest)
        | None => None
        end
      else Some []
  end.

(** The value of [index] at the [k]-th turn of that loop, counted from
    0: [k] times [index += 1] from [index = 0]. *)
Definition indexAt (k : nat) : num :=
  Nat.iter k (fun index => index + ofZ 1) (ofZ 0).

(** Each element is below the next. *)
Fixpoint increasing (l : list num) : bool :=
  match l with
  | a :: (b :: _) as rest => (a <? b) && increasing rest
  | _ => true
  end.


(** The inputs the controls of the application offer: every preset,
    scenario and hanging-mass step. *)
Definition offeredInputs : list (Physics.TrialInput num) :=
  flat_map
    (fun preset =>
       flat_map
         (fun scenario =>
            map (fun mass =>
                   {| Physics.input_scenario := scenario;
                      Physics.input_presetId := Presets.id preset;
                      Physics.input_hangingMassKg := mass |})
                Presets.HANGING_MASS_STEPS_KG)
         [Presets.cart_only; Presets.cart_plus_pad])
    Presets.PRESETS.



(** Newton's second law for both bodies of a result that moved, each
    equation within a tolerance: the acceleration lies strictly between 0
    and [G], the net force is the total mass times the acceleration, the
    tension is the hanging mass times [G - a], and the tension lies
    strictly between the drag and the weight of the hanging mass. *)
Definition newtonWithin (tolerance : num) (input : Physics.TrialInput num) : bool :=
  match Physics.computeTrialPhysics input with
  | Some physics =>
      let a := Physics.accelerationMps2 physics in
      let h := Physics.hangingMassKg physics in
      let config := Physics.config physics in
      implb (Physics.moved physics)
        ((ofZ 0 <? a) && (a <? Physics.G)
         && (Math_abs (Physics.netForceN physics - (Physics.systemMassKg config + h) * a)
             <=? tolerance)
         && (Math_abs (Physics.tensionN physics - h * (Physics.G - a)) <=? tolerance)
         && (Physics.dragN config <? Physics.tensionN physics)
         && (Physics.tensionN physics <? Physics.pullingForceN physics))
  | None => false
  end.

(** The trial of an input moved. *)
Definition movedInput (input : Physics.TrialInput num) : bool :=
  match Physics.computeTrialPhysics input with
  | Some physics => Physics.moved physics
  | None => false
  end.

(** Along a list of hanging masses, for one scenario and preset: when the
    trial of a mass moved, so did the trial of the next mass, with a
    greater acceleration. *)
Fixpoint heavierFaster (scenario : Presets.ScenarioId) (presetId : string)
  (masses : list num) : bool :=
  match masses with
  | h1 :: (h2 :: _) as rest =>
      match Physics.computeTrialPhysics
              {| Physics.input_scenario := scenario; Physics.input_presetId := presetId;
                 Physics.input_hangingMassKg := h1 |},
            Physics.computeTrialPhysics
              {| Physics.input_scenario := scenario; Physics.input_presetId := presetId;
                 Physics.input_hangingMassKg := h2 |} with
      | Some physics1, Some physics2 =>
          implb (Physics.moved physics1)
            (Physics.moved physics2
             && (Physics.accelerationMps2 physics1 <? Physics.accelerationMps2 physics2))
      | _, _ => false
      end
      && heavierFaster scenario presetId rest
  | _ => true
  end.

(** For one preset and hanging mass: when the cart with the pad moved, so
    did the cart alone, with a greater acceleration. *)
Definition padSlower (presetId : string) (mass : num) : bool :=
  match Physics.computeTrialPhysics
          {| Physics.input_scenario := Presets.cart_only; Physics.input_presetId := presetId;
             Physics.input_hangingMassKg := mass |},
        Physics.computeTrialPhysics
          {| Physics.input_scenario := Presets.cart_plus_pad;
             Physics.input_presetId := presetId;
             Physics.input_hangingMassKg := mass |} with
  | Some cartOnly, Some cartPlusPad =>
      implb (Physics.moved cartPlusPad)
        (Physics.moved cartOnly
         && (Physics.accelerationMps2 cartPlusPad <? Physics.accelerationMps2 cartOnly))
  | _, _ => false
  end.

(** The fit of the points of the line [y = m x + c] at the abscissas
    [xs] is that line, with [r2 = 1]. *)
Definition recoversLine (xs : list num) (m c : num) : bool :=
  match Regression.linearRegression xs (map (fun x => m * x + c) xs) with
  | Some fit =>
      (Regression.slope fit === m) && (Regression.intercept fit === c)
      && (Regression.r2 fit === ofZ 1) && Nat.eqb (Regression.count fit) (length xs)
  | None => false
  end.

(** The width [isValidSelection] tests. *)
Definition width (window : Interval num) : num :=
  Math_abs (endS window - startS window).
End Notions.

Section NoiseNotions.
Context {num : Type} {N : Number num} {L : Libm num}.

(** The sampler after any number of earlier calls. *)
Definition afterCalls (sampler : Signals.NoiseSampler num) (scales : list num)
  : Signals.NoiseSampler num :=
  fold_left (fun sampler scale => snd (Signals.noise sampler scale)) scales sampler.
End NoiseNotions.

(** The loop bound of [generateTrialSignals] in exact arithmetic. *)
Module ExactSignals.
Import Signals.
Local Open Scope R_scope.

(** The options with their defaults applied. *)
Definition durationOf (options : Options R) : R := orElse (durationS options) (lit 45 10).
Definition rateOf (options : Options R) : R := orElse (sampleRateHz options) (ofZ 60).

(** [count] as an integer, and the number of turns of the loop. *)
Definition countOf (options : Options R) : Z :=
  (Zfloor (durationOf options * rateOf options) + 1)%Z.
Definition turns (options : Options R) : nat := Z.to_nat (countOf options).
End ExactSignals.

Module ExactNoise.
Import Signals.
Local Open Scope R_scope.

(** The least value the clamp lets through, and the bound it gives. *)
Definition tiny : R := 1 / 100000000.
Definition zMax : R := sqrt (-2 * ln tiny).
End ExactNoise.

Module ExactRegression.
Local Open Scope R_scope.

(** All values of a sequence are equal. *)
Definition allEqual (x : list R) : Prop := forall a b, In a x -> In b x -> a = b.
End ExactRegression.

(** How two doubles compare: unordered when one is NaN, and otherwise
    below, above or equal, where equal doubles are the same double or two
    zeros. *)
Module IEEECompare.
Local Open Scope float_scope.

Definition isZeroSF (x : spec_float) : Prop :=
  match x with S754_zero _ => True | _ => False end.

Inductive Compared (a b : float) : Prop :=
| CmpUnordered : is_nan a || is_nan b = true -> Compared a b
| CmpLt : is_nan a = false -> is_nan b = false ->
          (a <? b) = true -> (b <? a) = false ->
          (a <=? b) = true -> (b <=? a) = false -> Compared a b
| CmpGt : is_nan a = false -> is_nan b = false ->
          (a <? b) = false -> (b <? a) = true ->
          (a <=? b) = false -> (b <=? a) = true -> Compared a b
| CmpEq : is_nan a = false -> is_nan b = false ->
          (a <? b) = false -> (b <? a) = false ->
          (a <=? b) = true -> (b <=? a) = true ->
          a = b \/ ((a = zero \/ a = neg_zero) /\ (b = zero \/ b = neg_zero)) ->
          Compared a b.

(** The place of a value that is not NaN in the order of the doubles:
    first its kind, then its exponent, then its mantissa. *)
Definition key (x : spec_float) : Z * Z * Z :=
  match x with
  | S754_nan => (0, 0, 0)%Z
  | S754_zero _ => (0, 0, 0)%Z
  | S754_infinity true => (-2, 0, 0)%Z
  | S754_infinity false => (2, 0, 0)%Z
  | S754_finite true m e => (-1, - e, Z.neg m)%Z
  | S754_finite false m e => (1, e, Z.pos m)%Z
  end.

Definition lexCompare (k1 k2 : Z * Z * Z) : comparison :=
  let '(c1, e1, m1) := k1 in
  let '(c2, e2, m2) := k2 in
  match (c1 ?= c2)%Z with
  | Eq => match (e1 ?= e2)%Z with
          | Eq => (m1 ?= m2)%Z
          | c => c
          end
  | c => c
  end.

End IEEECompare.

(** The doubles that are neither NaN nor an infinity, by the size of their
    exponent, and what the proofs ask of [Math] in doubles. *)
Module IEEERange.
Local Open Scope float_scope.

(** A zero or a finite value whose exponent is at most [k]. *)
Definition within (k : Z) (x : spec_float) : Prop :=
  match x with
  | S754_zero _ => True
  | S754_finite _ _ e => (e <= k)%Z
  | _ => False
  end.

(** A zero or a finite value of sign [s]. *)
Definition signed (s : bool) (x : spec_float) : Prop :=
  match x with
  | S754_zero _ => True
  | S754_finite s' _ _ => s' = s
  | _ => False
  end.

(** A mantissa of at most 53 digits, as every double has. *)
Definition short (x : spec_float) : Prop :=
  match x with
  | S754_finite _ m _ => (Z.pos (digits2_pos m) <= 53)%Z
  | _ => True
  end.

(** A double that is neither NaN nor an infinity. *)
Definition finiteDouble (x : float) : Prop := (abs x <? infinity) = true.

(** The ranges of [Math.log], [Math.cos] and [Math.PI]: the logarithm of
    a number within [1e-8, 1 - 1e-8] lies within [-19, 0], the cosine of a
    finite number within [-1, 1], and [Math.PI] within [3, 4]. *)
Record LibmRanges (L : Libm float) : Prop := {
  log_range : forall x : float,
      (lit 1 100000000 <=? x)%js = true -> (x <=? ofZ 1 - lit 1 100000000)%js = true ->
      (ofZ (-19) <=? Math_log x)%js = true /\ (Math_log x <=? ofZ 0)%js = true;
  cos_range : forall x : float,
      finiteDouble x ->
      (ofZ (-1) <=? Math_cos x)%js = true /\ (Math_cos x <=? ofZ 1)%js = true;
  PI_range : (ofZ 3 <=? @Math_PI float L)%js = true
             /\ (@Math_PI float L <=? ofZ 4)%js = true
}.

(** A [Math] of constant functions, which lies within these ranges. *)
Definition constantLibm : Libm float := {|
  Math_sin := fun _ => 0;
  Math_cos := fun _ => 1;
  Math_exp := fun _ => 1;
  Math_log := fun _ => (-1);
  Math_PI := 0x1.921fb54442d18p+1
|}.
End IEEERange.

(* ================================================================== *)
(** ** Further sample inputs and notions *)

Module MoreExamples.
Import Presets Physics Signals.

Section Defs.
Context {num : Type} {N : Number num}.
Local Open Scope js_scope.

(** Three samples of a trial that moved, with the phases of the default
    duration. *)
Definition movedCurrent : State.CurrentTrial num :=
  {| State.id := 1;
     State.physics := Examples.movedTrial;
     State.signals :=
       {| timesS := [ofZ 0; ofZ 1; ofZ 2];
          forceN := [ofZ 1; ofZ 2; ofZ 1];
          velocityMps := [ofZ 0; ofZ 1; ofZ 0];
          motionWindow := Some {| startS := lit 7 10; endS := lit 18 10 |};
          phases := {| initialStartS := ofZ 0; accelStartS := lit 7 10;
                       accelEndS := lit 18 10; stopEndS := lit 225 100 |} |} |}.

(** The application state with that trial current, both windows
    selected and both values measured. *)
Definition measuredState : State.AppState num :=
  {| State.state_scenario := cart_only;
     State.presetId := "low";
     State.hangingMassKg := lit 4 10;
     State.noiseEnabled := false;
     State.showFbd := true;
     State.currentTrial := Some movedCurrent;
     State.measurement :=
       {| State.forceWindow := Some {| startS := lit 8 10; endS := lit 16 10 |};
          State.velocityWindow := Some {| startS := lit 16 10; endS := lit 8 10 |};
          State.forceMeanN := Some (lit 22 10);
          State.accelerationMps2 := Some (lit 43 10) |};
     State.trialRecords := [];
     State.nextTrialId := 2 |}.

(** An accepted record of the scenario "cart_only" with the given
    acceleration and mean force. *)
Definition recordWith (trialId : nat) (accel force : num) : State.TrialRecord num :=
  {| State.scenario := "cart_only";
     State.preset := "Low Friction";
     State.trial_id := trialId;
     State.hanging_mass_kg := lit 4 10;
     State.force_mean_N := force;
     State.accel_mps2 := accel;
     State.moved := true;
     State.force_window_start_s := lit 8 10;
     State.force_window_end_s := lit 16 10;
     State.vel_window_start_s := lit 8 10;
     State.vel_window_end_s := lit 16 10;
     State.noise_enabled := false;
     State.timestamp_iso := "2024-01-01T00:00:00.000Z" |}.

(** The initial state with two accepted records of one acceleration. *)
Definition twoAlike : State.AppState num :=
  AppEvents.withRecords State.createInitialState
    [recordWith 1 (ofZ 4) (ofZ 2); recordWith 2 (ofZ 4) (ofZ 3)].

(** A view that has just been told to play [movedCurrent] from the
    start. *)
Definition playingView : MachineView.View num :=
  {| MachineView.trial := Some movedCurrent;
     MachineView.currentTimeS := ofZ 0;
     MachineView.playing := true;
     MachineView.lastFrame := None;
     MachineView.sliderMax := ofZ 2 |}.

(** A page of pixel ratio 1 with a canvas 594 pixels wide at the left
    edge of the window: the plot spans the pixels 74 to 574. *)
Definition page : TimeSeriesGraph.Page num :=
  {| TimeSeriesGraph.devicePixelRatio := ofZ 1;
     TimeSeriesGraph.clientWidth := ofZ 594;
     TimeSeriesGraph.rectLeft := ofZ 0 |}.

(** A graph of samples at the times 0 to 5 s, drawn on that page,
    without selection. *)
Definition graph : TimeSeriesGraph.Graph num :=
  TimeSeriesGraph.setData page TimeSeriesGraph.create
    {| TimeSeriesGraph.payload_timesS := [ofZ 0; ofZ 1; ofZ 2; ofZ 3; ofZ 4; ofZ 5];
       TimeSeriesGraph.payload_values := [ofZ 0; ofZ 1; ofZ 2; ofZ 3; ofZ 4; ofZ 5];
       TimeSeriesGraph.payload_motionWindow := None;
       TimeSeriesGraph.payload_selection := None |}.

(** A graph of two samples at the times -1e308 and 1e308, whose span
    exceeds every double, without selection or motion window. *)
Definition wideGraph : TimeSeriesGraph.Graph num :=
  TimeSeriesGraph.setData page TimeSeriesGraph.create
    {| TimeSeriesGraph.payload_timesS := [ofZ (- 10 ^ 308); ofZ (10 ^ 308)];
       TimeSeriesGraph.payload_values := [ofZ 0; ofZ 1];
       TimeSeriesGraph.payload_motionWindow := None;
       TimeSeriesGraph.payload_selection := None |}.

(** A pointer event of pointer 1 at a pixel. *)
Definition pointerAt (px : Z) : TimeSeriesGraph.PointerEvent num :=
  {| TimeSeriesGraph.clientX := ofZ px; TimeSeriesGraph.pointerId := 1%Z |}.
End Defs.
End MoreExamples.

Section PlaybackNotions.
Context {num : Type} {N : Number num}.
Local Open Scope js_scope.

(** The view after the animation frames at the given timestamps. *)
Definition playFrames (view : MachineView.View num) (timestamps : list num)
  : MachineView.View num :=
  fold_left (fun view timestamp => fst (MachineView.animate view timestamp)) timestamps view.

(** Each element is at most the next. *)
Fixpoint ascending (l : list num) : bool :=
  match l with
  | a :: (b :: _) as rest => (a <=? b) && ascending rest
  | _ => true
  end.

(** After each of the frames at the given timestamps, the cursor is
    within a tolerance of the time elapsed since the timestamp [first],
    capped at the slider maximum, and the view plays exactly when the
    cursor is below that maximum. *)
Fixpoint tracksWithin (tolerance : num) (view : MachineView.View num) (first : num)
  (timestamps : list num) : bool :=
  match timestamps with
  | [] => true
  | timestamp :: rest =>
      let next := fst (MachineView.animate view timestamp) in
      (Math_abs (MachineView.currentTimeS next
                 - Math_min (MachineView.sliderMax view) ((timestamp - first) / ofZ 1000))
       <=? tolerance)
      && Bool.eqb (MachineView.playing next)
           (MachineView.currentTimeS next <? MachineView.sliderMax next)
      && tracksWithin tolerance next first rest
  end.
End PlaybackNotions.

Module ExactMachine.
Local Open Scope R_scope.

(** The distance covered [u] seconds into a braking of [F] seconds from
    the speed [pv]. *)
Definition braking (pv F u : R) : R := pv * u - 5 / 10 * (pv / F) * u * u.

(** What holds of a view between two frames of a playback that started
    at the timestamp [first] with the cursor at 0: the cursor is the time
    elapsed up to the last frame [frame], capped at the maximum [m], and
    the view plays, remembering that frame, as long as the cursor has not
    reached [m]. *)
Definition tracking (current : State.CurrentTrial R) (m first frame : R)
  (view : MachineView.View R) : Prop :=
  MachineView.trial view = Some current
  /\ MachineView.sliderMax view = m
  /\ MachineView.currentTimeS view = Rmin m ((frame - first) / 1000)
  /\ (MachineView.playing view = true <-> MachineView.currentTimeS view < m)
  /\ (MachineView.playing view = true -> MachineView.lastFrame view = Some frame).
End ExactMachine.

Section GraphNotions.
Import Signals TimeSeriesGraph.
Context {num : Type} {N : Number num}.
Local Open Scope js_scope.

(** A time lies inside the plotted span. *)
Definition inSpan (b : Bounds num) (timeS : num) : bool :=
  (xMin b <=? timeS) && (timeS <=? xMax b).

(** A selection is absent, or in order with both ends inside the plotted
    span. *)
Definition selectionInSpan (b : Bounds num) (sel : option (Interval num)) : bool :=
  match sel with
  | None => true
  | Some sel =>
      inSpan b (startS sel) && inSpan b (endS sel) && (startS sel <=? endS sel)
  end.

(** A graph drawn on [page] since its data last changed, whose plotted
    span is not empty and whose selection lies in it. *)
Definition drawn (page : Page num) (graph : Graph num) : Prop :=
  bounds graph = renderedBounds page (times graph)
  /\ (xMin (bounds graph) <=? xMax (bounds graph)) = true
  /\ selectionInSpan (bounds graph) (selection graph) = true.

(** The time under a pointer before it is clamped to the span. *)
Definition rawPointerTime (page : Page num) (b : Bounds num) (event : PointerEvent num) : num :=
  pxToX b ((clientX event - rectLeft page) * pixelRatio page).

(** A graph in the middle of dragging out a new selection with pointer
    [pointer], after it was [graph0], whose selection starts at
    [lowest]. *)
Definition dragging (graph0 graph : Graph num) (pointer : Z) (lowest : num) : Prop :=
  times graph = times graph0
  /\ bounds graph = bounds graph0
  /\ dragMode graph = Some DragNew
  /\ draggingPointerId graph = Some pointer
  /\ exists sel, selection graph = Some sel /\ startS sel = lowest.

(** What a pointer can do on the canvas. *)
Inductive PointerAction : Type :=
| PointerDown (event : PointerEvent num)
| PointerMove (event : PointerEvent num)
| PointerUp (event : PointerEvent num).

Definition pointerStep (page : Page num) (graph : Graph num) (action : PointerAction)
  : Graph num * list (option (Interval num)) :=
  match action with
  | PointerDown event => handlePointerDown page graph event
  | PointerMove event => handlePointerMove page graph event
  | PointerUp event => (handlePointerUp graph event, [])
  end.

(** The graph after a sequence of pointer actions and all the
    selections published on the way. *)
Fixpoint pointerRun (page : Page num) (graph : Graph num) (actions : list PointerAction)
  : Graph num * list (option (Interval num)) :=
  match actions with
  | [] => (graph, [])
  | action :: rest =>
      let '(graph, published) := pointerStep page graph action in
      let '(final, later) := pointerRun page graph rest in
      (final, published ++ later)
  end.

(** The pointer positions of a sequence of actions all map to
    numbers. *)
Definition readable (page : Page num) (b : Bounds num) (action : PointerAction) : Prop :=
  match action with
  | PointerDown event | PointerMove event => isNumber (rawPointerTime page b event)
  | PointerUp _ => True
  end.
End GraphNotions.

Section AppNotions.
Import Presets Physics Signals State App AppEvents.
Context {num : Type} {N : Number num} {L : Libm num} {Rd : Rounding num}.
Local Open Scope js_scope.

(** What the page can make the application do. *)
Inductive AppEvent : Type :=
| ScenarioSelected (scenario : ScenarioId)
| PresetSelected (value : string)
| HangingMassSelected (value : num)
| NoiseToggled (checked : bool)
| FbdToggled (checked : bool)
| RunTrialClicked
| ForceWindowSelected (sel : option (Interval num))
| VelocityWindowSelected (sel : option (Interval num))
| AddTrialClicked (timestamp : string)
| ClearTrialsClicked
| RemoveClicked (trialId : nat).

Definition appStep (fuel : nat) (event : AppEvent) (state : AppState num)
  : Outcome (AppState num) :=
  match event with
  | ScenarioSelected scenario => scenarioChanged scenario state
  | PresetSelected value => presetChanged value state
  | HangingMassSelected value => Returns (hangingMassChanged value state)
  | NoiseToggled checked => Returns (noiseChanged checked state)
  | FbdToggled checked => Returns (showFbdChanged checked state)
  | RunTrialClicked => runTrial fuel state
  | ForceWindowSelected sel => Returns (forceSelectionChanged sel state)
  | VelocityWindowSelected sel => Returns (velocitySelectionChanged sel state)
  | AddTrialClicked timestamp => addTrial timestamp state
  | ClearTrialsClicked => Returns (clearTrials state)
  | RemoveClicked trialId => Returns (removeTrial trialId state)
  end.

(** The preset select only offers the presets of the scenario shown. *)
Definition offered (state : AppState num) (event : AppEvent) : Prop :=
  match event with
  | PresetSelected value =>
      In value (map (@Presets.id num) (availablePresets (state_scenario state)))
  | _ => True
  end.

(** The events are handled one after the other, each offered by the
    state it meets; a handler that does not return ends the run. *)
Fixpoint appRun (fuel : nat) (events : list AppEvent) (state : AppState num)
  : Outcome (AppState num) :=
  match events with
  | [] => Returns state
  | event :: rest =>
      match appStep fuel event state with
      | Returns next => appRun fuel rest next
      | Throws => Throws
      | OutOfFuel => OutOfFuel
      end
  end.

Fixpoint offeredRun (fuel : nat) (events : list AppEvent) (state : AppState num) : Prop :=
  match events with
  | [] => True
  | event :: rest =>
      offered state event
      /\ match appStep fuel event state with
         | Returns next => offeredRun fuel rest next
         | _ => True
         end
  end.

(** What the handlers keep true of the state: the preset is one the
    scenario offers; a measured value is there only with a trial and a
    window that [isValidSelection] accepts; the identifier of the trial
    and those of the records are below the next one. *)
Definition consistent (state : AppState num) : Prop :=
  In (State.presetId state)
     (map (@Presets.id num) (availablePresets (state_scenario state)))
  /\ (forceMeanN (measurement state) <> None ->
      isValidSelection (forceWindow (measurement state)) = true
      /\ currentTrial state <> None)
  /\ (State.accelerationMps2 (measurement state) <> None ->
      isValidSelection (velocityWindow (measurement state)) = true
      /\ currentTrial state <> None)
  /\ (forall trial, currentTrial state = Some trial -> (id trial < nextTrialId state)%nat)
  /\ Forall (fun record => (trial_id record < nextTrialId state)%nat
                           /\ State.moved record = true)
            (trialRecords state).

(** What the page does to measure a trial without noise: the settings are
    chosen, the trial is run and a velocity window is selected. *)
Definition measureEvents (input : TrialInput num) (window : Interval num) : list AppEvent :=
  [ScenarioSelected (input_scenario input);
   PresetSelected (input_presetId input);
   HangingMassSelected (input_hangingMassKg input);
   NoiseToggled false;
   RunTrialClicked;
   VelocityWindowSelected (Some window)].

(** After those events, for a trial that moved: the acceleration measured
    is within a tolerance of the acceleration of the physics result. *)
Definition measuresModel (fuel : nat) (tolerance : num) (window : Interval num)
  (input : TrialInput num) : bool :=
  match appRun fuel (measureEvents input window) createInitialState with
  | Returns final =>
      match currentTrial final with
      | Some trial =>
          implb (Physics.moved (physics trial))
            match State.accelerationMps2 (measurement final) with
            | Some measured =>
                Math_abs (measured - Physics.accelerationMps2 (physics trial)) <=? tolerance
            | None => false
            end
      | None => false
      end
  | _ => false
  end.
End AppNotions.

Module CsvReading.
Import CsvExport.

(** Reading a quoted CSV field back (RFC 4180), after its opening
    quotation mark: two marks in a row stand for one, a single mark must
    end the field. *)
Fixpoint readQuoted (text : string) : option string :=
  match text with
  | EmptyString => None
  | String c rest =>
      if Ascii.eqb c quotationMark then
        match rest with
        | EmptyString => Some EmptyString
        | String c' rest' =>
            if Ascii.eqb c' quotationMark
            then option_map (String quotationMark) (readQuoted rest')
            else None
        end
      else option_map (String c) (readQuoted rest)
  end.

Definition unquoteCsv (field : string) : option string :=
  match field with
  | String c rest => if Ascii.eqb c quotationMark then readQuoted rest else None
  | EmptyString => None
  end.
End CsvReading.

Section StoreNotions.
Import State Store.
Context {num : Type} {N : Number num}.

(** The calls a client can make on a store. *)
Inductive StoreCall : Type :=
| CallSetState (partial : PartialState num)
| CallUpdate (updater : AppState num -> AppState num)
| CallResetMeasurement
| CallSubscribe (subscriber : Subscriber)
| CallUnsubscribe (subscriber : Subscriber).

Definition storeStep (store : Store num) (call : StoreCall)
  : Store num * list (Subscriber * AppState num) :=
  match call with
  | CallSetState partial => setState store partial
  | CallUpdate updater => update store updater
  | CallResetMeasurement => resetMeasurement store
  | CallSubscribe subscriber => (subscribe store subscriber, [])
  | CallUnsubscribe subscriber => (unsubscribe store subscriber, [])
  end.

(** The store after a sequence of calls on a new store. *)
Definition storeAfter (calls : list StoreCall) : Store num :=
  fold_left (fun store call => fst (storeStep store call)) calls createStore.

(** A call that changes the state. *)
Definition mutates (call : StoreCall) : bool :=
  match call with
  | CallSubscribe _ | CallUnsubscribe _ => false
  | _ => true
  end.
End StoreNotions.


(* ================================================================== *)
(** ** What the comparisons and [Math.min]/[Math.max] obey

    The order facts the selection code relies on.  They hold for doubles,
    NaN and signed zeros included, and for the reals. *)

Class NumberOrder (num : Type) {N : Number num} : Prop := {
  min_comm : forall a b : num, Math_min a b = Math_min b a;
  max_comm : forall a b : num, Math_max a b = Math_max b a;
  min_min_max : forall a b : num, Math_min (Math_min a b) (Math_max a b) = Math_min a b;
  max_min_max : forall a b : num, Math_max (Math_min a b) (Math_max a b) = Math_max a b;
  min_le_max : forall a b : num,
      isNumber a -> isNumber b -> (Math_min a b <=? Math_max a b)%js = true;
  lt_not_ge : forall a b : num, (a <? b)%js = true -> (a >=? b)%js = false
}.

Arguments NumberOrder num {N}.

Unset Implicit Arguments.

(** What [clamp] and the choice of [Math.min]/[Math.max] obey, for
    doubles and for the reals: a comparison that holds has numbers on
    both sides, the smaller and the larger of two numbers are among the
    two, and a number clamped between ordered bounds lies between
    them. *)
Class NumberClamp (num : Type) {N : Number num} : Prop := {
  le_numbers : forall a b : num, (a <=? b)%js = true -> isNumber a /\ isNumber b;
  le_reflexive : forall a : num, isNumber a -> (a <=? a)%js = true;
  min_either : forall a b : num,
      isNumber a -> isNumber b -> Math_min a b = a \/ Math_min a b = b;
  max_either : forall a b : num,
      isNumber a -> isNumber b -> Math_max a b = a \/ Math_max a b = b;
  clamp_between : forall u lo hi : num,
      isNumber u -> (lo <=? hi)%js = true ->
      (lo <=? Math_min hi (Math_max lo u))%js = true
      /\ (Math_min hi (Math_max lo u) <=? hi)%js = true
}.

Arguments NumberClamp num {N}.

(** The comparisons of numbers (not NaN) form a total preorder, for
    doubles and for the reals: of two numbers one is at most the other,
    and the comparisons chain. *)
Class NumberTotal (num : Type) {N : Number num} : Prop := {
  le_total : forall a b : num,
      isNumber a -> isNumber b -> (a <=? b)%js = negb (b <? a)%js;
  lt_numbers : forall a b : num, (a <? b)%js = true -> isNumber a /\ isNumber b;
  lt_le : forall a b : num, (a <? b)%js = true -> (a <=? b)%js = true;
  le_transitive : forall a b c : num,
      (a <=? b)%js = true -> (b <=? c)%js = true -> (a <=? c)%js = true;
  lt_le_transitive : forall a b c : num,
      (a <? b)%js = true -> (b <=? c)%js = true -> (a <? c)%js = true;
  le_lt_transitive : forall a b c : num,
      (a <=? b)%js = true -> (b <? c)%js = true -> (a <? c)%js = true
}.

Arguments NumberTotal num {N}.


Module IEEEOrder.
Import IEEECompare.
Local Open Scope float_scope.

Lemma SFcompare_antisym (x y : spec_float) :
  SFcompare y x = option_map CompOpp (SFcompare x y).
Proof.
  destruct x as [sx|sx| |sx mx ex], y as [sy|sy| |sy my ey]; simpl; try reflexivity;
    try (destruct sx; reflexivity); try (destruct sy; reflexivity);
    try (destruct sx, sy; reflexivity).
  destruct sx, sy; simpl; try reflexivity;
    rewrite (Z.compare_antisym ex ey); destruct (ex ?= ey)%Z; simpl; try reflexivity;
    rewrite (ZC4 my mx); destruct (Pos.compare_cont Eq mx my); reflexivity.
Qed.

Lemma SFcompare_Eq (x y : spec_float) :
  SFcompare x y = Some Eq -> x = y \/ (isZeroSF x /\ isZeroSF y).
Proof.
  destruct x as [sx|sx| |sx mx ex], y as [sy|sy| |sy my ey]; simpl; try discriminate;
    try (destruct sx; discriminate); try (destruct sy; discriminate).
  - intros _. right. split; exact I.
  - destruct sx, sy; try discriminate; intros _; left; reflexivity.
  - destruct sx, sy; try discriminate;
      destruct (ex ?= ey)%Z eqn:He; try discriminate;
      apply Z.compare_eq in He; subst ey;
      destruct (Pos.compare_cont Eq mx my) eqn:Hm; try discriminate;
      apply Pos.compare_eq in Hm; subst my; intros _; left; reflexivity.
Qed.

Lemma SFcompare_refl (x : spec_float) :
  x <> S754_nan -> SFcompare x x = Some Eq.
Proof.
  destruct x as [sx|sx| |sx mx ex]; simpl; intros Hx; try congruence.
  - destruct sx; reflexivity.
  - destruct sx; rewrite Z.compare_refl; fold (Pos.compare mx mx);
      rewrite Pos.compare_refl; reflexivity.
Qed.

Lemma is_nan_spec (a : float) : is_nan a = false <-> Prim2SF a <> S754_nan.
Proof.
  unfold is_nan. rewrite eqb_spec. unfold SFeqb. split.
  - intros Hn Ha. rewrite Ha in Hn. discriminate.
  - intros Ha. rewrite (SFcompare_refl _ Ha). reflexivity.
Qed.

Lemma zero_cases (a : float) : isZeroSF (Prim2SF a) -> a = zero \/ a = neg_zero.
Proof.
  destruct (Prim2SF a) as [s|s| |s m e] eqn:Ha; simpl; intros Hz; try contradiction.
  destruct s; [right | left]; apply Prim2SF_inj; rewrite Ha; reflexivity.
Qed.

Lemma compared (a b : float) : Compared a b.
Proof.
  destruct (is_nan a) eqn:Na; [apply CmpUnordered; rewrite Na; reflexivity|].
  destruct (is_nan b) eqn:Nb; [apply CmpUnordered; rewrite Na, Nb; reflexivity|].
  pose proof (SFcompare_antisym (Prim2SF a) (Prim2SF b)) as Hanti.
  destruct (SFcompare (Prim2SF a) (Prim2SF b)) as [[ | | ]|] eqn:Hc; simpl in Hanti.
  - apply CmpEq; trivial;
      rewrite ?ltb_spec, ?leb_spec; unfold SFltb, SFleb; rewrite ?Hc, ?Hanti; trivial.
    destruct (SFcompare_Eq _ _ Hc) as [He|[Ha Hb]].
    + left. apply Prim2SF_inj. exact He.
    + right. split; apply zero_cases; assumption.
  - apply CmpLt; trivial;
      rewrite ?ltb_spec, ?leb_spec; unfold SFltb, SFleb; rewrite ?Hc, ?Hanti; trivial.
  - apply CmpGt; trivial;
      rewrite ?ltb_spec, ?leb_spec; unfold SFltb, SFleb; rewrite ?Hc, ?Hanti; trivial.
  - exfalso. apply is_nan_spec in Na. apply is_nan_spec in Nb.
    destruct (Prim2SF a) as [sx|sx| |sx mx ex], (Prim2SF b) as [sy|sy| |sy my ey];
      simpl in Hc; congruence.
Qed.

Ltac zeros :=
  repeat match goal with
         | H : _ \/ _ |- _ => destruct H
         | H : _ /\ _ |- _ => destruct H
         end; subst; vm_compute; try reflexivity; try congruence.

Ltac by_cases a b :=
  unfold IEEE.min, IEEE.max;
  destruct (compared a b) as [Hn|Na Nb H1 H2 H3 H4|Na Nb H1 H2 H3 H4|Na Nb H1 H2 H3 H4 He].

Lemma min_comm (a b : float) : IEEE.min a b = IEEE.min b a.
Proof.
  by_cases a b.
  - rewrite (orb_comm (is_nan b)), Hn. reflexivity.
  - rewrite Na, Nb, H1, H2. reflexivity.
  - rewrite Na, Nb, H1, H2. reflexivity.
  - rewrite Na, Nb, H1, H2. simpl. destruct He as [He|He].
    + subst b. destruct (IEEE.isNegZero a); reflexivity.
    + zeros.
Qed.

Lemma max_comm (a b : float) : IEEE.max a b = IEEE.max b a.
Proof.
  by_cases a b.
  - rewrite (orb_comm (is_nan b)), Hn. reflexivity.
  - rewrite Na, Nb, H1, H2. reflexivity.
  - rewrite Na, Nb, H1, H2. reflexivity.
  - rewrite Na, Nb, H1, H2. simpl. destruct He as [He|He].
    + subst b. destruct (IEEE.isNegZero a); reflexivity.
    + zeros.
Qed.

Lemma min_self (a : float) : is_nan a = false -> IEEE.min a a = a.
Proof.
  intros Hna. by_cases a a; try congruence.
  - rewrite Hna in Hn. discriminate.
  - rewrite Na, H1. simpl. destruct (IEEE.isNegZero a); reflexivity.
Qed.

Lemma max_self (a : float) : is_nan a = false -> IEEE.max a a = a.
Proof.
  intros Hna. by_cases a a; try congruence.
  - rewrite Hna in Hn. discriminate.
  - rewrite Na, H1. simpl. destruct (IEEE.isNegZero a); reflexivity.
Qed.

Lemma min_min_max (a b : float) :
  IEEE.min (IEEE.min a b) (IEEE.max a b) = IEEE.min a b.
Proof.
  destruct (compared a b) as [Hn|Na Nb H1 H2 H3 H4|Na Nb H1 H2 H3 H4|Na Nb H1 H2 H3 H4 He].
  - unfold IEEE.min at 2 3, IEEE.max. rewrite Hn. reflexivity.
  - assert (Hm : IEEE.min a b = a) by (unfold IEEE.min; rewrite Na, Nb, H1; reflexivity).
    assert (HM : IEEE.max a b = b) by (unfold IEEE.max; rewrite Na, Nb, H1; reflexivity).
    rewrite HM, Hm. exact Hm.
  - assert (Hm : IEEE.min a b = b) by (unfold IEEE.min; rewrite Na, Nb, H1, H2; reflexivity).
    assert (HM : IEEE.max a b = a) by (unfold IEEE.max; rewrite Na, Nb, H1, H2; reflexivity).
    rewrite HM, Hm. rewrite min_comm. exact Hm.
  - destruct He as [He|He].
    + subst b. rewrite (min_self a Na), (max_self a Na). apply (min_self a Na).
    + zeros.
Qed.

Lemma max_min_max (a b : float) :
  IEEE.max (IEEE.min a b) (IEEE.max a b) = IEEE.max a b.
Proof.
  destruct (compared a b) as [Hn|Na Nb H1 H2 H3 H4|Na Nb H1 H2 H3 H4|Na Nb H1 H2 H3 H4 He].
  - unfold IEEE.max at 1 3, IEEE.min. rewrite Hn. reflexivity.
  - assert (Hm : IEEE.min a b = a) by (unfold IEEE.min; rewrite Na, Nb, H1; reflexivity).
    assert (HM : IEEE.max a b = b) by (unfold IEEE.max; rewrite Na, Nb, H1; reflexivity).
    rewrite Hm, HM. exact HM.
  - assert (Hm : IEEE.min a b = b) by (unfold IEEE.min; rewrite Na, Nb, H1, H2; reflexivity).
    assert (HM : IEEE.max a b = a) by (unfold IEEE.max; rewrite Na, Nb, H1, H2; reflexivity).
    rewrite Hm, HM. rewrite max_comm. exact HM.
  - destruct He as [He|He].
    + subst b. rewrite (min_self a Na), (max_self a Na). apply (max_self a Na).
    + zeros.
Qed.

Lemma min_le_max (a b : float) :
  (a =? a) = true -> (b =? b) = true -> (IEEE.min a b <=? IEEE.max a b) = true.
Proof.
  intros Ha Hb.
  assert (Hna : is_nan a = false) by (unfold is_nan; rewrite Ha; reflexivity).
  assert (Hnb : is_nan b = false) by (unfold is_nan; rewrite Hb; reflexivity).
  by_cases a b.
  - rewrite Hna, Hnb in Hn. discriminate.
  - rewrite Na, Nb, H1. exact H3.
  - rewrite Na, Nb, H1, H2. exact H4.
  - rewrite Na, Nb, H1, H2. simpl. destruct (IEEE.isNegZero a); assumption.
Qed.

Lemma lt_not_ge (a b : float) : (a <? b) = true -> (b <=? a) = false.
Proof.
  intros Hlt. destruct (compared a b) as [Hn|? ? ? ? ? ?|? ? ? ? ? ?|? ? ? ? ? ? ?];
    try congruence.
  rewrite leb_spec. rewrite ltb_spec in Hlt. unfold SFleb. unfold SFltb in Hlt.
  rewrite SFcompare_antisym.
  destruct (SFcompare (Prim2SF a) (Prim2SF b)) as [[ | | ]|]; simpl; congruence.
Qed.
Lemma leb_refl (a : float) : is_nan a = false -> (a <=? a) = true.
Proof.
  intros Hna. destruct (compared a a) as [Hn|? ? ? ? ? ?|? ? ? ? ? ?|? ? ? ? ? ? ?];
    try assumption; try congruence.
  rewrite Hna in Hn. discriminate.
Qed.

(** The larger of two doubles is one of them and is not below the first. *)
Lemma max_cases (lo u : float) :
  is_nan lo = false -> is_nan u = false ->
  is_nan (IEEE.max lo u) = false
  /\ (lo <=? IEEE.max lo u) = true
  /\ (IEEE.max lo u = lo \/ IEEE.max lo u = u).
Proof.
  intros Hlo Hu. pose proof (leb_refl lo Hlo) as Hrefl. by_cases lo u.
  - rewrite Hlo, Hu in Hn. discriminate.
  - rewrite Na, Nb, H1. auto.
  - rewrite Na, Nb, H1, H2. auto.
  - rewrite Na, Nb, H1, H2. simpl. destruct (IEEE.isNegZero lo); auto.
Qed.

(** The smaller of two doubles is one of them and is not above the first. *)
Lemma min_cases (hi m : float) :
  is_nan hi = false -> is_nan m = false ->
  (IEEE.min hi m <=? hi) = true
  /\ (IEEE.min hi m = hi \/ IEEE.min hi m = m).
Proof.
  intros Hhi Hm. pose proof (leb_refl hi Hhi) as Hrefl. by_cases hi m.
  - rewrite Hhi, Hm in Hn. discriminate.
  - rewrite Na, Nb, H1. auto.
  - rewrite Na, Nb, H1, H2. auto.
  - rewrite Na, Nb, H1, H2. simpl. destruct (IEEE.isNegZero hi); auto.
Qed.

(** [clamp] of a double that is not NaN lies between its bounds. *)
Lemma clamp_range (u lo hi : float) :
  is_nan u = false -> is_nan lo = false -> is_nan hi = false ->
  (lo <=? hi) = true ->
  (lo <=? Signals.clamp (N := IEEE754) u lo hi) = true
  /\ (Signals.clamp (N := IEEE754) u lo hi <=? hi) = true.
Proof.
  intros Hu Hlo Hhi Hbounds. unfold Signals.clamp. cbn [Math_min Math_max IEEE754].
  destruct (max_cases lo u Hlo Hu) as (Hm & Hlom & _).
  destruct (min_cases hi (IEEE.max lo u) Hhi Hm) as (Hrhi & [Hr|Hr]).
  - split; [rewrite Hr; exact Hbounds|exact Hrhi].
  - split; [rewrite Hr; exact Hlom|exact Hrhi].
Qed.
End IEEEOrder.

#[export] Instance IEEE754_order : NumberOrder float.
Proof.
  constructor.
  - exact IEEEOrder.min_comm.
  - exact IEEEOrder.max_comm.
  - exact IEEEOrder.min_min_max.
  - exact IEEEOrder.max_min_max.
  - exact IEEEOrder.min_le_max.
  - exact IEEEOrder.lt_not_ge.
Qed.

Module ExactOrder.
Local Open Scope R_scope.

Lemma ltb_true (a b : R) : Exact.ltb a b = true <-> a < b.
Proof. unfold Exact.ltb. destruct (Rlt_dec a b); split; intros; try lra; congruence. Qed.

Lemma ltb_false (a b : R) : Exact.ltb a b = false <-> b <= a.
Proof. unfold Exact.ltb. destruct (Rlt_dec a b); split; intros; try lra; congruence. Qed.

Lemma leb_true (a b : R) : Exact.leb a b = true <-> a <= b.
Proof. unfold Exact.leb. destruct (Rle_dec a b); split; intros; try lra; congruence. Qed.

Lemma leb_false (a b : R) : Exact.leb a b = false <-> b < a.
Proof. unfold Exact.leb. destruct (Rle_dec a b); split; intros; try lra; congruence. Qed.

Lemma eqb_true (a b : R) : Exact.eqb a b = true <-> a = b.
Proof. unfold Exact.eqb. destruct (Req_dec_T a b); split; intros; congruence. Qed.

Lemma eqb_false (a b : R) : Exact.eqb a b = false <-> a <> b.
Proof. unfold Exact.eqb. destruct (Req_dec_T a b); split; intros; congruence. Qed.
(** The same, for the tests of the instance. *)
Lemma nlt_true (a b : R) : (a <? b)%js = true <-> a < b.
Proof. apply ltb_true. Qed.

Lemma nlt_false (a b : R) : (a <? b)%js = false <-> b <= a.
Proof. apply ltb_false. Qed.

Lemma nle_true (a b : R) : (a <=? b)%js = true <-> a <= b.
Proof. apply leb_true. Qed.

Lemma nle_false (a b : R) : (a <=? b)%js = false <-> b < a.
Proof. apply leb_false. Qed.

Lemma neq_true (a b : R) : (a === b)%js = true <-> a = b.
Proof. apply eqb_true. Qed.

Lemma neq_false (a b : R) : (a === b)%js = false <-> a <> b.
Proof. apply eqb_false. Qed.
End ExactOrder.

#[export] Instance ExactReal_order : NumberOrder R.
Proof.
  constructor; simpl.
  - exact Rmin_comm.
  - exact Rmax_comm.
  - intros a b. unfold Rmin, Rmax.
    repeat (destruct (Rle_dec _ _); try lra).
  - intros a b. unfold Rmin, Rmax.
    repeat (destruct (Rle_dec _ _); try lra).
  - intros a b _ _. apply ExactOrder.leb_true. unfold Rmin, Rmax.
    destruct (Rle_dec a b); lra.
  - intros a b Hlt. apply ExactOrder.ltb_true in Hlt. apply ExactOrder.leb_false. exact Hlt.
Qed.

Module IEEEClamp.
Local Open Scope float_scope.

Lemma number_not_nan (a : float) : (a =? a) = true <-> is_nan a = false.
Proof.
  unfold is_nan. destruct (a =? a); simpl; split; congruence.
Qed.

Lemma nan_is_nan (a : float) : is_nan a = true -> Prim2SF a = S754_nan.
Proof.
  intros Hn. destruct (Prim2SF a) as [s|s| |s m e] eqn:Ha; try reflexivity; exfalso;
    assert (Hf : is_nan a = false) by (apply IEEEOrder.is_nan_spec; rewrite Ha; discriminate);
    congruence.
Qed.

Lemma le_numbers (a b : float) :
  (a <=? b) = true -> (a =? a) = true /\ (b =? b) = true.
Proof.
  intros Hle.
  destruct (is_nan a) eqn:Na.
  { exfalso. rewrite leb_spec in Hle. unfold SFleb in Hle.
    rewrite (nan_is_nan a Na) in Hle. simpl in Hle. discriminate. }
  destruct (is_nan b) eqn:Nb.
  { exfalso. rewrite leb_spec in Hle. unfold SFleb in Hle.
    rewrite (nan_is_nan b Nb) in Hle.
    destruct (Prim2SF a) as [s|s| |s m e]; simpl in Hle; try discriminate;
      destruct s; discriminate. }
  split; apply number_not_nan; assumption.
Qed.
End IEEEClamp.

#[export] Instance IEEE754_clamp : NumberClamp float.
Proof.
  constructor.
  - exact IEEEClamp.le_numbers.
  - intros a Ha. apply IEEEOrder.leb_refl. apply IEEEClamp.number_not_nan. exact Ha.
  - intros a b Ha Hb. apply IEEEClamp.number_not_nan in Ha, Hb.
    exact (proj2 (IEEEOrder.min_cases a b Ha Hb)).
  - intros a b Ha Hb. apply IEEEClamp.number_not_nan in Ha, Hb.
    exact (proj2 (proj2 (IEEEOrder.max_cases a b Ha Hb))).
  - intros u lo hi Hu Hle.
    destruct (IEEEClamp.le_numbers lo hi Hle) as [Hlo Hhi].
    apply IEEEClamp.number_not_nan in Hu, Hlo, Hhi.
    exact (IEEEOrder.clamp_range u lo hi Hu Hlo Hhi Hle).
Qed.

#[export] Instance ExactReal_clamp : NumberClamp R.
Proof.
  constructor; simpl.
  - intros a b _. split; apply ExactOrder.eqb_true; reflexivity.
  - intros a _. apply ExactOrder.leb_true. lra.
  - intros a b _ _. unfold Rmin. destruct (Rle_dec a b); auto.
  - intros a b _ _. unfold Rmax. destruct (Rle_dec a b); auto.
  - intros u lo hi _ Hle. apply ExactOrder.leb_true in Hle.
    split; apply ExactOrder.leb_true; unfold Rmin, Rmax;
      repeat (destruct (Rle_dec _ _); try lra).
Qed.

Module IEEETotal.
Import IEEECompare.
Local Open Scope float_scope.

Lemma SFcompare_key (x y : spec_float) :
  x <> S754_nan -> y <> S754_nan ->
  SFcompare x y = Some (lexCompare (key x) (key y)).
Proof.
  destruct x as [sx|sx| |sx mx ex], y as [sy|sy| |sy my ey]; intros Hx Hy;
    try congruence; simpl;
    try (destruct sx; reflexivity); try (destruct sy; reflexivity);
    try (destruct sx, sy; reflexivity).
  destruct sx, sy; unfold lexCompare; try reflexivity.
  rewrite Z.compare_opp, (Z.compare_antisym ex ey).
  destruct (ex ?= ey)%Z; reflexivity.
Qed.

Ltac lex_cases :=
  repeat match goal with
         | |- context [(?a ?= ?b)%Z] => destruct (Z.compare_spec a b)
         | H : context [(?a ?= ?b)%Z] |- _ => destruct (Z.compare_spec a b)
         end; try congruence; try lia.

Lemma lexCompare_le_trans (k1 k2 k3 : Z * Z * Z) :
  lexCompare k1 k2 <> Gt -> lexCompare k2 k3 <> Gt -> lexCompare k1 k3 <> Gt.
Proof.
  destruct k1 as [[c1 e1] m1], k2 as [[c2 e2] m2], k3 as [[c3 e3] m3].
  unfold lexCompare. intros H12 H23. lex_cases.
Qed.

Lemma lexCompare_lt_le_trans (k1 k2 k3 : Z * Z * Z) :
  lexCompare k1 k2 = Lt -> lexCompare k2 k3 <> Gt -> lexCompare k1 k3 = Lt.
Proof.
  destruct k1 as [[c1 e1] m1], k2 as [[c2 e2] m2], k3 as [[c3 e3] m3].
  unfold lexCompare. intros H12 H23. lex_cases.
Qed.

Lemma lexCompare_le_lt_trans (k1 k2 k3 : Z * Z * Z) :
  lexCompare k1 k2 <> Gt -> lexCompare k2 k3 = Lt -> lexCompare k1 k3 = Lt.
Proof.
  destruct k1 as [[c1 e1] m1], k2 as [[c2 e2] m2], k3 as [[c3 e3] m3].
  unfold lexCompare. intros H12 H23. lex_cases.
Qed.

(** A comparison that holds has numbers on both sides, and then reads
    off the keys. *)
Lemma leb_key (a b : float) :
  (a <=? b) = true
  <-> Prim2SF a <> S754_nan /\ Prim2SF b <> S754_nan
      /\ lexCompare (key (Prim2SF a)) (key (Prim2SF b)) <> Gt.
Proof.
  rewrite leb_spec. unfold SFleb. split.
  - intros Hle.
    assert (Ha : Prim2SF a <> S754_nan) by (intros E; rewrite E in Hle; discriminate).
    assert (Hb : Prim2SF b <> S754_nan).
    { intros E. rewrite E in Hle.
      destruct (Prim2SF a) as [s|s| |s m e]; simpl in Hle; try discriminate;
        destruct s; discriminate. }
    rewrite (SFcompare_key _ _ Ha Hb) in Hle.
    split; [exact Ha|]. split; [exact Hb|].
    destruct (lexCompare _ _); congruence.
  - intros (Ha & Hb & Hk). rewrite (SFcompare_key _ _ Ha Hb).
    destruct (lexCompare _ _); congruence.
Qed.

Lemma ltb_key (a b : float) :
  (a <? b) = true
  <-> Prim2SF a <> S754_nan /\ Prim2SF b <> S754_nan
      /\ lexCompare (key (Prim2SF a)) (key (Prim2SF b)) = Lt.
Proof.
  rewrite ltb_spec. unfold SFltb. split.
  - intros Hlt.
    assert (Ha : Prim2SF a <> S754_nan) by (intros E; rewrite E in Hlt; discriminate).
    assert (Hb : Prim2SF b <> S754_nan).
    { intros E. rewrite E in Hlt.
      destruct (Prim2SF a) as [s|s| |s m e]; simpl in Hlt; try discriminate;
        destruct s; discriminate. }
    rewrite (SFcompare_key _ _ Ha Hb) in Hlt.
    split; [exact Ha|]. split; [exact Hb|].
    destruct (lexCompare _ _); congruence.
  - intros (Ha & Hb & Hk). rewrite (SFcompare_key _ _ Ha Hb), Hk. reflexivity.
Qed.

Lemma leb_trans (a b c : float) :
  (a <=? b) = true -> (b <=? c) = true -> (a <=? c) = true.
Proof.
  rewrite !leb_key. intros (Ha & Hb & H1) (_ & Hc & H2).
  split; [exact Ha|]. split; [exact Hc|].
  exact (lexCompare_le_trans _ _ _ H1 H2).
Qed.

Lemma ltb_leb_trans (a b c : float) :
  (a <? b) = true -> (b <=? c) = true -> (a <? c) = true.
Proof.
  rewrite !leb_key, !ltb_key. intros (Ha & Hb & H1) (_ & Hc & H2).
  split; [exact Ha|]. split; [exact Hc|].
  exact (lexCompare_lt_le_trans _ _ _ H1 H2).
Qed.

Lemma leb_ltb_trans (a b c : float) :
  (a <=? b) = true -> (b <? c) = true -> (a <? c) = true.
Proof.
  rewrite !leb_key, !ltb_key. intros (Ha & Hb & H1) (_ & Hc & H2).
  split; [exact Ha|]. split; [exact Hc|].
  exact (lexCompare_le_lt_trans _ _ _ H1 H2).
Qed.

Lemma leb_total (a b : float) :
  (a =? a) = true -> (b =? b) = true -> (a <=? b) = negb (b <? a).
Proof.
  intros Ha Hb. apply IEEEClamp.number_not_nan in Ha, Hb.
  destruct (IEEEOrder.compared a b) as [Hn|Na Nb H1 H2 H3 H4|Na Nb H1 H2 H3 H4|Na Nb H1 H2 H3 H4 He].
  - rewrite Ha, Hb in Hn. discriminate.
  - rewrite H3, H2. reflexivity.
  - rewrite H3, H2. reflexivity.
  - rewrite H3, H2. reflexivity.
Qed.

Lemma ltb_leb (a b : float) : (a <? b) = true -> (a <=? b) = true.
Proof.
  rewrite leb_key, ltb_key. intros (Ha & Hb & Hk).
  split; [exact Ha|]. split; [exact Hb|]. rewrite Hk. discriminate.
Qed.

Lemma ltb_numbers (a b : float) :
  (a <? b) = true -> (a =? a) = true /\ (b =? b) = true.
Proof.
  intros Hlt. apply IEEEClamp.le_numbers. apply ltb_leb. exact Hlt.
Qed.
End IEEETotal.

#[export] Instance IEEE754_total : NumberTotal float.
Proof.
  constructor.
  - exact IEEETotal.leb_total.
  - exact IEEETotal.ltb_numbers.
  - exact IEEETotal.ltb_leb.
  - exact IEEETotal.leb_trans.
  - exact IEEETotal.ltb_leb_trans.
  - exact IEEETotal.leb_ltb_trans.
Qed.

#[export] Instance ExactReal_total : NumberTotal R.
Proof.
  constructor; simpl.
  - intros a b _ _. unfold Exact.leb, Exact.ltb.
    destruct (Rle_dec a b), (Rlt_dec b a); try reflexivity; lra.
  - intros a b _. split; apply ExactOrder.eqb_true; reflexivity.
  - intros a b H. apply ExactOrder.ltb_true in H. apply ExactOrder.leb_true. lra.
  - intros a b c H1 H2. apply ExactOrder.leb_true in H1, H2. apply ExactOrder.leb_true. lra.
  - intros a b c H1 H2. apply ExactOrder.ltb_true in H1. apply ExactOrder.leb_true in H2.
    apply ExactOrder.ltb_true. lra.
  - intros a b c H1 H2. apply ExactOrder.leb_true in H1. apply ExactOrder.ltb_true in H2.
    apply ExactOrder.ltb_true. lra.
Qed.

(* ------------------------------------------------------------------ *)
(** *** Doubles that stay finite

    The exponent of a product, of a quotient and of a square root of
    doubles, from the definitions of the operations: enough to tell that
    a result is neither NaN nor an infinity. *)

Module IEEEFinite.
Import IEEERange.
Local Open Scope Z_scope.

Lemma within_le (k k' : Z) (x : spec_float) : k <= k' -> within k x -> within k' x.
Proof. destruct x; simpl; trivial. lia. Qed.

(** *** The number of binary digits *)

Lemma digits2_pos_bounds (p : positive) :
  2 ^ (Z.pos (digits2_pos p) - 1) <= Z.pos p < 2 ^ Z.pos (digits2_pos p).
Proof.
  assert (Hstep : forall d : positive,
             2 ^ (Z.pos (Pos.succ d) - 1) = 2 * 2 ^ (Z.pos d - 1)
             /\ 2 ^ Z.pos (Pos.succ d) = 2 * 2 ^ Z.pos d).
  { intros d. rewrite Pos2Z.inj_succ.
    replace (Z.succ (Z.pos d) - 1) with (Z.succ (Z.pos d - 1)) by lia.
    rewrite !Z.pow_succ_r by lia. auto. }
  induction p as [p IH|p IH|]; cbn [digits2_pos].
  - destruct (Hstep (digits2_pos p)) as [H1 H2]. rewrite H1, H2.
    generalize dependent (2 ^ (Z.pos (digits2_pos p) - 1)).
    generalize dependent (2 ^ Z.pos (digits2_pos p)). intros; lia.
  - destruct (Hstep (digits2_pos p)) as [H1 H2]. rewrite H1, H2.
    generalize dependent (2 ^ (Z.pos (digits2_pos p) - 1)).
    generalize dependent (2 ^ Z.pos (digits2_pos p)). intros; lia.
  - simpl. lia.
Qed.

Lemma Zdigits2_nonneg (m : Z) : 0 <= Zdigits2 m.
Proof. destruct m; simpl; lia. Qed.

Lemma Zdigits2_lt_pow (m : Z) : 0 <= m -> m < 2 ^ Zdigits2 m.
Proof.
  destruct m as [|p|p]; simpl; intros Hm; try lia.
  apply (digits2_pos_bounds p).
Qed.

Lemma Zdigits2_le (m k : Z) : 0 <= m -> 0 <= k -> m < 2 ^ k -> Zdigits2 m <= k.
Proof.
  destruct m as [|p|p]; simpl; intros Hm Hk Hlt; try lia.
  destruct (digits2_pos_bounds p) as [Hlow _].
  assert (H : 2 ^ (Z.pos (digits2_pos p) - 1) < 2 ^ k) by lia.
  apply Z.pow_lt_mono_r_iff in H; lia.
Qed.

(** *** Shifting to the right *)

Lemma shr_1_m (mrs : shr_record) :
  0 <= shr_m mrs -> shr_m (shr_1 mrs) = shr_m mrs / 2.
Proof.
  destruct mrs as [m r s]. simpl. intros Hm.
  destruct m as [|[p|p|]|p]; cbn [shr_1 shr_m]; try reflexivity; try lia.
  - apply (Z.div_unique _ _ _ 1); lia.
  - apply (Z.div_unique _ _ _ 0); lia.
Qed.

Lemma iter_shr_1_m (p : positive) :
  forall mrs : shr_record,
    0 <= shr_m mrs ->
    shr_m (SpecFloat.iter_pos shr_1 p mrs) = shr_m mrs / 2 ^ Z.pos p.
Proof.
  assert (Hstep : forall mrs, 0 <= shr_m mrs -> 0 <= shr_m (shr_1 mrs)).
  { intros mrs Hm. rewrite shr_1_m by exact Hm. apply Z.div_pos; lia. }
  induction p as [p IH|p IH|]; intros mrs Hm; simpl SpecFloat.iter_pos.
  - assert (H1 := Hstep mrs Hm).
    assert (H2 : 0 <= shr_m (SpecFloat.iter_pos shr_1 p (shr_1 mrs))).
    { rewrite IH by exact H1. apply Z.div_pos; [exact H1|]. apply Z.pow_pos_nonneg; lia. }
    rewrite IH by exact H2. rewrite IH by exact H1. rewrite shr_1_m by exact Hm.
    rewrite !Z.div_div by (try apply Z.pow_pos_nonneg; lia).
    f_equal. replace (Z.pos p~1) with (1 + Z.pos p + Z.pos p) by lia.
    rewrite !Z.pow_add_r by lia. rewrite Z.pow_1_r. ring.
  - assert (H2 : 0 <= shr_m (SpecFloat.iter_pos shr_1 p mrs)).
    { rewrite IH by exact Hm. apply Z.div_pos; [exact Hm|]. apply Z.pow_pos_nonneg; lia. }
    rewrite IH by exact H2. rewrite IH by exact Hm.
    rewrite !Z.div_div by (try apply Z.pow_pos_nonneg; lia).
    f_equal. replace (Z.pos p~0) with (Z.pos p + Z.pos p) by lia.
    rewrite !Z.pow_add_r by lia. ring.
  - rewrite shr_1_m by exact Hm. reflexivity.
Qed.

(** What [shr] leaves: a mantissa that is not negative, with as many
    digits fewer as it shifted, and the exponent raised by as much. *)
Lemma shr_bounds (m : Z) (l : location) (e n : Z) :
  0 <= m ->
  let result := shr (shr_record_of_loc m l) e n in
  0 <= shr_m (fst result)
  /\ snd result = e + Z.max n 0
  /\ shr_m (fst result) < 2 ^ Z.max (Zdigits2 m - Z.max n 0) 0.
Proof.
  intros Hm.
  assert (Hrec : shr_m (shr_record_of_loc m l) = m)
    by (destruct l as [|[ | | ]]; reflexivity).
  pose proof (Zdigits2_lt_pow m Hm) as Hlt.
  pose proof (Zdigits2_nonneg m) as Hd.
  destruct n as [|p|p]; simpl shr; cbn [fst snd].
  - rewrite Hrec, Z.max_id, Z.sub_0_r, Z.add_0_r, Z.max_l by lia. auto.
  - rewrite iter_shr_1_m by (rewrite Hrec; exact Hm). rewrite Hrec.
    rewrite (Z.max_l (Z.pos p) 0) by lia.
    assert (Hpow : 0 < 2 ^ Z.pos p) by (apply Z.pow_pos_nonneg; lia).
    split; [apply Z.div_pos; lia|]. split; [reflexivity|].
    apply Z.div_lt_upper_bound; [exact Hpow|].
    destruct (Z_le_gt_dec (Z.pos p) (Zdigits2 m)) as [Hle|Hgt].
    + rewrite Z.max_l by lia. rewrite <- Z.pow_add_r by lia.
      replace (Z.pos p + (Zdigits2 m - Z.pos p)) with (Zdigits2 m) by lia. exact Hlt.
    + rewrite Z.max_r by lia. rewrite Z.pow_0_r, Z.mul_1_r.
      apply Z.lt_le_trans with (2 ^ Zdigits2 m); [exact Hlt|].
      apply Z.pow_le_mono_r; lia.
  - rewrite Hrec. rewrite (Z.max_r (Z.neg p) 0) by lia.
    rewrite Z.sub_0_r, Z.add_0_r, Z.max_l by lia. auto.
Qed.

Lemma round_nearest_even_bounds (m : Z) (l : location) :
  m <= round_nearest_even m l <= m + 1.
Proof.
  destruct l as [|[ | | ]]; simpl; try lia. destruct (Z.even m); lia.
Qed.

Lemma fexp_is (e : Z) : fexp prec emax e = Z.max (e - 53) (-1074).
Proof. reflexivity. Qed.

(** *** Rounding

    A mantissa that is not negative, of exponent at most [k] and of
    magnitude below [2 ^ (k + 53)], is rounded to a zero or to a finite
    value of exponent at most [k + 1]: there is neither an overflow nor a
    NaN. *)
Lemma round_within (sx : bool) (mx ex : Z) (lx : location) (k : Z) :
  0 <= mx -> Zdigits2 mx + ex <= k + 53 -> ex <= k -> -1074 <= k -> k + 1 <= 971 ->
  within (k + 1) (binary_round_aux prec emax sx mx ex lx)
  /\ signed sx (binary_round_aux prec emax sx mx ex lx).
Proof.
  intros Hm Hmag Hex Hlow Hhigh. unfold binary_round_aux, shr_fexp.
  set (n1 := fexp prec emax (Zdigits2 mx + ex) - ex).
  assert (Hn1 : n1 = Z.max (Zdigits2 mx + ex - 53) (-1074) - ex) by reflexivity.
  pose proof (shr_bounds mx lx ex n1 Hm) as H1. cbv zeta in H1.
  destruct (shr (shr_record_of_loc mx lx) ex n1) as [mrs1 e1] eqn:Hshr1.
  cbn [fst snd] in H1. destruct H1 as (Hm1 & He1 & Hd1).
  set (m2 := round_nearest_even (shr_m mrs1) (loc_of_shr_record mrs1)).
  pose proof (round_nearest_even_bounds (shr_m mrs1) (loc_of_shr_record mrs1)) as Hm2.
  fold m2 in Hm2.
  assert (Hm2' : 0 <= m2) by lia.
  set (n2 := fexp prec emax (Zdigits2 m2 + e1) - e1).
  assert (Hn2 : n2 = Z.max (Zdigits2 m2 + e1 - 53) (-1074) - e1) by reflexivity.
  pose proof (shr_bounds m2 loc_Exact e1 n2 Hm2') as H2. cbv zeta in H2.
  destruct (shr (shr_record_of_loc m2 loc_Exact) e1 n2) as [mrs2 e2] eqn:Hshr2.
  cbn [fst snd] in H2. destruct H2 as (Hm3 & He2 & _).
  pose proof (Zdigits2_nonneg mx) as Hdx.
  assert (He1k : e1 <= k).
  { rewrite He1. lia. }
  assert (Hd2 : Zdigits2 m2 + e1 <= k + 54).
  { assert (Hle : Zdigits2 m2 <= Z.max (Zdigits2 mx - Z.max n1 0) 0 + 1).
    { apply Zdigits2_le; [exact Hm2'|lia|].
      rewrite Z.pow_add_r by lia. lia. }
    rewrite He1. lia. }
  assert (He2k : e2 <= k + 1).
  { rewrite He2. lia. }
  destruct (shr_m mrs2) as [|p|p] eqn:Hres; try lia.
  - split; exact I.
  - replace (e2 <=? emax - prec) with true
      by (symmetry; apply Z.leb_le; change (emax - prec) with 971; lia).
    split; [exact He2k|reflexivity].
Qed.

Lemma valid_short (x : spec_float) : valid_binary x = true -> short x.
Proof.
  destruct x as [s|s| |s m e]; simpl; trivial.
  unfold bounded, canonical_mantissa. intros H.
  apply andb_true_iff in H. destruct H as [H _].
  apply Z.eqb_eq in H. rewrite fexp_is in H. lia.
Qed.

Lemma pos_lt_pow (m : positive) (d : Z) :
  Z.pos (digits2_pos m) <= d -> Z.pos m < 2 ^ d.
Proof.
  intros Hd. destruct (digits2_pos_bounds m) as [_ Hlt].
  apply Z.lt_le_trans with (1 := Hlt). apply Z.pow_le_mono_r; lia.
Qed.

(** *** Products *)

Lemma SFmul_within (a b k : Z) (X Y : spec_float) :
  within a X -> within b Y -> short X -> short Y ->
  -1074 <= k -> a + b + 53 <= k -> k + 1 <= 971 ->
  within (k + 1) (SFmul prec emax X Y).
Proof.
  destruct X as [sx|sx| |sx mx ex], Y as [sy|sy| |sy my ey]; simpl;
    intros Ha Hb Hx Hy Hlow Hk Hhigh; trivial; try contradiction.
  apply round_within; try lia.
  assert (Hlt : Z.pos (mx * my) < 2 ^ 106).
  { rewrite Pos2Z.inj_mul. change 106 with (53 + 53). rewrite Z.pow_add_r by lia.
    pose proof (pos_lt_pow mx 53 Hx). pose proof (pos_lt_pow my 53 Hy).
    apply Z.mul_lt_mono_nonneg; lia. }
  pose proof (Zdigits2_le (Z.pos (mx * my)) 106 ltac:(lia) ltac:(lia) Hlt). lia.
Qed.

Lemma SFmul_signed (sx sy : bool) (a b k : Z) (X Y : spec_float) :
  within a X -> within b Y -> short X -> short Y ->
  -1074 <= k -> a + b + 53 <= k -> k + 1 <= 971 ->
  signed sx X -> signed sy Y -> signed (xorb sx sy) (SFmul prec emax X Y).
Proof.
  destruct X as [sx'|sx'| |sx' mx ex], Y as [sy'|sy'| |sy' my ey]; simpl;
    intros Ha Hb Hx Hy Hlow Hk Hhigh Hsx Hsy; trivial; try contradiction.
  subst sx' sy'.
  apply round_within with (k := k); try lia.
  assert (Hlt : Z.pos (mx * my) < 2 ^ 106).
  { rewrite Pos2Z.inj_mul. change 106 with (53 + 53). rewrite Z.pow_add_r by lia.
    pose proof (pos_lt_pow mx 53 Hx). pose proof (pos_lt_pow my 53 Hy).
    apply Z.mul_lt_mono_nonneg; lia. }
  pose proof (Zdigits2_le (Z.pos (mx * my)) 106 ltac:(lia) ltac:(lia) Hlt). lia.
Qed.

(** *** Square roots *)

Lemma SFsqrt_within (X : spec_float) :
  within 0 X -> short X -> signed false X ->
  within 1 (SFsqrt prec emax X) /\ signed false (SFsqrt prec emax X).
Proof.
  destruct X as [sx|sx| |sx mx ex]; simpl; intros Ha Hx Hs; try contradiction.
  - split; exact I.
  - subst sx. unfold SFsqrt_core_binary. cbv zeta.
    set (d := Zdigits2 (Z.pos mx)).
    assert (Hd : 0 <= d <= 53) by (unfold d; simpl; lia).
    set (e' := Z.min (fexp prec emax (Z.div2 (d + ex + 1))) (Z.div2 ex)).
    assert (He' : 2 * e' <= ex).
    { unfold e'. rewrite (Z.div2_div ex).
      pose proof (Z.mul_div_le ex 2 ltac:(lia)). lia. }
    set (s := ex - 2 * e').
    assert (Hs : 0 <= s) by (unfold s; lia).
    set (m' := match s with Z.pos _ => Z.shiftl (Z.pos mx) s | 0 => Z.pos mx | Z.neg _ => 0 end).
    assert (Hm' : m' = Z.pos mx * 2 ^ s).
    { unfold m'. destruct s as [|p|p] eqn:Hsv; try lia.
      rewrite Z.shiftl_mul_pow2 by lia. reflexivity. }
    assert (Hpow : 0 < 2 ^ s) by (apply Z.pow_pos_nonneg; lia).
    pose proof (Z.sqrtrem_spec m' ltac:(nia)) as Hsqrt.
    destruct (Z.sqrtrem m') as [q r]. destruct Hsqrt as [Heq Hr].
    assert (Hq : 0 <= q) by lia.
    change 1 with (0 + 1).
    apply round_within; try lia.
    set (h := (53 + s + 1) / 2).
    assert (Hh : 53 + s <= 2 * h /\ 2 * h <= 53 + s + 1).
    { unfold h. pose proof (Z.mul_div_le (53 + s + 1) 2 ltac:(lia)).
      pose proof (Z.mul_succ_div_gt (53 + s + 1) 2 ltac:(lia)). lia. }
    assert (Hlt : q < 2 ^ h).
    { assert (Hsq : q * q < 2 ^ h * 2 ^ h).
      { rewrite <- Z.pow_add_r by lia.
        apply Z.le_lt_trans with m'; [nia|]. rewrite Hm'.
        apply Z.lt_le_trans with (2 ^ 53 * 2 ^ s).
        - pose proof (pos_lt_pow mx 53 Hx). nia.
        - rewrite <- Z.pow_add_r by lia. apply Z.pow_le_mono_r; lia. }
      assert (0 < 2 ^ h) by (apply Z.pow_pos_nonneg; lia). nia. }
    pose proof (Zdigits2_le q h Hq ltac:(lia) Hlt). unfold s in *. lia.
Qed.

(** *** Bounds from the comparisons *)

Lemma SFleb_between (k : Z) (lo hi X : spec_float) :
  within k lo -> within k hi ->
  SFleb lo X = true -> SFleb X hi = true -> within k X.
Proof.
  unfold SFleb.
  destruct lo as [[|]|[|]| |[|] ml el], hi as [[|]|[|]| |[|] mh eh]; simpl;
    intros Hlo Hhi; try contradiction;
    destruct X as [[|]|[|]| |[|] mx ex]; simpl; trivial; try discriminate;
    intros H1 H2; try discriminate;
    try (destruct (Z.compare_spec ex eh); try discriminate; lia);
    try (destruct (Z.compare_spec el ex); try discriminate; lia).
Qed.

(** Between a bound and zero, a value has the sign of the bound. *)
Lemma SFleb_nonpositive (lo X : spec_float) (sz : bool) :
  SFleb lo X = true -> SFleb X (S754_zero sz) = true ->
  match lo with S754_finite _ _ _ => True | _ => False end ->
  signed true X.
Proof.
  unfold SFleb.
  destruct lo as [[|]|[|]| |[|] ml el]; simpl; try contradiction;
    destruct X as [[|]|[|]| |[|] mx ex]; simpl; trivial; try discriminate.
Qed.

(** *** Integers below [2 ^ 32] as doubles *)

Lemma digits2_pos_iter (p q : positive) :
  digits2_pos (Pos.iter xO p q) = (digits2_pos p + q)%positive.
Proof.
  induction q as [|q IH] using Pos.peano_ind.
  - simpl. lia.
  - rewrite Pos.iter_succ. cbn [digits2_pos]. rewrite IH. lia.
Qed.

Lemma binary_round_aux_canonical (s : bool) (m : positive) (e : Z) :
  canonical_mantissa prec emax m e = true -> e <= 971 ->
  binary_round_aux prec emax s (Z.pos m) e loc_Exact = S754_finite s m e.
Proof.
  unfold canonical_mantissa. intros Hc He. apply Z.eqb_eq in Hc.
  unfold binary_round_aux, shr_fexp.
  change (Zdigits2 (Z.pos m)) with (Z.pos (digits2_pos m)).
  rewrite Hc, Z.sub_diag. cbn [shr shr_record_of_loc loc_of_shr_record shr_m shr_r shr_s
                              round_nearest_even].
  change (Zdigits2 (Z.pos m)) with (Z.pos (digits2_pos m)).
  rewrite Hc, Z.sub_diag. cbn [shr shr_record_of_loc shr_m].
  replace (e <=? emax - prec) with true
    by (symmetry; apply Z.leb_le; change (emax - prec) with 971; lia).
  reflexivity.
Qed.

Lemma binary_round_small (p : positive) :
  Z.pos (digits2_pos p) <= 52 ->
  exists m,
    binary_round prec emax false p 0 = S754_finite false m (Z.pos (digits2_pos p) - 53)
    /\ valid_binary (S754_finite false m (Z.pos (digits2_pos p) - 53)) = true
    /\ digits2_pos m = 53%positive.
Proof.
  intros Hd. unfold binary_round, shl_align. rewrite fexp_is.
  set (d := Z.pos (digits2_pos p)) in *.
  assert (He : Z.max (d + 0 - 53) (-1074) = d - 53) by lia.
  rewrite He. destruct (d - 53 - 0) as [|q|q] eqn:Hq; try lia.
  set (m := Pos.iter xO p q).
  assert (Hc : canonical_mantissa prec emax m (d - 53) = true).
  { unfold canonical_mantissa, m. rewrite digits2_pos_iter, fexp_is.
    apply Z.eqb_eq. rewrite Pos2Z.inj_add. fold d. lia. }
  exists m. split; [|split].
  - apply binary_round_aux_canonical; [exact Hc|lia].
  - cbn [valid_binary]. unfold SpecFloat.bounded. rewrite Hc. cbn [andb].
    apply Z.leb_le. change (emax - prec) with 971. lia.
  - unfold m. rewrite digits2_pos_iter. unfold d in Hq. lia.
Qed.

(** *** The same for the operations of the doubles *)

Local Open Scope float_scope.

Lemma prim_short (x : float) : short (Prim2SF x).
Proof. apply valid_short, Prim2SF_valid. Qed.

Lemma mul_within (a b k : Z) (x y : float) :
  within a (Prim2SF x) -> within b (Prim2SF y) ->
  (-1074 <= k)%Z -> (a + b + 53 <= k)%Z -> (k + 1 <= 971)%Z ->
  within (k + 1) (Prim2SF (x * y)).
Proof.
  intros. rewrite mul_spec. apply SFmul_within with (a := a) (b := b); auto using prim_short.
Qed.

Lemma mul_signed (sx sy : bool) (a b k : Z) (x y : float) :
  within a (Prim2SF x) -> within b (Prim2SF y) ->
  (-1074 <= k)%Z -> (a + b + 53 <= k)%Z -> (k + 1 <= 971)%Z ->
  signed sx (Prim2SF x) -> signed sy (Prim2SF y) ->
  signed (xorb sx sy) (Prim2SF (x * y)).
Proof.
  intros. rewrite mul_spec.
  apply SFmul_signed with (a := a) (b := b) (k := k); auto using prim_short.
Qed.

Lemma sqrt_within (x : float) :
  within 0 (Prim2SF x) -> signed false (Prim2SF x) ->
  within 1 (Prim2SF (PrimFloat.sqrt x)) /\ signed false (Prim2SF (PrimFloat.sqrt x)).
Proof.
  intros Hx Hs. rewrite sqrt_spec. apply SFsqrt_within; auto using prim_short.
Qed.

Lemma leb_between (k : Z) (lo hi x : float) :
  within k (Prim2SF lo) -> within k (Prim2SF hi) ->
  (lo <=? x) = true -> (x <=? hi) = true -> within k (Prim2SF x).
Proof.
  rewrite !leb_spec. apply SFleb_between.
Qed.

Lemma within_finite (k : Z) (x : float) : within k (Prim2SF x) -> finiteDouble x.
Proof.
  unfold finiteDouble. rewrite ltb_spec, abs_spec.
  destruct (Prim2SF x) as [s|s| |s m e]; simpl; try contradiction; reflexivity.
Qed.

End IEEEFinite.

(* ================================================================== *)
(** ** Properties *)

Import Presets Physics Signals Graphs App.

(** *** Reading the exact instance *)

Ltac exact_ops :=
  cbv [ofZ nadd nsub nmul ndiv nlt nle neq Math_min Math_max Math_abs Math_floor
       Math_sqrt ToUint32 ExactReal Math_sin Math_cos Math_exp Math_log Math_PI
       ExactLibm lit NaN lengthOf sq] in *.

Ltac exact_tests :=
  repeat match goal with
         | |- context [Exact.eqb ?a ?b] =>
             first [ rewrite (proj2 (ExactOrder.eqb_false a b)) by lra
                   | rewrite (proj2 (ExactOrder.eqb_true a b)) by lra ]
         | |- context [Exact.ltb ?a ?b] =>
             first [ rewrite (proj2 (ExactOrder.ltb_false a b)) by lra
                   | rewrite (proj2 (ExactOrder.ltb_true a b)) by lra ]
         | |- context [Exact.leb ?a ?b] =>
             first [ rewrite (proj2 (ExactOrder.leb_false a b)) by lra
                   | rewrite (proj2 (ExactOrder.leb_true a b)) by lra ]
         end.

(** *** Regression on the points of a line *)

Lemma exact_line_fit :
  Regression.linearRegression (N := ExactReal) [0; 1; 2; 3; 4]%R [2; 5; 8; 11; 14]%R
  = Some {| Regression.slope := 3%R; Regression.intercept := 2%R;
            Regression.r2 := 1%R; Regression.count := 5 |}.
Proof.
  unfold Regression.linearRegression. simpl length. simpl negb. cbv iota.
  unfold Regression.sumsOfSquares, Regression.mean, Regression.sum, Regression.residualOf.
  simpl. exact_ops. simpl. exact_tests.
  f_equal. f_equal; field; lra.
Qed.

(** C5. [linearRegression([0,1,2,3,4], [2,5,8,11,14])] returns exactly
    [{slope: 3, intercept: 2, r2: 1, count: 5}]: evaluated in binary64
    arithmetic every intermediate value is exact and the result consists of
    the doubles 3, 2 and 1; the same holds in exact arithmetic. *)
Theorem linearRegression_perfect_line :
  Regression.linearRegression (N := IEEE754)
    [0; 1; 2; 3; 4]%float [2; 5; 8; 11; 14]%float
  = Some {| Regression.slope := 3%float; Regression.intercept := 2%float;
            Regression.r2 := 1%float; Regression.count := 5 |}
  /\ Regression.linearRegression (N := ExactReal)
       [0; 1; 2; 3; 4]%R [2; 5; 8; 11; 14]%R
     = Some {| Regression.slope := 3%R; Regression.intercept := 2%R;
               Regression.r2 := 1%R; Regression.count := 5 |}.
Proof.
  split.
  - vm_compute. reflexivity.
  - exact exact_line_fit.
Qed.

(** *** The sampling loop in exact arithmetic *)

Module ExactSignalsFacts.
Import ExactSignals.
Local Open Scope R_scope.


Lemma sampleLoop_turns (physics : TrialPhysics R) (d r : R) :
  forall (n fuel : nat) (i : Z) (sampler : NoiseSampler R),
    (n < fuel)%nat ->
    exists samples,
      sampleLoop fuel physics d r (IZR (i + Z.of_nat n)) (IZR i) sampler = Some samples
      /\ length samples = n
      /\ forall k, (k < n)%nat ->
           fst (fst (nth k samples (0, 0, 0))) = IZR (i + Z.of_nat k) / r.
Proof.
  induction n as [|n IH]; intros fuel i sampler Hfuel;
    (destruct fuel as [|fuel]; [lia|]).
  - simpl sampleLoop; exact_ops.
    rewrite Z.add_0_r. rewrite (proj2 (ExactOrder.ltb_false _ _)) by lra.
    exists []. repeat split. intros k Hk. lia.
  - replace (i + Z.of_nat (S n))%Z with (i + 1 + Z.of_nat n)%Z by lia.
    simpl sampleLoop; exact_ops.
    rewrite (proj2 (ExactOrder.ltb_true _ _)) by (apply IZR_lt; lia).
    destruct (sampleAt physics d (IZR i / r) sampler) as [[force velocity] sampler'].
    destruct (IH fuel (i + 1)%Z sampler') as (rest & Hrest & Hlen & Hnth); [lia|].
    replace (IZR i + 1) with (IZR (i + 1)) by (rewrite plus_IZR; reflexivity).
    rewrite Hrest. eexists. split; [reflexivity|]. split; [simpl; congruence|].
    intros [|k] Hk.
    + simpl. rewrite Z.add_0_r. reflexivity.
    + change (nth (S k) ((IZR i / r, force, velocity) :: rest) (0, 0, 0))
        with (nth k rest (0, 0, 0)).
      rewrite Hnth by lia. do 2 f_equal. lia.
Qed.

Lemma sampleLoop_stops (physics : TrialPhysics R) (d r : R) (c : Z) (fuel : nat)
  (sampler : NoiseSampler R) :
  (c <= 0)%Z ->
  sampleLoop (S fuel) physics d r (IZR c) (IZR 0) sampler = Some [].
Proof.
  intros Hc. simpl sampleLoop. exact_ops.
  rewrite (proj2 (ExactOrder.ltb_false _ _)) by (apply IZR_le; exact Hc).
  reflexivity.
Qed.

(** With enough fuel the loop ends, after [turns] turns, and the [k]-th
    sample is taken at time [k / sampleRateHz]. *)
Lemma sampleLoop_ends (physics : TrialPhysics R) (options : Options R) (fuel : nat)
  (sampler : NoiseSampler R) :
  (turns options < fuel)%nat ->
  exists samples,
    sampleLoop fuel physics (durationOf options) (rateOf options)
      (IZR (countOf options)) (IZR 0) sampler = Some samples
    /\ length samples = turns options
    /\ forall k, (k < turns options)%nat ->
         fst (fst (nth k samples (0, 0, 0))) = INR k / rateOf options.
Proof.
  intros Hfuel. unfold turns in *.
  destruct (Z_le_gt_dec (countOf options) 0) as [Hc|Hc].
  - destruct fuel as [|fuel]; [lia|].
    rewrite sampleLoop_stops by exact Hc.
    exists []. replace (Z.to_nat (countOf options)) with 0%nat by lia.
    repeat split. intros k Hk. lia.
  - destruct (sampleLoop_turns physics (durationOf options) (rateOf options)
                (Z.to_nat (countOf options)) fuel 0%Z sampler Hfuel)
      as (samples & Hs & Hlen & Hnth).
    rewrite Z.add_0_l, Z2Nat.id in Hs by lia.
    exists samples. split; [exact Hs|]. split; [exact Hlen|].
    intros k Hk. rewrite (Hnth k Hk), Z.add_0_l, <- INR_IZR_INZ. reflexivity.
Qed.

Lemma count_is_countOf (options : Options R) :
  (Math_floor (durationOf options * rateOf options)%js + ofZ 1)%js = IZR (countOf options).
Proof.
  unfold countOf. rewrite plus_IZR. reflexivity.
Qed.

(** [generateTrialSignals] returns once the fuel exceeds the number of
    turns, and then the three sequences are the components of one list
    of samples. *)
Lemma generate_returns (physics : TrialPhysics R) (options : Options R) (fuel : nat) :
  (turns options < fuel)%nat ->
  exists samples,
    length samples = turns options
    /\ (forall k, (k < turns options)%nat ->
          fst (fst (nth k samples (0, 0, 0))) = INR k / rateOf options)
    /\ generateTrialSignals fuel physics options
       = Some {| timesS := map (fun s => fst (fst s)) samples;
                 forceN := map (fun s => snd (fst s)) samples;
                 velocityMps := map snd samples;
                 motionWindow :=
                   if moved physics
                   then Some {| startS := accelStart;
                                endS := accelEnd physics (durationOf options) |}
                   else None;
                 phases := {| initialStartS := initialStart;
                              accelStartS := accelStart;
                              accelEndS := accelEnd physics (durationOf options);
                              stopEndS := stopEnd physics (durationOf options) |} |}.
Proof.
  intros Hfuel.
  destruct (sampleLoop_ends physics options fuel
              (buildNoiseSampler (seed options) (noiseEnabled options)) Hfuel)
    as (samples & Hs & Hlen & Hnth).
  exists samples. split; [exact Hlen|]. split; [exact Hnth|].
  unfold generateTrialSignals.
  fold (durationOf options). fold (rateOf options).
  rewrite count_is_countOf.
  change (ofZ 0) with (IZR 0). rewrite Hs. reflexivity.
Qed.
End ExactSignalsFacts.

(** *** The control of the sampling loop *)

(** Whatever the arithmetic, the loop runs as its control does and
    pushes the times the control computes. *)
Lemma sampleLoop_times (num : Type) (N : Number num) (L : Libm num)
  (physics : TrialPhysics num) (d r count : num) :
  forall (fuel : nat) (index : num) (sampler : NoiseSampler num) (ts : list num),
    timeLoop fuel r count index = Some ts ->
    exists samples,
      sampleLoop fuel physics d r count index sampler = Some samples
      /\ map (fun s => fst (fst s)) samples = ts.
Proof.
  induction fuel as [|fuel IH]; intros index sampler ts; simpl; [discriminate|].
  destruct (index <? count)%js.
  - destruct (sampleAt physics d (index / r)%js sampler) as [[force velocity] sampler'].
    destruct (timeLoop fuel r count (index + ofZ 1)%js) as [rest|] eqn:Hrest;
      [|discriminate].
    intros Hts. injection Hts as <-.
    destruct (IH _ sampler' rest Hrest) as (samples & -> & Hmap).
    eexists. split; [reflexivity|]. simpl. rewrite Hmap. reflexivity.
  - intros Hts. injection Hts as <-. exists []. split; reflexivity.
Qed.

(** The times of a run with the default duration and sample rate, in
    binary64 arithmetic: [i / 60] for [i] from 0 to 270. *)
Lemma default_times_in_doubles :
  timeLoop (N := IEEE754) 272 (ofZ 60) (Math_floor (lit 45 10 * ofZ 60)%js + ofZ 1)%js (ofZ 0)
  = Some (map (fun i => (ofZ (Z.of_nat i) / ofZ 60)%js) (seq 0 271))
  /\ increasing (N := IEEE754)
       (map (fun i => (ofZ (Z.of_nat i) / ofZ 60)%js) (seq 0 271)) = true.
Proof. split; vm_compute; reflexivity. Qed.

(** *** Noise-disabled synthesis *)

(** C1. With [noiseEnabled = false] the seed has no influence: for every
    arithmetic, physics result, duration, sample rate and pair of seeds
    the two runs agree on everything they return (with whatever fuel the
    loop is given); in exact arithmetic both runs do return, and so they
    do in binary64 arithmetic for the default duration and sample rate. *)
Theorem noise_disabled_ignores_seed :
  (forall (num : Type) (N : Number num) (L : Libm num) (fuel : nat)
          (physics : TrialPhysics num) (seed1 seed2 : num)
          (durationS sampleRateHz : option num),
      generateTrialSignals fuel physics
        {| noiseEnabled := false; seed := seed1;
           durationS := durationS; sampleRateHz := sampleRateHz |}
      = generateTrialSignals fuel physics
          {| noiseEnabled := false; seed := seed2;
             durationS := durationS; sampleRateHz := sampleRateHz |})
  /\ (forall (physics : TrialPhysics R) (seed1 seed2 : R)
             (durationS sampleRateHz : option R) (extra : nat),
         let options1 := {| noiseEnabled := false; seed := seed1;
                            durationS := durationS; sampleRateHz := sampleRateHz |} in
         let options2 := {| noiseEnabled := false; seed := seed2;
                            durationS := durationS; sampleRateHz := sampleRateHz |} in
         exists s,
           generateTrialSignals (S (ExactSignals.turns options1 + extra)) physics options1
           = Some s
           /\ generateTrialSignals (S (ExactSignals.turns options1 + extra)) physics options2
              = Some s)
  /\ (forall (L : Libm float) (physics : TrialPhysics float) (seed1 seed2 : float),
         exists s,
           generateTrialSignals (N := IEEE754) 272 physics
             {| noiseEnabled := false; seed := seed1;
                durationS := None; sampleRateHz := None |} = Some s
           /\ generateTrialSignals (N := IEEE754) 272 physics
                {| noiseEnabled := false; seed := seed2;
                   durationS := None; sampleRateHz := None |} = Some s).
Proof.
  refine (conj _ (conj _ _)).
  - intros. reflexivity.
  - intros physics seed1 seed2 durationS sampleRateHz extra options1 options2.
    destruct (ExactSignalsFacts.generate_returns physics options1
                (S (ExactSignals.turns options1 + extra))) as (samples & _ & _ & Hs);
      [lia|].
    eexists. split; [exact Hs|]. exact Hs.
  - intros L physics seed1 seed2.
    destruct default_times_in_doubles as [Htimes _].
    destruct (sampleLoop_times float IEEE754 L physics (lit 45 10) (ofZ 60) _ 272 (ofZ 0)
                Silent _ Htimes) as (samples & Hs & _).
    unfold generateTrialSignals.
    cbn [durationS sampleRateHz noiseEnabled seed orElse buildNoiseSampler negb].
    rewrite Hs. eexists. split; reflexivity.
Qed.

(** *** Sample count and sample times *)

Section SampleTimes.
Local Open Scope R_scope.

Lemma nth_map_times (samples : list (R * R * R)) (k : nat) :
  nth k (map (fun s => fst (fst s)) samples) 0 = fst (fst (nth k samples (0, 0, 0))).
Proof.
  change 0 with ((fun s : R * R * R => fst (fst s)) (0, 0, 0)) at 1.
  apply map_nth.
Qed.

(** A negative duration: the loop body never runs, while
    [floor(durationS * sampleRateHz) + 1] is -59. *)
Lemma negative_duration_no_samples :
  option_map (fun s => length (timesS s))
    (generateTrialSignals (N := ExactReal) 1 Examples.stuckTrial
       (Examples.quietOptions 1 (Some (-1)) (Some 60)))
  = Some 0%nat
  /\ (Zfloor (-1 * 60) + 1 = -59)%Z.
Proof.
  assert (Hfloor : Zfloor (-1 * 60) = (-60)%Z).
  { apply Zfloor_eq. lra. }
  split.
  - unfold generateTrialSignals, Examples.quietOptions. simpl orElse. exact_ops.
    unfold Exact.floor. rewrite Hfloor.
    replace (IZR (-60) + 1) with (IZR (-59)) by lra.
    rewrite ExactSignalsFacts.sampleLoop_stops by lia. reflexivity.
  - rewrite Hfloor. reflexivity.
Qed.

(** Whatever the arithmetic, the three sequences returned have one
    length. *)
Lemma sequences_parallel (num : Type) (N : Number num) (L : Libm num)
  (fuel : nat) (physics : TrialPhysics num) (options : Options num) (s : TrialSignals num) :
  generateTrialSignals fuel physics options = Some s ->
  length (forceN s) = length (timesS s) /\ length (velocityMps s) = length (timesS s).
Proof.
  unfold generateTrialSignals.
  destruct (sampleLoop _ _ _ _ _ _ _) as [samples|]; [|discriminate].
  intros Hs. injection Hs as <-. cbn. rewrite !length_map. split; reflexivity.
Qed.

(** Whatever the arithmetic, the loop started at [index] pushes the
    times of the successive values of [index], each passing the test
    [index < count], and ends at the first value that fails it. *)
Lemma sampleLoop_indices (num : Type) (N : Number num) (L : Libm num)
  (physics : TrialPhysics num) (d r count : num) :
  forall (fuel : nat) (index : num) (sampler : NoiseSampler num)
         (samples : list (num * num * num)),
    sampleLoop fuel physics d r count index sampler = Some samples ->
    let at_ := fun k => Nat.iter k (fun i => (i + ofZ 1)%js) index in
    map (fun s => fst (fst s)) samples
    = map (fun k => (at_ k / r)%js) (seq 0 (length samples))
    /\ (forall k, (k < length samples)%nat -> (at_ k <? count)%js = true)
    /\ (at_ (length samples) <? count)%js = false.
Proof.
  induction fuel as [|fuel IH]; intros index sampler samples; simpl; [discriminate|].
  destruct (index <? count)%js eqn:Htest.
  - destruct (sampleAt physics d (index / r)%js sampler) as [[force velocity] sampler'].
    destruct (sampleLoop fuel physics d r count (index + ofZ 1)%js sampler')
      as [rest|] eqn:Hrest; [|discriminate].
    intros Hs. injection Hs as <-.
    destruct (IH _ _ _ Hrest) as (Htimes & Hbelow & Hend).
    cbn [length map seq fst]. split; [|split].
    + f_equal. rewrite Htimes, <- seq_shift, map_map.
      apply map_ext. intros k. rewrite Nat.iter_succ_r. reflexivity.
    + intros [|k] Hk; [exact Htest|].
      rewrite Nat.iter_succ_r. apply Hbelow. lia.
    + rewrite Nat.iter_succ_r. exact Hend.
  - intros Hs. injection Hs as <-. cbn. repeat split; [|exact Htest].
    intros k Hk. lia.
Qed.

(** C7, as the code has it.  Whatever the arithmetic, when the synthesis
    returns, the three sequences have one length, the number of turns of
    the loop: the loop runs for [index = 0, 0 + 1, (0 + 1) + 1, ...] as
    long as [index < count], where [count] is
    [Math.floor(durationS * sampleRateHz) + 1] as the arithmetic computes
    it, and the time of turn [i] is [index / sampleRateHz].  In binary64
    arithmetic, with the default duration and sample rate, the synthesis
    returns 271 samples taken at the strictly increasing times [i / 60],
    whatever the physics result, the noise and the transcendental
    functions.  In exact arithmetic, for a positive sample rate, the
    synthesis returns, the length is
    [max(0, floor(durationS * sampleRateHz) + 1)], which is
    [floor(durationS * sampleRateHz) + 1] whenever the duration is not
    negative, and sample [i] is taken at time [i / sampleRateHz], so the
    times increase strictly.  The count is that of the rounded product:
    in binary64 arithmetic, with the double nearest 1/3 as duration and
    the rate 3, the synthesis returns the two samples of times 0 and
    1/3, while the exact product of that double and 3 is below 1 and
    gives one sample. *)
Theorem sample_count_and_times :
  (forall (num : Type) (N : Number num) (L : Libm num) (fuel : nat)
          (physics : TrialPhysics num) (options : Options num) (s : TrialSignals num),
      generateTrialSignals fuel physics options = Some s ->
      length (forceN s) = length (timesS s)
      /\ length (velocityMps s) = length (timesS s))
  /\ (forall (num : Type) (N : Number num) (L : Libm num) (fuel : nat)
             (physics : TrialPhysics num) (options : Options num) (s : TrialSignals num),
         generateTrialSignals fuel physics options = Some s ->
         let rate := orElse (sampleRateHz options) (ofZ 60) in
         let count :=
           (Math_floor (orElse (durationS options) (lit 45 10) * rate) + ofZ 1)%js in
         timesS s = map (fun i => (indexAt i / rate)%js) (seq 0 (length (timesS s)))
         /\ (forall i, (i < length (timesS s))%nat -> (indexAt i <? count)%js = true)
         /\ (indexAt (length (timesS s)) <? count)%js = false)
  /\ (forall (L : Libm float) (physics : TrialPhysics float)
             (noiseEnabled : bool) (seed : float),
         exists s,
           generateTrialSignals (N := IEEE754) 272 physics
             {| noiseEnabled := noiseEnabled; seed := seed;
                durationS := None; sampleRateHz := None |} = Some s
           /\ timesS s = map (fun i => (ofZ (Z.of_nat i) / ofZ 60)%js) (seq 0 271)
           /\ length (timesS s) = 271%nat
           /\ increasing (timesS s) = true)
  /\ (forall (physics : TrialPhysics R) (options : Options R) (extra : nat),
         0 < ExactSignals.rateOf options ->
         exists s,
           generateTrialSignals (S (ExactSignals.turns options + extra)) physics options
           = Some s
           /\ length (timesS s) = ExactSignals.turns options
           /\ length (forceN s) = ExactSignals.turns options
           /\ length (velocityMps s) = ExactSignals.turns options
           /\ ExactSignals.turns options
              = Z.to_nat (Z.max 0
                  (Zfloor (ExactSignals.durationOf options * ExactSignals.rateOf options)
                   + 1))
           /\ (0 <= ExactSignals.durationOf options ->
               Z.of_nat (length (timesS s))
               = (Zfloor (ExactSignals.durationOf options * ExactSignals.rateOf options)
                  + 1)%Z)
           /\ (forall i, (i < length (timesS s))%nat ->
                 nth i (timesS s) 0 = INR i / ExactSignals.rateOf options)
           /\ (forall i j, (i < j < length (timesS s))%nat ->
                 nth i (timesS s) 0 < nth j (timesS s) 0))
  /\ ((forall (L : Libm float) (physics : TrialPhysics float)
              (noiseEnabled : bool) (seed : float),
          exists s,
            generateTrialSignals (N := IEEE754) 3 physics
              {| noiseEnabled := noiseEnabled; seed := seed;
                 durationS := Some (ofZ 1 / ofZ 3)%js;
                 sampleRateHz := Some (ofZ 3) |} = Some s
            /\ timesS s = [ofZ 0 / ofZ 3; ofZ 1 / ofZ 3]%js)
      /\ Prim2SF (ofZ 1 / ofZ 3)%js = S754_finite false 6004799503160661 (-54)
      /\ (Zfloor (IZR 6004799503160661 / IZR (2 ^ 54) * 3) + 1 = 1)%Z).
Proof.
  split; [exact sequences_parallel|]. split.
  { intros num N L fuel physics options s. unfold generateTrialSignals.
    destruct (sampleLoop _ _ _ _ _ _ _) as [samples|] eqn:Hloop; [|discriminate].
    intros Hs. injection Hs as <-. cbn [timesS]. rewrite length_map.
    destruct (sampleLoop_indices num N L physics _ _ _ _ _ _ _ Hloop)
      as (Htimes & Hbelow & Hend).
    split; [exact Htimes|]. split; [exact Hbelow|exact Hend]. }
  split.
  { intros L physics noiseEnabled seed.
    destruct default_times_in_doubles as [Htimes Hincreasing].
    destruct (sampleLoop_times float IEEE754 L physics (lit 45 10) (ofZ 60) _ 272 (ofZ 0)
                (buildNoiseSampler seed noiseEnabled) _ Htimes) as (samples & Hs & Hmap).
    unfold generateTrialSignals. cbn [durationS sampleRateHz Signals.noiseEnabled
                                       Signals.seed orElse].
    rewrite Hs. eexists. split; [reflexivity|]. cbn [timesS]. rewrite Hmap.
    split; [reflexivity|]. split; [|exact Hincreasing].
    rewrite length_map, length_seq. reflexivity. }
  split.
  2: { split; [|split; [vm_compute; reflexivity|]].
       - intros L physics noiseEnabled seed.
         assert (Htimes : timeLoop (N := IEEE754) 3 (ofZ 3)
                            (Math_floor ((ofZ 1 / ofZ 3) * ofZ 3) + ofZ 1)%js (ofZ 0)
                          = Some [ofZ 0 / ofZ 3; ofZ 1 / ofZ 3]%js)
           by (vm_compute; reflexivity).
         destruct (sampleLoop_times float IEEE754 L physics (ofZ 1 / ofZ 3)%js (ofZ 3) _ 3
                     (ofZ 0) (buildNoiseSampler seed noiseEnabled) _ Htimes)
           as (samples & Hs & Hmap).
         unfold generateTrialSignals.
         cbn [durationS sampleRateHz Signals.noiseEnabled Signals.seed orElse].
         rewrite Hs. eexists. split; [reflexivity|]. cbn [timesS]. exact Hmap.
       - assert (H : Zfloor (IZR 6004799503160661 / IZR (2 ^ 54) * 3) = 0%Z).
         { apply Zfloor_eq. simpl. lra. }
         rewrite H. reflexivity. }
  intros physics options extra Hrate.
  destruct (ExactSignalsFacts.generate_returns physics options
              (S (ExactSignals.turns options + extra))) as (samples & Hlen & Hnth & Hs);
    [lia|].
  eexists. split; [exact Hs|]. cbn [timesS forceN velocityMps].
  rewrite !length_map, Hlen.
  assert (Htimes : forall i, (i < ExactSignals.turns options)%nat ->
            nth i (map (fun s => fst (fst s)) samples) 0
            = INR i / ExactSignals.rateOf options).
  { intros i Hi. rewrite nth_map_times. apply Hnth. exact Hi. }
  repeat split; trivial.
  - unfold ExactSignals.turns, ExactSignals.countOf. lia.
  - intros Hd. unfold ExactSignals.turns, ExactSignals.countOf.
    assert (0 <= Zfloor (ExactSignals.durationOf options * ExactSignals.rateOf options))%Z.
    { apply Zfloor_lub. simpl. nra. }
    lia.
  - intros i j [Hij Hj]. rewrite !Htimes by lia.
    apply Rmult_lt_compat_r; [apply Rinv_0_lt_compat; exact Hrate|].
    apply lt_INR. exact Hij.
Qed.

Lemma sample_count_and_times_witness :
  (exists s,
      generateTrialSignals
        (S (ExactSignals.turns (Examples.quietOptions 1 (Some 1) (Some 2)) + 0))
        Examples.movedTrial (Examples.quietOptions 1 (Some 1) (Some 2)) = Some s
      /\ length (timesS s) = 3%nat)
  /\ (exists s,
         generateTrialSignals (N := IEEE754) (L := IEEERange.constantLibm) 272
           Examples.movedTrial (Examples.quietOptions (ofZ 1) None None) = Some s
         /\ length (forceN s) = length (timesS s)
         /\ timesS s
            = map (fun i => (indexAt i / ofZ 60)%js) (seq 0 (length (timesS s)))).
Proof.
  split.
  - destruct (proj1 (proj2 (proj2 (proj2 sample_count_and_times))) Examples.movedTrial
                (Examples.quietOptions 1 (Some 1) (Some 2)) 0%nat)
      as (s & Hs & Hlen & _ & _ & _ & Hcount & _).
    + cbv [ExactSignals.rateOf Examples.quietOptions orElse sampleRateHz]. lra.
    + exists s. split; [exact Hs|].
      apply Nat2Z.inj. rewrite Hcount
        by (cbv [ExactSignals.durationOf Examples.quietOptions orElse durationS]; lra).
      cbv [ExactSignals.rateOf ExactSignals.durationOf Examples.quietOptions orElse
           sampleRateHz durationS].
      replace (1 * 2) with (IZR 2) by lra. rewrite ZfloorZ. reflexivity.
  - destruct (generateTrialSignals (N := IEEE754) (L := IEEERange.constantLibm) 272
                Examples.movedTrial (Examples.quietOptions (ofZ 1) None None))
      as [s|] eqn:Hs; [|vm_compute in Hs; discriminate].
    exists s. split; [reflexivity|]. split.
    + exact (proj1 (proj1 sample_count_and_times float IEEE754 IEEERange.constantLibm
                      272%nat Examples.movedTrial
                      (Examples.quietOptions (ofZ 1) None None) s Hs)).
    + exact (proj1 (proj1 (proj2 sample_count_and_times) float IEEE754
                      IEEERange.constantLibm 272%nat Examples.movedTrial
                      (Examples.quietOptions (ofZ 1) None None) s Hs)).
Defined.
End SampleTimes.

(** *** Phases and motion window *)

Section Phases.
Local Open Scope R_scope.








End Phases.

(** *** Window slicing *)

Section Slicing.
Context {num : Type} {N : Number num}.
Local Open Scope js_scope.


Lemma sliceLoop_times (start end_ : num) (ts : list num) :
  forall vs,
    Regression.times (Regression.sliceLoop start end_ ts vs)
    = filter (fun time => (time >=? start) && (time <=? end_)) ts.
Proof.
  induction ts as [|time ts IH]; intros vs; simpl; [reflexivity|].
  destruct ((time >=? start) && (time <=? end_)); simpl; rewrite IH; reflexivity.
Qed.

Lemma sliceLoop_parallel (start end_ : num) (ts : list num) :
  forall vs,
    length ts = length vs ->
    let kept := filter (fun p => (fst p >=? start) && (fst p <=? end_)) (combine ts vs) in
    Regression.sliceLoop start end_ ts vs
    = {| Regression.times := map fst kept; Regression.values := map snd kept |}.
Proof.
  induction ts as [|time ts IH]; intros [|value vs] Hlen; simpl in *;
    try reflexivity; try discriminate.
  injection Hlen as Hlen. specialize (IH vs Hlen). simpl in IH.
  destruct ((time >=? start) && (time <=? end_)); simpl; rewrite IH; reflexivity.
Qed.

Lemma sliceLoop_lengths (start end_ : num) (ts : list num) :
  forall vs,
    length (Regression.values (Regression.sliceLoop start end_ ts vs))
    = length (Regression.times (Regression.sliceLoop start end_ ts vs)).
Proof.
  induction ts as [|time ts IH]; intros vs; simpl; [reflexivity|].
  destruct ((time >=? start) && (time <=? end_)); simpl; rewrite IH; reflexivity.
Qed.
End Slicing.

(** C6. [sliceWindow] keeps exactly the samples whose time lies between
    [min(startS, endS)] and [max(startS, endS)], both bounds included, in
    their order: the times kept are the filtered times, for parallel
    sequences the result is the filtered sequence of pairs, and the two
    bounds may be given in either order.  On the example of the tests only
    the times 1, 2, 3 are kept and the fit has slope 2, intercept 1 and
    count 3 (binary64 arithmetic). *)
Theorem sliceWindow_inclusive :
  forall (num : Type) (N : Number num) (O : NumberOrder num),
    (forall ts vs startS endS,
        Regression.times (Regression.sliceWindow ts vs startS endS)
        = filter (inWindow startS endS) ts)
    /\ (forall ts vs startS endS,
           length ts = length vs ->
           let kept := filter (fun p => inWindow startS endS (fst p)) (combine ts vs) in
           Regression.sliceWindow ts vs startS endS
           = {| Regression.times := map fst kept; Regression.values := map snd kept |})
    /\ (forall ts vs startS endS,
           Regression.sliceWindow ts vs startS endS
           = Regression.sliceWindow ts vs endS startS)
    /\ Regression.times
         (Regression.sliceWindow (N := IEEE754)
            [0; 1; 2; 3; 4; 5]%float [1; 3; 5; 7; 10; 13]%float 1%float 3%float)
       = [1; 2; 3]%float
    /\ Regression.linearRegressionInWindow (N := IEEE754)
         [0; 1; 2; 3; 4; 5]%float [1; 3; 5; 7; 10; 13]%float 1%float 3%float
       = Some {| Regression.slope := 2%float; Regression.intercept := 1%float;
                 Regression.r2 := 1%float; Regression.count := 3 |}.
Proof.
  intros num N O. refine (conj _ (conj _ (conj _ (conj _ _)))).
  - intros ts vs startS endS. unfold Regression.sliceWindow. apply sliceLoop_times.
  - intros ts vs startS endS Hlen. unfold Regression.sliceWindow.
    apply sliceLoop_parallel. exact Hlen.
  - intros ts vs startS endS. unfold Regression.sliceWindow.
    rewrite (min_comm startS endS), (max_comm startS endS). reflexivity.
  - vm_compute. reflexivity.
  - vm_compute. reflexivity.
Qed.

Lemma sliceWindow_inclusive_witness :
  Regression.times
    (Regression.sliceWindow (N := IEEE754)
       [0; 1; 2; 3; 4; 5]%float [1; 3; 5; 7; 10; 13]%float 3%float 1%float)
  = filter (inWindow (N := IEEE754) 3%float 1%float) [0; 1; 2; 3; 4; 5]%float.
Proof.
  exact (proj1 (sliceWindow_inclusive float IEEE754 IEEE754_order)
           [0; 1; 2; 3; 4; 5]%float [1; 3; 5; 7; 10; 13]%float 3%float 1%float).
Defined.

(** *** Normalising a selection *)

(** A bound that is NaN, in binary64 arithmetic: [Math.min] and
    [Math.max] both return NaN, and the interval returned does not have
    [startS <= endS], since no comparison with NaN holds. *)
Lemma nan_bound_is_not_ordered :
  normalizeSelection (N := IEEE754) (Some {| startS := NaN; endS := 1%float |})
  = Some {| startS := NaN; endS := NaN |}
  /\ (NaN (N := IEEE754) <=? NaN)%js = false
  /\ exists normalized,
       normalizeSelection (N := IEEE754) (Some {| startS := NaN; endS := 1%float |})
       = Some normalized
       /\ (startS normalized <=? endS normalized)%js = false.
Proof.
  split; [vm_compute; reflexivity|]. split; [vm_compute; reflexivity|].
  eexists. split; [reflexivity|]. vm_compute. reflexivity.
Qed.

(** C8, as the code has it.  [normalizeSelection] is idempotent, gives
    the same interval for the two orders of the bounds, maps
    [{startS: 5, endS: 1}] to [{startS: 1, endS: 5}] and null to null, and
    every interval it returns for bounds that are numbers (not NaN) has
    [startS <= endS]; [normalize] of app.js is the same function on
    intervals.  This holds for every arithmetic with the order facts, in
    particular for doubles. *)
Theorem normalizeSelection_idempotent :
  forall (num : Type) (N : Number num) (O : NumberOrder num),
    (forall selection : option (Interval num),
        normalizeSelection (normalizeSelection selection) = normalizeSelection selection)
    /\ (forall a b : num,
           normalizeSelection (Some {| startS := a; endS := b |})
           = normalizeSelection (Some {| startS := b; endS := a |}))
    /\ (forall (selection normalized : Interval num),
           isNumber (startS selection) -> isNumber (endS selection) ->
           normalizeSelection (Some selection) = Some normalized ->
           (startS normalized <=? endS normalized)%js = true)
    /\ normalizeSelection (N := N) None = None
    /\ (forall selection : Interval num,
           normalizeSelection (Some selection) = Some (normalize selection))
    /\ normalizeSelection (N := IEEE754) (Some {| startS := 5%float; endS := 1%float |})
       = Some {| startS := 1%float; endS := 5%float |}.
Proof.
  intros num N O. refine (conj _ (conj _ (conj _ (conj _ (conj _ _))))).
  - intros [[a b]|]; simpl; [|reflexivity].
    rewrite min_min_max, max_min_max. reflexivity.
  - intros a b. simpl. rewrite (min_comm a b), (max_comm a b). reflexivity.
  - intros [a b] normalized Ha Hb Hn. simpl in *. injection Hn as <-. simpl.
    apply min_le_max; assumption.
  - reflexivity.
  - intros selection. reflexivity.
  - vm_compute. reflexivity.
Qed.

Lemma normalizeSelection_idempotent_witness :
  normalizeSelection (N := IEEE754)
    (normalizeSelection (Some {| startS := 5%float; endS := 1%float |}))
  = normalizeSelection (Some {| startS := 5%float; endS := 1%float |}).
Proof.
  exact (proj1 (normalizeSelection_idempotent float IEEE754 IEEE754_order)
           (Some {| startS := 5%float; endS := 1%float |})).
Defined.

(** *** The shape of a regression result *)

Section RegressionShape.
Context {num : Type} {N : Number num}.
Local Open Scope js_scope.


Lemma rejected_spec (x y : list num) :
  rejected x y = true <-> length x <> length y \/ (length x < 2)%nat.
Proof.
  unfold rejected. rewrite orb_true_iff, negb_true_iff, Nat.eqb_neq, Nat.ltb_lt.
  reflexivity.
Qed.

Lemma linearRegression_unfold (x y : list num) :
  Regression.linearRegression x y
  = if rejected x y then None
    else if Regression.ssxxOf x y === ofZ 0 then None
    else
      let slope := Regression.ssxyOf x y / Regression.ssxxOf x y in
      let intercept := Regression.mean y - slope * Regression.mean x in
      Some {| Regression.slope := slope;
              Regression.intercept := intercept;
              Regression.r2 :=
                if Regression.sstOf x y === ofZ 0 then ofZ 1
                else ofZ 1 - Regression.residualOf slope intercept x y
                             / Regression.sstOf x y;
              Regression.count := length x |}.
Proof.
  unfold Regression.linearRegression, rejected,
    Regression.ssxxOf, Regression.ssxyOf, Regression.sstOf.
  destruct (negb (Nat.eqb (length x) (length y)) || Nat.ltb (length x) 2); [reflexivity|].
  destruct (Regression.sumsOfSquares x y) as [[ssxx ssxy] sst]. reflexivity.
Qed.

Lemma linearRegression_null (x y : list num) :
  Regression.linearRegression x y = None
  <-> length x <> length y \/ (length x < 2)%nat
      \/ (Regression.ssxxOf x y === ofZ 0) = true.
Proof.
  rewrite linearRegression_unfold. rewrite <- or_assoc, <- rejected_spec.
  destruct (rejected x y); [tauto|].
  destruct (Regression.ssxxOf x y === ofZ 0); simpl; split; intros H;
    try tauto; try discriminate.
  destruct H as [H|H]; discriminate.
Qed.

Lemma linearRegression_count (x y : list num) (fit : Regression.FitResult num) :
  Regression.linearRegression x y = Some fit ->
  Regression.count fit = length x /\ length x = length y /\ (2 <= length x)%nat.
Proof.
  rewrite linearRegression_unfold. destruct (rejected x y) eqn:Hr; [discriminate|].
  destruct (Regression.ssxxOf x y === ofZ 0); [discriminate|].
  intros Hfit. injection Hfit as <-. simpl. split; [reflexivity|].
  destruct (Nat.eq_dec (length x) (length y)) as [He|He];
    destruct (Nat.lt_ge_cases (length x) 2) as [Hl|Hl]; try (split; assumption);
    exfalso; assert (rejected x y = true) by (apply rejected_spec; tauto); congruence.
Qed.

Lemma linearRegression_r2_one (x y : list num) (fit : Regression.FitResult num) :
  Regression.linearRegression x y = Some fit ->
  (Regression.sstOf x y === ofZ 0) = true ->
  Regression.r2 fit = ofZ 1.
Proof.
  rewrite linearRegression_unfold. destruct (rejected x y); [discriminate|].
  destruct (Regression.ssxxOf x y === ofZ 0); [discriminate|].
  intros Hfit Hsst. injection Hfit as <-. simpl. rewrite Hsst. reflexivity.
Qed.

Lemma divisors_nonzero (x y : list num) :
  Forall Regression.nonzero (Regression.divisors x y).
Proof.
  unfold Regression.divisors. fold (rejected x y).
  destruct (rejected x y) eqn:Hr; [constructor|].
  assert (Hlen : length x = length y /\ (2 <= length x)%nat).
  { destruct (Nat.eq_dec (length x) (length y)) as [He|He];
      destruct (Nat.lt_ge_cases (length x) 2) as [Hl|Hl]; try (split; assumption);
      exfalso; assert (rejected x y = true) by (apply rejected_spec; tauto); congruence. }
  destruct Hlen as [Hxy Hx].
  constructor; [simpl; lia|]. constructor; [simpl; lia|]. simpl.
  destruct (Regression.ssxxOf x y === ofZ 0) eqn:Hssxx; [constructor|].
  constructor; [exact Hssxx|].
  destruct (Regression.sstOf x y === ofZ 0) eqn:Hsst; constructor;
    [exact Hsst|constructor].
Qed.
End RegressionShape.

(** *** Gating of the measurements *)

Section Gating.
Context {num : Type} {N : Number num} {O : NumberOrder num}.
Local Open Scope js_scope.


Lemma slice_of_normalized (ts vs : list num) (window : Interval num) :
  Regression.sliceWindow ts vs (startS (normalize window)) (endS (normalize window))
  = Regression.sliceWindow ts vs (startS window) (endS window).
Proof.
  unfold Regression.sliceWindow, normalize. simpl.
  rewrite min_min_max, max_min_max. reflexivity.
Qed.

Lemma forceMean_gate (state : State.AppState num) (trial : State.CurrentTrial num)
  (window : Interval num) :
  State.currentTrial state = Some trial ->
  State.forceWindow (State.measurement state) = Some window ->
  State.forceMeanN (State.measurement (updateMeasurementValues state))
  = let slice :=
      Regression.sliceWindow (timesS (State.signals trial)) (forceN (State.signals trial))
        (startS window) (endS window) in
    if (width window >=? MIN_SELECTION_WIDTH_S)
       && Nat.leb MIN_POINTS (length (Regression.values slice))
    then Some (Regression.mean (Regression.values slice))
    else None.
Proof.
  intros Htrial Hwindow. unfold updateMeasurementValues. rewrite Htrial, Hwindow.
  cbn [State.measurement State.forceMeanN withMeasurementValues isValidSelection].
  fold (width window). rewrite slice_of_normalized.
  destruct (width window >=? MIN_SELECTION_WIDTH_S); reflexivity.
Qed.

Lemma acceleration_gate (state : State.AppState num) (trial : State.CurrentTrial num)
  (window : Interval num) :
  State.currentTrial state = Some trial ->
  State.velocityWindow (State.measurement state) = Some window ->
  State.accelerationMps2 (State.measurement (updateMeasurementValues state))
  = let slice :=
      Regression.sliceWindow (timesS (State.signals trial))
        (velocityMps (State.signals trial)) (startS window) (endS window) in
    if (width window >=? MIN_SELECTION_WIDTH_S)
       && Nat.leb MIN_POINTS (length (Regression.times slice))
    then option_map (@Regression.slope num)
           (Regression.linearRegression (Regression.times slice) (Regression.values slice))
    else None.
Proof.
  intros Htrial Hwindow. unfold updateMeasurementValues. rewrite Htrial, Hwindow.
  cbn [State.measurement State.accelerationMps2 withMeasurementValues isValidSelection].
  fold (width window). unfold Regression.linearRegressionInWindow.
  rewrite slice_of_normalized.
  destruct (width window >=? MIN_SELECTION_WIDTH_S); [|reflexivity].
  cbn [andb].
  destruct (Regression.linearRegression _ _) as [fit|] eqn:Hfit.
  - destruct (linearRegression_count _ _ _ Hfit) as (Hcount & _ & _).
    rewrite Hcount. destruct (Nat.leb MIN_POINTS _); reflexivity.
  - destruct (Nat.leb MIN_POINTS _); reflexivity.
Qed.
End Gating.

(** C3. With a current trial and a selected window, the measurement
    derived from it is null when the window is narrower than 0.12 s or
    its slice of the samples has fewer than 6 points, and a measurement
    that is not null comes from a window that passes both gates; without
    a window, or without a current trial, it is null.  ([forceMeanN] from
    the force window, [accelerationMps2] from the velocity window; for
    every arithmetic with the order facts, in particular doubles.) *)
Theorem measurement_gating :
  forall (num : Type) (N : Number num) (O : NumberOrder num) (state : State.AppState num),
    let after := State.measurement (updateMeasurementValues state) in
    (forall trial window,
        State.currentTrial state = Some trial ->
        State.forceWindow (State.measurement state) = Some window ->
        let slice :=
          Regression.sliceWindow (timesS (State.signals trial))
            (forceN (State.signals trial)) (startS window) (endS window) in
        ((width window <? MIN_SELECTION_WIDTH_S)%js = true
         \/ (length (Regression.times slice) < 6)%nat ->
         State.forceMeanN after = None)
        /\ (State.forceMeanN after <> None ->
            (width window >=? MIN_SELECTION_WIDTH_S)%js = true
            /\ (6 <= length (Regression.times slice))%nat))
    /\ (forall trial window,
           State.currentTrial state = Some trial ->
           State.velocityWindow (State.measurement state) = Some window ->
           let slice :=
             Regression.sliceWindow (timesS (State.signals trial))
               (velocityMps (State.signals trial)) (startS window) (endS window) in
           ((width window <? MIN_SELECTION_WIDTH_S)%js = true
            \/ (length (Regression.times slice) < 6)%nat ->
            State.accelerationMps2 after = None)
           /\ (State.accelerationMps2 after <> None ->
               (width window >=? MIN_SELECTION_WIDTH_S)%js = true
               /\ (6 <= length (Regression.times slice))%nat))
    /\ (State.forceWindow (State.measurement state) = None ->
        State.forceMeanN after = None)
    /\ (State.velocityWindow (State.measurement state) = None ->
        State.accelerationMps2 after = None)
    /\ (State.currentTrial state = None ->
        State.forceMeanN after = None /\ State.accelerationMps2 after = None).
Proof.
  intros num N O state after. subst after.
  refine (conj _ (conj _ (conj _ (conj _ _)))).
  - intros trial window Htrial Hwindow slice.
    rewrite (forceMean_gate state trial window Htrial Hwindow). cbv zeta.
    unfold Regression.sliceWindow. rewrite sliceLoop_lengths.
    fold (Regression.sliceWindow (timesS (State.signals trial))
            (forceN (State.signals trial)) (startS window) (endS window)).
    fold slice. unfold MIN_POINTS.
    destruct (width window >=? MIN_SELECTION_WIDTH_S)%js eqn:Hwide;
      destruct (Nat.leb_spec 6 (length (Regression.times slice))) as [Hmany|Hmany];
      cbn [andb]; (split; [intros [Hnarrow|Hfew]|intros Hsome]);
      try reflexivity; try congruence; try lia; try (split; [reflexivity|lia]).
    apply lt_not_ge in Hnarrow. congruence.
  - intros trial window Htrial Hwindow slice.
    rewrite (acceleration_gate state trial window Htrial Hwindow). cbv zeta.
    fold slice. unfold MIN_POINTS.
    destruct (width window >=? MIN_SELECTION_WIDTH_S)%js eqn:Hwide;
      destruct (Nat.leb_spec 6 (length (Regression.times slice))) as [Hmany|Hmany];
      cbn [andb]; (split; [intros [Hnarrow|Hfew]|intros Hsome]);
      try reflexivity; try congruence; try lia; try (split; [reflexivity|lia]).
    apply lt_not_ge in Hnarrow. congruence.
  - intros Hnone. unfold updateMeasurementValues.
    destruct (State.currentTrial state); cbn; rewrite ?Hnone; reflexivity.
  - intros Hnone. unfold updateMeasurementValues.
    destruct (State.currentTrial state); cbn; rewrite ?Hnone; reflexivity.
  - intros Hnone. unfold updateMeasurementValues. rewrite Hnone. split; reflexivity.
Qed.

(** *** Degenerate regressions *)

Section FoldFacts.
Context {num : Type} {N : Number num}.
Local Open Scope js_scope.

Lemma fold_accumulate (xMean yMean : num) (l : list (num * num)) :
  forall a b c,
    fold_left (Regression.accumulate xMean yMean) l (a, b, c)
    = (fold_left (fun s p => s + (fst p - xMean) * (fst p - xMean)) l a,
       fold_left (fun s p => s + (fst p - xMean) * (snd p - yMean)) l b,
       fold_left (fun s p => s + (snd p - yMean) * (snd p - yMean)) l c).
Proof.
  induction l as [|p l IH]; intros a b c; simpl; [reflexivity|]. apply IH.
Qed.

Lemma fold_combine_fst (f : num -> num -> num) (x : list num) :
  forall (y : list num) (a : num),
    length x = length y ->
    fold_left (fun s p => f s (fst p)) (combine x y) a = fold_left f x a.
Proof.
  induction x as [|v x IH]; intros [|w y] a Hlen; simpl in *;
    try reflexivity; try discriminate.
  apply IH. congruence.
Qed.

Lemma fold_combine_snd (f : num -> num -> num) (x : list num) :
  forall (y : list num) (a : num),
    length x = length y ->
    fold_left (fun s p => f s (snd p)) (combine x y) a = fold_left f y a.
Proof.
  induction x as [|v x IH]; intros [|w y] a Hlen; simpl in *;
    try reflexivity; try discriminate.
  apply IH. congruence.
Qed.

(** With sequences of one length, [ssxx] is the sum over [x] alone and
    [sst] the sum over [y] alone. *)
Lemma ssxxOf_alone (x y : list num) :
  length x = length y ->
  Regression.ssxxOf x y
  = fold_left (fun s v => s + (v - Regression.mean x) * (v - Regression.mean x)) x (ofZ 0).
Proof.
  intros Hlen. unfold Regression.ssxxOf, Regression.sumsOfSquares.
  rewrite fold_accumulate. cbn [fst snd].
  apply (fold_combine_fst
           (fun s v => s + (v - Regression.mean x) * (v - Regression.mean x)) x y _ Hlen).
Qed.

Lemma sstOf_alone (x y : list num) :
  length x = length y ->
  Regression.sstOf x y
  = fold_left (fun s v => s + (v - Regression.mean y) * (v - Regression.mean y)) y (ofZ 0).
Proof.
  intros Hlen. unfold Regression.sstOf, Regression.sumsOfSquares.
  rewrite fold_accumulate. cbn [fst snd].
  apply (fold_combine_snd
           (fun s v => s + (v - Regression.mean y) * (v - Regression.mean y)) x y _ Hlen).
Qed.
End FoldFacts.

Module ExactRegressionFacts.
Import ExactRegression.
Local Open Scope R_scope.


Lemma sum_squares_acc (m : R) (x : list R) :
  forall a,
    fold_left (fun s v => s + (v - m) * (v - m)) x a
    = a + fold_left (fun s v => s + (v - m) * (v - m)) x 0.
Proof.
  induction x as [|v x IH]; intros a; simpl; [lra|].
  rewrite (IH (a + (v - m) * (v - m))), (IH (0 + (v - m) * (v - m))). lra.
Qed.

Lemma sum_squares_nonneg (m : R) (x : list R) :
  0 <= fold_left (fun s v => s + (v - m) * (v - m)) x 0.
Proof.
  induction x as [|v x IH]; simpl; [lra|].
  rewrite sum_squares_acc. pose proof (Rle_0_sqr (v - m)) as Hsq. unfold Rsqr in Hsq. lra.
Qed.

Lemma sum_squares_zero (m : R) (x : list R) :
  fold_left (fun s v => s + (v - m) * (v - m)) x 0 = 0 <-> forall v, In v x -> v = m.
Proof.
  induction x as [|w x IH]; simpl.
  - split; [intros _ v []|reflexivity].
  - rewrite sum_squares_acc. pose proof (sum_squares_nonneg m x) as Hpos. split.
    + pose proof (Rle_0_sqr (w - m)) as Hsq. unfold Rsqr in Hsq.
      intros Hsum v [<-|Hv].
      * assert (Hz : (w - m) * (w - m) = 0) by lra.
        apply Rmult_integral in Hz. lra.
      * apply IH; [lra|exact Hv].
    + intros Hall. assert (Hw : w = m) by (apply Hall; left; reflexivity).
      assert (Hrest : fold_left (fun s v => s + (v - m) * (v - m)) x 0 = 0)
        by (apply IH; intros v Hv; apply Hall; right; exact Hv).
      rewrite Hrest, Hw. lra.
Qed.

Lemma sum_acc (x : list R) :
  forall a, fold_left (fun s v => s + v) x a = a + fold_left (fun s v => s + v) x 0.
Proof.
  induction x as [|v x IH]; intros a; simpl; [lra|].
  rewrite (IH (a + v)), (IH (0 + v)). lra.
Qed.

Lemma sum_constant (c : R) (x : list R) :
  (forall v, In v x -> v = c) ->
  fold_left (fun s v => s + v) x 0 = INR (length x) * c.
Proof.
  induction x as [|w x IH]; intros Hall.
  - simpl. lra.
  - cbn [fold_left]. rewrite sum_acc, IH by (intros v Hv; apply Hall; right; exact Hv).
    rewrite (Hall w) by (left; reflexivity).
    cbn [length]. rewrite S_INR. lra.
Qed.

Lemma mean_constant (c : R) (x : list R) :
  x <> [] -> (forall v, In v x -> v = c) -> Regression.mean x = c.
Proof.
  intros Hne Hall. unfold Regression.mean, Regression.sum.
  destruct x as [|w x]; [congruence|].
  change (Nat.eqb (length (w :: x)) 0) with false. cbv iota.
  unfold lengthOf. exact_ops.
  rewrite (sum_constant c (w :: x) Hall), <- INR_IZR_INZ.
  field. apply not_0_INR. discriminate.
Qed.

Lemma squares_zero_allEqual (x : list R) :
  x <> [] ->
  fold_left (fun s v => s + (v - Regression.mean x) * (v - Regression.mean x)) x 0 = 0
  <-> allEqual x.
Proof.
  intros Hne. rewrite sum_squares_zero. split.
  - intros Hall a b Ha Hb. rewrite (Hall a Ha), (Hall b Hb). reflexivity.
  - intros Heq v Hv. destruct x as [|w x]; [congruence|].
    assert (Hw : forall u, In u (w :: x) -> u = w)
      by (intros u Hu; apply Heq; [exact Hu|left; reflexivity]).
    rewrite (mean_constant w (w :: x) Hne Hw). apply Hw. exact Hv.
Qed.

Lemma ssxx_zero_iff (x y : list R) :
  length x = length y -> x <> [] ->
  Regression.ssxxOf x y = 0 <-> allEqual x.
Proof.
  intros Hlen Hne. rewrite (ssxxOf_alone x y Hlen). exact_ops.
  apply squares_zero_allEqual. exact Hne.
Qed.

Lemma sst_zero_iff (x y : list R) :
  length x = length y -> y <> [] ->
  Regression.sstOf x y = 0 <-> allEqual y.
Proof.
  intros Hlen Hne. rewrite (sstOf_alone x y Hlen). exact_ops.
  apply squares_zero_allEqual. exact Hne.
Qed.
End ExactRegressionFacts.

(** Three equal abscissas 0.1 in binary64 arithmetic: their mean is
    rounded to 0.10000000000000002, [ssxx] is not zero and a fit is
    returned; likewise three equal ordinates 0.1 give [r2 = 0]. *)
Lemma equal_values_in_doubles :
  Regression.linearRegression (N := IEEE754)
    [lit 1 10; lit 1 10; lit 1 10] [1; 2; 3]%float
  = Some {| Regression.slope := 0%float; Regression.intercept := 2%float;
            Regression.r2 := 0%float; Regression.count := 3 |}
  /\ option_map (@Regression.r2 float)
       (Regression.linearRegression (N := IEEE754)
          [1; 2; 3]%float [lit 1 10; lit 1 10; lit 1 10])
     = Some 0%float.
Proof.
  split; vm_compute; reflexivity.
Qed.

(** C4, as the code has it.  For every arithmetic, [linearRegression]
    returns null exactly when the lengths differ, there are fewer than two
    points, or the accumulated [ssxx] compares equal to zero; every
    division it carries out has a divisor that is not zero; and a fit
    whose accumulated [sst] compares equal to zero has [r2] exactly 1.  In
    exact arithmetic [ssxx] is zero exactly when all [x] are equal and
    [sst] when all [y] are, which gives the statement in terms of the
    values. *)
Theorem linearRegression_degenerate :
  (forall (num : Type) (N : Number num) (x y : list num),
      (Regression.linearRegression x y = None
       <-> length x <> length y \/ (length x < 2)%nat
           \/ (Regression.ssxxOf x y === ofZ 0)%js = true)
      /\ Forall Regression.nonzero (Regression.divisors x y)
      /\ (forall fit,
             Regression.linearRegression x y = Some fit ->
             (Regression.sstOf x y === ofZ 0)%js = true ->
             Regression.r2 fit = ofZ 1))
  /\ (forall x y : list R,
         (Regression.linearRegression x y = None
          <-> length x <> length y \/ (length x < 2)%nat
              \/ ExactRegression.allEqual x)
         /\ (forall fit,
                Regression.linearRegression x y = Some fit ->
                ExactRegression.allEqual y ->
                Regression.r2 fit = 1%R)).
Proof.
  split.
  - intros num N x y. split; [apply linearRegression_null|].
    split; [apply divisors_nonzero|]. apply linearRegression_r2_one.
  - intros x y. split.
    + rewrite linearRegression_null.
      destruct (Nat.eq_dec (length x) (length y)) as [Hlen|Hlen]; [|tauto].
      destruct (Nat.lt_ge_cases (length x) 2) as [Hshort|Hlong]; [tauto|].
      assert (Hne : x <> []) by (destruct x; simpl in Hlong; [lia|discriminate]).
      cbv [neq ExactReal ofZ]. rewrite ExactOrder.eqb_true.
      rewrite (ExactRegressionFacts.ssxx_zero_iff x y Hlen Hne). tauto.
    + intros fit Hfit Hy.
      destruct (linearRegression_count x y fit Hfit) as (_ & Hlen & Hlong).
      assert (Hne : y <> []) by (destruct y; simpl in Hlen; [lia|discriminate]).
      apply (linearRegression_r2_one x y fit Hfit).
      cbv [neq ExactReal ofZ]. apply ExactOrder.eqb_true.
      apply (ExactRegressionFacts.sst_zero_iff x y Hlen Hne). exact Hy.
Qed.

(** *** The noise source *)

Section Generator.
Context {num : Type} {N : Number num}.
Local Open Scope js_scope.

(** Whatever the arithmetic, a draw is a 32-bit unsigned integer divided
    by 2^32. *)
Lemma rngNext_shape (state : num) :
  exists n : Z,
    (0 <= n < 4294967296)%Z /\ fst (rngNext state) = ofZ n / ofZ 4294967296.
Proof.
  unfold rngNext. cbv zeta. cbn [fst].
  eexists. split; [|reflexivity].
  unfold ushr32 at 1. rewrite Z.shiftr_0_r. unfold u32.
  apply Z.mod_pos_bound. reflexivity.
Qed.
End Generator.

Section Sampler.
Context {num : Type} {N : Number num} {L : Libm num}.
Local Open Scope js_scope.

(** An enabled sampler stays the Box-Muller closure over the state of
    its generator, whatever calls were made. *)
Lemma afterCalls_enabled (scales : list num) :
  forall state, exists state', afterCalls (Gaussian state) scales = Gaussian state'.
Proof.
  induction scales as [|scale scales IH]; intros state; simpl.
  - exists state. reflexivity.
  - unfold noise. destruct (rngNext state) as [r1 state1].
    destruct (rngNext state1) as [u2 state2]. simpl. apply IH.
Qed.

(** A call makes two draws: the first is clamped, and the sampler keeps
    the state after the second. *)
Lemma noise_call (state scale : num) :
  noise (Gaussian state) scale
  = (boxMuller (clampedDraw (fst (rngNext state)))
               (fst (rngNext (snd (rngNext state)))) * scale,
     Gaussian (snd (rngNext (snd (rngNext state))))).
Proof.
  unfold noise. destruct (rngNext state) as [r1 state1]. cbn [fst snd].
  destruct (rngNext state1) as [u2 state2]. reflexivity.
Qed.
End Sampler.

Module ExactNoiseFacts.
Import ExactNoise.
Local Open Scope R_scope.


Lemma draw_in_unit_interval (state : R) : 0 <= fst (rngNext state) < 1.
Proof.
  destruct (rngNext_shape (N := ExactReal) state) as (n & [Hlo Hhi] & Heq).
  rewrite Heq. exact_ops. apply IZR_le in Hlo. apply IZR_lt in Hhi.
  split.
  - apply Rmult_le_pos; [exact Hlo|]. lra.
  - apply Rmult_lt_reg_r with 4294967296; [lra|]. field_simplify. lra.
Qed.

Lemma clampedDraw_range (u : R) : tiny <= clampedDraw u <= 1 - tiny.
Proof.
  unfold clampedDraw, clamp, tiny. exact_ops.
  unfold Rmin, Rmax. repeat (destruct (Rle_dec _ _)); lra.
Qed.

Lemma ln_monotone (a b : R) : 0 < a -> a <= b -> ln a <= ln b.
Proof.
  intros Ha [Hlt | ->]; [left; apply ln_increasing; assumption|right; reflexivity].
Qed.

(** Inside the clamp's range the logarithm and the square root are
    applied within their domains and the Box-Muller value is bounded. *)
Lemma boxMuller_bounded (u1 u2 : R) :
  tiny <= u1 <= 1 - tiny ->
  0 < u1 < 1 /\ 0 < -2 * ln u1 /\ Rabs (boxMuller u1 u2) <= zMax.
Proof.
  intros [Hlo Hhi]. unfold tiny in *.
  assert (Hpos : 0 < u1 < 1) by lra.
  assert (Hln : ln u1 < 0) by (rewrite <- ln_1; apply ln_increasing; lra).
  assert (Hln' : ln (1 / 100000000) <= ln u1) by (apply ln_monotone; lra).
  split; [exact Hpos|]. split; [lra|].
  unfold boxMuller, zMax, tiny. exact_ops. rewrite Rabs_mult.
  pose proof (COS_bound (2 * PI * u2)) as Hcos.
  pose proof (sqrt_pos (-2 * ln u1)) as Hs.
  assert (Hle : sqrt (-2 * ln u1) <= sqrt (-2 * ln (1 / 100000000)))
    by (apply sqrt_le_1_alt; lra).
  rewrite (Rabs_pos_eq _ Hs).
  assert (Hc : Rabs (cos (2 * PI * u2)) <= 1) by (apply Rabs_le; lra).
  pose proof (Rabs_pos (cos (2 * PI * u2))) as Hc0.
  apply Rle_trans with (sqrt (-2 * ln u1) * 1); [|lra].
  apply Rmult_le_compat_l; assumption.
Qed.


End ExactNoiseFacts.

Module IEEENoise.
Import IEEERange IEEEFinite.
Local Open Scope Z_scope.

(** A double of full mantissa over [2 ^ 32]: the exponent drops by 32. *)
Lemma SFdiv_pow32 (mx : positive) (e : Z) :
  digits2_pos mx = 53%positive -> -1000 <= e <= 900 ->
  SFdiv prec emax (S754_finite false mx e) (S754_finite false 4503599627370496 (-20))
  = S754_finite false mx (e - 32).
Proof.
  intros Hd He. cbn [SFdiv xorb]. unfold SFdiv_core_binary. cbv zeta.
  change (Zdigits2 (Z.pos mx)) with (Z.pos (digits2_pos mx)). rewrite Hd.
  change (Zdigits2 4503599627370496) with 53.
  rewrite fexp_is.
  replace (Z.min (Z.max (53 + e - (53 + -20) - 53) (-1074)) (e - -20)) with (e - 33) by lia.
  replace (e - -20 - (e - 33)) with 53 by lia.
  cbv iota. rewrite Z.shiftl_mul_pow2 by lia.
  assert (Hdiv : Z.div_eucl (Z.pos mx * 2 ^ 53) 4503599627370496 = (Z.pos mx~0, 0)).
  { assert (Hpair : forall a b, Z.div_eucl a b = (a / b, a mod b)).
    { intros a b. unfold Z.div, Z.modulo. destruct (Z.div_eucl a b); reflexivity. }
    rewrite Hpair.
    replace (Z.pos mx * 2 ^ 53) with (Z.pos mx~0 * 4503599627370496)
      by (change (2 ^ 53) with (2 * 4503599627370496); lia).
    rewrite Z.div_mul, Z.mod_mul by lia. reflexivity. }
  rewrite Hdiv.
  change (new_location 4503599627370496 0) with loc_Exact.
  unfold binary_round_aux, shr_fexp.
  change (Zdigits2 (Z.pos mx~0)) with (Z.pos (Pos.succ (digits2_pos mx))). rewrite Hd.
  rewrite fexp_is.
  replace (Z.max (Z.pos (Pos.succ 53) + (e - 33) - 53) (-1074) - (e - 33)) with 1 by lia.
  cbn [shr SpecFloat.iter_pos shr_1 shr_record_of_loc loc_of_shr_record shr_m shr_r shr_s
       orb round_nearest_even].
  change (Zdigits2 (Z.pos mx)) with (Z.pos (digits2_pos mx)). rewrite Hd.
  rewrite fexp_is.
  replace (Z.max (53 + (e - 33 + 1) - 53) (-1074) - (e - 33 + 1)) with 0 by lia.
  cbn [shr shr_record_of_loc shr_m].
  replace (e - 33 + 1 <=? emax - prec) with true
    by (symmetry; apply Z.leb_le; change (emax - prec) with 971; lia).
  f_equal. lia.
Qed.

Lemma ofZ_pow32 : Prim2SF (IEEE.ofZ 4294967296) = S754_finite false 4503599627370496 (-20).
Proof. vm_compute. reflexivity. Qed.

(** A draw of the generator, [n / 4294967296] with [n] below [2 ^ 32], is
    a zero or a positive double of exponent at most -53. *)
Lemma draw_shape (n : Z) :
  0 <= n < 4294967296 ->
  within (-53) (Prim2SF (ofZ n / ofZ 4294967296)%js)
  /\ signed false (Prim2SF (ofZ n / ofZ 4294967296)%js).
Proof.
  intros [Hlo Hhi].
  change (ofZ n / ofZ 4294967296)%js
    with (PrimFloat.div (IEEE.ofZ n) (IEEE.ofZ 4294967296)).
  rewrite div_spec, ofZ_pow32. unfold SF64div.
  destruct n as [|p|p]; try lia.
  - split; vm_compute; exact I.
  - assert (Hd : Z.pos (digits2_pos p) <= 32).
    { apply (Zdigits2_le (Z.pos p) 32); lia. }
    destruct (binary_round_small p ltac:(lia)) as (m & Hround & Hvalid & Hdigits).
    unfold IEEE.ofZ. cbn [binary_normalize].
    rewrite Hround, (Prim2SF_SF2Prim _ Hvalid).
    rewrite (SFdiv_pow32 m _ Hdigits) by lia.
    split; [cbn [within]; lia|reflexivity].
Qed.

Lemma within_number (k : Z) (x : float) : within k (Prim2SF x) -> is_nan x = false.
Proof.
  unfold is_nan. rewrite eqb_spec. unfold SFeqb.
  destruct (Prim2SF x) as [s|s| |s m e]; simpl; try contradiction; try reflexivity.
  intros _. rewrite Z.compare_refl, Pos.compare_cont_refl. destruct s; reflexivity.
Qed.

(** The draws lie in [0, 1) in doubles. *)
Lemma draws_in_doubles (state : float) :
  (ofZ 0 <=? fst (rngNext state))%js = true /\ (fst (rngNext state) <? ofZ 1)%js = true.
Proof.
  destruct (rngNext_shape (N := IEEE754) state) as (n & Hn & ->).
  destruct (draw_shape n Hn) as [Hw Hs].
  change (PrimFloat.leb (IEEE.ofZ 0) (ofZ n / ofZ 4294967296)%js = true
          /\ PrimFloat.ltb (ofZ n / ofZ 4294967296)%js (IEEE.ofZ 1) = true).
  rewrite leb_spec, ltb_spec.
  change (Prim2SF (IEEE.ofZ 0)) with (S754_zero false).
  change (Prim2SF (IEEE.ofZ 1)) with (S754_finite false 4503599627370496 (-52)).
  destruct (Prim2SF (ofZ n / ofZ 4294967296)%js) as [s|s| |s m e];
    simpl in Hw, Hs; try contradiction.
  - split; reflexivity.
  - subst s. unfold SFleb, SFltb. cbn [SFcompare].
    replace (e ?= -52) with Lt by (symmetry; apply Z.compare_lt_iff; lia).
    split; reflexivity.
Qed.

Section Finite.
Context {L : Libm float} (ranges : LibmRanges L).

(** One Box-Muller value is a zero or a double of exponent at most 3. *)
Lemma boxMuller_within (r1 u2 : float) :
  is_nan r1 = false -> within (-53) (Prim2SF u2) ->
  within 3 (Prim2SF (boxMuller (clampedDraw r1) u2)).
Proof.
  intros Hr1 Hu2. unfold boxMuller.
  assert (Hclamp : (lit 1 100000000 <=? clampedDraw (N := IEEE754) r1)%js = true
                   /\ (clampedDraw (N := IEEE754) r1 <=? ofZ 1 - lit 1 100000000)%js = true).
  { unfold clampedDraw.
    apply IEEEOrder.clamp_range; [exact Hr1| | |]; vm_compute; reflexivity. }
  destruct Hclamp as [Hlo Hhi].
  destruct (log_range ranges Hlo Hhi) as [Hlog1 Hlog2].
  set (l := Math_log (clampedDraw r1)) in *.
  change (PrimFloat.leb (IEEE.ofZ (-19)) l = true) in Hlog1.
  change (PrimFloat.leb l (IEEE.ofZ 0) = true) in Hlog2.
  assert (Hl : within (-48) (Prim2SF l)).
  { apply (leb_between (-48) (IEEE.ofZ (-19)) (IEEE.ofZ 0)); try assumption.
    - vm_compute. discriminate.
    - vm_compute. exact I. }
  assert (Hls : signed true (Prim2SF l)).
  { rewrite leb_spec in Hlog1, Hlog2.
    apply (SFleb_nonpositive (Prim2SF (IEEE.ofZ (-19))) _ false); try assumption.
    vm_compute. exact I. }
  assert (H2 : within (-51) (Prim2SF (IEEE.ofZ (-2))) /\ signed true (Prim2SF (IEEE.ofZ (-2)))).
  { split; vm_compute; [discriminate|reflexivity]. }
  destruct H2 as [H2w H2s].
  change (within 3 (Prim2SF (PrimFloat.mul
            (PrimFloat.sqrt (PrimFloat.mul (IEEE.ofZ (-2)) l))
            (Math_cos (PrimFloat.mul (PrimFloat.mul (IEEE.ofZ 2) Math_PI) u2))))).
  assert (Ha : within (-45) (Prim2SF (PrimFloat.mul (IEEE.ofZ (-2)) l))).
  { apply (mul_within (-51) (-48) (-46)); try assumption; lia. }
  assert (Has : signed false (Prim2SF (PrimFloat.mul (IEEE.ofZ (-2)) l))).
  { apply (mul_signed true true (-51) (-48) (-46)); try assumption; lia. }
  destruct (sqrt_within _ (within_le (-45) 0 _ ltac:(lia) Ha) Has) as [Hsq _].
  destruct (PI_range ranges) as [Hpi1 Hpi2].
  change (PrimFloat.leb (IEEE.ofZ 3) Math_PI = true) in Hpi1.
  change (PrimFloat.leb Math_PI (IEEE.ofZ 4) = true) in Hpi2.
  assert (Hpi : within (-50) (Prim2SF Math_PI)).
  { apply (leb_between (-50) (IEEE.ofZ 3) (IEEE.ofZ 4)); try assumption;
      vm_compute; discriminate. }
  assert (H2pi : within (-47) (Prim2SF (PrimFloat.mul (IEEE.ofZ 2) Math_PI))).
  { apply (mul_within (-51) (-50) (-48)); try assumption; try lia.
    all: try (vm_compute; discriminate). }
  assert (Harg : within (-46) (Prim2SF (PrimFloat.mul (PrimFloat.mul (IEEE.ofZ 2) Math_PI) u2))).
  { apply (mul_within (-47) (-53) (-47)); try assumption; lia. }
  destruct (cos_range ranges (within_finite _ _ Harg)) as [Hc1 Hc2].
  set (c := Math_cos (PrimFloat.mul (PrimFloat.mul (IEEE.ofZ 2) Math_PI) u2)) in *.
  change (PrimFloat.leb (IEEE.ofZ (-1)) c = true) in Hc1.
  change (PrimFloat.leb c (IEEE.ofZ 1) = true) in Hc2.
  assert (Hc : within (-52) (Prim2SF c)).
  { apply (leb_between (-52) (IEEE.ofZ (-1)) (IEEE.ofZ 1)); try assumption;
      vm_compute; discriminate. }
  apply (mul_within 1 (-52) 2); try assumption; lia.
Qed.

(** A call of the sampler returns a finite double, for every state of
    the generator and every scale within [-1, 1]. *)
Lemma noise_finite (sampler : NoiseSampler float) (scale : float) :
  (ofZ (-1) <=? scale)%js = true -> (scale <=? ofZ 1)%js = true ->
  finiteDouble (fst (noise sampler scale)).
Proof.
  intros Hs1 Hs2. destruct sampler as [|state].
  - vm_compute. reflexivity.
  - unfold noise.
    destruct (rngNext state) as [r1 state1] eqn:H1.
    destruct (rngNext state1) as [u2 state2] eqn:H2. cbn [fst].
    assert (Hr1 : within (-53) (Prim2SF r1)).
    { destruct (rngNext_shape (N := IEEE754) state) as (n & Hn & Heq).
      rewrite H1 in Heq. cbn [fst] in Heq. rewrite Heq. apply (draw_shape n Hn). }
    assert (Hu2 : within (-53) (Prim2SF u2)).
    { destruct (rngNext_shape (N := IEEE754) state1) as (n & Hn & Heq).
      rewrite H2 in Heq. cbn [fst] in Heq. rewrite Heq. apply (draw_shape n Hn). }
    pose proof (boxMuller_within r1 u2 (within_number _ _ Hr1) Hu2) as Hz.
    assert (Hscale : within (-52) (Prim2SF scale)).
    { apply (leb_between (-52) (IEEE.ofZ (-1)) (IEEE.ofZ 1)); try assumption;
        vm_compute; discriminate. }
    apply (within_finite 5).
    apply (mul_within 3 (-52) 4); try assumption; lia.
Qed.
End Finite.

Lemma constantLibm_ranges : LibmRanges constantLibm.
Proof.
  constructor; intros; split; vm_compute; reflexivity.
Qed.
End IEEENoise.

(** C9.  Whatever the arithmetic and whatever [Math], a uniform draw is
    an integer of [0, 2^32) divided by 2^32, and a call [noise(scale)] of
    the sampler built for a seed, after any number of earlier calls,
    returns [sqrt(-2 log u1) * cos(2 PI u2) * scale], where [u1] is the
    clamped first draw and [u2] the second draw of the generator.  In
    binary64 arithmetic every draw lies in [0, 1), the clamp sends every
    number that is not NaN into [1e-8, 1 - 1e-8], and the value a call
    returns is finite (neither NaN nor an infinity) for every seed, every
    number of earlier calls and every scale within [-1, 1], with noise
    enabled or not, for every [Math] whose logarithm of a number within
    [1e-8, 1 - 1e-8] lies within [-19, 0], whose cosine of a finite
    number lies within [-1, 1] and whose [PI] lies within [3, 4].  In
    exact arithmetic the draws lie in [0, 1), the clamped draw in
    [1e-8, 1 - 1e-8], the logarithm is taken of a number in (0, 1), the
    square root of a positive number, and the value returned has
    magnitude at most [sqrt(-2 ln 1e-8) * |scale|]. *)
Theorem noise_sampler_finite :
  (forall (num : Type) (N : Number num) (state : num),
      exists n : Z,
        (0 <= n < 4294967296)%Z
        /\ fst (rngNext state) = (ofZ n / ofZ 4294967296)%js)
  /\ (forall (num : Type) (N : Number num) (L : Libm num)
             (seed : num) (earlier : list num) (scale : num),
         exists state : num,
           afterCalls (buildNoiseSampler seed true) earlier = Gaussian state
           /\ noise (afterCalls (buildNoiseSampler seed true) earlier) scale
              = ((Math_sqrt (ofZ (-2) * Math_log (clampedDraw (fst (rngNext state))))
                  * Math_cos (ofZ 2 * Math_PI * fst (rngNext (snd (rngNext state))))
                  * scale)%js,
                 Gaussian (snd (rngNext (snd (rngNext state))))))
  /\ (forall state : float,
         (ofZ 0 <=? fst (rngNext state))%js = true
         /\ (fst (rngNext state) <? ofZ 1)%js = true)
  /\ (forall u : float,
         is_nan u = false ->
         (lit 1 100000000 <=? clampedDraw (N := IEEE754) u)%js = true
         /\ (clampedDraw (N := IEEE754) u <=? ofZ 1 - lit 1 100000000)%js = true)
  /\ (forall L : Libm float,
         IEEERange.LibmRanges L ->
         forall (enabled : bool) (seed : float) (earlier : list float) (scale : float),
           (ofZ (-1) <=? scale)%js = true -> (scale <=? ofZ 1)%js = true ->
           IEEERange.finiteDouble
             (fst (noise (afterCalls (buildNoiseSampler seed enabled) earlier) scale)))
  /\ (forall state : R, (0 <= fst (rngNext state) < 1)%R)
  /\ (forall u : R, (1 / 100000000 <= clampedDraw u <= 1 - 1 / 100000000)%R)
  /\ (forall (seed : R) (earlier : list R) (scale : R),
         exists state : R,
           afterCalls (buildNoiseSampler seed true) earlier = Gaussian state
           /\ (0 < clampedDraw (fst (rngNext state)) < 1)%R
           /\ (0 < -2 * ln (clampedDraw (fst (rngNext state))))%R
           /\ fst (noise (Gaussian state) scale)
              = (sqrt (-2 * ln (clampedDraw (fst (rngNext state))))
                 * cos (2 * PI * fst (rngNext (snd (rngNext state)))) * scale)%R
           /\ (Rabs (fst (noise (Gaussian state) scale))
               <= sqrt (-2 * ln (1 / 100000000)) * Rabs scale)%R).
Proof.
  refine (conj _ (conj _ (conj _ (conj _ (conj _ (conj _ (conj _ _))))))).
  - intros num N state. apply rngNext_shape.
  - intros num N L seed earlier scale.
    change (buildNoiseSampler seed true) with (Gaussian (createRng seed)).
    destruct (afterCalls_enabled earlier (createRng seed)) as [state Hstate].
    exists state. rewrite Hstate. split; [reflexivity|]. apply noise_call.
  - exact IEEENoise.draws_in_doubles.
  - intros u Hu. unfold clampedDraw.
    apply IEEEOrder.clamp_range; [exact Hu| | |]; vm_compute; reflexivity.
  - intros L ranges enabled seed earlier scale Hlow Hhigh.
    apply IEEENoise.noise_finite; assumption.
  - exact ExactNoiseFacts.draw_in_unit_interval.
  - exact ExactNoiseFacts.clampedDraw_range.
  - intros seed earlier scale.
    change (buildNoiseSampler seed true) with (Gaussian (createRng seed)).
    destruct (afterCalls_enabled earlier (createRng seed)) as [state Hstate].
    exists state. split; [exact Hstate|].
    rewrite (noise_call state scale). cbn [fst].
    destruct (ExactNoiseFacts.boxMuller_bounded
                (clampedDraw (fst (rngNext state)))
                (fst (rngNext (snd (rngNext state))))
                (ExactNoiseFacts.clampedDraw_range _)) as (Hu1 & Hlog & Hz).
    refine (conj Hu1 (conj Hlog (conj _ _))).
    + reflexivity.
    + rewrite Rabs_mult. apply Rmult_le_compat_r; [apply Rabs_pos|exact Hz].
Qed.

(** *** The physics result *)

Section PhysicsShape.
Context {num : Type} {N : Number num}.
Local Open Scope js_scope.

(** What [computeTrialPhysics] returns, read off its three exits. *)
Lemma computeTrialPhysics_shape (input : TrialInput num) (physics : TrialPhysics num) :
  computeTrialPhysics input = Some physics ->
  getScenarioConfig input = Some (config physics)
  /\ hangingMassKg physics = input_hangingMassKg input
  /\ pullingForceN physics = input_hangingMassKg input * G
  /\ moved physics
     = negb (pullingForceN physics <=? startThresholdN (config physics))
       && negb (computedAcceleration (config physics) (hangingMassKg physics) <=? ofZ 0)
  /\ (moved physics = false ->
      accelerationMps2 physics = ofZ 0
      /\ tensionN physics = pullingForceN physics
      /\ travelTimeS physics = None)
  /\ (moved physics = true ->
      accelerationMps2 physics
      = computedAcceleration (config physics) (hangingMassKg physics)
      /\ travelTimeS physics
         = Some (Math_sqrt (ofZ 2 * TRACK_LENGTH_M / accelerationMps2 physics))).
Proof.
  unfold computeTrialPhysics.
  destruct (getScenarioConfig input) as [cfg|]; [|discriminate].
  destruct (input_hangingMassKg input * G <=? startThresholdN cfg) eqn:Hthreshold.
  - intros Hp. injection Hp as <-. cbn. rewrite Hthreshold.
    repeat split; try reflexivity; discriminate.
  - unfold computedAcceleration.
    destruct ((input_hangingMassKg input * G - dragN cfg)
              / (systemMassKg cfg + input_hangingMassKg input) <=? ofZ 0) eqn:Haccel;
      intros Hp; injection Hp as <-; cbn; rewrite Hthreshold, Haccel;
      repeat split; try reflexivity; discriminate.
Qed.

Lemma getScenarioConfig_known (input : TrialInput num) :
  getScenarioConfig input = None <-> getPresetById (N := N) (input_presetId input) = None.
Proof.
  unfold getScenarioConfig.
  destruct (getPresetById (input_presetId input)); split; intros; congruence.
Qed.

Lemma computeTrialPhysics_returns (input : TrialInput num) :
  computeTrialPhysics input = None <-> getPresetById (N := N) (input_presetId input) = None.
Proof.
  rewrite <- getScenarioConfig_known. unfold computeTrialPhysics.
  destruct (getScenarioConfig input) as [cfg|]; [|tauto].
  destruct (_ <=? startThresholdN cfg); [split; discriminate|].
  destruct (_ <=? ofZ 0); split; discriminate.
Qed.
End PhysicsShape.





(** *** The statements at sample inputs *)


Lemma noise_sampler_finite_witness :
  ((lit 1 100000000 <=? clampedDraw (N := IEEE754) 0%float)%js = true
   /\ (clampedDraw (N := IEEE754) 0%float <=? ofZ 1 - lit 1 100000000)%js = true)
  /\ clampedDraw (N := IEEE754) 0%float = lit 1 100000000
  /\ IEEERange.finiteDouble
       (fst (noise (L := IEEERange.constantLibm)
               (afterCalls (L := IEEERange.constantLibm)
                  (buildNoiseSampler (ofZ 7) true) [lit 1 100; lit 6 1000])
               (lit 1 100))).
Proof.
  split; [|split].
  - apply (proj1 (proj2 (proj2 (proj2 noise_sampler_finite))) 0%float). reflexivity.
  - vm_compute. reflexivity.
  - apply (proj1 (proj2 (proj2 (proj2 (proj2 noise_sampler_finite))))
             IEEERange.constantLibm IEEENoise.constantLibm_ranges
             true (ofZ 7) [lit 1 100; lit 6 1000] (lit 1 100));
      vm_compute; reflexivity.
Defined.

Lemma measurement_gating_witness :
  State.forceMeanN
    (State.measurement
       (updateMeasurementValues (N := IEEE754)
          (Examples.stateWith
             (Some {| startS := lit 1 10; endS := lit 15 100 |})
             (Some {| startS := lit 1 10; endS := lit 3 10 |}))))
  = None
  /\ State.accelerationMps2
       (State.measurement
          (updateMeasurementValues (N := IEEE754)
             (Examples.stateWith
                (Some {| startS := lit 1 10; endS := lit 15 100 |})
                (Some {| startS := lit 1 10; endS := lit 3 10 |}))))
     = None.
Proof.
  pose proof (measurement_gating float IEEE754 IEEE754_order
                (Examples.stateWith
                   (Some {| startS := lit 1 10; endS := lit 15 100 |})
                   (Some {| startS := lit 1 10; endS := lit 3 10 |})))
    as (Hforce & Hvelocity & _).
  split.
  - refine (proj1 (Hforce _ _ eq_refl eq_refl) _).
    left. vm_compute. reflexivity.
  - refine (proj1 (Hvelocity _ _ eq_refl eq_refl) _).
    right. vm_compute. lia.
Defined.

Lemma linearRegression_degenerate_witness :
  Regression.linearRegression (N := ExactReal) [1; 1; 1]%R [1; 2; 3]%R = None
  /\ Regression.linearRegression (N := IEEE754) [1; 1; 1]%float [1; 2; 3]%float = None.
Proof.
  split.
  - apply (proj1 (proj2 linearRegression_degenerate [1; 1; 1]%R [1; 2; 3]%R)).
    right. right. intros a b Ha Hb. simpl in Ha, Hb.
    repeat match goal with H : _ \/ _ |- _ => destruct H end;
      try contradiction; subst; reflexivity.
  - apply (proj1 (proj1 linearRegression_degenerate float IEEE754
                    [1; 1; 1]%float [1; 2; 3]%float)).
    right. right. vm_compute. reflexivity.
Defined.

(** *** The repository's tests, evaluated in binary64 arithmetic *)

Section RepositoryTests.
Local Open Scope float_scope.

(** The literals [0.7], [0.1], [1.2], [1.1] and [1e-8] are the doubles
    the embedding's [lit] computes. *)
Lemma lit_is_the_literal :
  lit (N := IEEE754) 7 10 = 0x1.6666666666666p-1
  /\ lit (N := IEEE754) 1 10 = 0x1.999999999999ap-4
  /\ lit (N := IEEE754) 12 10 = 0x1.3333333333333p+0
  /\ lit (N := IEEE754) 11 10 = 0x1.199999999999ap+0
  /\ lit (N := IEEE754) 1 100000000 = 0x1.5798ee2308c3ap-27.
Proof. repeat split; vm_compute; reflexivity. Qed.

(** regression.test.js, "meanInWindow computes the average from selected
    values". *)
Lemma test_meanInWindow :
  Regression.meanInWindow (N := IEEE754)
    [0; 0.5; 1; 1.5; 2] [2; 4; 6; 8; 10] 0.5 1.5 = 6.
Proof. vm_compute. reflexivity. Qed.

(** physics.test.js, "cart_only uses configured drag and returns expected
    acceleration" and "start threshold blocks low-force motion". *)
Lemma test_computeTrialPhysics :
  option_map (fun p => (moved p, pullingForceN p, accelerationMps2 p))
    (computeTrialPhysics (N := IEEE754)
       {| input_scenario := cart_only; input_presetId := "low";
          input_hangingMassKg := lit 4 10 |})
  = Some (true, lit 4 10 * lit 981 100,
          (lit 4 10 * lit 981 100 - lit 6 100) / (lit 5 10 + lit 4 10))%js
  /\ option_map (fun p => (moved p, accelerationMps2 p, travelTimeS p))
       (computeTrialPhysics (N := IEEE754)
          {| input_scenario := cart_plus_pad; input_presetId := "high";
             input_hangingMassKg := lit 1 10 |})
     = Some (false, 0, None).
Proof. split; vm_compute; reflexivity. Qed.
(** signals.test.js, "moved trial includes ordered phases and stop
    segment": the phase boundaries for the default duration. *)
Lemma test_ordered_phases :
  match computeTrialPhysics (N := IEEE754)
          {| input_scenario := cart_only; input_presetId := "low";
             input_hangingMassKg := lit 4 10 |} with
  | Some physics =>
      (initialStart (N := IEEE754) <? accelStart)%js = true
      /\ (accelStart <? accelEnd physics (lit 45 10))%js = true
      /\ (accelEnd physics (lit 45 10) <? stopEnd physics (lit 45 10))%js = true
  | None => False
  end.
Proof. vm_compute. repeat split. Qed.

(** The least and the greatest uniform draw, and the clamp at them. *)
Lemma draw_extremes :
  (ofZ 0 / ofZ 4294967296)%js = 0
  /\ ((ofZ 4294967295 / ofZ 4294967296)%js <? 1) = true
  /\ clampedDraw (N := IEEE754) (ofZ 0 / ofZ 4294967296)%js = lit 1 100000000
  /\ clampedDraw (N := IEEE754) (ofZ 4294967295 / ofZ 4294967296)%js
     = (ofZ 1 - lit 1 100000000)%js.
Proof. repeat split; vm_compute; reflexivity. Qed.
End RepositoryTests.

(* ================================================================== *)
(** ** Line fits and window statistics ([regression.js]) *)

Module ExactFitFacts.
Local Open Scope R_scope.

(** The residual of the line through the means, with any slope, against
    the three sums of squares. *)
Lemma residual_expand (s xm ym : R) (l : list (R * R)) :
  forall r a b c,
    fold_left (fun r p => r + (snd p - (s * fst p + (ym - s * xm)))
                              * (snd p - (s * fst p + (ym - s * xm)))) l r
    + 2 * s * fold_left (fun t p => t + (fst p - xm) * (snd p - ym)) l b
    = r + 2 * s * b - c - s * s * a
      + fold_left (fun t p => t + (snd p - ym) * (snd p - ym)) l c
      + s * s * fold_left (fun t p => t + (fst p - xm) * (fst p - xm)) l a.
Proof.
  induction l as [|p l IH]; intros r a b c; simpl; [lra|].
  rewrite (IH _ (a + (fst p - xm) * (fst p - xm)) (b + (fst p - xm) * (snd p - ym))
              (c + (snd p - ym) * (snd p - ym))).
  lra.
Qed.

Lemma pair_squares_nonneg (f : R * R -> R) (l : list (R * R)) :
  forall a, 0 <= a -> 0 <= fold_left (fun t p => t + f p * f p) l a.
Proof.
  induction l as [|p l IH]; intros a Ha; simpl; [exact Ha|].
  apply IH. pose proof (Rle_0_sqr (f p)) as Hsq. unfold Rsqr in Hsq. lra.
Qed.

Lemma sums_exact (x y : list R) :
  Regression.sumsOfSquares x y
  = (fold_left (fun t p => t + (fst p - Regression.mean x) * (fst p - Regression.mean x))
       (combine x y) 0,
     fold_left (fun t p => t + (fst p - Regression.mean x) * (snd p - Regression.mean y))
       (combine x y) 0,
     fold_left (fun t p => t + (snd p - Regression.mean y) * (snd p - Regression.mean y))
       (combine x y) 0).
Proof.
  unfold Regression.sumsOfSquares. rewrite fold_accumulate. reflexivity.
Qed.

(** In exact arithmetic the residual of the fitted line is
    [sst - ssxy^2 / ssxx]. *)
Lemma residual_of_fit (x y : list R) :
  Regression.ssxxOf x y <> 0 ->
  let slope := Regression.ssxyOf x y / Regression.ssxxOf x y in
  Regression.residualOf slope (Regression.mean y - slope * Regression.mean x) x y
  = Regression.sstOf x y
    - Regression.ssxyOf x y * Regression.ssxyOf x y / Regression.ssxxOf x y.
Proof.
  intros Hne slope. subst slope.
  unfold Regression.residualOf. exact_ops.
  unfold Regression.ssxxOf, Regression.ssxyOf, Regression.sstOf in *.
  rewrite sums_exact in *. cbn [fst snd] in *.
  set (A := fold_left (fun t p => t + (fst p - Regression.mean x) * (fst p - Regression.mean x)) _ 0) in *.
  set (B := fold_left (fun t p => t + (fst p - Regression.mean x) * (snd p - Regression.mean y)) _ 0) in *.
  set (C := fold_left (fun t p => t + (snd p - Regression.mean y) * (snd p - Regression.mean y)) _ 0) in *.
  pose proof (residual_expand (B / A) (Regression.mean x) (Regression.mean y)
                (combine x y) 0 0 0 0) as H.
  fold A B C in H. clearbody A B C.
  set (Rs := fold_left _ _ 0) in *.
  assert (HRs : Rs = C - 2 * (B / A) * B + (B / A) * (B / A) * A) by lra.
  rewrite HRs. field. exact Hne.
Qed.

(** The residual of any line [(s, i)] against the sums about [(xm, ym)]. *)
Lemma residual_any_line (s i xm ym : R) (l : list (R * R)) :
  forall r a b c sx sy,
    fold_left (fun r p => r + (snd p - (s * fst p + i)) * (snd p - (s * fst p + i))) l r
    + 2 * s * fold_left (fun t p => t + (fst p - xm) * (snd p - ym)) l b
    + 2 * (ym - s * xm - i) * s * fold_left (fun t p => t + (fst p - xm)) l sx
    = r + 2 * s * b - c - s * s * a
      + 2 * (ym - s * xm - i) * s * sx - 2 * (ym - s * xm - i) * sy
      + fold_left (fun t p => t + (snd p - ym) * (snd p - ym)) l c
      + s * s * fold_left (fun t p => t + (fst p - xm) * (fst p - xm)) l a
      + 2 * (ym - s * xm - i) * fold_left (fun t p => t + (snd p - ym)) l sy
      + INR (length l) * ((ym - s * xm - i) * (ym - s * xm - i)).
Proof.
  induction l as [|p l IH]; intros r a b c sx sy.
  - simpl. lra.
  - cbn [fold_left length]. rewrite S_INR.
    pose proof (IH (r + (snd p - (s * fst p + i)) * (snd p - (s * fst p + i)))
                   (a + (fst p - xm) * (fst p - xm)) (b + (fst p - xm) * (snd p - ym))
                   (c + (snd p - ym) * (snd p - ym)) (sx + (fst p - xm))
                   (sy + (snd p - ym))) as H.
    lra.
Qed.

Lemma deviations_acc (m : R) (x : list R) :
  forall a, fold_left (fun t v => t + (v - m)) x a
            = a + fold_left (fun t v => t + v) x 0 - INR (length x) * m.
Proof.
  induction x as [|v x IH]; intros a.
  - simpl. lra.
  - cbn [fold_left length]. rewrite S_INR, IH, (ExactRegressionFacts.sum_acc x (0 + v)). lra.
Qed.

(** The deviations from the mean sum to zero. *)
Lemma deviations_zero (x : list R) :
  x <> [] -> fold_left (fun t v => t + (v - Regression.mean x)) x 0 = 0.
Proof.
  intros Hne. rewrite deviations_acc.
  unfold Regression.mean, Regression.sum. destruct x as [|w x]; [congruence|].
  change (Nat.eqb (length (w :: x)) 0) with false. cbv iota.
  unfold lengthOf. exact_ops. rewrite <- INR_IZR_INZ.
  field. apply not_0_INR. discriminate.
Qed.

(** The residual of any line exceeds that of the fitted line by
    [ssxx * (s - slope)^2 + n * (yMean - s * xMean - i)^2]. *)
Lemma residual_decomposition (x y : list R) (s i : R) :
  length x = length y -> x <> [] -> Regression.ssxxOf x y <> 0 ->
  let slope := Regression.ssxyOf x y / Regression.ssxxOf x y in
  let d := Regression.mean y - s * Regression.mean x - i in
  Regression.residualOf s i x y
  = Regression.residualOf slope (Regression.mean y - slope * Regression.mean x) x y
    + Regression.ssxxOf x y * ((s - slope) * (s - slope))
    + INR (length x) * (d * d).
Proof.
  intros Hlen Hne Hssxx slope d. subst slope.
  rewrite (residual_of_fit x y Hssxx).
  assert (Hney : y <> []) by (destruct x, y; simpl in Hlen; congruence).
  pose proof (residual_any_line s i (Regression.mean x) (Regression.mean y)
                (combine x y) 0 0 0 0 0 0) as H.
  rewrite (fold_combine_fst (fun t v => t + (v - Regression.mean x)) x y 0 Hlen) in H.
  rewrite (fold_combine_snd (fun t v => t + (v - Regression.mean y)) x y 0 Hlen) in H.
  rewrite (deviations_zero x Hne), (deviations_zero y Hney) in H.
  rewrite length_combine, <- Hlen, Nat.min_id in H.
  fold d in H.
  unfold Regression.residualOf. exact_ops.
  unfold Regression.ssxxOf, Regression.ssxyOf, Regression.sstOf in *.
  rewrite sums_exact in *. cbn [fst snd] in *.
  set (A := fold_left (fun t p => t + (fst p - Regression.mean x) * (fst p - Regression.mean x)) _ 0) in *.
  set (B := fold_left (fun t p => t + (fst p - Regression.mean x) * (snd p - Regression.mean y)) _ 0) in *.
  set (C := fold_left (fun t p => t + (snd p - Regression.mean y) * (snd p - Regression.mean y)) _ 0) in *.
  clearbody A B C.
  set (Rs := fold_left _ (combine x y) 0) in *.
  assert (HRs : Rs = C - 2 * s * B + s * s * A + INR (length x) * (d * d)) by lra.
  rewrite HRs. field. exact Hssxx.
Qed.

Lemma fit_parts (x y : list R) (fit : Regression.FitResult R) :
  Regression.linearRegression x y = Some fit ->
  length x = length y /\ x <> [] /\ Regression.ssxxOf x y <> 0
  /\ Regression.slope fit = Regression.ssxyOf x y / Regression.ssxxOf x y
  /\ Regression.intercept fit
     = Regression.mean y - Regression.slope fit * Regression.mean x
  /\ Regression.r2 fit
     = (if Exact.eqb (Regression.sstOf x y) 0 then 1
        else 1 - Regression.residualOf (Regression.slope fit) (Regression.intercept fit) x y
                 / Regression.sstOf x y).
Proof.
  intros Hfit.
  destruct (linearRegression_count x y fit Hfit) as (_ & Hlen & Hlong).
  rewrite linearRegression_unfold in Hfit.
  destruct (rejected x y); [discriminate|].
  destruct (Regression.ssxxOf x y === ofZ 0)%js eqn:Hz; [discriminate|].
  injection Hfit as <-. cbn. exact_ops.
  apply ExactOrder.eqb_false in Hz.
  repeat split; try assumption; try reflexivity.
  destruct x; simpl in Hlong; [lia|discriminate].
Qed.

Lemma ssxx_positive (x y : list R) :
  Regression.ssxxOf x y <> 0 -> 0 < Regression.ssxxOf x y.
Proof.
  intros Hne. unfold Regression.ssxxOf in *. rewrite sums_exact in *. cbn [fst snd] in *.
  pose proof (pair_squares_nonneg (fun p => fst p - Regression.mean x) (combine x y) 0
                (Rle_refl 0)) as H.
  lra.
Qed.

Lemma residual_nonneg (s i : R) (x y : list R) : 0 <= Regression.residualOf s i x y.
Proof.
  unfold Regression.residualOf. exact_ops.
  apply (pair_squares_nonneg (fun p => snd p - (s * fst p + i))). lra.
Qed.

Lemma residual_on_line (m c : R) (x : list R) :
  Regression.residualOf m c x (map (fun v => m * v + c) x) = 0.
Proof.
  unfold Regression.residualOf. exact_ops.
  induction x as [|v x IH]; [reflexivity|].
  cbn [map combine fold_left fst snd].
  replace (0 + (m * v + c - (m * v + c)) * (m * v + c - (m * v + c))) with 0 by ring.
  exact IH.
Qed.
End ExactFitFacts.

Local Open Scope R_scope.

Module ExactLineFit.
Local Open Scope R_scope.

(** Points on a line that do not share one abscissa are fitted by that
    line. *)
Lemma fit_of_line (m c : R) (x : list R) :
  (2 <= length x)%nat -> ~ ExactRegression.allEqual x ->
  Regression.linearRegression x (map (fun v => m * v + c) x)
  = Some {| Regression.slope := m; Regression.intercept := c;
            Regression.r2 := 1; Regression.count := length x |}.
Proof.
  intros Hlong Hvar. set (y := map (fun v => m * v + c) x).
  assert (Hlen : length x = length y) by (unfold y; rewrite length_map; reflexivity).
  assert (Hne : x <> []) by (destruct x; simpl in Hlong; [lia|discriminate]).
  assert (Hssxx : Regression.ssxxOf x y <> 0).
  { intros Hz. apply Hvar. apply (ExactRegressionFacts.ssxx_zero_iff x y Hlen Hne). exact Hz. }
  destruct (Regression.linearRegression x y) as [fit|] eqn:Hfit.
  - destruct (ExactFitFacts.fit_parts x y fit Hfit) as (_ & _ & _ & Hs & Hi & Hr).
    destruct (linearRegression_count x y fit Hfit) as (Hcount & _ & _).
    pose proof (ExactFitFacts.residual_decomposition x y m c Hlen Hne Hssxx) as Hdec.
    cbv zeta in Hdec. rewrite <- Hs, <- Hi in Hdec.
    unfold y in Hdec at 1. rewrite ExactFitFacts.residual_on_line in Hdec. fold y in Hdec.
    pose proof (ExactFitFacts.residual_nonneg (Regression.slope fit) (Regression.intercept fit) x y) as Hres.
    pose proof (ExactFitFacts.ssxx_positive x y Hssxx) as Hpos.
    assert (Hn : 0 < INR (length x)) by (apply lt_0_INR; lia).
    set (e := m - Regression.slope fit) in *.
    set (d := Regression.mean y - m * Regression.mean x - c) in *.
    pose proof (Rle_0_sqr e) as He. pose proof (Rle_0_sqr d) as Hd. unfold Rsqr in He, Hd.
    pose proof (Rmult_le_pos _ _ (Rlt_le _ _ Hpos) He) as H1.
    pose proof (Rmult_le_pos _ _ (Rlt_le _ _ Hn) Hd) as H2.
    assert (Hres0 : Regression.residualOf (Regression.slope fit) (Regression.intercept fit) x y = 0) by lra.
    assert (He0 : e * e = 0).
    { assert (Hz : Regression.ssxxOf x y * (e * e) = 0) by lra.
      apply Rmult_integral in Hz. lra. }
    assert (Hd0 : d * d = 0).
    { assert (Hz : INR (length x) * (d * d) = 0) by lra.
      apply Rmult_integral in Hz. lra. }
    apply Rmult_integral in He0. apply Rmult_integral in Hd0.
    assert (Hslope : Regression.slope fit = m) by (unfold e in He0; lra).
    assert (Hint : Regression.intercept fit = c).
    { rewrite Hi, Hslope. unfold d in Hd0. lra. }
    assert (Hr2 : Regression.r2 fit = 1).
    { rewrite Hr, Hres0. destruct (Exact.eqb (Regression.sstOf x y) 0); [reflexivity|].
      unfold Rdiv. lra. }
    destruct fit as [fs fi fr fc]. cbn in Hslope, Hint, Hr2, Hcount.
    rewrite Hslope, Hint, Hr2, Hcount. reflexivity.
  - apply linearRegression_null in Hfit. destruct Hfit as [H|[H|H]]; try lia.
    exfalso. apply Hssxx. apply ExactOrder.eqb_true. exact H.
Qed.
End ExactLineFit.

(** X3. Points on a line are fitted by that line.  In binary64
    arithmetic, for every line [y = m x + c] with integers [m] and [c]
    between -10 and 10, sampled at [x = 0, 1, ..., 9]: [linearRegression]
    returns exactly [{slope: m, intercept: c, r2: 1, count: 10}].  In
    exact arithmetic this holds of every line and of every two or more
    abscissas that are not all equal.  In binary64 arithmetic
    coefficients that are not doubles are not recovered: the points of
    [y = 0.1 x + 0.2] at [x = 1, 2, 3] are fitted with another slope. *)
Theorem linearRegression_recovers_line :
  (let coefficients := map (fun k => (Z.of_nat k - 10)%Z) (seq 0 21) in
   let xs := map (fun k => ofZ (Z.of_nat k)) (seq 0 10) in
   forallb
     (fun m => forallb (fun c => recoversLine (N := IEEE754) xs (ofZ m) (ofZ c)) coefficients)
     coefficients = true)
  /\ (forall (m c : R) (x : list R),
         (2 <= length x)%nat -> ~ ExactRegression.allEqual x ->
         Regression.linearRegression x (map (fun v => m * v + c) x)
         = Some {| Regression.slope := m; Regression.intercept := c;
                   Regression.r2 := 1; Regression.count := length x |})
  /\ recoversLine (N := IEEE754) [ofZ 1; ofZ 2; ofZ 3] (lit 1 10) (lit 2 10) = false.
Proof.
  refine (conj _ (conj _ _)); [vm_compute; reflexivity| |vm_compute; reflexivity].
  exact ExactLineFit.fit_of_line.
Qed.

Lemma linearRegression_recovers_line_witness :
  Regression.linearRegression [0; 1] (map (fun v => 3 * v + 2) [0; 1])
  = Some {| Regression.slope := 3; Regression.intercept := 2;
            Regression.r2 := 1; Regression.count := 2 |}.
Proof.
  apply (proj1 (proj2 linearRegression_recovers_line) 3 2 [0; 1]).
  - simpl. lia.
  - intros H. specialize (H 0 1 (or_introl eq_refl) (or_intror (or_introl eq_refl))). lra.
Defined.

Section WindowLocality.
Context {num : Type} {N : Number num}.
Local Open Scope js_scope.

(** The loop of [sliceWindow] reads [values] only at the indices whose
    time is selected. *)
Lemma sliceLoop_agree (start end_ : num) (ts : list num) :
  forall vs vs' : list num,
    (forall k, (k < length ts)%nat ->
               (nth k ts NaN >=? start) && (nth k ts NaN <=? end_) = true ->
               nth k vs NaN = nth k vs' NaN) ->
    Regression.sliceLoop start end_ ts vs = Regression.sliceLoop start end_ ts vs'.
Proof.
  induction ts as [|time ts IH]; intros vs vs' Hagree; [reflexivity|].
  cbn [Regression.sliceLoop].
  assert (Hrest : Regression.sliceLoop start end_ ts (tl vs)
                  = Regression.sliceLoop start end_ ts (tl vs')).
  { apply IH. intros k Hk Hin.
    specialize (Hagree (S k) ltac:(simpl; lia) Hin).
    destruct vs, vs'; simpl in *; try assumption; destruct k; assumption. }
  rewrite Hrest.
  destruct ((time >=? start) && (time <=? end_)) eqn:Hin; [|reflexivity].
  specialize (Hagree 0%nat ltac:(simpl; lia) Hin).
  destruct vs, vs'; simpl in *; rewrite ?Hagree; reflexivity.
Qed.
End WindowLocality.

(** X4. Whatever the arithmetic, the statistics of a window depend only
    on the samples inside it: two value sequences that agree at every
    index whose time lies in the window (bounds included, in either
    order) have the same [meanInWindow] and the same
    [linearRegressionInWindow] (regression.test.js, "uses only the
    selected interval"). *)
Theorem window_statistics_ignore_outside
  (num : Type) (N : Number num) (ts vs vs' : list num) (startS endS : num) :
  (forall k, (k < length ts)%nat ->
             inWindow startS endS (nth k ts NaN) = true ->
             nth k vs NaN = nth k vs' NaN) ->
  Regression.meanInWindow ts vs startS endS = Regression.meanInWindow ts vs' startS endS
  /\ Regression.linearRegressionInWindow ts vs startS endS
     = Regression.linearRegressionInWindow ts vs' startS endS.
Proof.
  intros Hagree.
  unfold Regression.meanInWindow, Regression.linearRegressionInWindow,
    Regression.sliceWindow.
  rewrite (sliceLoop_agree _ _ ts vs vs' Hagree). split; reflexivity.
Qed.

Lemma window_statistics_ignore_outside_witness :
  Regression.meanInWindow (N := IEEE754) [0; 1; 2]%float [5; 6; 7]%float 1%float 1%float
  = Regression.meanInWindow (N := IEEE754) [0; 1; 2]%float [9; 6; 9]%float 1%float 1%float.
Proof.
  refine (proj1 (window_statistics_ignore_outside float IEEE754
                   [0; 1; 2]%float [5; 6; 7]%float [9; 6; 9]%float 1%float 1%float _)).
  intros [|[|[|k]]] Hk Hin; try reflexivity; try (simpl in Hk; lia);
    vm_compute in Hin; discriminate.
Defined.

Local Open Scope R_scope.

(* ================================================================== *)
(** ** The physics of a trial ([physics.js]) *)

Module ExactPhysicsFacts.
Local Open Scope R_scope.

(** The numbers of a configuration of a shipped preset: masses, drag and
    threshold are positive and the threshold is below the drag. *)
Lemma config_numbers (input : TrialInput R) (cfg : ScenarioConfig R) :
  getScenarioConfig input = Some cfg ->
  0 < systemMassKg cfg /\ 0 < startThresholdN cfg /\ startThresholdN cfg < dragN cfg.
Proof.
  unfold getScenarioConfig.
  destruct (getPresetById (input_presetId input)) as [preset|] eqn:Hp; [|discriminate].
  intros Hcfg. injection Hcfg as <-. cbn.
  apply find_some in Hp. destruct Hp as [Hin _].
  simpl in Hin.
  destruct Hin as [<-|[<-|[<-|[]]]]; destruct (input_scenario input); cbn; exact_ops;
    repeat split; lra.
Qed.

(** The result of a trial that moved, in the terms of its input. *)
Lemma moving_result (input : TrialInput R) (physics : TrialPhysics R) :
  computeTrialPhysics input = Some physics ->
  moved physics = true ->
  let h := input_hangingMassKg input in
  let cfg := config physics in
  let a := (h * G - dragN cfg) / (systemMassKg cfg + h) in
  getScenarioConfig input = Some cfg
  /\ startThresholdN cfg < h * G
  /\ 0 < a
  /\ hangingMassKg physics = h
  /\ pullingForceN physics = h * G
  /\ netForceN physics = h * G - dragN cfg
  /\ accelerationMps2 physics = a
  /\ tensionN physics = systemMassKg cfg * a + dragN cfg.
Proof.
  unfold computeTrialPhysics.
  destruct (getScenarioConfig input) as [cfg|]; [|discriminate].
  destruct (_ <=? startThresholdN cfg)%js eqn:Hthreshold.
  { intros Hp. injection Hp as <-. discriminate. }
  destruct (_ <=? ofZ 0)%js eqn:Haccel.
  { intros Hp. injection Hp as <-. discriminate. }
  intros Hp _. injection Hp as <-. cbn.
  apply ExactOrder.nle_false in Hthreshold. apply ExactOrder.nle_false in Haccel.
  exact_ops. repeat split; try reflexivity; assumption.
Qed.

(** The result of a trial that did not move: one of the two tests of the
    code failed. *)
Lemma still_result (input : TrialInput R) (physics : TrialPhysics R) :
  computeTrialPhysics input = Some physics ->
  moved physics = false ->
  let h := input_hangingMassKg input in
  let cfg := config physics in
  getScenarioConfig input = Some cfg
  /\ (h * G <= startThresholdN cfg
      \/ (h * G - dragN cfg) / (systemMassKg cfg + h) <= 0).
Proof.
  unfold computeTrialPhysics.
  destruct (getScenarioConfig input) as [cfg|]; [|discriminate].
  destruct (_ <=? startThresholdN cfg)%js eqn:Hthreshold.
  { intros Hp _. injection Hp as <-. cbn. apply ExactOrder.nle_true in Hthreshold.
    split; [reflexivity|]. left. exact Hthreshold. }
  destruct (_ <=? ofZ 0)%js eqn:Haccel.
  { intros Hp _. injection Hp as <-. cbn. apply ExactOrder.nle_true in Haccel.
    split; [reflexivity|]. right. exact Haccel. }
  intros Hp. injection Hp as <-. discriminate.
Qed.

Lemma G_value : G (N := ExactReal) = 981 / 100.
Proof. reflexivity. Qed.

Lemma quotient_positive (n d : R) : 0 < d -> (0 < n / d <-> 0 < n).
Proof.
  intros Hd. split.
  - intros Hq. replace n with (n / d * d) by (field; lra).
    apply Rmult_lt_0_compat; assumption.
  - intros Hn. apply Rdiv_lt_0_compat; assumption.
Qed.
End ExactPhysicsFacts.

Local Open Scope R_scope.

(** X6. Newton's second law for both bodies of a trial that moved.  In
    binary64 arithmetic, for every input the application offers (33 of
    the 36 move): the acceleration lies strictly between 0 and g, the
    tension strictly between the drag and the weight of the hanging
    mass, and the net force equals the total mass times the acceleration
    and the tension the hanging mass times [g - a], each within 1e-15 N,
    though not all exactly.  In exact arithmetic, for every input of a
    shipped preset whose trial moved: the hanging mass is positive, the
    same strict bounds hold, and the two equations hold exactly. *)
Theorem computeTrialPhysics_newton :
  forallb (newtonWithin (N := IEEE754) (lit 1 1000000000000000)) offeredInputs = true
  /\ length (filter (movedInput (N := IEEE754)) offeredInputs) = 33%nat
  /\ forallb (newtonWithin (N := IEEE754) (ofZ 0)) offeredInputs = false
  /\ (forall (input : TrialInput R) (physics : TrialPhysics R),
         computeTrialPhysics input = Some physics ->
         moved physics = true ->
         0 < hangingMassKg physics
         /\ 0 < accelerationMps2 physics < G
         /\ netForceN physics
            = (systemMassKg (config physics) + hangingMassKg physics)
              * accelerationMps2 physics
         /\ tensionN physics = hangingMassKg physics * (G - accelerationMps2 physics)
         /\ dragN (config physics) < tensionN physics < pullingForceN physics).
Proof.
  split; [vm_compute; reflexivity|]. split; [vm_compute; reflexivity|].
  split; [vm_compute; reflexivity|].
  intros input physics Hp Hm.
  destruct (ExactPhysicsFacts.moving_result input physics Hp Hm)
    as (Hcfg & Hthr & Ha & -> & -> & -> & -> & ->).
  destruct (ExactPhysicsFacts.config_numbers input _ Hcfg) as (HM & Ht & Htd).
  set (h := input_hangingMassKg input) in *.
  set (M := systemMassKg (config physics)) in *.
  set (d := dragN (config physics)) in *.
  rewrite ExactPhysicsFacts.G_value in *.
  assert (Hh : 0 < h) by lra.
  assert (HMh : 0 < M + h) by lra.
  assert (Hn : 0 < h * (981 / 100) - d)
    by (apply (ExactPhysicsFacts.quotient_positive _ (M + h) HMh); exact Ha).
  set (a := (h * (981 / 100) - d) / (M + h)) in *.
  assert (Hmul : (M + h) * a = h * (981 / 100) - d) by (unfold a; field; lra).
  assert (HaG : a < 981 / 100).
  { apply (Rmult_lt_reg_l (M + h)); [exact HMh|]. rewrite Hmul. nra. }
  assert (HMa : 0 < M * a) by (apply Rmult_lt_0_compat; assumption).
  assert (Hha : 0 < h * a) by (apply Rmult_lt_0_compat; assumption).
  repeat split; try lra.
Qed.

Lemma computeTrialPhysics_newton_witness :
  match computeTrialPhysics (N := ExactReal)
          {| input_scenario := cart_only; input_presetId := "low";
             input_hangingMassKg := 4 / 10 |} with
  | Some physics =>
      0 < hangingMassKg physics
      /\ 0 < accelerationMps2 physics < G
      /\ netForceN physics
         = (systemMassKg (config physics) + hangingMassKg physics)
           * accelerationMps2 physics
      /\ tensionN physics = hangingMassKg physics * (G - accelerationMps2 physics)
      /\ dragN (config physics) < tensionN physics < pullingForceN physics
  | None => False
  end.
Proof.
  destruct (computeTrialPhysics (N := ExactReal)
              {| input_scenario := cart_only; input_presetId := "low";
                 input_hangingMassKg := 4 / 10 |}) as [physics|] eqn:Hp.
  - apply (proj2 (proj2 (proj2 computeTrialPhysics_newton)) _ physics Hp).
    unfold computeTrialPhysics in Hp. cbn in Hp. exact_ops.
    rewrite (proj2 (ExactOrder.leb_false _ _)) in Hp by lra.
    rewrite (proj2 (ExactOrder.leb_false _ _)) in Hp by lra.
    injection Hp as <-. reflexivity.
  - unfold computeTrialPhysics in Hp. cbn in Hp. exact_ops.
    rewrite (proj2 (ExactOrder.leb_false _ _)) in Hp by lra.
    rewrite (proj2 (ExactOrder.leb_false _ _)) in Hp by lra.
    discriminate.
Defined.

Module ExactPhysicsEval.
Local Open Scope R_scope.

(** [computeTrialPhysics] at a known configuration, by its two tests. *)
Lemma moved_iff (input : TrialInput R) (physics : TrialPhysics R) :
  computeTrialPhysics input = Some physics ->
  0 <= input_hangingMassKg input ->
  (moved physics = true <-> dragN (config physics) < input_hangingMassKg input * G).
Proof.
  intros Hp Hh. destruct (moved physics) eqn:Hm.
  - destruct (ExactPhysicsFacts.moving_result input physics Hp Hm)
      as (Hcfg & Hthr & Ha & _).
    destruct (ExactPhysicsFacts.config_numbers input _ Hcfg) as (HM & Ht & Htd).
    split; [intros _|reflexivity].
    apply ExactPhysicsFacts.quotient_positive in Ha; lra.
  - destruct (ExactPhysicsFacts.still_result input physics Hp Hm) as (Hcfg & Hstill).
    destruct (ExactPhysicsFacts.config_numbers input _ Hcfg) as (HM & Ht & Htd).
    split; [discriminate|]. intros Hd. exfalso.
    destruct Hstill as [Hs|Hs]; [lra|].
    assert (Hq : 0 < (input_hangingMassKg input * G - dragN (config physics))
                     / (systemMassKg (config physics) + input_hangingMassKg input))
      by (apply Rdiv_lt_0_compat; lra).
    lra.
Qed.

Lemma config_of_input (input : TrialInput R) (physics : TrialPhysics R) :
  computeTrialPhysics input = Some physics ->
  getScenarioConfig input = Some (config physics).
Proof.
  intros Hp. exact (proj1 (computeTrialPhysics_shape input physics Hp)).
Qed.
End ExactPhysicsEval.

(** X7. In exact arithmetic and for a hanging mass that is not negative,
    a trial of a shipped preset moves exactly when the weight of the
    hanging mass exceeds the drag: every start threshold lies below its
    drag, so the threshold test never decides. *)
Theorem moved_iff_weight_exceeds_drag (input : TrialInput R) (physics : TrialPhysics R) :
  computeTrialPhysics input = Some physics ->
  0 <= input_hangingMassKg input ->
  (moved physics = true <-> dragN (config physics) < pullingForceN physics)
  /\ startThresholdN (config physics) < dragN (config physics).
Proof.
  intros Hp Hh.
  destruct (computeTrialPhysics_shape input physics Hp) as (Hcfg & _ & HpF & _).
  rewrite HpF. split; [apply (ExactPhysicsEval.moved_iff input physics Hp Hh)|].
  apply (ExactPhysicsFacts.config_numbers input _ Hcfg).
Qed.

(** X8. A heavier hanging mass gives a greater acceleration.  In binary64
    arithmetic, for every preset and scenario and along the hanging-mass
    steps the application offers (0.1 kg to 0.6 kg): when the trial of a
    step moved, the trial of the next step moved too, with a strictly
    greater acceleration.  In exact arithmetic, with the scenario and the
    preset fixed, this holds of any two hanging masses [h1 < h2]. *)
Theorem heavier_mass_accelerates_more :
  forallb
    (fun preset =>
       forallb
         (fun scenario =>
            heavierFaster (N := IEEE754) scenario (Presets.id preset) HANGING_MASS_STEPS_KG)
         [cart_only; cart_plus_pad])
    PRESETS = true
  /\ increasing (HANGING_MASS_STEPS_KG (N := IEEE754)) = true
  /\ (forall (scenario : ScenarioId) (presetId : string) (h1 h2 : R)
             (physics1 physics2 : TrialPhysics R),
         computeTrialPhysics
           {| input_scenario := scenario; input_presetId := presetId;
              input_hangingMassKg := h1 |} = Some physics1 ->
         computeTrialPhysics
           {| input_scenario := scenario; input_presetId := presetId;
              input_hangingMassKg := h2 |} = Some physics2 ->
         h1 < h2 ->
         moved physics1 = true ->
         moved physics2 = true
         /\ accelerationMps2 physics1 < accelerationMps2 physics2).
Proof.
  split; [vm_compute; reflexivity|]. split; [vm_compute; reflexivity|].
  intros scenario presetId h1 h2 physics1 physics2.
  intros Hp1 Hp2 Hlt Hm1.
  destruct (ExactPhysicsFacts.moving_result _ physics1 Hp1 Hm1)
    as (Hcfg1 & Hthr & Ha & _ & _ & _ & Hacc1 & _).
  pose proof (ExactPhysicsEval.config_of_input _ physics2 Hp2) as Hcfg2.
  assert (Hsame : config physics2 = config physics1).
  { unfold getScenarioConfig in Hcfg1, Hcfg2.
    cbn [input_presetId input_scenario] in Hcfg1, Hcfg2.
    destruct (getPresetById presetId); [|discriminate]. congruence. }
  destruct (ExactPhysicsFacts.config_numbers _ _ Hcfg1) as (HM & Ht & Htd).
  cbn [input_hangingMassKg] in *. rewrite ExactPhysicsFacts.G_value in *.
  set (M := systemMassKg (config physics1)) in *.
  set (d := dragN (config physics1)) in *.
  assert (Hh1 : 0 < h1) by lra.
  assert (Hn1 : 0 < h1 * (981 / 100) - d)
    by (apply (ExactPhysicsFacts.quotient_positive _ (M + h1)); [lra|exact Ha]).
  assert (Hm2 : moved physics2 = true).
  { apply (ExactPhysicsEval.moved_iff _ physics2 Hp2); cbn [input_hangingMassKg]; [lra|].
    rewrite Hsame, ExactPhysicsFacts.G_value. fold d. nra. }
  split; [exact Hm2|].
  destruct (ExactPhysicsFacts.moving_result _ physics2 Hp2 Hm2)
    as (_ & _ & _ & _ & _ & _ & Hacc2 & _).
  cbn [input_hangingMassKg] in Hacc2.
  rewrite Hacc1, Hacc2, Hsame, ExactPhysicsFacts.G_value. fold M d.
  apply (Rmult_lt_reg_r ((M + h1) * (M + h2))); [apply Rmult_lt_0_compat; lra|].
  replace ((h1 * (981 / 100) - d) / (M + h1) * ((M + h1) * (M + h2)))
    with ((h1 * (981 / 100) - d) * (M + h2)) by (field; lra).
  replace ((h2 * (981 / 100) - d) / (M + h2) * ((M + h1) * (M + h2)))
    with ((h2 * (981 / 100) - d) * (M + h1)) by (field; lra).
  nra.
Qed.

Module ExactPhysicsSamples.
Local Open Scope R_scope.

(** The trial of the low-friction cart with 0.4 kg (physics.test.js)
    moves, and so does the one with 0.5 kg. *)
Lemma cart_moves (h : R) :
  4 / 10 <= h ->
  exists physics,
    computeTrialPhysics (N := ExactReal)
      {| input_scenario := cart_only; input_presetId := "low";
         input_hangingMassKg := h |} = Some physics
    /\ moved physics = true.
Proof.
  intros Hh. unfold computeTrialPhysics. cbn. exact_ops.
  rewrite (proj2 (ExactOrder.leb_false _ _)) by lra.
  rewrite (proj2 (ExactOrder.leb_false _ _)).
  - eexists. split; reflexivity.
  - apply Rdiv_lt_0_compat; lra.
Qed.

Lemma pad_moves (h : R) :
  4 / 10 <= h ->
  exists physics,
    computeTrialPhysics (N := ExactReal)
      {| input_scenario := cart_plus_pad; input_presetId := "low";
         input_hangingMassKg := h |} = Some physics
    /\ moved physics = true.
Proof.
  intros Hh. unfold computeTrialPhysics. cbn. exact_ops.
  rewrite (proj2 (ExactOrder.leb_false _ _)) by lra.
  rewrite (proj2 (ExactOrder.leb_false _ _)).
  - eexists. split; reflexivity.
  - apply Rdiv_lt_0_compat; lra.
Qed.
End ExactPhysicsSamples.

Lemma moved_iff_weight_exceeds_drag_witness :
  exists physics,
    computeTrialPhysics (N := ExactReal)
      {| input_scenario := cart_only; input_presetId := "low";
         input_hangingMassKg := 4 / 10 |} = Some physics
    /\ ((moved physics = true <-> dragN (config physics) < pullingForceN physics)
        /\ startThresholdN (config physics) < dragN (config physics)).
Proof.
  destruct (ExactPhysicsSamples.cart_moves (4 / 10)) as (physics & Hp & _); [lra|].
  exists physics. split; [exact Hp|].
  apply (moved_iff_weight_exceeds_drag _ physics Hp). cbn. lra.
Defined.

Lemma heavier_mass_accelerates_more_witness :
  exists physics1 physics2,
    computeTrialPhysics (N := ExactReal)
      {| input_scenario := cart_only; input_presetId := "low";
         input_hangingMassKg := 4 / 10 |} = Some physics1
    /\ computeTrialPhysics (N := ExactReal)
         {| input_scenario := cart_only; input_presetId := "low";
            input_hangingMassKg := 5 / 10 |} = Some physics2
    /\ moved physics2 = true
    /\ accelerationMps2 physics1 < accelerationMps2 physics2.
Proof.
  destruct (ExactPhysicsSamples.cart_moves (4 / 10)) as (physics1 & Hp1 & Hm1); [lra|].
  destruct (ExactPhysicsSamples.cart_moves (5 / 10)) as (physics2 & Hp2 & _); [lra|].
  exists physics1, physics2. split; [exact Hp1|]. split; [exact Hp2|].
  apply (proj2 (proj2 heavier_mass_accelerates_more)
           cart_only "low"%string (4 / 10) (5 / 10) _ _ Hp1 Hp2);
    [lra|exact Hm1].
Defined.

(** X9. The friction pad slows the cart.  In binary64 arithmetic, for
    every preset and every hanging-mass step the application offers
    (the pad moves in 15 of the 18 cases): when the cart with the pad
    moved, the cart alone moved too, with a strictly greater
    acceleration.  In exact arithmetic, with the preset fixed, this holds
    of every hanging mass. *)
Theorem pad_slows_the_cart :
  forallb
    (fun preset =>
       forallb (padSlower (N := IEEE754) (Presets.id preset)) HANGING_MASS_STEPS_KG)
    PRESETS = true
  /\ length
       (filter
          (fun input =>
             match input_scenario input with
             | cart_plus_pad => movedInput (N := IEEE754) input
             | cart_only => false
             end)
          offeredInputs) = 15%nat
  /\ (forall (presetId : string) (h : R) (cartOnly cartPlusPad : TrialPhysics R),
         computeTrialPhysics
           {| input_scenario := cart_only; input_presetId := presetId;
              input_hangingMassKg := h |} = Some cartOnly ->
         computeTrialPhysics
           {| input_scenario := cart_plus_pad; input_presetId := presetId;
              input_hangingMassKg := h |} = Some cartPlusPad ->
         moved cartPlusPad = true ->
         moved cartOnly = true
         /\ accelerationMps2 cartPlusPad < accelerationMps2 cartOnly).
Proof.
  split; [vm_compute; reflexivity|]. split; [vm_compute; reflexivity|].
  intros presetId h cartOnly cartPlusPad.
  intros Hp1 Hp2 Hm2.
  destruct (ExactPhysicsFacts.moving_result _ cartPlusPad Hp2 Hm2)
    as (Hcfg2 & Hthr & Ha & _ & _ & _ & Hacc2 & _).
  pose proof (ExactPhysicsEval.config_of_input _ cartOnly Hp1) as Hcfg1.
  destruct (ExactPhysicsFacts.config_numbers _ _ Hcfg1) as (HM1 & Ht1 & Htd1).
  destruct (ExactPhysicsFacts.config_numbers _ _ Hcfg2) as (HM2 & Ht2 & Htd2).
  assert (Hrel : systemMassKg (config cartOnly) < systemMassKg (config cartPlusPad)
                 /\ dragN (config cartOnly) < dragN (config cartPlusPad)).
  { unfold getScenarioConfig in Hcfg1, Hcfg2.
    cbn [input_presetId input_scenario] in Hcfg1, Hcfg2.
    destruct (getPresetById presetId) as [preset|] eqn:Hpreset; [|discriminate].
    injection Hcfg1 as <-. injection Hcfg2 as <-. cbn.
    apply find_some in Hpreset. destruct Hpreset as [Hin _]. simpl in Hin.
    destruct Hin as [<-|[<-|[<-|[]]]]; cbn; exact_ops; split; lra. }
  destruct Hrel as [HMM Hdd].
  cbn [input_hangingMassKg] in *. rewrite ExactPhysicsFacts.G_value in *.
  set (M1 := systemMassKg (config cartOnly)) in *.
  set (d1 := dragN (config cartOnly)) in *.
  set (M2 := systemMassKg (config cartPlusPad)) in *.
  set (d2 := dragN (config cartPlusPad)) in *.
  assert (Hh : 0 < h) by lra.
  assert (Hn2 : 0 < h * (981 / 100) - d2)
    by (apply (ExactPhysicsFacts.quotient_positive _ (M2 + h)); [lra|exact Ha]).
  assert (Hm1 : moved cartOnly = true).
  { apply (ExactPhysicsEval.moved_iff _ cartOnly Hp1); cbn [input_hangingMassKg]; [lra|].
    rewrite ExactPhysicsFacts.G_value. fold d1. lra. }
  split; [exact Hm1|].
  destruct (ExactPhysicsFacts.moving_result _ cartOnly Hp1 Hm1)
    as (_ & _ & _ & _ & _ & _ & Hacc1 & _).
  cbn [input_hangingMassKg] in Hacc1.
  rewrite Hacc1, Hacc2, ExactPhysicsFacts.G_value. fold M1 d1 M2 d2.
  apply (Rmult_lt_reg_r ((M1 + h) * (M2 + h))); [apply Rmult_lt_0_compat; lra|].
  replace ((h * (981 / 100) - d2) / (M2 + h) * ((M1 + h) * (M2 + h)))
    with ((h * (981 / 100) - d2) * (M1 + h)) by (field; lra).
  replace ((h * (981 / 100) - d1) / (M1 + h) * ((M1 + h) * (M2 + h)))
    with ((h * (981 / 100) - d1) * (M2 + h)) by (field; lra).
  nra.
Qed.

Lemma pad_slows_the_cart_witness :
  exists cartOnly cartPlusPad,
    computeTrialPhysics (N := ExactReal)
      {| input_scenario := cart_only; input_presetId := "low";
         input_hangingMassKg := 4 / 10 |} = Some cartOnly
    /\ computeTrialPhysics (N := ExactReal)
         {| input_scenario := cart_plus_pad; input_presetId := "low";
            input_hangingMassKg := 4 / 10 |} = Some cartPlusPad
    /\ moved cartOnly = true
    /\ accelerationMps2 cartPlusPad < accelerationMps2 cartOnly.
Proof.
  destruct (ExactPhysicsSamples.cart_moves (4 / 10)) as (cartOnly & Hp1 & _); [lra|].
  destruct (ExactPhysicsSamples.pad_moves (4 / 10)) as (cartPlusPad & Hp2 & Hm2); [lra|].
  exists cartOnly, cartPlusPad. split; [exact Hp1|]. split; [exact Hp2|].
  apply (proj2 (proj2 pad_slows_the_cart) "low"%string (4 / 10) _ _ Hp1 Hp2 Hm2).
Defined.

(* ================================================================== *)
(** ** The live readout and the cart of the machine view ([machineView.js]) *)

Module ExactTruth.
Local Open Scope R_scope.

Lemma orNumber_nonzero (a b : R) : a <> 0 -> orNumber a b = a.
Proof.
  intros Ha. unfold orNumber.
  rewrite (proj2 (ExactOrder.neq_false a (ofZ 0))) by exact Ha.
  rewrite (proj2 (ExactOrder.neq_true a a)) by reflexivity. reflexivity.
Qed.

Lemma orNumber_zero (a b : R) : a = 0 -> orNumber a b = b.
Proof.
  intros Ha. unfold orNumber.
  rewrite (proj2 (ExactOrder.neq_true a (ofZ 0))) by exact Ha. reflexivity.
Qed.
End ExactTruth.

Module ExactInterpolation.
Local Open Scope R_scope.

(** Where the loop of [interpolate] stops: every time it passed is below
    [x], and the next one, if there is one, is not. *)
Lemma seek_stops (x : R) (rest : list R) :
  forall index,
    let j := MachineView.seek rest x index in
    (index <= j <= index + length rest)%nat
    /\ (forall k, (k < j - index)%nat -> nth k rest 0 < x)
    /\ ((j - index < length rest)%nat -> x <= nth (j - index) rest 0).
Proof.
  induction rest as [|next rest IH]; intros index; cbn zeta.
  - simpl. replace (index - index)%nat with 0%nat by lia.
    repeat split; try lia.
  - simpl MachineView.seek. destruct (Exact.ltb next x) eqn:Hlt.
    + apply ExactOrder.ltb_true in Hlt.
      specialize (IH (S index)). cbn zeta in IH.
      set (j := MachineView.seek rest x (S index)) in *.
      destruct IH as (Hj & Hbelow & Hnext). simpl length.
      split; [lia|]. split.
      * intros [|k] Hk; [exact Hlt|]. simpl. apply Hbelow. lia.
      * intros Hlen. replace (j - index)%nat with (S (j - S index)) by lia.
        simpl. apply Hnext. lia.
    + apply ExactOrder.ltb_false in Hlt.
      replace (index - index)%nat with 0%nat by lia. simpl.
      repeat split; try lia. intros _. exact Hlt.
Qed.

(** Past its two early returns, [interpolate] works on a segment
    [x1 < x <= x2] of two adjacent samples. *)
Lemma interpolate_segment (xs ys : list R) (x : R) :
  xs <> [] -> nth 0 xs 0 < x -> x < nth (length xs - 1) xs 0 ->
  exists j,
    (j + 1 < length xs)%nat
    /\ nth j xs 0 < x <= nth (j + 1) xs 0
    /\ (forall k, (k <= j)%nat -> nth k xs 0 < x)
    /\ MachineView.interpolate xs ys x
       = nth j ys 0
         + (x - nth j xs 0) / (nth (j + 1) xs 0 - nth j xs 0)
           * (nth (j + 1) ys 0 - nth j ys 0).
Proof.
  intros Hne Hfirst Hlast.
  destruct xs as [|x0 rest]; [congruence|]. clear Hne.
  simpl in Hfirst. simpl length in *. replace (S (length rest) - 1)%nat with (length rest) in * by lia.
  pose proof (seek_stops x rest 0) as Hseek. cbn zeta in Hseek.
  set (j := MachineView.seek rest x 0) in *.
  destruct Hseek as (Hj & Hbelow & Hnext). rewrite Nat.sub_0_r in *.
  assert (Hjlt : (j < length rest)%nat).
  { destruct (Nat.lt_ge_cases j (length rest)) as [H|H]; [exact H|].
    exfalso. assert (j = length rest) by lia.
    destruct rest as [|r rest']; [simpl in Hlast; lra|].
    assert (Hb : nth (length rest') (r :: rest') 0 < x) by (apply Hbelow; simpl in *; lia).
    simpl length in Hlast.
    change (nth (S (length rest')) (x0 :: r :: rest') 0)
      with (nth (length rest') (r :: rest') 0) in Hlast. lra. }
  assert (Hall : forall k, (k <= j)%nat -> nth k (x0 :: rest) 0 < x).
  { intros [|k] Hk; [exact Hfirst|]. simpl. apply Hbelow. lia. }
  assert (Hx2 : x <= nth (j + 1) (x0 :: rest) 0).
  { replace (j + 1)%nat with (S j) by lia. simpl. apply Hnext. exact Hjlt. }
  exists j. split; [lia|]. split; [split; [apply Hall; lia|exact Hx2]|].
  split; [exact Hall|].
  unfold MachineView.interpolate. simpl length.
  change (Nat.eqb (S (length rest)) 0) with false. cbv iota.
  replace (S (length rest) - 1)%nat with (length rest) by lia.
  unfold NaN. exact_ops. fold j.
  assert (H0 : 0 / 0 = 0) by (unfold Rdiv; rewrite Rmult_0_l; reflexivity).
  rewrite !H0.
  rewrite (proj2 (ExactOrder.leb_false _ _)) by (simpl; lra).
  rewrite (proj2 (ExactOrder.leb_false _ _)) by exact Hlast.
  cbn [tl]. fold j.
  pose proof (Hall j (Nat.le_refl j)) as Hx1.
  rewrite ExactTruth.orNumber_nonzero by lra.
  reflexivity.
Qed.
End ExactInterpolation.

Module ExactOrderedTimes.
Local Open Scope R_scope.

Lemma increasing_tail (a : R) (l : list R) :
  increasing (a :: l) = true -> increasing l = true.
Proof.
  destruct l as [|b l]; [reflexivity|]. simpl.
  intros H. apply andb_true_iff in H. exact (proj2 H).
Qed.

Lemma increasing_head (a b : R) (l : list R) :
  increasing (a :: b :: l) = true -> a < b.
Proof.
  simpl. intros H. apply andb_true_iff in H. apply ExactOrder.ltb_true. exact (proj1 H).
Qed.

(** In an increasing sequence an earlier element is below a later one. *)
Lemma increasing_nth (l : list R) :
  increasing l = true ->
  forall i j, (i < j)%nat -> (j < length l)%nat -> nth i l 0 < nth j l 0.
Proof.
  induction l as [|a l IH]; intros Hinc i j Hij Hj; [simpl in Hj; lia|].
  pose proof (increasing_tail a l Hinc) as Htail.
  destruct j as [|j]; [lia|]. simpl in Hj.
  destruct i as [|i].
  - simpl. destruct l as [|b l]; [simpl in Hj; lia|].
    pose proof (increasing_head a b l Hinc) as Hab.
    destruct j as [|j]; [exact Hab|].
    apply Rlt_trans with b; [exact Hab|].
    apply (IH Htail 0%nat (S j)); simpl in *; lia.
  - simpl. apply (IH Htail); lia.
Qed.
End ExactOrderedTimes.

Local Open Scope R_scope.

Section Segments.
Context {num : Type} {N : Number num} {T : NumberTotal num}.
Local Open Scope js_scope.

(** Where the loop of [interpolate] stops: after the times below [x],
    at the first one that is not. *)
Lemma seek_spec (rest : list num) (x : num) :
  forall index : nat,
    let i := MachineView.seek rest x index in
    (index <= i <= index + length rest)%nat
    /\ (forall j, (index <= j < i)%nat -> (nth (j - index) rest NaN <? x) = true)
    /\ (i = (index + length rest)%nat \/ (nth (i - index) rest NaN <? x) = false).
Proof.
  induction rest as [|next rest IH]; intros index; cbn [MachineView.seek].
  - cbv zeta. simpl. split; [lia|]. split; [intros j Hj; lia|left; lia].
  - destruct (next <? x) eqn:Hnext.
    + specialize (IH (S index)). cbv zeta in *. destruct IH as (Hrange & Hbelow & Hstop).
      simpl length. split; [lia|]. split.
      * intros j Hj. destruct (Nat.eq_dec j index) as [->|Hne].
        -- rewrite Nat.sub_diag. exact Hnext.
        -- replace (j - index)%nat with (S (j - S index)) by lia.
           cbn [nth]. apply Hbelow. lia.
      * destruct Hstop as [Hend|Hstop]; [left; lia|right].
        replace (MachineView.seek rest x (S index) - index)%nat
          with (S (MachineView.seek rest x (S index) - S index)) by lia.
        exact Hstop.
    + cbv zeta. simpl length. split; [lia|]. split; [intros j Hj; lia|].
      right. rewrite Nat.sub_diag. exact Hnext.
Qed.

(** The three cases of [interpolate] on a non-empty array. *)
Lemma interpolate_cases (xs ys : list num) (x : num) :
  xs <> [] ->
  let last := (length xs - 1)%nat in
  ((x <=? nth 0 xs NaN) = true -> MachineView.interpolate xs ys x = nth 0 ys NaN)
  /\ ((x <=? nth 0 xs NaN) = false -> (nth last xs NaN <=? x) = true ->
      MachineView.interpolate xs ys x = nth last ys NaN)
  /\ ((2 <= length xs)%nat ->
      (x <=? nth 0 xs NaN) = false -> (nth last xs NaN <=? x) = false ->
      exists i : nat,
        (i + 1 < length xs)%nat
        /\ (forall j, (j < i)%nat -> (nth (j + 1) xs NaN <? x) = true)
        /\ (nth (i + 1) xs NaN <? x) = false
        /\ MachineView.interpolate xs ys x
           = nth i ys NaN
             + (x - nth i xs NaN) / orNumber (nth (i + 1) xs NaN - nth i xs NaN) (ofZ 1)
               * (nth (i + 1) ys NaN - nth i ys NaN)).
Proof.
  intros Hne last.
  assert (Hlen : Nat.eqb (length xs) 0 = false)
    by (destruct xs; [congruence|reflexivity]).
  unfold MachineView.interpolate. rewrite Hlen. cbv zeta. fold last.
  split; [intros ->; reflexivity|]. split; [intros -> ->; reflexivity|].
  intros Htwo H1 H2. rewrite H1, H2.
  destruct xs as [|x0 rest]; [congruence|].
  cbn [tl]. pose proof (seek_spec rest x 0) as Hseek. cbv zeta in Hseek.
  set (i := MachineView.seek rest x 0) in *.
  destruct Hseek as (Hrange & Hbelow & Hstop).
  assert (Hnext : forall j, nth (j + 1) (x0 :: rest) NaN = nth j rest NaN).
  { intros j. rewrite Nat.add_1_r. reflexivity. }
  assert (Hstrict : i <> length rest).
  { intros Hend. destruct rest as [|x1 rest'] eqn:Hrest.
    - simpl in Htwo. lia.
    - assert (Hlast : (nth last (x0 :: x1 :: rest') NaN <? x) = true).
      { unfold last. simpl length. replace (S (S (length rest')) - 1)%nat
          with (length rest' + 1)%nat by lia.
        rewrite Hnext. specialize (Hbelow (length rest')).
        rewrite Nat.sub_0_r in Hbelow. apply Hbelow. rewrite Hend. simpl. lia. }
      apply lt_le in Hlast. congruence. }
  exists i. split; [simpl; lia|]. split.
  - intros j Hj. rewrite Hnext. specialize (Hbelow j). rewrite Nat.sub_0_r in Hbelow.
    apply Hbelow. lia.
  - split; [|reflexivity].
    rewrite Hnext. destruct Hstop as [Hend|Hstop]; [simpl in Hend; congruence|].
    rewrite Nat.sub_0_r in Hstop. exact Hstop.
Qed.
End Segments.

(** X10. Which samples the live readout [interpolate(xs, ys, x)] reads.
    Whatever the arithmetic (with the order facts, proved for doubles),
    on a non-empty array: for [x] at or before the first time it is the
    first value; otherwise, for [x] at or after the last time, the last
    value; otherwise, with two samples or more, it is
    [y1 + (x - x1) / (x2 - x1 || 1) * (y2 - y1)] for the first segment
    whose right end is not below [x].  In exact arithmetic the result
    stays within any bounds that hold for all the values [ys].  In
    binary64 arithmetic it can leave them by rounding:
    [interpolate([0, 1, 2], [0.3, 0.9, 0.5], 1)] exceeds 0.9. *)
Theorem interpolate_within_bounds :
  (forall (num : Type) (N : Number num) (T : NumberTotal num)
          (xs ys : list num) (x : num),
      xs <> [] ->
      let last := (length xs - 1)%nat in
      ((x <=? nth 0 xs NaN)%js = true ->
       MachineView.interpolate xs ys x = nth 0 ys NaN)
      /\ ((x <=? nth 0 xs NaN)%js = false -> (nth last xs NaN <=? x)%js = true ->
          MachineView.interpolate xs ys x = nth last ys NaN)
      /\ ((2 <= length xs)%nat ->
          (x <=? nth 0 xs NaN)%js = false -> (nth last xs NaN <=? x)%js = false ->
          exists i : nat,
            (i + 1 < length xs)%nat
            /\ (forall j, (j < i)%nat -> (nth (j + 1) xs NaN <? x)%js = true)
            /\ (nth (i + 1) xs NaN <? x)%js = false
            /\ MachineView.interpolate xs ys x
               = (nth i ys NaN
                  + (x - nth i xs NaN)
                    / orNumber (nth (i + 1) xs NaN - nth i xs NaN) (ofZ 1)
                    * (nth (i + 1) ys NaN - nth i ys NaN))%js))
  /\ (forall (xs ys : list R) (x lo hi : R),
         xs <> [] -> length xs = length ys ->
         (forall y, In y ys -> lo <= y <= hi) ->
         lo <= MachineView.interpolate xs ys x <= hi)
  /\ (lit 9 10
      <? MachineView.interpolate (N := IEEE754)
           [ofZ 0; ofZ 1; ofZ 2] [lit 3 10; lit 9 10; lit 5 10] (ofZ 1))%js = true.
Proof.
  split; [|split; [|vm_compute; reflexivity]].
  { intros num N T xs ys x Hne. exact (interpolate_cases xs ys x Hne). }
  intros xs ys x lo hi.
  intros Hne Hlen Hys.
  assert (Hin : forall k, (k < length ys)%nat -> lo <= nth k ys 0 <= hi)
    by (intros k Hk; apply Hys, nth_In; exact Hk).
  assert (Hpos : (0 < length xs)%nat) by (destruct xs; [congruence|simpl; lia]).
  assert (H0 : 0 / 0 = 0) by (unfold Rdiv; rewrite Rmult_0_l; reflexivity).
  destruct (Rle_dec x (nth 0 xs 0)) as [Hfirst|Hfirst].
  { unfold MachineView.interpolate.
    rewrite (proj2 (Nat.eqb_neq _ _)) by lia.
    unfold NaN. exact_ops. rewrite !H0.
    rewrite (proj2 (ExactOrder.leb_true _ _)) by exact Hfirst. apply Hin. lia. }
  destruct (Rle_dec (nth (length xs - 1) xs 0) x) as [Hlast|Hlast].
  { unfold MachineView.interpolate.
    rewrite (proj2 (Nat.eqb_neq _ _)) by lia.
    unfold NaN. exact_ops. rewrite !H0.
    rewrite (proj2 (ExactOrder.leb_false _ _)) by lra.
    rewrite (proj2 (ExactOrder.leb_true _ _)) by exact Hlast. apply Hin. lia. }
  destruct (ExactInterpolation.interpolate_segment xs ys x Hne) as (j & Hj & Hx & _ & ->);
    [lra|lra|].
  pose proof (Hin j ltac:(lia)) as Hy1. pose proof (Hin (j + 1)%nat ltac:(lia)) as Hy2.
  set (x1 := nth j xs 0) in *. set (x2 := nth (j + 1) xs 0) in *.
  set (y1 := nth j ys 0) in *. set (y2 := nth (j + 1) ys 0) in *.
  set (r := (x - x1) / (x2 - x1)).
  assert (Hr : 0 <= r <= 1).
  { unfold r. split.
    - apply Rmult_le_pos; [lra|]. apply Rlt_le, Rinv_0_lt_compat. lra.
    - apply (Rmult_le_reg_r (x2 - x1)); [lra|]. unfold Rdiv.
      rewrite Rmult_assoc, Rinv_l by lra. lra. }
  split; nra.
Qed.

Lemma interpolate_within_bounds_witness :
  0 <= MachineView.interpolate [0; 1; 2] [0; 10; 5] (3 / 2) <= 10
  /\ MachineView.interpolate (N := IEEE754)
       [ofZ 0; ofZ 1; ofZ 2] [lit 3 10; lit 9 10; lit 5 10] (ofZ 3)
     = lit 5 10.
Proof.
  split.
  - apply (proj1 (proj2 interpolate_within_bounds)).
    + discriminate.
    + reflexivity.
    + intros y Hy. simpl in Hy.
      destruct Hy as [<-|[<-|[<-|[]]]]; lra.
  - pose proof (proj1 interpolate_within_bounds float IEEE754 IEEE754_total
                  [ofZ 0; ofZ 1; ofZ 2] [lit 3 10; lit 9 10; lit 5 10] (ofZ 3)) as H.
    cbv zeta in H. destruct H as (_ & H & _); [discriminate|].
    apply H; vm_compute; reflexivity.
Defined.

(** X11. The live readout at the sample times.  Whatever the arithmetic
    (with the order facts, proved for doubles), on a non-empty array:
    [interpolate] returns the first value at the first time, when that
    is a number, and the last value at the last time, when that is a
    number not at or before the first time.  In exact arithmetic and for
    strictly increasing sample times it returns at every sample time the
    value sampled there.  In binary64 arithmetic an inner sample can be
    missed by rounding: [interpolate([0, 1, 2], [0.3, 0.9, 0.5], 1)] is
    not 0.9. *)
Theorem interpolate_at_sample :
  (forall (num : Type) (N : Number num) (T : NumberTotal num) (C : NumberClamp num)
          (xs ys : list num),
      xs <> [] ->
      let last := (length xs - 1)%nat in
      (isNumber (nth 0 xs NaN) ->
       MachineView.interpolate xs ys (nth 0 xs NaN) = nth 0 ys NaN)
      /\ (isNumber (nth last xs NaN) ->
          (nth last xs NaN <=? nth 0 xs NaN)%js = false ->
          MachineView.interpolate xs ys (nth last xs NaN) = nth last ys NaN))
  /\ (forall (xs ys : list R) (i : nat),
         increasing xs = true -> length xs = length ys -> (i < length xs)%nat ->
         MachineView.interpolate xs ys (nth i xs 0) = nth i ys 0)
  /\ (MachineView.interpolate (N := IEEE754)
        [ofZ 0; ofZ 1; ofZ 2] [lit 3 10; lit 9 10; lit 5 10] (ofZ 1) === lit 9 10)%js
     = false.
Proof.
  split; [|split; [|vm_compute; reflexivity]].
  { intros num N T C xs ys Hne last.
    destruct (interpolate_cases xs ys (nth 0 xs NaN) Hne) as (Hfirst & _).
    destruct (interpolate_cases xs ys (nth last xs NaN) Hne) as (_ & Hlast & _).
    split.
    - intros Hnum. apply Hfirst. apply le_reflexive. exact Hnum.
    - intros Hnum Hafter. apply Hlast; [exact Hafter|].
      apply le_reflexive. exact Hnum. }
  intros xs ys i.
  intros Hinc Hlen Hi.
  assert (Hne : xs <> []) by (destruct xs; [simpl in Hi; lia|discriminate]).
  assert (H0 : 0 / 0 = 0) by (unfold Rdiv; rewrite Rmult_0_l; reflexivity).
  pose proof (ExactOrderedTimes.increasing_nth xs Hinc) as Hord.
  destruct (Nat.eq_dec i 0) as [->|Hi0].
  { unfold MachineView.interpolate.
    rewrite (proj2 (Nat.eqb_neq _ _)) by lia.
    unfold NaN. exact_ops. rewrite !H0.
    rewrite (proj2 (ExactOrder.leb_true _ _)) by lra. reflexivity. }
  assert (Hfirst : nth 0 xs 0 < nth i xs 0) by (apply Hord; lia).
  destruct (Nat.eq_dec i (length xs - 1)) as [Hilast|Hilast].
  { unfold MachineView.interpolate.
    rewrite (proj2 (Nat.eqb_neq _ _)) by lia.
    unfold NaN. exact_ops. rewrite !H0.
    rewrite (proj2 (ExactOrder.leb_false _ _)) by lra.
    rewrite <- Hilast.
    rewrite (proj2 (ExactOrder.leb_true _ _)) by lra. reflexivity. }
  assert (Hlast : nth i xs 0 < nth (length xs - 1) xs 0) by (apply Hord; lia).
  destruct (ExactInterpolation.interpolate_segment xs ys (nth i xs 0) Hne Hfirst Hlast)
    as (j & Hj & Hx & Hbelow & ->).
  assert (Hji : (j + 1)%nat = i).
  { destruct (Nat.lt_trichotomy (j + 1) i) as [H|[H|H]]; [|exact H|].
    - pose proof (Hord (j + 1)%nat i H Hi). lra.
    - pose proof (Hbelow i ltac:(lia)). lra. }
  rewrite Hji in *.
  assert (Hseg : nth j xs 0 < nth i xs 0) by (apply Hord; lia).
  field. lra.
Qed.

Lemma interpolate_at_sample_witness :
  MachineView.interpolate [0; 1; 2] [0; 10; 5] (nth 1 [0; 1; 2] 0) = nth 1 [0; 10; 5] 0
  /\ MachineView.interpolate (N := IEEE754)
       [ofZ 0; ofZ 1; ofZ 2] [lit 3 10; lit 9 10; lit 5 10] (ofZ 2)
     = lit 5 10.
Proof.
  split.
  - apply (proj1 (proj2 interpolate_at_sample) [0; 1; 2] [0; 10; 5] 1%nat).
    + simpl. rewrite !(proj2 (ExactOrder.ltb_true _ _)) by lra. reflexivity.
    + reflexivity.
    + simpl. lia.
  - pose proof (proj1 interpolate_at_sample float IEEE754 IEEE754_total IEEE754_clamp
                  [ofZ 0; ofZ 1; ofZ 2] [lit 3 10; lit 9 10; lit 5 10]) as H.
    cbv zeta in H. destruct H as (_ & H); [discriminate|].
    apply H; vm_compute; reflexivity.
Defined.

Module ExactDisplacement.
Local Open Scope R_scope.

Import ExactMachine.

Lemma braking_monotone (pv F u1 u2 : R) :
  0 <= pv -> 0 < F -> 0 <= u1 -> u1 <= u2 -> u2 <= F ->
  0 <= braking pv F u1 <= braking pv F u2 /\ braking pv F u2 <= 5 / 10 * pv * F.
Proof.
  intros Hpv HF Hu1 Hu12 Hu2. unfold braking.
  set (q := pv / F).
  assert (Hq : 0 <= q) by (apply Rmult_le_pos; [exact Hpv|apply Rlt_le, Rinv_0_lt_compat; exact HF]).
  assert (HqF : pv = q * F) by (unfold q; field; lra).
  rewrite HqF.
  assert (H1 : 0 <= q * u1 * (F - u1 / 2)).
  { apply Rmult_le_pos; [apply Rmult_le_pos; assumption|lra]. }
  assert (H2 : 0 <= q * (u2 - u1) * (F - (u1 + u2) / 2)).
  { apply Rmult_le_pos; [apply Rmult_le_pos; [assumption|lra]|lra]. }
  assert (H3 : 0 <= q * (F - u2) * (F - u2)).
  { apply Rmult_le_pos; [apply Rmult_le_pos; [assumption|lra]|lra]. }
  repeat split; nra.
Qed.

Section Regions.
Variable trial : State.CurrentTrial R.
Let s := accelStartS (phases (State.signals trial)).
Let e := accelEndS (phases (State.signals trial)).
Let f := stopEndS (phases (State.signals trial)).
Let a := accelerationMps2 (State.physics trial).
Hypothesis Hmoved : moved (State.physics trial) = true.

Lemma before (t : R) : t <= s -> MachineView.cartDisplacementM trial t = 0.
Proof.
  intros Ht. unfold MachineView.cartDisplacementM. rewrite Hmoved. cbn [negb].
  exact_ops. fold s. rewrite (proj2 (ExactOrder.leb_true _ _)) by exact Ht. reflexivity.
Qed.

Lemma accelerating (t : R) :
  s < t -> t <= e ->
  MachineView.cartDisplacementM trial t = 5 / 10 * a * (t - s) * (t - s).
Proof.
  intros Hs He. unfold MachineView.cartDisplacementM. rewrite Hmoved. cbn [negb].
  exact_ops. fold s e a.
  rewrite (proj2 (ExactOrder.leb_false _ _)) by exact Hs.
  rewrite (proj2 (ExactOrder.leb_true _ _)) by exact He. reflexivity.
Qed.

Lemma stopping (t : R) :
  s <= e -> e < t -> t <= f ->
  MachineView.cartDisplacementM trial t
  = 5 / 10 * a * (e - s) * (e - s) + braking (a * (e - s)) (f - e) (t - e).
Proof.
  intros Hse He Hf. unfold MachineView.cartDisplacementM. rewrite Hmoved. cbn [negb].
  exact_ops. fold s e f a.
  rewrite (proj2 (ExactOrder.leb_false _ _)) by lra.
  rewrite (proj2 (ExactOrder.leb_false _ _)) by exact He.
  rewrite (proj2 (ExactOrder.leb_true _ _)) by exact Hf.
  rewrite ExactTruth.orNumber_nonzero by lra. unfold braking. ring.
Qed.

Lemma stopped (t : R) :
  s <= e -> e <= f -> f < t ->
  MachineView.cartDisplacementM trial t
  = 5 / 10 * a * (e - s) * (e - s)
    + 5 / 10 * (a * (e - s)) * orNumber (f - e) (1 / 1000).
Proof.
  intros Hse Hef Hf. unfold MachineView.cartDisplacementM. rewrite Hmoved. cbn [negb].
  exact_ops. fold s e f a.
  rewrite (proj2 (ExactOrder.leb_false _ _)) by lra.
  rewrite (proj2 (ExactOrder.leb_false _ _)) by lra.
  rewrite (proj2 (ExactOrder.leb_false _ _)) by exact Hf.
  reflexivity.
Qed.
End Regions.

Lemma stop_duration (F : R) :
  0 <= F -> F <= orNumber F (1 / 1000) /\ 0 < orNumber F (1 / 1000).
Proof.
  intros HF. destruct (Req_dec F 0) as [Hz|Hz].
  - rewrite ExactTruth.orNumber_zero by exact Hz. lra.
  - rewrite ExactTruth.orNumber_nonzero by exact Hz. lra.
Qed.
End ExactDisplacement.

Local Open Scope R_scope.
Import ExactMachine.

Section Resting.
Context {num : Type} {N : Number num} {T : NumberTotal num}.
Local Open Scope js_scope.

(** Before the start the cart is drawn at 0. *)
Lemma rests_before (trial : State.CurrentTrial num) (t : num) :
  (t <=? accelStartS (phases (State.signals trial))) = true ->
  MachineView.cartDisplacementM trial t = ofZ 0.
Proof.
  intros Ht. unfold MachineView.cartDisplacementM. cbv zeta. rewrite Ht.
  destruct (negb (moved (State.physics trial))); reflexivity.
Qed.

Lemma rests_unmoved (trial : State.CurrentTrial num) (t : num) :
  moved (State.physics trial) = false ->
  MachineView.cartDisplacementM trial t = ofZ 0.
Proof.
  intros Hm. unfold MachineView.cartDisplacementM. cbv zeta. rewrite Hm. reflexivity.
Qed.

(** Past all three boundaries the displacement does not depend on the
    time. *)
Lemma rests_after (trial : State.CurrentTrial num) (t1 t2 : num) :
  (t1 <=? accelStartS (phases (State.signals trial))) = false ->
  (t1 <=? accelEndS (phases (State.signals trial))) = false ->
  (t1 <=? stopEndS (phases (State.signals trial))) = false ->
  (t2 <=? accelStartS (phases (State.signals trial))) = false ->
  (t2 <=? accelEndS (phases (State.signals trial))) = false ->
  (t2 <=? stopEndS (phases (State.signals trial))) = false ->
  MachineView.cartDisplacementM trial t1 = MachineView.cartDisplacementM trial t2.
Proof.
  intros A1 B1 C1 A2 B2 C2. unfold MachineView.cartDisplacementM. cbv zeta.
  rewrite A1, B1, C1, A2, B2, C2. reflexivity.
Qed.

(** A time after a boundary is not at or before an earlier one. *)
Lemma after_later (a b t : num) :
  (a <=? b) = true -> (b <? t) = true -> (t <=? a) = false.
Proof.
  intros Hab Hbt. pose proof (le_lt_transitive _ _ _ Hab Hbt) as Hat.
  destruct (lt_numbers _ _ Hat) as [Ha Ht].
  rewrite (le_total t a Ht Ha), Hat. reflexivity.
Qed.

Lemma after_itself (b t : num) : (b <? t) = true -> (t <=? b) = false.
Proof.
  intros Hbt. destruct (lt_numbers _ _ Hbt) as [Hb Ht].
  rewrite (le_total t b Ht Hb), Hbt. reflexivity.
Qed.

(** A time not at or before a boundary is not at or before an earlier
    one. *)
Lemma not_before_earlier (a b t : num) :
  (a <=? b) = true -> (t <=? b) = false -> (t <=? a) = false.
Proof.
  intros Hab Htb. destruct (t <=? a) eqn:Hta; [|reflexivity].
  rewrite (le_transitive _ _ _ Hta Hab) in Htb. discriminate.
Qed.
End Resting.

(** X12. Where the cart rests, and that it never moves back.  Whatever
    the arithmetic (with the order facts, proved for doubles): the
    displacement [cartDisplacementM] draws is 0 for a trial that did not
    move and at every time up to [accelStartS], and for phase boundaries
    in order ([accelStartS <= accelEndS <= stopEndS]) it is the same at
    all times after [stopEndS].  In exact arithmetic, for a trial that
    moved with an acceleration that is not negative and boundaries in
    order, the displacement is never negative, never decreases as time
    advances, and never exceeds the distance shown once the cart has
    stopped.  In binary64 arithmetic the displacement computed while the
    cart brakes can decrease by rounding: for the sample trial it is
    3.6469481481481498 at the double before 2.200000000000002 and
    3.6469481481481494 at that double. *)
Theorem cart_never_moves_back :
  (forall (num : Type) (N : Number num) (T : NumberTotal num)
          (trial : State.CurrentTrial num) (t1 t2 : num),
      let phases := phases (State.signals trial) in
      (moved (State.physics trial) = false ->
       MachineView.cartDisplacementM trial t1 = ofZ 0)
      /\ ((t1 <=? accelStartS phases)%js = true ->
          MachineView.cartDisplacementM trial t1 = ofZ 0)
      /\ ((accelStartS phases <=? accelEndS phases)%js = true ->
          (accelEndS phases <=? stopEndS phases)%js = true ->
          (stopEndS phases <? t1)%js = true -> (stopEndS phases <? t2)%js = true ->
          MachineView.cartDisplacementM trial t1 = MachineView.cartDisplacementM trial t2))
  /\ (forall (trial : State.CurrentTrial R) (t1 t2 : R),
         moved (State.physics trial) = true ->
         0 <= accelerationMps2 (State.physics trial) ->
         accelStartS (phases (State.signals trial))
         <= accelEndS (phases (State.signals trial)) ->
         accelEndS (phases (State.signals trial))
         <= stopEndS (phases (State.signals trial)) ->
         t1 <= t2 ->
         0 <= MachineView.cartDisplacementM trial t1
         /\ MachineView.cartDisplacementM trial t1 <= MachineView.cartDisplacementM trial t2
         /\ (stopEndS (phases (State.signals trial)) < t2 ->
             forall t, MachineView.cartDisplacementM trial t
                       <= MachineView.cartDisplacementM trial t2))
  /\ ((0x1.199999999999dp+1 <? 0x1.199999999999ep+1)%float = true
      /\ (MachineView.cartDisplacementM (N := IEEE754) MoreExamples.movedCurrent
            0x1.199999999999ep+1
          <? MachineView.cartDisplacementM (N := IEEE754) MoreExamples.movedCurrent
               0x1.199999999999dp+1)%float = true).
Proof.
  split; [|split; [|split; vm_compute; reflexivity]].
  { intros num N T trial t1 t2 ph. subst ph. split; [apply rests_unmoved|].
    split; [apply rests_before|].
    intros Hse Hef H1 H2.
    pose proof (le_transitive _ _ _ Hse Hef) as Hsf.
    apply rests_after.
    - exact (after_later _ _ _ Hsf H1).
    - exact (after_later _ _ _ Hef H1).
    - exact (after_itself _ _ H1).
    - exact (after_later _ _ _ Hsf H2).
    - exact (after_later _ _ _ Hef H2).
    - exact (after_itself _ _ H2). }
  intros trial t1 t2.
  intros Hm Ha Hse Hef.
  set (s := accelStartS (phases (State.signals trial))) in *.
  set (e := accelEndS (phases (State.signals trial))) in *.
  set (f := stopEndS (phases (State.signals trial))) in *.
  set (a := accelerationMps2 (State.physics trial)) in *.
  destruct (ExactDisplacement.stop_duration (f - e)) as [HSD HSDpos]; [lra|].
  set (SD := orNumber (f - e) (1 / 1000)) in *.
  assert (Hpv : 0 <= a * (e - s)) by (apply Rmult_le_pos; lra).
  assert (HAD : 0 <= 5 / 10 * a * (e - s) * (e - s)).
  { replace (5 / 10 * a * (e - s) * (e - s)) with (5 / 10 * ((a * (e - s)) * (e - s))) by ring.
    apply Rmult_le_pos; [lra|]. apply Rmult_le_pos; lra. }
  assert (Hfinal : forall u, 0 <= u -> u <= f - e -> 0 < f - e ->
             0 <= braking (a * (e - s)) (f - e) u
             /\ braking (a * (e - s)) (f - e) u
                <= 5 / 10 * (a * (e - s)) * SD).
  { intros u Hu0 Hu HF.
    destruct (ExactDisplacement.braking_monotone (a * (e - s)) (f - e) u u Hpv HF Hu0
                (Rle_refl u) Hu) as [[H1 _] H2].
    split; [exact H1|].
    apply Rle_trans with (5 / 10 * (a * (e - s)) * (f - e)); [exact H2|].
    apply Rmult_le_compat_l; [|exact HSD]. apply Rmult_le_pos; lra. }
  assert (Hacc : forall t, s < t -> t <= e ->
             0 <= 5 / 10 * a * (t - s) * (t - s) <= 5 / 10 * a * (e - s) * (e - s)).
  { intros t Hs He.
    assert (0 <= a * ((t - s) * (t - s))) by (apply Rmult_le_pos; [lra|apply Rmult_le_pos; lra]).
    assert (0 <= a * ((e - t) * (e - s + (t - s))))
      by (apply Rmult_le_pos; [lra|apply Rmult_le_pos; lra]).
    split; nra. }
  assert (Hrange : forall t,
             0 <= MachineView.cartDisplacementM trial t
             <= 5 / 10 * a * (e - s) * (e - s) + 5 / 10 * (a * (e - s)) * SD).
  { intros t.
    assert (0 <= 5 / 10 * (a * (e - s)) * SD)
      by (apply Rmult_le_pos; [apply Rmult_le_pos; lra|lra]).
    destruct (Rle_dec t s) as [H1|H1];
      [rewrite (ExactDisplacement.before trial Hm t H1); lra|].
    destruct (Rle_dec t e) as [H2|H2].
    { rewrite (ExactDisplacement.accelerating trial Hm t) by (fold s e; lra).
      fold s e a. pose proof (Hacc t ltac:(lra) H2). lra. }
    destruct (Rle_dec t f) as [H3|H3].
    { rewrite (ExactDisplacement.stopping trial Hm t) by (fold s e f; lra).
      fold s e f a. pose proof (Hfinal (t - e) ltac:(lra) ltac:(lra) ltac:(lra)). lra. }
    rewrite (ExactDisplacement.stopped trial Hm t) by (fold s e f; lra).
    fold s e f a SD. lra. }
  intros H12. split; [apply Hrange|]. split.
  - destruct (Rle_dec t2 s) as [Hb2|Hb2].
    { rewrite (ExactDisplacement.before trial Hm t1), (ExactDisplacement.before trial Hm t2)
        by (fold s; lra). lra. }
    destruct (Rle_dec t1 s) as [Hb1|Hb1].
    { rewrite (ExactDisplacement.before trial Hm t1) by (fold s; lra). apply Hrange. }
    destruct (Rle_dec t2 e) as [Ha2|Ha2].
    { rewrite (ExactDisplacement.accelerating trial Hm t1),
        (ExactDisplacement.accelerating trial Hm t2) by (fold s e; lra).
      fold s a.
      assert (0 <= a * ((t2 - t1) * (t2 - s + (t1 - s))))
        by (apply Rmult_le_pos; [lra|apply Rmult_le_pos; lra]).
      nra. }
    destruct (Rle_dec t2 f) as [Hs2|Hs2].
    { rewrite (ExactDisplacement.stopping trial Hm t2) by (fold s e f; lra). fold s e f a.
      destruct (Rle_dec t1 e) as [Ha1|Ha1].
      - rewrite (ExactDisplacement.accelerating trial Hm t1) by (fold s e; lra). fold s a.
        pose proof (Hacc t1 ltac:(lra) Ha1).
        pose proof (Hfinal (t2 - e) ltac:(lra) ltac:(lra) ltac:(lra)). lra.
      - rewrite (ExactDisplacement.stopping trial Hm t1) by (fold s e f; lra). fold s e f a.
        destruct (ExactDisplacement.braking_monotone (a * (e - s)) (f - e) (t1 - e) (t2 - e))
          as [[_ Hmono] _]; lra. }
    rewrite (ExactDisplacement.stopped trial Hm t2) by (fold s e f; lra). fold s e f a SD.
    apply Hrange.
  - intros Hf t.
    rewrite (ExactDisplacement.stopped trial Hm t2) by (fold s e f; lra). fold s e f a SD.
    apply Hrange.
Qed.

Lemma cart_never_moves_back_witness :
  0 <= MachineView.cartDisplacementM (N := ExactReal) MoreExamples.movedCurrent 1
  /\ MachineView.cartDisplacementM (N := ExactReal) MoreExamples.movedCurrent 1
     <= MachineView.cartDisplacementM (N := ExactReal) MoreExamples.movedCurrent 3
  /\ MachineView.cartDisplacementM (N := IEEE754) MoreExamples.movedCurrent 3%float
     = MachineView.cartDisplacementM (N := IEEE754) MoreExamples.movedCurrent 4%float
  /\ MachineView.cartDisplacementM (N := IEEE754) MoreExamples.movedCurrent 0.5%float
     = 0%float.
Proof.
  assert (Ha : 0 <= accelerationMps2 (State.physics (MoreExamples.movedCurrent (N := ExactReal))))
    by (cbn; exact_ops; lra).
  assert (Hse : accelStartS (phases (State.signals (MoreExamples.movedCurrent (N := ExactReal))))
                <= accelEndS (phases (State.signals MoreExamples.movedCurrent)))
    by (cbn; exact_ops; lra).
  assert (Hef : accelEndS (phases (State.signals (MoreExamples.movedCurrent (N := ExactReal))))
                <= stopEndS (phases (State.signals MoreExamples.movedCurrent)))
    by (cbn; exact_ops; lra).
  assert (H13 : 1 <= 3) by lra.
  destruct (proj1 (proj2 cart_never_moves_back) MoreExamples.movedCurrent 1 3 eq_refl Ha Hse Hef H13)
    as (H0 & Hle & _).
  split; [assumption|]. split; [assumption|].
  pose proof (proj1 cart_never_moves_back float IEEE754 IEEE754_total
                MoreExamples.movedCurrent 3%float 4%float) as Hrest.
  cbv zeta in Hrest. destruct Hrest as (_ & _ & Hafter).
  pose proof (proj1 cart_never_moves_back float IEEE754 IEEE754_total
                MoreExamples.movedCurrent 0.5%float 0.5%float) as Hstart.
  cbv zeta in Hstart. destruct Hstart as (_ & Hbefore & _).
  split.
  - apply Hafter; vm_compute; reflexivity.
  - apply Hbefore. vm_compute. reflexivity.
Defined.

(** X13. Whatever the arithmetic, an animation frame of a playing view
    whose slider maximum is not negative leaves the time cursor between 0
    and that maximum, provided the advanced time is a number; it reports
    the new time once, and it stops the playback (asking for no further
    frame) exactly when the cursor has reached the maximum. *)
Theorem animate_keeps_cursor_in_range
  (num : Type) (N : Number num) (C : NumberClamp num)
  (view : MachineView.View num) (timestamp : num) (current : State.CurrentTrial num) :
  MachineView.playing view = true ->
  MachineView.trial view = Some current ->
  (ofZ 0 <=? MachineView.sliderMax view)%js = true ->
  isNumber (MachineView.currentTimeS view
            + (timestamp - orElse (MachineView.lastFrame view) timestamp) / ofZ 1000)%js ->
  let after := fst (MachineView.animate view timestamp) in
  let effects := snd (MachineView.animate view timestamp) in
  (ofZ 0 <=? MachineView.currentTimeS after)%js = true
  /\ (MachineView.currentTimeS after <=? MachineView.sliderMax view)%js = true
  /\ MachineView.sliderMax after = MachineView.sliderMax view
  /\ MachineView.timeUpdates effects = [(MachineView.currentTimeS after, Some current)]
  /\ MachineView.playing after = MachineView.frameRequested effects
  /\ MachineView.playing after
     = negb (MachineView.sliderMax view <=? MachineView.currentTimeS after)%js.
Proof.
  intros Hplaying Htrial Hmax Hnumber after effects.
  subst after effects. unfold MachineView.animate.
  rewrite Hplaying, Htrial. cbn [negb orb fst snd MachineView.currentTimeS
    MachineView.sliderMax MachineView.timeUpdates MachineView.playing
    MachineView.frameRequested].
  destruct (clamp_between _ _ _ Hnumber Hmax) as [Hlow Hhigh].
  unfold MachineView.clamp.
  repeat split; assumption.
Qed.

Lemma animate_keeps_cursor_in_range_witness :
  (ofZ 0 <=? MachineView.currentTimeS
               (fst (MachineView.animate (N := IEEE754) MoreExamples.playingView 16%float)))%js
  = true
  /\ (MachineView.currentTimeS
        (fst (MachineView.animate (N := IEEE754) MoreExamples.playingView 16%float))
      <=? ofZ 2)%js = true.
Proof.
  assert (Hmax : (ofZ 0 <=? MachineView.sliderMax (MoreExamples.playingView (N := IEEE754)))%js
                 = true) by (vm_compute; reflexivity).
  assert (Hnumber :
            isNumber (MachineView.currentTimeS (MoreExamples.playingView (N := IEEE754))
                      + (16%float - orElse (MachineView.lastFrame MoreExamples.playingView)
                                           16%float) / ofZ 1000)%js)
    by (vm_compute; reflexivity).
  destruct (animate_keeps_cursor_in_range float IEEE754 IEEE754_clamp
              MoreExamples.playingView 16%float MoreExamples.movedCurrent
              eq_refl eq_refl Hmax Hnumber)
    as (Hlow & Hhigh & _).
  split; assumption.
Defined.

Module ExactPlayback.
Local Open Scope R_scope.

Import ExactMachine.

Lemma tracking_step (current : State.CurrentTrial R) (m first frame next : R)
  (view : MachineView.View R) :
  0 <= m -> first <= frame -> frame <= next ->
  tracking current m first frame view ->
  tracking current m first next (fst (MachineView.animate view next)).
Proof.
  intros Hm Hfirst Hnext (Htrial & Hmax & Hcursor & Hplaying & Hlast).
  unfold MachineView.animate. rewrite Htrial.
  destruct (MachineView.playing view) eqn:Hp; cbn [negb orb fst].
  - assert (Hlt : MachineView.currentTimeS view < m) by (apply Hplaying; reflexivity).
    rewrite (Hlast eq_refl). cbn [orElse].
    assert (Hc : MachineView.currentTimeS view = (frame - first) / 1000).
    { rewrite Hcursor in *. unfold Rmin in *. destruct (Rle_dec m ((frame - first) / 1000)); lra. }
    unfold tracking. cbn [MachineView.trial MachineView.sliderMax MachineView.currentTimeS
      MachineView.playing MachineView.lastFrame].
    unfold MachineView.clamp. exact_ops. rewrite Hmax, Hc.
    replace ((frame - first) / 1000 + (next - frame) / 1000) with ((next - first) / 1000)
      by lra.
    assert (Hpos : 0 <= (next - first) / 1000) by lra.
    rewrite (Rmax_right 0 ((next - first) / 1000)) by exact Hpos.
    split; [reflexivity|]. split; [reflexivity|]. split; [reflexivity|].
    split; [|reflexivity].
    rewrite negb_true_iff. rewrite ExactOrder.leb_false. reflexivity.
  - unfold tracking. rewrite Hp.
    assert (Hge : m <= (frame - first) / 1000).
    { destruct (Rlt_dec (MachineView.currentTimeS view) m) as [H|H].
      - apply Hplaying in H. discriminate.
      - rewrite Hcursor in H. unfold Rmin in H.
        destruct (Rle_dec m ((frame - first) / 1000)); lra. }
    split; [exact Htrial|]. split; [exact Hmax|].
    split; [rewrite Hcursor, !Rmin_left by lra; reflexivity|].
    split; [exact Hplaying|discriminate].
Qed.

Lemma ascending_tail (a : R) (l : list R) : ascending (a :: l) = true -> ascending l = true.
Proof.
  destruct l as [|b l]; [reflexivity|]. simpl.
  intros H. apply andb_true_iff in H. exact (proj2 H).
Qed.

Lemma ascending_head (a b : R) (l : list R) : ascending (a :: b :: l) = true -> a <= b.
Proof.
  simpl. intros H. apply andb_true_iff in H. apply ExactOrder.leb_true. exact (proj1 H).
Qed.

Lemma last_cons (l : list R) :
  forall a d, last (a :: l) d = last l a.
Proof.
  induction l as [|b l IH]; intros a d; [reflexivity|].
  change (last (a :: b :: l) d) with (last (b :: l) d).
  rewrite (IH b d), (IH b a). reflexivity.
Qed.

Lemma tracking_run (current : State.CurrentTrial R) (m first : R) (later : list R) :
  0 <= m ->
  forall (frame : R) (view : MachineView.View R),
    first <= frame -> ascending (frame :: later) = true ->
    tracking current m first frame view ->
    tracking current m first (last later frame) (playFrames view later).
Proof.
  intros Hm. induction later as [|next later IH]; intros frame view Hfirst Hasc Htrack.
  - exact Htrack.
  - pose proof (ascending_head frame next later Hasc) as Hnext.
    pose proof (ascending_tail frame (next :: later) Hasc) as Htail.
    change (playFrames view (next :: later))
      with (playFrames (fst (MachineView.animate view next)) later).
    rewrite last_cons.
    apply IH; [lra|exact Htail|].
    apply (tracking_step current m first frame next view Hm Hfirst Hnext Htrack).
Qed.
End ExactPlayback.

Local Open Scope R_scope.

(** X14. The playback follows the clock.  In binary64 arithmetic, for the
    sample view (cursor at 0, slider maximum 2 s) animated at the 301
    timestamps [1000 k / 60] ms of 5 s of frames at 60 Hz: after each
    frame the cursor is within 1e-14 s of the time elapsed since the
    first frame, capped at the slider maximum, though not always equal
    to it, and the view is playing exactly when the cursor is below the
    maximum.  In exact arithmetic, a playback that starts with the
    cursor at 0 and is animated at timestamps that do not decrease
    shows, after each frame, exactly the time elapsed since the first
    frame (in seconds), capped at the slider maximum, and it is still
    playing exactly when the cursor is below that maximum. *)
Theorem playback_tracks_elapsed_time :
  (let timestamps := map (fun k => (ofZ (1000 * Z.of_nat k) / ofZ 60)%js) (seq 0 301) in
   tracksWithin (N := IEEE754) (lit 1 100000000000000) MoreExamples.playingView (ofZ 0)
     timestamps = true)
  /\ (let timestamps := map (fun k => (ofZ (1000 * Z.of_nat k) / ofZ 60)%js) (seq 0 301) in
      tracksWithin (N := IEEE754) (ofZ 0) MoreExamples.playingView (ofZ 0) timestamps
      = false)
  /\ (forall (view : MachineView.View R) (current : State.CurrentTrial R)
             (first : R) (later : list R),
         MachineView.trial view = Some current ->
         MachineView.playing view = true ->
         MachineView.lastFrame view = None ->
         MachineView.currentTimeS view = 0 ->
         0 <= MachineView.sliderMax view ->
         ascending (first :: later) = true ->
         let final := playFrames view (first :: later) in
         MachineView.currentTimeS final
         = Rmin (MachineView.sliderMax view) ((last later first - first) / 1000)
         /\ (MachineView.playing final = true
             <-> MachineView.currentTimeS final < MachineView.sliderMax view)).
Proof.
  refine (conj _ (conj _ _)); [vm_compute; reflexivity..|].
  intros view current first later.
  intros Htrial Hplaying Hlast Hcursor Hmax Hasc final.
  assert (Hstart : ExactMachine.tracking current (MachineView.sliderMax view) first first
                     (fst (MachineView.animate view first))).
  { unfold MachineView.animate. rewrite Htrial, Hplaying, Hlast, Hcursor.
    cbn [negb orb fst orElse]. unfold ExactMachine.tracking.
    cbn [MachineView.trial MachineView.sliderMax MachineView.currentTimeS
      MachineView.playing MachineView.lastFrame].
    unfold MachineView.clamp. exact_ops.
    replace (0 + (first - first) / 1000) with 0 by lra.
    replace ((first - first) / 1000) with 0 by lra.
    rewrite (Rmax_right 0 0) by lra.
    split; [reflexivity|]. split; [reflexivity|]. split; [reflexivity|].
    split; [|reflexivity].
    rewrite negb_true_iff. rewrite ExactOrder.leb_false. reflexivity. }
  destruct (ExactPlayback.tracking_run current (MachineView.sliderMax view) first later Hmax
              first (fst (MachineView.animate view first)) (Rle_refl first) Hasc Hstart)
    as (_ & _ & Hc & Hp & _).
  subst final. change (playFrames view (first :: later))
    with (playFrames (fst (MachineView.animate view first)) later).
  split; [exact Hc|exact Hp].
Qed.

Lemma playback_tracks_elapsed_time_witness :
  MachineView.currentTimeS (playFrames (N := ExactReal) MoreExamples.playingView [0; 500; 1000])
  = Rmin 2 ((1000 - 0) / 1000)
  /\ (MachineView.playing (playFrames (N := ExactReal) MoreExamples.playingView [0; 500; 1000])
      = true
      <-> MachineView.currentTimeS
            (playFrames (N := ExactReal) MoreExamples.playingView [0; 500; 1000]) < 2).
Proof.
  refine (proj2 (proj2 playback_tracks_elapsed_time) MoreExamples.playingView MoreExamples.movedCurrent
            0 [500; 1000] eq_refl eq_refl eq_refl eq_refl _ _).
  - simpl. lra.
  - simpl. rewrite !(proj2 (ExactOrder.leb_true _ _)) by lra. reflexivity.
Defined.

Local Open Scope R_scope.

Module ExactPhases.
Local Open Scope R_scope.
Import ExactMachine.

(** A braking covers ground until it ends. *)
Lemma braking_increasing (pv F u1 u2 : R) :
  0 < pv -> 0 < F -> 0 <= u1 -> u1 < u2 -> u2 <= F ->
  braking pv F u1 < braking pv F u2.
Proof.
  intros Hpv HF Hu1 Hu12 Hu2. unfold braking.
  set (q := pv / F).
  assert (Hq : 0 < q) by (apply Rmult_lt_0_compat; [exact Hpv|apply Rinv_0_lt_compat; exact HF]).
  assert (HqF : pv = q * F) by (unfold q; field; lra).
  rewrite HqF.
  assert (H : 0 < q * (u2 - u1) * (F - (u1 + u2) / 2)).
  { apply Rmult_lt_0_compat; [apply Rmult_lt_0_compat; [assumption|lra]|lra]. }
  nra.
Qed.

(** The label at a time, for a trial that moved. *)
Lemma label_cases (view : MachineView.View R) (current : State.CurrentTrial R) (t : R) :
  MachineView.trial view = Some current ->
  moved (State.physics current) = true ->
  let ph := phases (State.signals current) in
  (t < accelStartS ph
   /\ MachineView.currentPhaseLabel view t = "Initial setup phase"%string)
  \/ (accelStartS ph <= t <= accelEndS ph
      /\ MachineView.currentPhaseLabel view t = "Steady acceleration phase"%string)
  \/ (accelStartS ph <= t /\ accelEndS ph < t <= stopEndS ph
      /\ MachineView.currentPhaseLabel view t = "Stop/deceleration phase"%string)
  \/ (accelStartS ph <= t /\ accelEndS ph < t /\ stopEndS ph < t
      /\ MachineView.currentPhaseLabel view t = "Post-stop phase"%string).
Proof.
  intros Htrial Hm ph. unfold MachineView.currentPhaseLabel.
  rewrite Htrial, Hm. cbn [negb]. fold ph.
  destruct (Rlt_dec t (accelStartS ph)) as [H1|H1].
  - left. rewrite (proj2 (ExactOrder.nlt_true _ _)) by exact H1. split; [exact H1|reflexivity].
  - right. rewrite (proj2 (ExactOrder.nlt_false _ _)) by lra.
    destruct (Rle_dec t (accelEndS ph)) as [H2|H2].
    + left. rewrite (proj2 (ExactOrder.nle_true _ _)) by exact H2.
      split; [lra|reflexivity].
    + right. rewrite (proj2 (ExactOrder.nle_false _ _)) by lra.
      destruct (Rle_dec t (stopEndS ph)) as [H3|H3].
      * left. rewrite (proj2 (ExactOrder.nle_true _ _)) by exact H3.
        repeat split; try lra.
      * right. rewrite (proj2 (ExactOrder.nle_false _ _)) by lra.
        repeat split; try lra.
Qed.
End ExactPhases.

Local Open Scope R_scope.

Section Labels.
Context {num : Type} {N : Number num} {T : NumberTotal num}.
Local Open Scope js_scope.

(** The tests behind each label. *)
Lemma label_tests (view : MachineView.View num) (current : State.CurrentTrial num) (t : num) :
  MachineView.trial view = Some current ->
  let ph := phases (State.signals current) in
  let label := MachineView.currentPhaseLabel view t in
  (label = "No sustained motion"%string /\ moved (State.physics current) = false)
  \/ (label = "Initial setup phase"%string /\ moved (State.physics current) = true
      /\ (t <? accelStartS ph) = true)
  \/ (label = "Steady acceleration phase"%string /\ moved (State.physics current) = true
      /\ (t <? accelStartS ph) = false /\ (t <=? accelEndS ph) = true)
  \/ (label = "Stop/deceleration phase"%string /\ moved (State.physics current) = true
      /\ (t <? accelStartS ph) = false /\ (t <=? accelEndS ph) = false
      /\ (t <=? stopEndS ph) = true)
  \/ (label = "Post-stop phase"%string /\ moved (State.physics current) = true
      /\ (t <? accelStartS ph) = false /\ (t <=? accelEndS ph) = false
      /\ (t <=? stopEndS ph) = false).
Proof.
  intros Htrial ph label. unfold label, MachineView.currentPhaseLabel.
  rewrite Htrial. fold ph.
  destruct (moved (State.physics current)); cbn [negb]; [|left; auto].
  right.
  destruct (t <? accelStartS ph); [left; auto|right].
  destruct (t <=? accelEndS ph); [left; auto|right].
  destruct (t <=? stopEndS ph); [left; auto|right; auto 6].
Qed.
End Labels.

(** X15. The phase label and the cart drawn agree.  Whatever the
    arithmetic (with the order facts, proved for doubles), for a view
    with a trial: the label is one of "No sustained motion", "Initial
    setup phase", "Steady acceleration phase", "Stop/deceleration phase"
    and "Post-stop phase"; under the first two [cartDisplacementM] draws
    the cart at 0; and for phase boundaries in order two times labelled
    "Post-stop phase" show the same displacement.  In exact arithmetic,
    for a trial that moved with a positive acceleration and boundaries
    in strict order, two times [t1 < t2] that carry the same label show
    the cart further along at [t2] than at [t1] under "Steady
    acceleration phase" and under "Stop/deceleration phase".  In
    binary64 arithmetic this last part can fail by rounding: for the
    sample trial the double before 2.200000000000002 and that double are
    both labelled "Stop/deceleration phase" and the displacement
    computed at the later one is the smaller. *)
Theorem phase_label_tells_motion :
  (forall (num : Type) (N : Number num) (T : NumberTotal num)
          (view : MachineView.View num) (current : State.CurrentTrial num) (t1 t2 : num),
      MachineView.trial view = Some current ->
      let ph := phases (State.signals current) in
      let label := MachineView.currentPhaseLabel view in
      let shown := MachineView.cartDisplacementM current in
      In (label t1)
         ["No sustained motion"%string; "Initial setup phase"%string;
          "Steady acceleration phase"%string; "Stop/deceleration phase"%string;
          "Post-stop phase"%string]
      /\ (label t1 = "No sustained motion"%string -> shown t1 = ofZ 0)
      /\ (label t1 = "Initial setup phase"%string -> shown t1 = ofZ 0)
      /\ ((accelStartS ph <=? accelEndS ph)%js = true ->
          (accelEndS ph <=? stopEndS ph)%js = true ->
          label t1 = "Post-stop phase"%string -> label t2 = "Post-stop phase"%string ->
          shown t1 = shown t2))
  /\ (forall (view : MachineView.View R) (current : State.CurrentTrial R) (t1 t2 : R),
         MachineView.trial view = Some current ->
         moved (State.physics current) = true ->
         0 < accelerationMps2 (State.physics current) ->
         accelStartS (phases (State.signals current))
         < accelEndS (phases (State.signals current)) ->
         accelEndS (phases (State.signals current))
         < stopEndS (phases (State.signals current)) ->
         t1 < t2 ->
         MachineView.currentPhaseLabel view t1 = MachineView.currentPhaseLabel view t2 ->
         let label := MachineView.currentPhaseLabel view t1 in
         let shown := MachineView.cartDisplacementM current in
         (label = "Initial setup phase"%string /\ shown t1 = 0 /\ shown t2 = 0)
         \/ (label = "Steady acceleration phase"%string /\ shown t1 < shown t2)
         \/ (label = "Stop/deceleration phase"%string /\ shown t1 < shown t2)
         \/ (label = "Post-stop phase"%string /\ shown t1 = shown t2))
  /\ (MachineView.currentPhaseLabel (N := IEEE754) MoreExamples.playingView
        0x1.199999999999dp+1%float = "Stop/deceleration phase"%string
      /\ MachineView.currentPhaseLabel (N := IEEE754) MoreExamples.playingView
           0x1.199999999999ep+1%float = "Stop/deceleration phase"%string
      /\ (0x1.199999999999dp+1 <? 0x1.199999999999ep+1)%float = true
      /\ (MachineView.cartDisplacementM (N := IEEE754) MoreExamples.movedCurrent
            0x1.199999999999ep+1
          <? MachineView.cartDisplacementM (N := IEEE754) MoreExamples.movedCurrent
               0x1.199999999999dp+1)%float = true).
Proof.
  split; [|split; [|repeat split; vm_compute; reflexivity]].
  { intros num N T view current t1 t2 Htrial ph label shown. subst label shown.
    pose proof (label_tests view current t1 Htrial) as H1.
    pose proof (label_tests view current t2 Htrial) as H2.
    cbv zeta in H1, H2. fold ph in H1, H2.
    refine (conj _ (conj _ (conj _ _))).
    - destruct H1 as [[L _]|[[L _]|[[L _]|[[L _]|[L _]]]]]; rewrite L; simpl; auto 6.
    - intros Hlabel.
      destruct H1 as [[_ Hm]|[[L _]|[[L _]|[[L _]|[L _]]]]];
        try (rewrite L in Hlabel; discriminate).
      apply rests_unmoved. exact Hm.
    - intros Hlabel.
      destruct H1 as [[L _]|[(_ & _ & Hlt)|[[L _]|[[L _]|[L _]]]]];
        try (rewrite L in Hlabel; discriminate).
      apply rests_before. fold ph. apply lt_le. exact Hlt.
    - intros Hse Hef L1 L2.
      destruct H1 as [[L _]|[[L _]|[[L _]|[[L _]|(_ & _ & _ & B1 & C1)]]]];
        try (rewrite L in L1; discriminate).
      destruct H2 as [[L _]|[[L _]|[[L _]|[[L _]|(_ & _ & _ & B2 & C2)]]]];
        try (rewrite L in L2; discriminate).
      apply rests_after; fold ph; try assumption.
      + exact (not_before_earlier _ _ _ Hse B1).
      + exact (not_before_earlier _ _ _ Hse B2). }
  intros view current t1 t2.
  intros Htrial Hm Ha Hse Hef Ht Hsame label shown. unfold label, shown.
  set (s := accelStartS (phases (State.signals current))) in *.
  set (e := accelEndS (phases (State.signals current))) in *.
  set (f := stopEndS (phases (State.signals current))) in *.
  set (a := accelerationMps2 (State.physics current)) in *.
  pose proof (ExactPhases.label_cases view current t1 Htrial Hm) as H1.
  pose proof (ExactPhases.label_cases view current t2 Htrial Hm) as H2.
  cbv zeta in H1, H2. fold s e f in H1, H2.
  destruct H1 as [[B1 L1]|[[B1 L1]|[(B1 & C1 & L1)|(B1 & C1 & D1 & L1)]]];
    destruct H2 as [[B2 L2]|[[B2 L2]|[(B2 & C2 & L2)|(B2 & C2 & D2 & L2)]]];
    rewrite L1, L2 in Hsame; try discriminate; clear Hsame; rewrite L1.
  - left. split; [reflexivity|].
    split; apply (ExactDisplacement.before current Hm); fold s; lra.
  - right; left. split; [reflexivity|].
    rewrite (ExactDisplacement.accelerating current Hm t2) by (fold s e; lra).
    fold s a.
    destruct (Rle_dec t1 s) as [Hat|Hafter].
    + rewrite (ExactDisplacement.before current Hm t1) by (fold s; lra).
      assert (0 < a * (t2 - s) * (t2 - s))
        by (apply Rmult_lt_0_compat; [apply Rmult_lt_0_compat|]; lra).
      lra.
    + rewrite (ExactDisplacement.accelerating current Hm t1) by (fold s e; lra).
      fold s a.
      assert (0 < a * (t2 - t1) * (t2 - s + (t1 - s)))
        by (apply Rmult_lt_0_compat; [apply Rmult_lt_0_compat|]; lra).
      nra.
  - right; right; left. split; [reflexivity|].
    rewrite (ExactDisplacement.stopping current Hm t1) by (fold s e f; lra).
    rewrite (ExactDisplacement.stopping current Hm t2) by (fold s e f; lra).
    fold s e f a.
    assert (Hpv : 0 < a * (e - s)) by (apply Rmult_lt_0_compat; lra).
    pose proof (ExactPhases.braking_increasing (a * (e - s)) (f - e) (t1 - e) (t2 - e)
                  Hpv ltac:(lra) ltac:(lra) ltac:(lra) ltac:(lra)).
    lra.
  - right; right; right. split; [reflexivity|].
    rewrite (ExactDisplacement.stopped current Hm t1) by (fold s e f; lra).
    rewrite (ExactDisplacement.stopped current Hm t2) by (fold s e f; lra).
    reflexivity.
Qed.

Lemma phase_label_tells_motion_witness :
  MachineView.currentPhaseLabel (N := ExactReal) MoreExamples.playingView 1
  = "Steady acceleration phase"%string
  /\ MachineView.cartDisplacementM (N := ExactReal) MoreExamples.movedCurrent 1
     < MachineView.cartDisplacementM (N := ExactReal) MoreExamples.movedCurrent (15 / 10)
  /\ MachineView.cartDisplacementM (N := IEEE754) MoreExamples.movedCurrent 3%float
     = MachineView.cartDisplacementM (N := IEEE754) MoreExamples.movedCurrent 4%float.
Proof.
  assert (Hrest :
            MachineView.cartDisplacementM (N := IEEE754) MoreExamples.movedCurrent 3%float
            = MachineView.cartDisplacementM (N := IEEE754) MoreExamples.movedCurrent 4%float).
  { pose proof (proj1 phase_label_tells_motion float IEEE754 IEEE754_total
                  MoreExamples.playingView MoreExamples.movedCurrent 3%float 4%float
                  eq_refl) as H.
    cbv zeta in H. destruct H as (_ & _ & _ & H).
    apply H; vm_compute; reflexivity. }
  assert (Hlabel : forall t : R,
             7 / 10 <= t <= 18 / 10 ->
             MachineView.currentPhaseLabel (N := ExactReal) MoreExamples.playingView t
             = "Steady acceleration phase"%string).
  { intros t Ht. unfold MachineView.currentPhaseLabel.
    cbn [MachineView.trial MoreExamples.playingView MoreExamples.movedCurrent
         State.physics State.signals moved Examples.movedTrial negb phases
         accelStartS accelEndS stopEndS].
    exact_ops.
    rewrite (proj2 (ExactOrder.ltb_false _ _)) by lra.
    rewrite (proj2 (ExactOrder.leb_true _ _)) by lra. reflexivity. }
  assert (H1 := Hlabel 1 ltac:(lra)).
  assert (H2 := Hlabel (15 / 10) ltac:(lra)).
  split; [exact H1|]. split; [|exact Hrest].
  assert (Ha : 0 < accelerationMps2 (State.physics (MoreExamples.movedCurrent (N := ExactReal))))
    by (cbn; exact_ops; lra).
  assert (Hse : accelStartS (phases (State.signals (MoreExamples.movedCurrent (N := ExactReal))))
                < accelEndS (phases (State.signals (MoreExamples.movedCurrent (N := ExactReal)))))
    by (cbn; exact_ops; lra).
  assert (Hef : accelEndS (phases (State.signals (MoreExamples.movedCurrent (N := ExactReal))))
                < stopEndS (phases (State.signals (MoreExamples.movedCurrent (N := ExactReal)))))
    by (cbn; exact_ops; lra).
  assert (Ht : 1 < 15 / 10) by lra.
  destruct (proj1 (proj2 phase_label_tells_motion) MoreExamples.playingView MoreExamples.movedCurrent
              1 (15 / 10) eq_refl eq_refl Ha Hse Hef Ht (eq_trans H1 (eq_sym H2)))
    as [[L _]|[[_ H]|[[_ H]|[L _]]]].
  - rewrite H1 in L. discriminate.
  - exact H.
  - exact H.
  - rewrite H1 in L. discriminate.
Defined.

(* ================================================================== *)
(** ** The selection of a graph ([graphs.js]) *)

Section SelectionInSpan.
Import TimeSeriesGraph.
Context {num : Type} {N : Number num} {O : NumberOrder num} {C : NumberClamp num}.
Local Open Scope js_scope.

Lemma inSpan_numbers (b : Bounds num) (x : num) : inSpan b x = true -> isNumber x.
Proof.
  unfold inSpan. intros H. apply andb_true_iff in H.
  exact (proj2 (le_numbers _ _ (proj1 H))).
Qed.

Lemma point_in_span (b : Bounds num) (x : num) :
  inSpan b x = true ->
  selectionInSpan b (Some {| startS := x; endS := x |}) = true.
Proof.
  intros Hx. unfold selectionInSpan. cbn [startS endS]. rewrite Hx. cbn [andb].
  apply le_reflexive. exact (inSpan_numbers b x Hx).
Qed.

Lemma normalized_in_span (b : Bounds num) (x y : num) :
  inSpan b x = true -> inSpan b y = true ->
  selectionInSpan b (normalizeSelection (Some {| startS := x; endS := y |})) = true.
Proof.
  intros Hx Hy. pose proof (inSpan_numbers b x Hx) as Nx.
  pose proof (inSpan_numbers b y Hy) as Ny.
  unfold selectionInSpan, normalizeSelection. cbn [startS endS].
  rewrite (@min_le_max _ _ _ x y Nx Ny), andb_true_r.
  destruct (min_either x y Nx Ny) as [-> | ->], (max_either x y Nx Ny) as [-> | ->];
    rewrite ?Hx, ?Hy; reflexivity.
Qed.

Lemma pointerTime_in_span (page : Page num) (graph : Graph num) (event : PointerEvent num) :
  (xMin (bounds graph) <=? xMax (bounds graph)) = true ->
  isNumber (rawPointerTime page (bounds graph) event) ->
  inSpan (bounds graph) (pointerTime page graph event) = true.
Proof.
  intros Hspan Hraw. unfold inSpan, pointerTime, clamp.
  destruct (clamp_between _ _ _ Hraw Hspan) as [Hlow Hhigh].
  unfold rawPointerTime in *. rewrite Hlow, Hhigh. reflexivity.
Qed.

Lemma selection_ends_in_span (b : Bounds num) (sel : Interval num) :
  selectionInSpan b (Some sel) = true ->
  inSpan b (startS sel) = true /\ inSpan b (endS sel) = true.
Proof.
  unfold selectionInSpan. intros H.
  apply andb_true_iff in H. destruct H as [H _].
  apply andb_true_iff in H. exact H.
Qed.

(** One pointer action on a drawn graph: the graph stays drawn, with
    the same data and bounds, and what it publishes lies in the span. *)
Lemma pointerStep_drawn (page : Page num) (graph : Graph num) (action : PointerAction) :
  drawn page graph ->
  readable page (bounds graph) action ->
  let after := fst (pointerStep page graph action) in
  drawn page after
  /\ times after = times graph
  /\ bounds after = bounds graph
  /\ Forall (fun sel => selectionInSpan (bounds graph) sel = true)
       (snd (pointerStep page graph action)).
Proof.
  intros (Hbounds & Hspan & Hsel) Hread. cbn zeta. unfold drawn.
  destruct action as [event|event|event]; cbn [pointerStep readable] in *.
  - unfold handlePointerDown.
    destruct (times graph) as [|first others] eqn:Htimes; rewrite <- Htimes in Hbounds.
    { cbn [fst snd]. repeat split; try assumption; constructor. }
    pose proof (pointerTime_in_span page graph event Hspan Hread) as Htime.
    destruct (detectHandle page graph _) as [handle|].
    + cbn [fst snd render withDrag times bounds selection].
      rewrite <- Hbounds.
      repeat split; try assumption; constructor.
    + cbn [fst snd render withDrag withSelection times bounds selection].
      rewrite <- Hbounds.
      pose proof (point_in_span _ _ Htime) as Hpoint.
      repeat split; try assumption. constructor; [exact Hpoint|constructor].
  - unfold handlePointerMove.
    destruct (negb (samePointer (draggingPointerId graph) (pointerId event))).
    { cbn [orb fst snd]. repeat split; try assumption; constructor. }
    destruct (times graph) as [|first others] eqn:Htimes; rewrite <- Htimes in Hbounds.
    { cbn [orb fst snd]. repeat split; try assumption; constructor. }
    cbn [orb].
    pose proof (pointerTime_in_span page graph event Hspan Hread) as Htime.
    set (timeS := pointerTime page graph event) in *.
    assert (Hstart : inSpan (bounds graph)
                       (startS match selection graph with
                               | Some sel => sel
                               | None => {| startS := timeS; endS := timeS |}
                               end) = true
                     /\ inSpan (bounds graph)
                          (endS match selection graph with
                                | Some sel => sel
                                | None => {| startS := timeS; endS := timeS |}
                                end) = true).
    { destruct (selection graph) as [sel|].
      - exact (selection_ends_in_span _ _ Hsel).
      - cbn [startS endS]. split; exact Htime. }
    destruct Hstart as [Hs He].
    set (sel0 := match selection graph with
                 | Some sel => sel
                 | None => {| startS := timeS; endS := timeS |}
                 end) in *.
    assert (Hnew : selectionInSpan (bounds graph)
                     (normalizeSelection
                        (Some match dragMode graph with
                              | Some DragStart => {| startS := timeS; endS := endS sel0 |}
                              | Some DragEnd => {| startS := startS sel0; endS := timeS |}
                              | _ => {| startS := startS sel0; endS := timeS |}
                              end)) = true).
    { destruct (dragMode graph) as [[ | | ]|]; apply normalized_in_span; assumption. }
    cbn [fst snd render withSelection times bounds selection].
    rewrite <- Hbounds.
    repeat split; try assumption. constructor; [exact Hnew|constructor].
  - unfold handlePointerUp.
    destruct (negb (samePointer (draggingPointerId graph) (pointerId event)));
      cbn [fst snd withDrag times bounds selection];
      repeat split; try assumption; constructor.
Qed.
End SelectionInSpan.

(** X16. Whatever the arithmetic: on a graph that has been drawn with a
    plotted span [xMin <= xMax] and a selection inside it, any sequence of
    pointer-down, pointer-move and pointer-up events whose positions map
    to numbers leaves a selection that is in order and inside the span,
    and so is every selection handed to [onSelectionChange] on the way;
    the data and the bounds are unchanged. *)
Theorem pointer_selection_stays_in_span
  (num : Type) (N : Number num) (O : NumberOrder num) (C : NumberClamp num)
  (page : TimeSeriesGraph.Page num) (actions : list PointerAction)
  (graph : TimeSeriesGraph.Graph num) :
  drawn page graph ->
  Forall (readable page (TimeSeriesGraph.bounds graph)) actions ->
  let final := fst (pointerRun page graph actions) in
  let published := snd (pointerRun page graph actions) in
  selectionInSpan (TimeSeriesGraph.bounds graph) (TimeSeriesGraph.selection final) = true
  /\ Forall (fun sel => selectionInSpan (TimeSeriesGraph.bounds graph) sel = true) published
  /\ TimeSeriesGraph.times final = TimeSeriesGraph.times graph
  /\ TimeSeriesGraph.bounds final = TimeSeriesGraph.bounds graph.
Proof.
  revert graph. induction actions as [|action rest IH]; intros graph Hdrawn Hread; cbn zeta.
  - cbn [pointerRun fst snd]. destruct Hdrawn as (_ & _ & Hsel).
    repeat split; [exact Hsel|constructor].
  - inversion Hread as [|? ? Haction Hrest]; subst.
    destruct (pointerStep_drawn page graph action Hdrawn Haction)
      as (Hafter & Htimes & Hbounds & Hpublished).
    cbn [pointerRun].
    destruct (pointerStep page graph action) as [after published] eqn:Hstep.
    cbn [fst snd] in *.
    rewrite <- Hbounds in Hrest.
    specialize (IH after Hafter Hrest). cbn zeta in IH.
    destruct (pointerRun page after rest) as [final later]. cbn [fst snd] in *.
    destruct IH as (Hsel & Hlater & Ht & Hb).
    rewrite Hbounds in Hsel, Hlater, Hb.
    repeat split.
    + exact Hsel.
    + apply Forall_app. split; assumption.
    + congruence.
    + exact Hb.
Qed.

Lemma pointer_selection_stays_in_span_witness :
  selectionInSpan (N := IEEE754) (TimeSeriesGraph.bounds MoreExamples.graph)
    (TimeSeriesGraph.selection
       (fst (pointerRun MoreExamples.page MoreExamples.graph
               [PointerDown (MoreExamples.pointerAt 174);
                PointerMove (MoreExamples.pointerAt 674);
                PointerUp (MoreExamples.pointerAt 674)]))) = true.
Proof.
  refine (proj1 (pointer_selection_stays_in_span float IEEE754 IEEE754_order IEEE754_clamp
                   MoreExamples.page
                   [PointerDown (MoreExamples.pointerAt 174);
                    PointerMove (MoreExamples.pointerAt 674);
                    PointerUp (MoreExamples.pointerAt 674)]
                   MoreExamples.graph _ _)).
  - repeat split; vm_compute; reflexivity.
  - repeat constructor; vm_compute; reflexivity.
Defined.

Module ExactDrag.
Import TimeSeriesGraph.
Local Open Scope R_scope.

Lemma pointerTime_bounds (page : Page R) (g1 g2 : Graph R) (event : PointerEvent R) :
  bounds g1 = bounds g2 -> pointerTime page g1 event = pointerTime page g2 event.
Proof. intros Hb. unfold pointerTime. rewrite Hb. reflexivity. Qed.

Lemma move_while_dragging (page : Page R) (graph0 graph : Graph R) (pointer : Z)
  (lowest : R) (event : PointerEvent R) :
  bounds graph0 = renderedBounds page (times graph0) ->
  times graph0 <> [] ->
  pointerId event = pointer ->
  dragging graph0 graph pointer lowest ->
  let t := pointerTime page graph0 event in
  selection (fst (handlePointerMove page graph event))
  = Some {| startS := Rmin lowest t; endS := Rmax lowest t |}
  /\ dragging graph0 (fst (handlePointerMove page graph event)) pointer (Rmin lowest t).
Proof.
  intros Hdrawn Hdata Hid (Htimes & Hbounds & Hmode & Hpointer & sel & Hsel & Hstart) t.
  unfold handlePointerMove. rewrite Hpointer, Hmode, Hsel, Hid. cbn [samePointer].
  rewrite Z.eqb_refl. cbn [negb orb].
  destruct (times graph) as [|first others] eqn:Hts; [congruence|].
  rewrite (pointerTime_bounds page graph graph0 event Hbounds). fold t.
  cbn [fst render withSelection selection normalizeSelection startS endS].
  rewrite Hstart. split; [reflexivity|].
  unfold dragging.
  cbn [render withSelection times bounds dragMode draggingPointerId selection].
  rewrite Hts, Htimes, <- Hdrawn.
  repeat split; try assumption.
  eexists. split; reflexivity.
Qed.

Lemma moves_while_dragging (page : Page R) (graph0 : Graph R) (pointer : Z)
  (moves : list (PointerEvent R)) :
  bounds graph0 = renderedBounds page (times graph0) ->
  times graph0 <> [] ->
  Forall (fun event => pointerId event = pointer) moves ->
  forall (graph : Graph R) (lowest : R),
    dragging graph0 graph pointer lowest ->
    dragging graph0 (fst (pointerRun page graph (map PointerMove moves))) pointer
      (fold_left Rmin (map (pointerTime page graph0) moves) lowest).
Proof.
  intros Hdrawn Hdata Hids.
  induction Hids as [|event moves Hid Hids IH]; intros graph lowest Hdrag.
  - exact Hdrag.
  - cbn [map pointerRun pointerStep fold_left].
    destruct (move_while_dragging page graph0 graph pointer lowest event Hdrawn Hdata Hid Hdrag)
      as [_ Hnext].
    destruct (handlePointerMove page graph event) as [after published]. cbn [fst] in Hnext.
    specialize (IH after _ Hnext).
    destruct (pointerRun page after (map PointerMove moves)) as [final later].
    exact IH.
Qed.

Lemma run_app (page : Page R) (first second : list PointerAction) :
  forall graph : Graph R,
    fst (pointerRun page graph (first ++ second))
    = fst (pointerRun page (fst (pointerRun page graph first)) second).
Proof.
  induction first as [|action first IH]; intros graph; [reflexivity|].
  cbn [app pointerRun].
  destruct (pointerStep page graph action) as [after published].
  specialize (IH after).
  destruct (pointerRun page after (first ++ second)) as [final later].
  destruct (pointerRun page after first) as [middle between]. exact IH.
Qed.

Lemma fold_min_all_above (lowest : R) (l : list R) :
  (forall x, In x l -> lowest <= x) -> fold_left Rmin l lowest = lowest.
Proof.
  induction l as [|x l IH]; intros Hall; [reflexivity|]. cbn [fold_left].
  rewrite Rmin_left by (apply Hall; left; reflexivity).
  apply IH. intros y Hy. apply Hall. right. exact Hy.
Qed.
End ExactDrag.

Local Open Scope R_scope.

(** X17. Dragging out a new selection, in exact arithmetic: after a
    pointer-down that hits no handle, followed by moves of the same
    pointer, the selection runs from the least time the pointer has
    visited before the last move (the time of the pointer-down included)
    or the time of the last move, whichever is smaller, to the other of
    the two.  So while the pointer stays at or after the time where it
    went down, the selection runs from that time to the pointer; a pointer
    that keeps moving to earlier times leaves the selection between its
    last two positions. *)
Theorem new_drag_selection
  (page : TimeSeriesGraph.Page R) (graph : TimeSeriesGraph.Graph R)
  (down lastMove : TimeSeriesGraph.PointerEvent R)
  (moves : list (TimeSeriesGraph.PointerEvent R)) :
  TimeSeriesGraph.bounds graph
  = TimeSeriesGraph.renderedBounds page (TimeSeriesGraph.times graph) ->
  TimeSeriesGraph.times graph <> [] ->
  TimeSeriesGraph.detectHandle page graph
    ((TimeSeriesGraph.clientX down - TimeSeriesGraph.rectLeft page)
     * TimeSeriesGraph.pixelRatio page)%js = None ->
  Forall (fun event => TimeSeriesGraph.pointerId event = TimeSeriesGraph.pointerId down)
         (moves ++ [lastMove]) ->
  let t := TimeSeriesGraph.pointerTime page graph in
  let lowest := fold_left Rmin (map t moves) (t down) in
  let final :=
    fst (pointerRun page graph
           (PointerDown down :: map PointerMove moves ++ [PointerMove lastMove])) in
  TimeSeriesGraph.selection final
  = Some {| startS := Rmin lowest (t lastMove); endS := Rmax lowest (t lastMove) |}
  /\ ((forall event, In event (moves ++ [lastMove]) -> t down <= t event) ->
      TimeSeriesGraph.selection final
      = Some {| startS := t down; endS := t lastMove |}).
Proof.
  intros Hdrawn Hdata Hhandle Hids t lowest final.
  apply Forall_app in Hids. destruct Hids as [Hmoves Hlast].
  inversion Hlast as [|? ? Hlast' _]; subst.
  assert (Hstart : dragging graph
                     (fst (TimeSeriesGraph.handlePointerDown page graph down))
                     (TimeSeriesGraph.pointerId down) (t down)).
  { unfold TimeSeriesGraph.handlePointerDown.
    destruct (TimeSeriesGraph.times graph) as [|first others] eqn:Hts; [congruence|].
    rewrite Hhandle. unfold dragging.
    cbn [fst TimeSeriesGraph.render TimeSeriesGraph.withDrag TimeSeriesGraph.withSelection
         TimeSeriesGraph.times TimeSeriesGraph.bounds TimeSeriesGraph.dragMode
         TimeSeriesGraph.draggingPointerId TimeSeriesGraph.selection].
    repeat split; try congruence. eexists. split; reflexivity. }
  assert (Hmiddle : dragging graph
                      (fst (pointerRun page
                              (fst (TimeSeriesGraph.handlePointerDown page graph down))
                              (map PointerMove moves)))
                      (TimeSeriesGraph.pointerId down) lowest)
    by (apply ExactDrag.moves_while_dragging; assumption).
  assert (Hfinal : TimeSeriesGraph.selection final
                   = Some {| startS := Rmin lowest (t lastMove);
                             endS := Rmax lowest (t lastMove) |}).
  { subst final. cbn [pointerRun pointerStep].
    destruct (TimeSeriesGraph.handlePointerDown page graph down) as [after published].
    cbn [fst] in *.
    pose proof (ExactDrag.run_app page (map PointerMove moves) [PointerMove lastMove] after)
      as Happ.
    destruct (pointerRun page after (map PointerMove moves ++ [PointerMove lastMove]))
      as [final later].
    cbn [fst] in *. rewrite Happ.
    set (middle := fst (pointerRun page after (map PointerMove moves))) in *.
    cbn [pointerRun pointerStep].
    destruct (ExactDrag.move_while_dragging page graph middle _ lowest lastMove
                Hdrawn Hdata Hlast' Hmiddle) as [Hsel _].
    destruct (TimeSeriesGraph.handlePointerMove page middle lastMove) as [g p].
    exact Hsel. }
  split; [exact Hfinal|].
  intros Hright. rewrite Hfinal.
  assert (Hlow : lowest = t down).
  { apply ExactDrag.fold_min_all_above. intros x Hx.
    apply in_map_iff in Hx. destruct Hx as (event & <- & Hin).
    apply Hright. apply in_or_app. left. exact Hin. }
  rewrite Hlow.
  assert (Hle : t down <= t lastMove)
    by (apply Hright; apply in_or_app; right; left; reflexivity).
  rewrite Rmin_left, Rmax_right by exact Hle. reflexivity.
Qed.

Lemma new_drag_selection_witness :
  let t := TimeSeriesGraph.pointerTime (N := ExactReal) MoreExamples.page MoreExamples.graph in
  TimeSeriesGraph.selection
    (fst (pointerRun MoreExamples.page MoreExamples.graph
            [PointerDown (MoreExamples.pointerAt 174);
             PointerMove (MoreExamples.pointerAt 274);
             PointerMove (MoreExamples.pointerAt 374)]))
  = Some {| startS := Rmin (Rmin (t (MoreExamples.pointerAt 174)) (t (MoreExamples.pointerAt 274)))
                           (t (MoreExamples.pointerAt 374));
            endS := Rmax (Rmin (t (MoreExamples.pointerAt 174)) (t (MoreExamples.pointerAt 274)))
                         (t (MoreExamples.pointerAt 374)) |}.
Proof.
  refine (proj1 (new_drag_selection MoreExamples.page MoreExamples.graph
                   (MoreExamples.pointerAt 174) (MoreExamples.pointerAt 374)
                   [MoreExamples.pointerAt 274] _ _ _ _)).
  - reflexivity.
  - discriminate.
  - reflexivity.
  - repeat constructor.
Defined.

Local Open Scope R_scope.

(** X18. Which handle the pointer grabs.  Whatever the arithmetic (with
    the order facts, proved for doubles), for a graph with a selection:
    [detectHandle] returns 'start' exactly when the start handle is less
    than 9 device pixels away and not further than the end handle; and
    when the two distances and the threshold are numbers (not NaN), it
    returns 'end' exactly when the end handle is less than 9 device
    pixels away and nearer than the start handle, and null exactly when
    both handles are 9 device pixels or more away.  For a pointer
    position that is NaN it returns null in binary64 arithmetic, though
    no handle is 9 pixels or more away. *)
Theorem detectHandle_nearest :
  (forall (num : Type) (N : Number num) (T : NumberTotal num)
          (page : TimeSeriesGraph.Page num) (graph : TimeSeriesGraph.Graph num)
          (sel : Interval num) (pointerX : num),
      TimeSeriesGraph.selection graph = Some sel ->
      let distanceStart :=
        Math_abs (pointerX
                  - TimeSeriesGraph.xToPx (TimeSeriesGraph.bounds graph) (startS sel))%js in
      let distanceEnd :=
        Math_abs (pointerX
                  - TimeSeriesGraph.xToPx (TimeSeriesGraph.bounds graph) (endS sel))%js in
      let threshold := (ofZ 9 * TimeSeriesGraph.pixelRatio page)%js in
      (TimeSeriesGraph.detectHandle page graph pointerX = Some TimeSeriesGraph.AtStart
       <-> (distanceStart <? threshold)%js = true
           /\ (distanceStart <=? distanceEnd)%js = true)
      /\ (isNumber distanceStart -> isNumber distanceEnd -> isNumber threshold ->
          (TimeSeriesGraph.detectHandle page graph pointerX = Some TimeSeriesGraph.AtEnd
           <-> (distanceEnd <? threshold)%js = true
               /\ (distanceEnd <? distanceStart)%js = true)
          /\ (TimeSeriesGraph.detectHandle page graph pointerX = None
              <-> (threshold <=? distanceStart)%js = true
                  /\ (threshold <=? distanceEnd)%js = true)))
  /\ (TimeSeriesGraph.detectHandle (N := IEEE754) MoreExamples.page
        (TimeSeriesGraph.withSelection MoreExamples.graph
           (Some {| startS := ofZ 1; endS := ofZ 2 |}))
        NaN = None
      /\ (ofZ 9 * TimeSeriesGraph.pixelRatio (MoreExamples.page (N := IEEE754))
          <=? Math_abs (NaN - TimeSeriesGraph.xToPx
                                (TimeSeriesGraph.bounds MoreExamples.graph) (ofZ 1)))%js
         = false).
Proof.
  split; [|split; vm_compute; reflexivity].
  intros num N T page graph sel pointerX Hsel distanceStart distanceEnd threshold.
  unfold TimeSeriesGraph.detectHandle. rewrite Hsel. cbv zeta.
  fold distanceStart distanceEnd threshold.
  clearbody distanceStart distanceEnd threshold.
  split.
  - destruct (distanceStart <? threshold)%js, (distanceStart <=? distanceEnd)%js;
      cbn [andb]; (split; [intros H|intros [H1 H2]]); try discriminate; auto;
      destruct (distanceEnd <? threshold)%js; discriminate.
  - intros Hs He Ht.
    rewrite (le_total distanceStart distanceEnd Hs He).
    rewrite (le_total threshold distanceStart Ht Hs).
    rewrite (le_total threshold distanceEnd Ht He).
    assert (Hnear : (distanceEnd <? threshold)%js = true ->
                    (distanceStart <? threshold)%js = false ->
                    (distanceEnd <? distanceStart)%js = true).
    { intros Hq Hp. apply (lt_le_transitive _ threshold); [exact Hq|].
      rewrite (le_total threshold distanceStart Ht Hs), Hp. reflexivity. }
    assert (Hfar : (distanceEnd <? distanceStart)%js = true ->
                   (distanceStart <? threshold)%js = true ->
                   (distanceEnd <? threshold)%js = true).
    { intros Hr Hp. apply (lt_le_transitive _ distanceStart); [exact Hr|].
      apply lt_le. exact Hp. }
    destruct (distanceStart <? threshold)%js eqn:Hp,
             (distanceEnd <? threshold)%js eqn:Hq,
             (distanceEnd <? distanceStart)%js eqn:Hr;
      cbn [andb negb];
      try (specialize (Hnear eq_refl eq_refl); discriminate);
      try (specialize (Hfar eq_refl eq_refl); discriminate);
      repeat split; intros;
      repeat match goal with H : _ /\ _ |- _ => destruct H end;
      try discriminate; try reflexivity.
Qed.

Lemma detectHandle_nearest_witness :
  TimeSeriesGraph.detectHandle (N := IEEE754) MoreExamples.page
    (TimeSeriesGraph.withSelection MoreExamples.graph
       (Some {| startS := ofZ 1; endS := ofZ 2 |}))
    (ofZ 270) = Some TimeSeriesGraph.AtEnd
  /\ (Math_abs (ofZ 270 - TimeSeriesGraph.xToPx
                             (TimeSeriesGraph.bounds MoreExamples.graph) (ofZ 2))
      <? Math_abs (ofZ 270 - TimeSeriesGraph.xToPx
                               (TimeSeriesGraph.bounds (MoreExamples.graph (N := IEEE754)))
                               (ofZ 1)))%js
     = true.
Proof.
  pose proof (proj1 detectHandle_nearest float IEEE754 IEEE754_total MoreExamples.page
                (TimeSeriesGraph.withSelection MoreExamples.graph
                   (Some {| startS := ofZ 1; endS := ofZ 2 |}))
                {| startS := ofZ 1; endS := ofZ 2 |} (ofZ 270) eq_refl) as H.
  cbv zeta in H. destruct H as [_ H].
  destruct H as [H _]; [vm_compute; reflexivity..|].
  split; [|vm_compute; reflexivity].
  apply H. split; vm_compute; reflexivity.
Defined.

(** X19. Times and pixels.  In binary64 arithmetic, on the sample graph
    (times 0 to 5 s drawn on the pixels 74 to 574) and for the 301
    sample times [k / 60]: a time is drawn inside the plot, a later
    sample time strictly further right, and converting a time to a
    pixel and back gives the time within 1e-15 s, though not always the
    time itself.  In exact arithmetic, on a plot whose time span and
    pixel span are not empty, the two conversions undo each other, a
    later time is not drawn further left, and a time inside the span is
    drawn inside the plot. *)
Theorem time_pixel_round_trip :
  (let b := TimeSeriesGraph.bounds (MoreExamples.graph (N := IEEE754)) in
   let sampleTimes := map (fun k => (ofZ (Z.of_nat k) / ofZ 60)%js) (seq 0 301) in
   b = {| TimeSeriesGraph.xMin := ofZ 0; TimeSeriesGraph.xMax := ofZ 5;
          TimeSeriesGraph.plotLeft := ofZ 74; TimeSeriesGraph.plotRight := ofZ 574 |}
   /\ forallb
        (fun t =>
           (TimeSeriesGraph.plotLeft b <=? TimeSeriesGraph.xToPx b t)%js
           && (TimeSeriesGraph.xToPx b t <=? TimeSeriesGraph.plotRight b)%js
           && (Math_abs (TimeSeriesGraph.pxToX b (TimeSeriesGraph.xToPx b t) - t)
               <=? lit 1 1000000000000000)%js)
        sampleTimes = true
   /\ increasing (map (TimeSeriesGraph.xToPx b) sampleTimes) = true
   /\ forallb
        (fun t => (TimeSeriesGraph.pxToX b (TimeSeriesGraph.xToPx b t) === t)%js)
        sampleTimes = false)
  /\ (forall (b : TimeSeriesGraph.Bounds R) (timeS px : R),
         TimeSeriesGraph.xMin b < TimeSeriesGraph.xMax b ->
         TimeSeriesGraph.plotLeft b < TimeSeriesGraph.plotRight b ->
         TimeSeriesGraph.pxToX b (TimeSeriesGraph.xToPx b timeS) = timeS
         /\ TimeSeriesGraph.xToPx b (TimeSeriesGraph.pxToX b px) = px
         /\ (forall later, timeS <= later ->
               TimeSeriesGraph.xToPx b timeS <= TimeSeriesGraph.xToPx b later)
         /\ (TimeSeriesGraph.xMin b <= timeS <= TimeSeriesGraph.xMax b ->
             TimeSeriesGraph.plotLeft b <= TimeSeriesGraph.xToPx b timeS
             <= TimeSeriesGraph.plotRight b)).
Proof.
  refine (conj (conj _ (conj _ (conj _ _))) _); [vm_compute; reflexivity..|].
  intros b timeS px.
  intros Hx Hp. unfold TimeSeriesGraph.pxToX, TimeSeriesGraph.xToPx.
  exact_ops. rewrite !ExactTruth.orNumber_nonzero by lra.
  set (x0 := TimeSeriesGraph.xMin b) in *. set (x1 := TimeSeriesGraph.xMax b) in *.
  set (p0 := TimeSeriesGraph.plotLeft b) in *. set (p1 := TimeSeriesGraph.plotRight b) in *.
  assert (Hratio : forall u, x0 <= u -> 0 <= (u - x0) / (x1 - x0) * (p1 - p0)).
  { intros u Hu. apply Rmult_le_pos; [|lra].
    apply Rmult_le_pos; [lra|]. apply Rlt_le, Rinv_0_lt_compat. lra. }
  split; [field; lra|]. split; [field; lra|]. split.
  - intros later Hlater.
    assert (0 <= (later - timeS) / (x1 - x0) * (p1 - p0)).
    { apply Rmult_le_pos; [|lra].
      apply Rmult_le_pos; [lra|]. apply Rlt_le, Rinv_0_lt_compat. lra. }
    replace ((later - x0) / (x1 - x0) * (p1 - p0))
      with ((timeS - x0) / (x1 - x0) * (p1 - p0) + (later - timeS) / (x1 - x0) * (p1 - p0))
      by (field; lra).
    lra.
  - intros [Hlow Hhigh]. split.
    + pose proof (Hratio timeS Hlow). lra.
    + assert (0 <= (x1 - timeS) / (x1 - x0) * (p1 - p0)).
      { apply Rmult_le_pos; [|lra].
        apply Rmult_le_pos; [lra|]. apply Rlt_le, Rinv_0_lt_compat. lra. }
      replace p1 with (p0 + ((timeS - x0) / (x1 - x0) * (p1 - p0)
                             + (x1 - timeS) / (x1 - x0) * (p1 - p0))) at 2
        by (field; lra).
      lra.
Qed.

Lemma time_pixel_round_trip_witness :
  TimeSeriesGraph.pxToX (N := ExactReal)
    {| TimeSeriesGraph.xMin := 0; TimeSeriesGraph.xMax := 5;
       TimeSeriesGraph.plotLeft := 74; TimeSeriesGraph.plotRight := 574 |}
    (TimeSeriesGraph.xToPx
       {| TimeSeriesGraph.xMin := 0; TimeSeriesGraph.xMax := 5;
          TimeSeriesGraph.plotLeft := 74; TimeSeriesGraph.plotRight := 574 |} 2) = 2.
Proof.
  refine (proj1 (proj2 time_pixel_round_trip
                   {| TimeSeriesGraph.xMin := 0; TimeSeriesGraph.xMax := 5;
                      TimeSeriesGraph.plotLeft := 74; TimeSeriesGraph.plotRight := 574 |}
                   2 0 _ _)); simpl; lra.
Defined.

Module ExactNudge.
Import TimeSeriesGraph.
Local Open Scope R_scope.

Lemma clamp_exact (u lo hi : R) :
  lo <= hi ->
  lo <= clamp u lo hi <= hi
  /\ (lo <= u <= hi -> clamp u lo hi = u).
Proof.
  intros Hb. unfold clamp. exact_ops. unfold Rmin, Rmax.
  repeat (destruct (Rle_dec _ _); try lra).
Qed.

Lemma last_default (l : list R) :
  forall a d d', last (a :: l) d = last (a :: l) d'.
Proof.
  induction l as [|x l IH]; intros a d d'; [reflexivity|].
  change (last (a :: x :: l) d) with (last (x :: l) d).
  change (last (a :: x :: l) d') with (last (x :: l) d'). apply IH.
Qed.

(** [nudgeSelection] on a graph with data, in terms of the selection it
    starts from. *)
Lemma nudge_unfold (page : Page R) (graph : Graph R) (boundary : Boundary) (deltaS : R)
  (first : R) (others : list R) :
  times graph = first :: others ->
  let xMax := last (times graph) 0 in
  let start :=
    match selection graph with
    | Some sel => sel
    | None =>
        match motionWindow graph with
        | Some window =>
            {| startS := startS window + (endS window - startS window) * (2 / 10);
               endS := endS window - (endS window - startS window) * (2 / 10) |}
        | None =>
            {| startS := first + (xMax - first) * (2 / 10);
               endS := first + 2 * ((xMax - first) * (2 / 10)) |}
        end
    end in
  let moved :=
    match boundary with
    | AtStart => {| startS := clamp (startS start + deltaS) first xMax; endS := endS start |}
    | AtEnd => {| startS := startS start; endS := clamp (endS start + deltaS) first xMax |}
    end in
  let result := Some {| startS := Rmin (startS moved) (endS moved);
                        endS := Rmax (startS moved) (endS moved) |} in
  selection (fst (nudgeSelection page graph boundary deltaS)) = result
  /\ snd (nudgeSelection page graph boundary deltaS) = [result].
Proof.
  intros Htimes. cbn zeta. unfold nudgeSelection. rewrite Htimes.
  rewrite (last_default others first NaN 0).
  destruct (selection graph) as [sel|]; [|destruct (motionWindow graph) as [window|]];
    destruct boundary; split; reflexivity.
Qed.

Lemma handleKeyDown_arrow (page : Page R) (graph : Graph R) (event : KeyboardEvent) :
  key event <> OtherKey ->
  handleKeyDown page graph event
  = nudgeSelection page graph (if shiftKey event then AtStart else AtEnd)
      (match key event with
       | ArrowLeft => - (if altKey event then 1 / 100 else 2 / 100)
       | _ => if altKey event then 1 / 100 else 2 / 100
       end).
Proof.
  intros Hkey. unfold handleKeyDown.
  destruct (key event); [| |congruence]; f_equal; exact_ops;
    destruct (altKey event); lra.
Qed.
End ExactNudge.

Local Open Scope R_scope.

Section NudgeInSpan.
Import TimeSeriesGraph.
Context {num : Type} {N : Number num} {O : NumberOrder num} {C : NumberClamp num}.
Local Open Scope js_scope.

(** A nudge of a selection that lies in the span of the samples. *)
Lemma nudge_in_span (page : Page num) (graph : Graph num) (boundary : Boundary)
  (deltaS : num) (sel : Interval num) :
  times graph <> [] ->
  selection graph = Some sel ->
  (xMin (renderedBounds page (times graph)) <=? xMax (renderedBounds page (times graph)))
  = true ->
  selectionInSpan (renderedBounds page (times graph)) (Some sel) = true ->
  isNumber (match boundary with
            | AtStart => startS sel + deltaS
            | AtEnd => endS sel + deltaS
            end) ->
  bounds (fst (nudgeSelection page graph boundary deltaS))
  = renderedBounds page (times graph)
  /\ snd (nudgeSelection page graph boundary deltaS)
     = [selection (fst (nudgeSelection page graph boundary deltaS))]
  /\ selection (fst (nudgeSelection page graph boundary deltaS)) <> None
  /\ selectionInSpan (renderedBounds page (times graph))
       (selection (fst (nudgeSelection page graph boundary deltaS))) = true.
Proof.
  intros Hne Hsel Hspan Hin Hraw.
  destruct (selection_ends_in_span _ _ Hin) as [Hs He].
  unfold nudgeSelection. rewrite Hsel.
  destruct (times graph) as [|first others] eqn:Htimes; [congruence|].
  cbv zeta. cbn [fst snd render withSelection selection bounds times].
  rewrite Htimes.
  split; [reflexivity|]. split; [reflexivity|].
  set (b := renderedBounds page (first :: others)) in *.
  assert (Hclamp : forall raw, isNumber raw ->
                     inSpan b (clamp raw first (last (first :: others) NaN)) = true).
  { intros raw Hnum. unfold inSpan, clamp.
    destruct (clamp_between raw first (last (first :: others) NaN) Hnum Hspan)
      as [Hlow Hhigh].
    change (xMin b) with first. change (xMax b) with (last (first :: others) NaN).
    rewrite Hlow, Hhigh. reflexivity. }
  destruct boundary.
  - split; [discriminate|].
    apply (normalized_in_span b); [apply Hclamp; exact Hraw|exact He].
  - split; [discriminate|].
    apply (normalized_in_span b); [exact Hs|apply Hclamp; exact Hraw].
Qed.
End NudgeInSpan.

(** X20. A nudge keeps the selection in the span of the samples.
    Whatever the arithmetic (with the order facts, proved for doubles):
    on a graph with data whose first time is not after its last and
    whose selection is in order inside that span, a nudge that moves a
    boundary to a number (not NaN) publishes exactly the selection the
    graph then holds, in order and inside the span, and the graph is
    drawn with the bounds of its data.  In exact arithmetic the same
    holds when the graph has no selection and the nudge first seeds one
    from the motion window (in order inside the span) or from the span.
    In binary64 arithmetic the seeded selection can leave the span when
    the span overflows: on samples at -1e308 and 1e308, without
    selection or motion window, a nudge of the end by 0.02 publishes
    [{startS: 1e308, endS: Infinity}]. *)
Theorem nudge_keeps_selection_in_span :
  (forall (num : Type) (N : Number num) (O : NumberOrder num) (C : NumberClamp num)
          (page : TimeSeriesGraph.Page num) (graph : TimeSeriesGraph.Graph num)
          (boundary : TimeSeriesGraph.Boundary) (deltaS : num) (sel : Interval num),
      TimeSeriesGraph.times graph <> [] ->
      TimeSeriesGraph.selection graph = Some sel ->
      let span := TimeSeriesGraph.renderedBounds page (TimeSeriesGraph.times graph) in
      (TimeSeriesGraph.xMin span <=? TimeSeriesGraph.xMax span)%js = true ->
      selectionInSpan span (Some sel) = true ->
      isNumber (match boundary with
                | TimeSeriesGraph.AtStart => startS sel + deltaS
                | TimeSeriesGraph.AtEnd => endS sel + deltaS
                end)%js ->
      let result := TimeSeriesGraph.nudgeSelection page graph boundary deltaS in
      TimeSeriesGraph.bounds (fst result) = span
      /\ snd result = [TimeSeriesGraph.selection (fst result)]
      /\ TimeSeriesGraph.selection (fst result) <> None
      /\ selectionInSpan span (TimeSeriesGraph.selection (fst result)) = true)
  /\ (forall (page : TimeSeriesGraph.Page R) (graph : TimeSeriesGraph.Graph R)
             (boundary : TimeSeriesGraph.Boundary) (deltaS first : R) (others : list R),
         TimeSeriesGraph.times graph = first :: others ->
         first <= last (TimeSeriesGraph.times graph) 0 ->
         match TimeSeriesGraph.selection graph, TimeSeriesGraph.motionWindow graph with
         | Some sel, _ =>
             first <= startS sel <= endS sel
             /\ endS sel <= last (TimeSeriesGraph.times graph) 0
         | None, Some window =>
             first <= startS window <= endS window
             /\ endS window <= last (TimeSeriesGraph.times graph) 0
         | None, None => True
         end ->
         exists sel,
           TimeSeriesGraph.selection
             (fst (TimeSeriesGraph.nudgeSelection page graph boundary deltaS)) = Some sel
           /\ snd (TimeSeriesGraph.nudgeSelection page graph boundary deltaS) = [Some sel]
           /\ first <= startS sel <= endS sel
           /\ endS sel <= last (TimeSeriesGraph.times graph) 0)
  /\ (TimeSeriesGraph.times (MoreExamples.wideGraph (N := IEEE754))
      = [ofZ (- 10 ^ 308); ofZ (10 ^ 308)]
      /\ snd (TimeSeriesGraph.nudgeSelection (N := IEEE754) MoreExamples.page
                MoreExamples.wideGraph TimeSeriesGraph.AtEnd (lit 2 100))
         = [Some {| startS := ofZ (10 ^ 308); endS := infinity |}]).
Proof.
  split; [|split; [|split; vm_compute; reflexivity]].
  { intros num N O C page graph boundary deltaS sel Hne Hsel span Hspan Hin Hraw result.
    exact (nudge_in_span page graph boundary deltaS sel Hne Hsel Hspan Hin Hraw). }
  intros page graph boundary deltaS first others.
  intros Htimes Hspan Hstart.
  destruct (ExactNudge.nudge_unfold page graph boundary deltaS first others Htimes)
    as [Hsel Hpub].
  cbn zeta in Hsel, Hpub. rewrite Hsel, Hpub. eexists. split; [reflexivity|].
  split; [reflexivity|]. cbn [startS endS].
  set (xMax := last (TimeSeriesGraph.times graph) 0) in *.
  assert (Hseed : forall a b, first <= a <= b -> b <= xMax ->
            forall moved,
              moved = match boundary with
                      | TimeSeriesGraph.AtStart =>
                          {| startS := TimeSeriesGraph.clamp (a + deltaS) first xMax;
                             endS := b |}
                      | TimeSeriesGraph.AtEnd =>
                          {| startS := a;
                             endS := TimeSeriesGraph.clamp (b + deltaS) first xMax |}
                      end ->
              first <= Rmin (startS moved) (endS moved) <= Rmax (startS moved) (endS moved)
              /\ Rmax (startS moved) (endS moved) <= xMax).
  { intros a b Hab Hb moved ->.
    destruct (ExactNudge.clamp_exact (a + deltaS) first xMax Hspan) as [Hca _].
    destruct (ExactNudge.clamp_exact (b + deltaS) first xMax Hspan) as [Hcb _].
    destruct boundary; cbn [startS endS]; unfold Rmin, Rmax;
      repeat (destruct (Rle_dec _ _); try lra). }
  destruct (TimeSeriesGraph.selection graph) as [sel|].
  - apply (Hseed (startS sel) (endS sel)); [tauto|tauto|].
    destruct boundary; reflexivity.
  - destruct (TimeSeriesGraph.motionWindow graph) as [window|].
    + match goal with
      | |- context [match boundary with
                    | TimeSeriesGraph.AtStart => _
                    | TimeSeriesGraph.AtEnd => _ end] =>
          apply (Hseed (startS window + (endS window - startS window) * (2 / 10))
                       (endS window - (endS window - startS window) * (2 / 10)));
          [lra|lra|destruct boundary; reflexivity]
      end.
    + apply (Hseed (first + (xMax - first) * (2 / 10))
                   (first + 2 * ((xMax - first) * (2 / 10))));
        [lra|lra|destruct boundary; reflexivity].
Qed.

Lemma nudge_keeps_selection_in_span_witness :
  (exists sel,
      TimeSeriesGraph.selection
        (fst (TimeSeriesGraph.nudgeSelection (N := ExactReal) MoreExamples.page
                MoreExamples.graph TimeSeriesGraph.AtEnd (2 / 100))) = Some sel
      /\ snd (TimeSeriesGraph.nudgeSelection (N := ExactReal) MoreExamples.page
                MoreExamples.graph TimeSeriesGraph.AtEnd (2 / 100)) = [Some sel]
      /\ 0 <= startS sel <= endS sel
      /\ endS sel <= 5)
  /\ selectionInSpan
       (TimeSeriesGraph.renderedBounds MoreExamples.page
          (TimeSeriesGraph.times (MoreExamples.graph (N := IEEE754))))
       (TimeSeriesGraph.selection
          (fst (TimeSeriesGraph.nudgeSelection (N := IEEE754) MoreExamples.page
                  (TimeSeriesGraph.withSelection MoreExamples.graph
                     (Some {| startS := ofZ 1; endS := ofZ 2 |}))
                  TimeSeriesGraph.AtEnd (lit 2 100)))) = true.
Proof.
  split.
  - refine (proj1 (proj2 nudge_keeps_selection_in_span) MoreExamples.page MoreExamples.graph
              TimeSeriesGraph.AtEnd (2 / 100) 0 [1; 2; 3; 4; 5] eq_refl _ _).
    + simpl. lra.
    + exact I.
  - pose proof (proj1 nudge_keeps_selection_in_span float IEEE754 IEEE754_order IEEE754_clamp
                  MoreExamples.page
                  (TimeSeriesGraph.withSelection MoreExamples.graph
                     (Some {| startS := ofZ 1; endS := ofZ 2 |}))
                  TimeSeriesGraph.AtEnd (lit 2 100) {| startS := ofZ 1; endS := ofZ 2 |})
      as H.
    cbv zeta in H.
    destruct H as (_ & _ & _ & H); [discriminate|reflexivity|vm_compute; reflexivity..|].
    exact H.
Defined.

(** X21. The arrow keys, in exact arithmetic: on a graph with data and a
    selection [a, b] in order inside the span of the samples, Arrow Left
    and Arrow Right move the end boundary by 0.02 s (0.01 s with Alt), or
    the start boundary with Shift, as long as the moved boundary stays
    inside the span and does not cross the other one; any other key
    changes nothing and publishes nothing. *)
Theorem arrow_keys_move_one_boundary
  (page : TimeSeriesGraph.Page R) (graph : TimeSeriesGraph.Graph R)
  (event : TimeSeriesGraph.KeyboardEvent) (a b first : R) (others : list R) :
  TimeSeriesGraph.times graph = first :: others ->
  TimeSeriesGraph.selection graph = Some {| startS := a; endS := b |} ->
  first <= a <= b /\ b <= last (TimeSeriesGraph.times graph) 0 ->
  let step := if TimeSeriesGraph.altKey event then 1 / 100 else 2 / 100 in
  let delta :=
    match TimeSeriesGraph.key event with
    | TimeSeriesGraph.ArrowLeft => - step
    | _ => step
    end in
  let after := TimeSeriesGraph.handleKeyDown page graph event in
  match TimeSeriesGraph.key event with
  | TimeSeriesGraph.OtherKey => after = (graph, [])
  | _ =>
      if TimeSeriesGraph.shiftKey event then
        first <= a + delta <= b ->
        TimeSeriesGraph.selection (fst after) = Some {| startS := a + delta; endS := b |}
        /\ snd after = [Some {| startS := a + delta; endS := b |}]
      else
        a <= b + delta <= last (TimeSeriesGraph.times graph) 0 ->
        TimeSeriesGraph.selection (fst after) = Some {| startS := a; endS := b + delta |}
        /\ snd after = [Some {| startS := a; endS := b + delta |}]
  end.
Proof.
  intros Htimes Hsel Hspan step delta after. subst after.
  set (xMax := last (TimeSeriesGraph.times graph) 0) in *.
  assert (Hclamp : forall u, first <= u <= xMax -> TimeSeriesGraph.clamp u first xMax = u).
  { intros u Hu. apply ExactNudge.clamp_exact; lra. }
  destruct (TimeSeriesGraph.key event) eqn:Hkey; [| |unfold TimeSeriesGraph.handleKeyDown;
                                                       rewrite Hkey; reflexivity];
    (rewrite (ExactNudge.handleKeyDown_arrow page graph event) by (rewrite Hkey; discriminate);
     rewrite Hkey; fold step; fold delta;
     destruct (TimeSeriesGraph.shiftKey event); intros Hmove;
     match goal with
     | |- context [TimeSeriesGraph.nudgeSelection page graph ?boundary _] =>
         destruct (ExactNudge.nudge_unfold page graph boundary delta first others Htimes)
           as [H1 H2];
         cbn zeta in H1, H2; rewrite Hsel in H1, H2; cbn [startS endS] in H1, H2;
         fold xMax in H1, H2;
         first [ rewrite (Hclamp (a + delta)) in H1, H2 by lra
               | rewrite (Hclamp (b + delta)) in H1, H2 by lra ];
         rewrite Rmin_left, Rmax_right in H1, H2 by lra;
         split; assumption
     end).
Qed.

Lemma arrow_keys_move_one_boundary_witness :
  TimeSeriesGraph.selection
    (fst (TimeSeriesGraph.handleKeyDown (N := ExactReal) MoreExamples.page
            (TimeSeriesGraph.withSelection MoreExamples.graph
               (Some {| startS := 1; endS := 2 |}))
            {| TimeSeriesGraph.key := TimeSeriesGraph.ArrowRight;
               TimeSeriesGraph.altKey := false;
               TimeSeriesGraph.shiftKey := false |}))
  = Some {| startS := 1; endS := 2 + 2 / 100 |}.
Proof.
  assert (Hspan : 0 <= 1 <= 2
                  /\ 2 <= last (TimeSeriesGraph.times
                                  (TimeSeriesGraph.withSelection
                                     (MoreExamples.graph (N := ExactReal))
                                     (Some {| startS := 1; endS := 2 |}))) 0)
    by (simpl; lra).
  pose proof (arrow_keys_move_one_boundary MoreExamples.page
                (TimeSeriesGraph.withSelection MoreExamples.graph
                   (Some {| startS := 1; endS := 2 |}))
                {| TimeSeriesGraph.key := TimeSeriesGraph.ArrowRight;
                   TimeSeriesGraph.altKey := false;
                   TimeSeriesGraph.shiftKey := false |}
                1 2 0 [1; 2; 3; 4; 5] eq_refl eq_refl Hspan) as H.
  cbn [TimeSeriesGraph.key TimeSeriesGraph.altKey TimeSeriesGraph.shiftKey] in H.
  apply H. simpl. lra.
Defined.

(* ================================================================== *)
(** ** The handlers and views of the page ([app.js]) *)

Ltac state_fields :=
  cbn [State.state_scenario State.presetId State.hangingMassKg State.noiseEnabled
       State.showFbd State.currentTrial State.measurement State.trialRecords
       State.nextTrialId State.forceWindow State.velocityWindow State.forceMeanN
       State.accelerationMps2 State.id State.trial_id State.moved] in *.

Ltac keep_consistent :=
  repeat split; try assumption;
  try match goal with
      | H : ?P -> _ /\ _, H' : ?P |- _ => apply (H H')
      end.

Section Handlers.
Import AppEvents.
Context {num : Type} {N : Number num} {L : Libm num} {Rd : Rounding num}.
Local Open Scope js_scope.

Lemma offered_known (scenario : ScenarioId) (presetId : string) :
  In presetId (map (@Presets.id num) (availablePresets scenario)) ->
  exists preset, getPresetById (N := N) presetId = Some preset /\ Presets.id preset = presetId.
Proof.
  intros Hin. destruct scenario; simpl in Hin;
    repeat (destruct Hin as [<-|Hin]; [eexists; split; reflexivity|]); contradiction.
Qed.

Lemma existsb_offered (scenario : ScenarioId) (presetId : string) :
  existsb (fun preset : TeacherPreset num => String.eqb (Presets.id preset) presetId)
          (availablePresets scenario) = true ->
  In presetId (map (@Presets.id num) (availablePresets scenario)).
Proof.
  intros Hex. apply existsb_exists in Hex. destruct Hex as (preset & Hin & Heq).
  apply String.eqb_eq in Heq. subst presetId. apply in_map. exact Hin.
Qed.

(** [updateMeasurementValues] touches the two measured values only, and
    a value it leaves is backed by a trial and an accepted window. *)
Lemma update_frame (state : State.AppState num) :
  let after := updateMeasurementValues state in
  State.state_scenario after = State.state_scenario state
  /\ State.presetId after = State.presetId state
  /\ State.hangingMassKg after = State.hangingMassKg state
  /\ State.noiseEnabled after = State.noiseEnabled state
  /\ State.showFbd after = State.showFbd state
  /\ State.currentTrial after = State.currentTrial state
  /\ State.forceWindow (State.measurement after) = State.forceWindow (State.measurement state)
  /\ State.velocityWindow (State.measurement after)
     = State.velocityWindow (State.measurement state)
  /\ State.trialRecords after = State.trialRecords state
  /\ State.nextTrialId after = State.nextTrialId state.
Proof.
  unfold updateMeasurementValues.
  destruct (State.currentTrial state) eqn:Htrial; cbn; rewrite ?Htrial;
    repeat split; reflexivity.
Qed.

Lemma update_backed (state : State.AppState num) :
  let after := updateMeasurementValues state in
  (State.forceMeanN (State.measurement after) <> None ->
   isValidSelection (State.forceWindow (State.measurement state)) = true
   /\ State.currentTrial state <> None)
  /\ (State.accelerationMps2 (State.measurement after) <> None ->
      isValidSelection (State.velocityWindow (State.measurement state)) = true
      /\ State.currentTrial state <> None).
Proof.
  unfold updateMeasurementValues.
  destruct (State.currentTrial state) as [trial|]; cbn.
  - split.
    + destruct (isValidSelection (State.forceWindow (State.measurement state)));
        [intros _; split; [reflexivity|discriminate]|congruence].
    + destruct (isValidSelection (State.velocityWindow (State.measurement state)));
        [intros _; split; [reflexivity|discriminate]|congruence].
  - split; congruence.
Qed.

Lemma update_consistent (state : State.AppState num) :
  In (State.presetId state)
     (map (@Presets.id num) (availablePresets (State.state_scenario state))) ->
  (forall trial, State.currentTrial state = Some trial ->
                 (State.id trial < State.nextTrialId state)%nat) ->
  Forall (fun record => (State.trial_id record < State.nextTrialId state)%nat
                        /\ State.moved record = true) (State.trialRecords state) ->
  consistent (updateMeasurementValues state).
Proof.
  intros Hpreset Htrial Hrecords.
  destruct (update_frame state)
    as (Hs & Hp & _ & _ & _ & Hc & Hfw & Hvw & Hr & Hn).
  destruct (update_backed state) as [Hforce Hvelocity].
  unfold consistent. rewrite Hs, Hp, Hc, Hfw, Hvw, Hr, Hn.
  repeat split; try assumption; try (apply Hforce; assumption);
    try (apply Hvelocity; assumption).
Qed.

Lemma still_below (records : list (State.TrialRecord num)) (n m : nat) :
  (n <= m)%nat ->
  Forall (fun record => (State.trial_id record < n)%nat /\ State.moved record = true) records ->
  Forall (fun record => (State.trial_id record < m)%nat /\ State.moved record = true) records.
Proof.
  intros Hnm. apply Forall_impl. intros record [Hid Hmoved]. split; [lia|exact Hmoved].
Qed.

(** One event on a consistent state: its handler does not throw, and
    the state it returns is consistent. *)
Lemma appStep_consistent (fuel : nat) (event : AppEvent) (state : State.AppState num) :
  consistent state -> offered state event ->
  appStep fuel event state <> Throws
  /\ forall next, appStep fuel event state = Returns next -> consistent next.
Proof.
  intros (Hpreset & Hforce & Hvelocity & Htrial & Hrecords) Hoffered.
  destruct event as [scenario|value|value|checked|checked| |sel|sel|timestamp| |trialId];
    cbn [appStep offered] in *.
  - (* scenario *)
    unfold scenarioChanged.
    assert (Hnext : exists nextPresetId,
               (if existsb (fun preset : TeacherPreset num =>
                              String.eqb (Presets.id preset) (State.presetId state))
                           (availablePresets scenario)
                then Some (State.presetId state)
                else option_map (@Presets.id num) (hd_error (availablePresets scenario)))
               = Some nextPresetId
               /\ In nextPresetId (map (@Presets.id num) (availablePresets scenario))).
    { destruct (existsb _ (availablePresets scenario)) eqn:Hex.
      - eexists. split; [reflexivity|]. apply existsb_offered. exact Hex.
      - destruct scenario; eexists; (split; [reflexivity|]); simpl; auto. }
    destruct Hnext as (nextPresetId & -> & Hin).
    destruct (offered_known scenario nextPresetId Hin) as (preset & -> & _).
    split; [discriminate|]. intros next Hnext. injection Hnext as <-.
    unfold consistent, withSettings. state_fields. keep_consistent.
  - (* preset *)
    unfold presetChanged.
    destruct (offered_known _ value Hoffered) as (preset & -> & Hid).
    split; [discriminate|]. intros next Hnext. injection Hnext as <-.
    unfold consistent, withSettings. state_fields. rewrite Hid. keep_consistent.
  - split; [discriminate|]. intros next Hnext. injection Hnext as <-.
    unfold consistent, hangingMassChanged. state_fields. keep_consistent.
  - split; [discriminate|]. intros next Hnext. injection Hnext as <-.
    unfold consistent, noiseChanged, withSettings. state_fields. keep_consistent.
  - split; [discriminate|]. intros next Hnext. injection Hnext as <-.
    unfold consistent, showFbdChanged. state_fields. keep_consistent.
  - (* run *)
    unfold runTrial.
    destruct (offered_known _ _ Hpreset) as (preset & Hknown & _).
    destruct (computeTrialPhysics _) as [physics|] eqn:Hphysics.
    2:{ apply computeTrialPhysics_returns in Hphysics. cbn [input_presetId] in Hphysics. congruence. }
    destruct (generateTrialSignals fuel physics _) as [signals|];
      [|split; [discriminate|intros next Hnext; discriminate]].
    split; [discriminate|]. intros next Hnext. injection Hnext as <-.
    apply update_consistent; state_fields.
    + exact Hpreset.
    + intros trial Hsome. injection Hsome as <-. state_fields. lia.
    + apply (still_below _ (State.nextTrialId state)); [lia|exact Hrecords].
  - split; [discriminate|]. intros next Hnext. injection Hnext as <-.
    unfold forceSelectionChanged. apply update_consistent; assumption.
  - split; [discriminate|]. intros next Hnext. injection Hnext as <-.
    unfold velocitySelectionChanged. apply update_consistent; assumption.
  - (* add *)
    unfold addTrial.
    destruct (State.currentTrial state) as [trial|] eqn:Hcurrent.
    2:{ split; [discriminate|]. intros next Hnext. injection Hnext as <-.
        unfold consistent. rewrite Hcurrent. keep_consistent. }
    destruct (negb (moved (State.physics trial))).
    { split; [discriminate|]. intros next Hnext. injection Hnext as <-.
      unfold consistent. rewrite Hcurrent. keep_consistent. }
    destruct (State.forceMeanN (State.measurement state)) as [force|] eqn:Hf.
    2:{ split; [discriminate|]. intros next Hnext. injection Hnext as <-.
        unfold consistent. rewrite Hcurrent, Hf. keep_consistent. }
    destruct (State.accelerationMps2 (State.measurement state)) as [accel|] eqn:Ha.
    2:{ split; [discriminate|]. intros next Hnext. injection Hnext as <-.
        unfold consistent. rewrite Hcurrent, Hf, Ha. keep_consistent. }
    destruct (Hforce ltac:(discriminate)) as [Hfw _].
    destruct (Hvelocity ltac:(discriminate)) as [Hvw _].
    destruct (State.forceWindow (State.measurement state)) as [fw|] eqn:Hfwe;
      [|discriminate].
    destruct (State.velocityWindow (State.measurement state)) as [vw|] eqn:Hvwe;
      [|discriminate].
    destruct (offered_known _ _ Hpreset) as (preset & -> & _).
    split; [discriminate|]. intros next Hnext. injection Hnext as <-.
    unfold consistent, withRecords. state_fields. rewrite Hcurrent, Hf, Ha, Hfwe, Hvwe.
    keep_consistent; try discriminate.
    apply Forall_app. split; [exact Hrecords|].
    constructor; [|constructor]. state_fields. split; [|reflexivity].
    apply Htrial. reflexivity.
  - split; [discriminate|]. intros next Hnext. injection Hnext as <-.
    unfold consistent, clearTrials, withRecords. state_fields. keep_consistent.
    constructor.
  - split; [discriminate|]. intros next Hnext. injection Hnext as <-.
    unfold consistent, removeTrial, withRecords. state_fields. keep_consistent.
    apply Forall_forall. intros record Hin. apply filter_In in Hin.
    rewrite Forall_forall in Hrecords. apply Hrecords. exact (proj1 Hin).
Qed.

Lemma initial_consistent : consistent (N := N) State.createInitialState.
Proof.
  unfold consistent. cbn. repeat split; try congruence; try discriminate; auto.
Qed.

(** A run of offered events from a consistent state does not throw, and
    a run that returns ends in a consistent state. *)
Lemma appRun_consistent (fuel : nat) (events : list AppEvent) :
  forall state : State.AppState num,
    consistent state -> offeredRun fuel events state ->
    appRun fuel events state <> Throws
    /\ forall final, appRun fuel events state = Returns final -> consistent final.
Proof.
  induction events as [|event rest IH]; intros state Hstate Hoffered.
  - cbn. split; [discriminate|]. intros final Hfinal. injection Hfinal as <-. exact Hstate.
  - cbn [appRun offeredRun] in *. destruct Hoffered as [Hevent Hrest].
    destruct (appStep_consistent fuel event state Hstate Hevent) as [Hthrow Hnext].
    destruct (appStep fuel event state) as [next| |]; [|congruence|].
    + apply IH; [apply Hnext; reflexivity|exact Hrest].
    + split; [discriminate|]. intros final Hfinal. discriminate.
Qed.
End Handlers.

(** With fuel 272, [runTrial] does not run out of it: the loop of
    [generateTrialSignals] makes 271 turns for the default duration and
    sample rate. *)
Lemma default_run_in_doubles (L : Libm float) (physics : TrialPhysics float)
  (noiseEnabled : bool) (seed : float) :
  generateTrialSignals (N := IEEE754) 272 physics
    {| noiseEnabled := noiseEnabled; seed := seed;
       durationS := None; sampleRateHz := None |} <> None.
Proof.
  destruct default_times_in_doubles as [Htimes _].
  destruct (sampleLoop_times float IEEE754 L physics (lit 45 10) (ofZ 60) _ 272 (ofZ 0)
              (buildNoiseSampler seed noiseEnabled) _ Htimes) as (samples & Hs & _).
  unfold generateTrialSignals.
  cbn [durationS sampleRateHz Signals.noiseEnabled Signals.seed orElse].
  rewrite Hs. discriminate.
Qed.

Lemma default_run_exact (physics : TrialPhysics R) (noiseEnabled : bool) (seed : R) :
  generateTrialSignals (N := ExactReal) 272 physics
    {| noiseEnabled := noiseEnabled; seed := seed;
       durationS := None; sampleRateHz := None |} <> None.
Proof.
  set (options := {| noiseEnabled := noiseEnabled; seed := seed;
                     durationS := None; sampleRateHz := None |}).
  assert (Hturns : ExactSignals.turns options = 271%nat).
  { unfold ExactSignals.turns, ExactSignals.countOf, ExactSignals.durationOf,
      ExactSignals.rateOf. cbn [durationS sampleRateHz options orElse].
    exact_ops. replace (45 / 10 * 60)%R with (IZR 270) by lra.
    rewrite ZfloorZ. reflexivity. }
  destruct (ExactSignalsFacts.generate_returns physics options 272)
    as (samples & _ & _ & ->); [lia|discriminate].
Qed.

Section Runs.
Import AppEvents.
Context {num : Type} {N : Number num} {L : Libm num} {Rd : Rounding num}.
Hypothesis enough :
  forall (physics : TrialPhysics num) (noiseEnabled : bool) (seed : num),
    generateTrialSignals 272 physics
      {| noiseEnabled := noiseEnabled; seed := seed;
         durationS := None; sampleRateHz := None |} <> None.

Lemma appStep_fuelled (event : AppEvent) (state : State.AppState num) :
  appStep 272 event state <> OutOfFuel.
Proof.
  destruct event; cbn [appStep]; try discriminate.
  - unfold scenarioChanged.
    destruct (if existsb _ _ then _ else _); [|discriminate].
    destruct (getPresetById _); discriminate.
  - unfold presetChanged. destruct (getPresetById _); discriminate.
  - unfold runTrial. destruct (computeTrialPhysics _) as [physics|]; [|discriminate].
    destruct (generateTrialSignals 272 physics _) eqn:Hs; [discriminate|].
    exfalso. exact (enough _ _ _ Hs).
  - unfold addTrial. destruct (State.currentTrial state) as [trial|]; [|discriminate].
    destruct (negb _); [discriminate|].
    destruct (State.forceMeanN _); [|discriminate].
    destruct (State.accelerationMps2 _); [|discriminate].
    destruct (State.forceWindow _); [|discriminate].
    destruct (State.velocityWindow _); [|discriminate].
    destruct (getPresetById _); discriminate.
Qed.

Lemma appRun_returns (events : list AppEvent) :
  forall state : State.AppState num,
    consistent state -> offeredRun 272 events state ->
    exists final, appRun 272 events state = Returns final /\ consistent final.
Proof.
  induction events as [|event rest IH]; intros state Hstate Hoffered.
  - exists state. split; [reflexivity|exact Hstate].
  - cbn [appRun offeredRun] in *. destruct Hoffered as [Hevent Hrest].
    destruct (appStep_consistent 272 event state Hstate Hevent) as [Hthrow Hnext].
    pose proof (appStep_fuelled event state) as Hfuel.
    destruct (appStep 272 event state) as [next| |]; [|congruence|congruence].
    apply IH; [apply Hnext; reflexivity|exact Hrest].
Qed.
End Runs.

(** X22. No handler throws.  Starting from the initial state, any
    sequence of events the page can produce (with the preset chosen among
    those the preset select offers for the scenario shown) is handled
    without an exception, and the state stays consistent: the preset is
    one the scenario offers, a measured value is present only with a
    current trial and a window that [isValidSelection] accepts, and the
    identifiers of the current trial and of the records are below the next
    one.  Whatever the arithmetic, a run that does not run out of fuel
    returns; in binary64 and in exact arithmetic 272 units of fuel are
    enough for every run. *)
Theorem handlers_never_throw :
  (forall (num : Type) (N : Number num) (L : Libm num) (Rd : Rounding num)
          (fuel : nat) (events : list AppEvent),
      offeredRun fuel events State.createInitialState ->
      appRun fuel events State.createInitialState <> AppEvents.Throws
      /\ forall final,
          appRun fuel events State.createInitialState = AppEvents.Returns final ->
          consistent final)
  /\ (forall (L : Libm float) (events : list AppEvent),
         offeredRun (N := IEEE754) 272 events State.createInitialState ->
         exists final,
           appRun (N := IEEE754) 272 events State.createInitialState
           = AppEvents.Returns final
           /\ consistent final)
  /\ (forall events : list AppEvent,
         offeredRun (N := ExactReal) 272 events State.createInitialState ->
         exists final,
           appRun (N := ExactReal) 272 events State.createInitialState
           = AppEvents.Returns final
           /\ consistent final).
Proof.
  refine (conj _ (conj _ _)).
  - intros num N L Rd fuel events Hoffered.
    apply appRun_consistent; [apply initial_consistent|exact Hoffered].
  - intros L events Hoffered.
    apply appRun_returns; [apply default_run_in_doubles|apply initial_consistent|exact Hoffered].
  - intros events Hoffered.
    apply appRun_returns; [apply default_run_exact|apply initial_consistent|exact Hoffered].
Qed.

Lemma handlers_never_throw_witness :
  exists final,
    appRun (N := ExactReal) 272
      [ScenarioSelected cart_plus_pad; PresetSelected "medium"; RunTrialClicked;
       AddTrialClicked "2024-01-01T00:00:00.000Z"]
      State.createInitialState
    = AppEvents.Returns final /\ consistent final.
Proof.
  apply (proj2 (proj2 handlers_never_throw)).
  cbn [offeredRun appStep offered].
  split; [exact I|].
  change (AppEvents.scenarioChanged (N := ExactReal) cart_plus_pad State.createInitialState)
    with (AppEvents.Returns
            (AppEvents.withSettings (State.createInitialState (N := ExactReal))
               cart_plus_pad "low" false)).
  split; [simpl; auto|].
  change (AppEvents.presetChanged (N := ExactReal) "medium"
            (AppEvents.withSettings State.createInitialState cart_plus_pad "low" false))
    with (AppEvents.Returns
            (AppEvents.withSettings
               (AppEvents.withSettings (State.createInitialState (N := ExactReal))
                  cart_plus_pad "low" false)
               cart_plus_pad "medium" false)).
  split; [exact I|].
  destruct (AppEvents.runTrial 272 _) as [next| |]; [|exact I|exact I].
  split; [exact I|].
  destruct (AppEvents.addTrial _ next); exact I.
Defined.

(** X23. The add button and its handler agree.  On a consistent state (as
    every state the handlers reach is), whatever the arithmetic: when
    [canAddTrial] is false, the click changes nothing; when it is true,
    the click appends exactly one record to the accepted trials, carrying
    the identifier of the current trial, which moved, the scenario shown
    and the timestamp. *)
Theorem add_button_matches_handler
  (num : Type) (N : Number num) (Rd : Rounding num)
  (timestamp : string) (state : State.AppState num) :
  consistent state ->
  (AppEvents.canAddTrial state = false ->
   AppEvents.addTrial timestamp state = AppEvents.Returns state)
  /\ (AppEvents.canAddTrial state = true ->
      exists trial record,
        State.currentTrial state = Some trial
        /\ moved (State.physics trial) = true
        /\ AppEvents.addTrial timestamp state
           = AppEvents.Returns
               (AppEvents.withRecords state (State.trialRecords state ++ [record]))
        /\ State.trial_id record = State.id trial
        /\ State.moved record = true
        /\ State.scenario record = AppEvents.scenarioName (State.state_scenario state)
        /\ State.timestamp_iso record = timestamp).
Proof.
  intros (Hpreset & Hforce & Hvelocity & _ & _).
  unfold AppEvents.canAddTrial, AppEvents.addTrial.
  destruct (State.currentTrial state) as [trial|]; [|split; [reflexivity|discriminate]].
  destruct (moved (State.physics trial)) eqn:Hm; cbn [negb andb];
    [|split; [reflexivity|discriminate]].
  destruct (State.forceMeanN (State.measurement state)) as [force|] eqn:Hf;
    [|split; [reflexivity|discriminate]].
  destruct (State.accelerationMps2 (State.measurement state)) as [accel|] eqn:Ha;
    [|split; [reflexivity|discriminate]].
  destruct (Hforce ltac:(discriminate)) as [Hfw _].
  destruct (Hvelocity ltac:(discriminate)) as [Hvw _].
  rewrite Hfw, Hvw. cbn [andb].
  destruct (State.forceWindow (State.measurement state)) as [fw|]; [|discriminate].
  destruct (State.velocityWindow (State.measurement state)) as [vw|]; [|discriminate].
  destruct (offered_known _ _ Hpreset) as (preset & -> & _).
  split; [discriminate|]. intros _.
  eexists. eexists. split; [reflexivity|]. split; [exact Hm|].
  split; [reflexivity|]. repeat split.
Qed.

Lemma add_button_matches_handler_witness :
  exists trial record,
    State.currentTrial (MoreExamples.measuredState (N := IEEE754)) = Some trial
    /\ moved (State.physics trial) = true
    /\ AppEvents.addTrial (Rd := IEEE754_rounding) "2024-01-01T00:00:00.000Z"
         MoreExamples.measuredState
       = AppEvents.Returns
           (AppEvents.withRecords MoreExamples.measuredState
              (State.trialRecords MoreExamples.measuredState ++ [record]))
    /\ State.trial_id record = State.id trial
    /\ State.moved record = true
    /\ State.scenario record = "cart_only"%string
    /\ State.timestamp_iso record = "2024-01-01T00:00:00.000Z"%string.
Proof.
  refine (proj2 (add_button_matches_handler float IEEE754 IEEE754_rounding
                   "2024-01-01T00:00:00.000Z" MoreExamples.measuredState _) _).
  - unfold consistent. cbn [MoreExamples.measuredState State.presetId State.state_scenario
      State.measurement State.forceMeanN State.accelerationMps2 State.forceWindow
      State.velocityWindow State.currentTrial State.trialRecords State.nextTrialId].
    split; [simpl; auto|].
    split; [intros _; split; [vm_compute; reflexivity|discriminate]|].
    split; [intros _; split; [vm_compute; reflexivity|discriminate]|].
    split; [intros trial Htrial; injection Htrial as <-; simpl; lia|constructor].
  - vm_compute. reflexivity.
Defined.

Section FitView.
Import AppEvents.
Context {num : Type} {N : Number num}.

Lemma relevant_app (state : State.AppState num) (more : list (State.TrialRecord num)) :
  relevantRecords (withRecords state (State.trialRecords state ++ more))
  = relevantRecords state
    ++ filter (fun record => String.eqb (State.scenario record)
                               (scenarioName (State.state_scenario state))) more.
Proof.
  unfold relevantRecords, withRecords. cbn [State.trialRecords State.state_scenario].
  apply filter_app.
Qed.

Lemma fitPoints_length (state : State.AppState num) :
  length (fitPoints state) = length (relevantRecords state).
Proof. unfold fitPoints. apply length_map. Qed.
End FitView.

(** X24. The fit of the scatter view, whatever the arithmetic: it is
    computed from the accepted records of the scenario shown and from
    no other, so a record of the other scenario added to the table leaves
    it unchanged; when there is a fit, its point count is the number of
    those records and the checklist item for the fit is done.  The
    converse fails: in exact arithmetic the view has no fit exactly when
    there are fewer than two such records or all of them have the same
    acceleration, while the checklist item only counts them. *)
Theorem fit_view_uses_scenario_records :
  (forall (num : Type) (N : Number num) (state : State.AppState num),
      (forall fit,
          AppEvents.fitOf state = Some fit ->
          Regression.count fit = length (AppEvents.relevantRecords state)
          /\ AppEvents.fitDone state = true)
      /\ (forall record,
             State.scenario record
             <> AppEvents.scenarioName (State.state_scenario state) ->
             AppEvents.fitOf
               (AppEvents.withRecords state (State.trialRecords state ++ [record]))
             = AppEvents.fitOf state))
  /\ (forall state : State.AppState R,
         AppEvents.fitOf state = None
         <-> (length (AppEvents.relevantRecords state) < 2)%nat
             \/ ExactRegression.allEqual
                  (map (@State.accel_mps2 R) (AppEvents.relevantRecords state))).
Proof.
  split.
  - intros num N state. split.
    + intros fit Hfit. unfold AppEvents.fitOf in Hfit. unfold AppEvents.fitDone.
      rewrite fitPoints_length in Hfit.
      destruct (Nat.leb 2 (length (AppEvents.relevantRecords state))); [|discriminate].
      split; [|reflexivity].
      destruct (linearRegression_count _ _ _ Hfit) as (Hcount & _ & _).
      rewrite Hcount, length_map. apply fitPoints_length.
    + intros record Hother. unfold AppEvents.fitOf, AppEvents.fitPoints.
      rewrite relevant_app. cbn [filter].
      rewrite (proj2 (String.eqb_neq _ _) Hother), app_nil_r. reflexivity.
  - intros state. unfold AppEvents.fitOf. rewrite fitPoints_length.
    assert (Hx : map fst (AppEvents.fitPoints state)
                 = map (@State.accel_mps2 R) (AppEvents.relevantRecords state)).
    { unfold AppEvents.fitPoints. rewrite map_map. reflexivity. }
    rewrite Hx.
    destruct (Nat.leb_spec 2 (length (AppEvents.relevantRecords state))) as [Hmany|Hfew].
    + rewrite linearRegression_null, !length_map.
      assert (Hne : map (@State.accel_mps2 R) (AppEvents.relevantRecords state) <> []).
      { destruct (AppEvents.relevantRecords state); [simpl in Hmany; lia|discriminate]. }
      assert (Hlen : length (map (@State.accel_mps2 R) (AppEvents.relevantRecords state))
                     = length (map snd (AppEvents.fitPoints state)))
        by (rewrite !length_map; symmetry; apply fitPoints_length).
      rewrite ExactOrder.neq_true.
      rewrite (ExactRegressionFacts.ssxx_zero_iff _ _ Hlen Hne).
      rewrite fitPoints_length. split; [intros [H|[H|H]]; [congruence|lia|right; exact H]|].
      intros [H|H]; [lia|right; right; exact H].
    + split; [intros _; left; exact Hfew|reflexivity].
Qed.

Lemma fit_view_uses_scenario_records_witness :
  AppEvents.fitOf (N := ExactReal) MoreExamples.twoAlike = None
  /\ AppEvents.fitDone (MoreExamples.twoAlike (N := ExactReal)) = true.
Proof.
  split; [|reflexivity].
  apply (proj2 fit_view_uses_scenario_records MoreExamples.twoAlike).
  right. intros a b Ha Hb. simpl in Ha, Hb.
  destruct Ha as [<-|[<-|[]]]; destruct Hb as [<-|[<-|[]]]; reflexivity.
Defined.

Module ExactProgress.
Local Open Scope R_scope.

Lemma lastShown_from (timeS : R) (rest : list R) :
  forall k, AppEvents.lastShown rest timeS k = (k + AppEvents.lastShown rest timeS 0)%nat.
Proof.
  induction rest as [|x rest IH]; intros k; simpl; [lia|].
  destruct (Exact.leb x timeS); [|lia].
  rewrite (IH (S k)), (IH 1%nat). lia.
Qed.

Lemma none_shown (timeS : R) (l : list R) :
  (forall x, In x l -> timeS < x) -> filter (fun x => Exact.leb x timeS) l = [].
Proof.
  induction l as [|x l IH]; intros Hall; [reflexivity|]. simpl.
  rewrite (proj2 (ExactOrder.leb_false x timeS)) by (apply Hall; left; reflexivity).
  apply IH. intros y Hy. apply Hall. right. exact Hy.
Qed.

(** The loop of [renderTrialProgress] on increasing times stops after
    exactly the times that are not after [timeS]. *)
Lemma shown_prefix (timeS : R) (l : list R) :
  increasing l = true ->
  firstn (AppEvents.lastShown l timeS 0) l = filter (fun x => Exact.leb x timeS) l.
Proof.
  induction l as [|x l IH]; intros Hinc; [reflexivity|].
  simpl AppEvents.lastShown. simpl filter.
  destruct (Exact.leb x timeS) eqn:Hx.
  - rewrite lastShown_from. cbn [Nat.add firstn]. f_equal.
    apply IH. exact (ExactOrderedTimes.increasing_tail x l Hinc).
  - apply ExactOrder.leb_false in Hx. cbn [firstn]. symmetry.
    apply none_shown. intros y Hy.
    destruct (In_nth l y 0 Hy) as (j & Hj & <-).
    pose proof (ExactOrderedTimes.increasing_nth (x :: l) Hinc 0 (S j)) as Hlt.
    simpl in Hlt. specialize (Hlt ltac:(lia) ltac:(lia)). lra.
Qed.
End ExactProgress.

Local Open Scope R_scope.

(** X25. What the graphs show while the machine plays, in exact
    arithmetic and for increasing sample times: the first sample, and of
    the later ones exactly those whose time is not after the cursor; as
    many forces and velocities as times; and a motion window only once
    the cursor has passed its start, cut at the cursor. *)
Theorem progress_shows_samples_up_to_cursor
  (trial : State.CurrentTrial R) (timeS first : R) (rest : list R) :
  timesS (State.signals trial) = first :: rest ->
  increasing (timesS (State.signals trial)) = true ->
  length (forceN (State.signals trial)) = length (timesS (State.signals trial)) ->
  length (velocityMps (State.signals trial)) = length (timesS (State.signals trial)) ->
  AppEvents.shownTimes trial timeS = first :: filter (fun x => Exact.leb x timeS) rest
  /\ length (AppEvents.shownForce trial timeS) = length (AppEvents.shownTimes trial timeS)
  /\ length (AppEvents.shownVelocity trial timeS)
     = length (AppEvents.shownTimes trial timeS)
  /\ (forall shown,
         AppEvents.shownMotionWindow trial timeS = Some shown ->
         exists window,
           motionWindow (State.signals trial) = Some window
           /\ startS shown = startS window
           /\ startS shown < endS shown
           /\ endS shown <= timeS
           /\ endS shown <= endS window).
Proof.
  intros Htimes Hinc Hforce Hvelocity.
  unfold AppEvents.shownTimes, AppEvents.shownForce, AppEvents.shownVelocity.
  rewrite !length_firstn, Hforce, Hvelocity.
  split; [|split; [reflexivity|split; [reflexivity|]]].
  - rewrite Htimes in *. cbn [tl]. rewrite Nat.add_1_r. cbn [firstn]. f_equal.
    apply ExactProgress.shown_prefix.
    exact (ExactOrderedTimes.increasing_tail first rest Hinc).
  - intros shown. unfold AppEvents.shownMotionWindow.
    destruct (motionWindow (State.signals trial)) as [window|]; [|discriminate].
    cbn [startS endS]. exact_ops.
    destruct (Exact.ltb (startS window) (Rmin timeS (endS window))) eqn:Hlt; [|discriminate].
    intros Hshown. injection Hshown as <-. cbn [startS endS].
    apply ExactOrder.ltb_true in Hlt.
    exists window. split; [reflexivity|]. split; [reflexivity|]. split; [exact Hlt|].
    split; [apply Rmin_l|apply Rmin_r].
Qed.

Lemma progress_shows_samples_up_to_cursor_witness :
  AppEvents.shownTimes (N := ExactReal) MoreExamples.movedCurrent 1
  = 0 :: filter (fun x => Exact.leb x 1) [1; 2].
Proof.
  refine (proj1 (progress_shows_samples_up_to_cursor MoreExamples.movedCurrent 1 0 [1; 2]
                   eq_refl _ eq_refl eq_refl)).
  simpl. rewrite !(proj2 (ExactOrder.ltb_true _ _)) by lra. reflexivity.
Defined.

(** X26. What [roundTo] keeps.  In binary64 arithmetic: [roundTo(v, 3)]
    returns [v] for each of the 1001 doubles [v = k / 1000] with
    [0 <= k <= 1000], among them the hanging masses the application
    offers, and [roundTo(v, 4)] returns [v] for each of the 10001
    doubles [v = k / 10000] with [0 <= k <= 10000].  In exact arithmetic
    [roundTo(value, digits)] is a multiple of [10^-digits] nearest to
    [value], the upper one when two are equally near, so it differs from
    [value] by at most half of [10^-digits].  In binary64 arithmetic the
    product is rounded before [Math.round]: the double nearest 0.0045 is
    below 0.0045, so its nearest multiple of 0.001 is 0.004, and
    [roundTo] returns 0.005. *)
Theorem roundTo_nearest_multiple :
  (forallb
     (fun k => (AppEvents.roundTo (N := IEEE754) (lit (Z.of_nat k) 1000) 3
                === lit (Z.of_nat k) 1000)%js)
     (seq 0 1001) = true
   /\ forallb
        (fun k => (AppEvents.roundTo (N := IEEE754) (lit (Z.of_nat k) 10000) 4
                   === lit (Z.of_nat k) 10000)%js)
        (seq 0 (10 * 1000 + 1)) = true
   /\ forallb (fun mass => (AppEvents.roundTo (N := IEEE754) mass 3 === mass)%js)
        HANGING_MASS_STEPS_KG = true)
  /\ (forall (value : R) (digits : nat),
         let factor := IZR (10 ^ Z.of_nat digits) in
         0 < factor
         /\ (exists k : Z,
                AppEvents.roundTo value digits = IZR k / factor
                /\ value * factor - 1 / 2 < IZR k <= value * factor + 1 / 2)
         /\ Rabs (AppEvents.roundTo value digits - value) <= 1 / (2 * factor))
  /\ (AppEvents.roundTo (N := IEEE754) (lit 45 10000) 3 = lit 5 1000
      /\ Prim2SF (lit (N := IEEE754) 45 10000) = S754_finite false 5188146770730811 (-60)
      /\ Zfloor (IZR 5188146770730811 / IZR (2 ^ 60) * 1000 + 1 / 2) = 4%Z).
Proof.
  refine (conj (conj _ (conj _ _)) (conj _ (conj _ (conj _ _))));
    [vm_compute; reflexivity..| |vm_compute; reflexivity|vm_compute; reflexivity|].
  2: { apply Zfloor_eq. change (2 ^ 60)%Z with 1152921504606846976%Z. simpl IZR. lra. }
  intros value digits.
  intros factor.
  assert (Hpos : 0 < factor).
  { unfold factor. apply IZR_lt. apply Z.pow_pos_nonneg; lia. }
  pose proof (Zfloor_bound (value * factor + 1 / 2)) as [Hlow Hhigh].
  assert (Hk : value * factor - 1 / 2 < IZR (Zfloor (value * factor + 1 / 2))
               <= value * factor + 1 / 2) by lra.
  assert (Hround : AppEvents.roundTo value digits
                   = IZR (Zfloor (value * factor + 1 / 2)) / factor) by reflexivity.
  split; [exact Hpos|]. split.
  - exists (Zfloor (value * factor + 1 / 2)). split; [exact Hround|exact Hk].
  - rewrite Hround. set (k := IZR (Zfloor (value * factor + 1 / 2))) in *.
    replace (k / factor - value) with ((k - value * factor) / factor) by (field; lra).
    unfold Rdiv at 1. rewrite Rabs_mult, (Rabs_right (/ factor))
      by (apply Rle_ge, Rlt_le, Rinv_0_lt_compat; exact Hpos).
    assert (Habs : Rabs (k - value * factor) <= 1 / 2)
      by (apply Rabs_le; lra).
    replace (1 / (2 * factor)) with (1 / 2 * / factor) by (field; lra).
    apply Rmult_le_compat_r; [apply Rlt_le, Rinv_0_lt_compat; exact Hpos|exact Habs].
Qed.

(* ================================================================== *)
(** ** Quoted fields of the export ([export.js]) *)

Module CsvFacts.
Import CsvExport CsvReading.
Local Open Scope string_scope.

Lemma read_escaped (value : string) :
  readQuoted (doubleQuotes value ++ String quotationMark EmptyString) = Some value.
Proof.
  induction value as [|c value IH]; [reflexivity|].
  cbn [doubleQuotes]. destruct (Ascii.eqb c quotationMark) eqn:Hc.
  - apply Ascii.eqb_eq in Hc. subst c.
    cbn [append readQuoted]. rewrite Ascii.eqb_refl, IH. reflexivity.
  - cbn [append readQuoted]. rewrite Hc, IH. reflexivity.
Qed.
End CsvFacts.

(** X27. A field quoted by [quoteCsv] reads back as the string quoted: it
    opens with a quotation mark, every quotation mark of the string is
    doubled, and a single mark closes it; so two different strings are
    never exported as the same field. *)
Theorem quoteCsv_reads_back :
  (forall value : string,
      CsvReading.unquoteCsv (CsvExport.quoteCsv value) = Some value)
  /\ (forall a b : string, CsvExport.quoteCsv a = CsvExport.quoteCsv b -> a = b).
Proof.
  assert (Hback : forall value,
             CsvReading.unquoteCsv (CsvExport.quoteCsv value) = Some value).
  { intros value. unfold CsvReading.unquoteCsv, CsvExport.quoteCsv.
    rewrite Ascii.eqb_refl. apply CsvFacts.read_escaped. }
  split; [exact Hback|].
  intros a b Hab.
  assert (H : Some a = Some b) by (rewrite <- (Hback a), <- (Hback b), Hab; reflexivity).
  injection H as ->. reflexivity.
Qed.

(* ================================================================== *)
(** ** The store ([state.js]) *)

Section StoreFacts.
Import Store.
Context {num : Type} {N : Number num}.

Lemma member_spec (s : Subscriber) (l : list Subscriber) :
  existsb (Nat.eqb s) l = true <-> In s l.
Proof.
  rewrite existsb_exists. split.
  - intros (x & Hin & Heq). apply Nat.eqb_eq in Heq. subst x. exact Hin.
  - intros Hin. exists s. split; [exact Hin|apply Nat.eqb_refl].
Qed.

Lemma step_subscribers_nodup (store : Store num) (call : StoreCall) :
  NoDup (subscribers store) -> NoDup (subscribers (fst (storeStep store call))).
Proof.
  intros Hnodup. destruct call as [partial|updater| |s|s]; cbn; try exact Hnodup.
  - destruct (existsb (Nat.eqb s) (subscribers store)) eqn:Hmember; [exact Hnodup|].
    apply NoDup_app; [exact Hnodup|repeat constructor; intros []|].
    intros x Hx [<-|[]].
    apply member_spec in Hx. congruence.
  - apply NoDup_filter. exact Hnodup.
Qed.

Lemma storeAfter_nodup (calls : list StoreCall) :
  forall store : Store num,
    NoDup (subscribers store) ->
    NoDup (subscribers (fold_left (fun store call => fst (storeStep store call)) calls store)).
Proof.
  induction calls as [|call calls IH]; intros store Hnodup; [exact Hnodup|].
  cbn [fold_left]. apply IH. apply step_subscribers_nodup. exact Hnodup.
Qed.

Lemma notified_count (state : State.AppState num) (s : Subscriber) (l : list Subscriber) :
  NoDup l ->
  count_occ Nat.eq_dec (map fst (map (fun subscriber => (subscriber, state)) l)) s
  = if existsb (Nat.eqb s) l then 1%nat else 0%nat.
Proof.
  intros Hnodup. rewrite map_map. cbn [fst]. rewrite map_id.
  destruct (existsb (Nat.eqb s) l) eqn:Hmember.
  - apply member_spec in Hmember. apply NoDup_count_occ'; assumption.
  - apply count_occ_not_In. intros Hin. apply member_spec in Hin. congruence.
Qed.
End StoreFacts.

(** X28. The store calls each subscriber once.  After any sequence of
    calls on a new store, whatever the arithmetic and for subscribed
    functions that do not call the store themselves: a call that changes
    the state ([setState], [update], [resetMeasurement]) calls every
    subscribed function exactly once, with the new state, and no other
    function; subscribing or unsubscribing calls nobody and leaves the
    state alone; a function that has just been subscribed is subscribed,
    however often it was before, and one that has just been unsubscribed
    is not. *)
Theorem store_calls_each_subscriber_once
  (num : Type) (N : Number num) (calls : list StoreCall) (call : StoreCall)
  (s : Store.Subscriber) :
  let store := storeAfter calls in
  let after := fst (storeStep store call) in
  let notes := snd (storeStep store call) in
  (if mutates call
   then count_occ Nat.eq_dec (map fst notes) s
        = (if existsb (Nat.eqb s) (Store.subscribers store) then 1 else 0)%nat
        /\ Forall (fun note => snd note = Store.state after) notes
        /\ Store.subscribers after = Store.subscribers store
   else notes = [] /\ Store.state after = Store.state store)
  /\ count_occ Nat.eq_dec
       (Store.subscribers (fst (storeStep store (CallSubscribe s)))) s = 1%nat
  /\ count_occ Nat.eq_dec
       (Store.subscribers (fst (storeStep store (CallUnsubscribe s)))) s = 0%nat.
Proof.
  intros store after notes.
  assert (Hnodup : NoDup (Store.subscribers store)).
  { unfold store, storeAfter. apply storeAfter_nodup. constructor. }
  split; [|split].
  - subst after notes.
    destruct call as [partial|updater| |s'|s']; cbn [mutates storeStep fst snd];
      try (split; reflexivity);
      (split; [apply notified_count; exact Hnodup|]);
      (split; [|reflexivity]);
      apply Forall_forall; intros note Hin; apply in_map_iff in Hin;
      destruct Hin as (x & <- & _); reflexivity.
  - apply NoDup_count_occ'.
    + apply (step_subscribers_nodup store (CallSubscribe s) Hnodup).
    + cbn. destruct (existsb (Nat.eqb s) (Store.subscribers store)) eqn:Hmember.
      * apply member_spec. exact Hmember.
      * apply in_or_app. right. left. reflexivity.
  - apply count_occ_not_In. cbn. intros Hin. apply filter_In in Hin.
    destruct Hin as [_ Hneq]. rewrite Nat.eqb_refl in Hneq. discriminate.
Qed.

(* ================================================================== *)
(** ** From the signals to the measured acceleration *)

Section QuietLoop.
Context {num : Type} {N : Number num} {L : Libm num}.
Local Open Scope js_scope.

(** Without noise a sample of a trial that moved is [movedSample] at its
    time, each component plus the zero the silent sampler returns. *)
Lemma sampleLoop_quiet (physics : TrialPhysics num) (d r count : num) :
  moved physics = true ->
  forall (fuel : nat) (index : num) (samples : list (num * num * num)),
    sampleLoop fuel physics d r count index Silent = Some samples ->
    Forall (fun s => snd (fst s) = fst (movedSample physics d (fst (fst s))) + ofZ 0
                     /\ snd s = snd (movedSample physics d (fst (fst s))) + ofZ 0)
           samples.
Proof.
  intros Hm. induction fuel as [|fuel IH]; intros index samples; simpl; [discriminate|].
  destruct (index <? count).
  - unfold sampleAt. rewrite Hm.
    destruct (movedSample physics d (index / r)) as [force velocity] eqn:Hsample.
    cbn [noise].
    destruct (sampleLoop fuel physics d r count (index + ofZ 1) Silent) as [rest|] eqn:Hrest;
      [|discriminate].
    intros Hs. injection Hs as <-. constructor.
    + cbn [fst snd]. rewrite Hsample. split; reflexivity.
    + apply (IH _ _ Hrest).
  - intros Hs. injection Hs as <-. constructor.
Qed.

(** Slicing a sequence of values computed from the times. *)
Lemma sliceLoop_image (g : num -> num) (start end_ : num) (ts : list num) :
  Regression.values (Regression.sliceLoop start end_ ts (map g ts))
  = map g (Regression.times (Regression.sliceLoop start end_ ts (map g ts))).
Proof.
  induction ts as [|time ts IH]; [reflexivity|].
  cbn [map Regression.sliceLoop tl hd].
  destruct ((time >=? start) && (time <=? end_)); cbn [Regression.values Regression.times map];
    rewrite IH; reflexivity.
Qed.
End QuietLoop.

Module ExactLinearPart.
Local Open Scope R_scope.

Lemma rampWindow_positive (physics : TrialPhysics R) :
  moved physics = true -> 0 < rampWindowS physics.
Proof.
  intros Hm. unfold rampWindowS. rewrite Hm. exact_ops. unfold Rmin, Rmax.
  repeat (destruct (Rle_dec _ _); try lra).
Qed.

(** Inside the linear part of the acceleration phase the velocity of
    the model is a line of slope [a]. *)
Lemma linear_velocity (physics : TrialPhysics R) (d t : R) :
  moved physics = true ->
  linearStartS physics <= t -> t <= linearEndS physics d ->
  snd (movedSample physics d t)
  = accelerationMps2 physics * t
    + (5 / 10 * accelerationMps2 physics * rampWindowS physics
       - accelerationMps2 physics * linearStartS physics).
Proof.
  intros Hm Hs He. pose proof (rampWindow_positive physics Hm) as Hr.
  unfold linearStartS, linearEndS in *.
  unfold movedSample. exact_ops.
  rewrite (proj2 (ExactOrder.ltb_false _ _)) by lra.
  rewrite (proj2 (ExactOrder.leb_true _ _)) by lra.
  cbn [snd]. unfold accelVelocity. exact_ops.
  unfold linearStartS, linearEndS. exact_ops.
  rewrite (proj2 (ExactOrder.ltb_false _ _)) by lra.
  rewrite (proj2 (ExactOrder.leb_true _ _)) by lra.
  ring.
Qed.

Lemma distinct_times (r : R) (samples : list (R * R * R)) :
  0 < r ->
  (forall k, (k < length samples)%nat ->
             fst (fst (nth k samples (0, 0, 0))) = INR k / r) ->
  NoDup (map (fun s => fst (fst s)) samples).
Proof.
  intros Hr Hnth. apply (NoDup_nth _ 0). rewrite length_map.
  intros i j Hi Hj Heq.
  rewrite !nth_map_times, (Hnth i Hi), (Hnth j Hj) in Heq.
  apply INR_eq. apply (Rmult_eq_reg_r (/ r)); [exact Heq|].
  apply Rinv_neq_0_compat. lra.
Qed.

Lemma two_distinct (l : list R) :
  NoDup l -> (2 <= length l)%nat -> ~ ExactRegression.allEqual l.
Proof.
  intros Hnodup Hlen Hall.
  destruct l as [|a [|b l]]; simpl in Hlen; try lia.
  inversion Hnodup as [|? ? Hnotin _]; subst.
  apply Hnotin. left. apply Hall; [right; left; reflexivity|left; reflexivity].
Qed.
(** A run of [m] consecutive elements that pass a test are all kept by
    [filter]. *)
Lemma filter_range (A : Type) (f : A -> bool) (d : A) (l : list A) :
  forall k0 m : nat,
    (k0 + m <= length l)%nat ->
    (forall k, (k0 <= k < k0 + m)%nat -> f (nth k l d) = true) ->
    (m <= length (filter f l))%nat.
Proof.
  induction l as [|a l IH]; intros k0 m Hlen Hall; simpl in Hlen.
  - simpl. lia.
  - destruct k0 as [|k0].
    + destruct m as [|m]; [lia|].
      assert (Ha : f a = true) by (apply (Hall 0%nat); lia).
      simpl. rewrite Ha. simpl. apply le_n_S.
      apply (IH 0%nat m); [simpl; lia|].
      intros k Hk. apply (Hall (S k)). lia.
    + assert (Hm : (m <= length (filter f l))%nat).
      { apply (IH k0 m); [lia|]. intros k Hk. apply (Hall (S k)). lia. }
      simpl. destruct (f a); simpl; lia.
Qed.

(** Samples taken every [1 / r] seconds: a window [[s, e]] that ends
    before the last sample holds more than [(e - s) r - 1] of them. *)
Lemma window_count (r s e : R) (samples : list (R * R * R)) :
  0 < r -> 0 <= s ->
  (Zfloor (e * r) < Z.of_nat (length samples))%Z ->
  (forall k, (k < length samples)%nat ->
             fst (fst (nth k samples (0, 0, 0))) = INR k / r) ->
  (e - s) * r - 1
  < INR (length (filter (fun time => ((time >=? s) && (time <=? e))%js)
                        (map (fun smp => fst (fst smp)) samples))).
Proof.
  intros Hr Hs Hlast Hnth.
  set (kept := filter _ _).
  pose proof (Zfloor_bound (s * r)) as [Hlo1 Hlo2].
  pose proof (Zfloor_bound (e * r)) as [Hhi1 Hhi2].
  assert (Hlo0 : (0 <= Zfloor (s * r))%Z) by (apply Zfloor_lub; simpl; nra).
  pose proof (pos_INR (length kept)) as Hkept.
  destruct (Z_le_gt_dec (Zfloor (e * r)) (Zfloor (s * r))) as [Hle|Hgt].
  - apply IZR_le in Hle. lra.
  - assert (Hm : (Z.to_nat (Zfloor (e * r) - Zfloor (s * r)) <= length kept)%nat).
    { apply (filter_range R _ 0 _ (Z.to_nat (Zfloor (s * r) + 1))).
      - rewrite length_map. lia.
      - intros k Hk.
        assert (Hk' : (k < length samples)%nat) by lia.
        rewrite nth_map_times, (Hnth k Hk'), INR_IZR_INZ.
        assert (Hk1 : IZR (Zfloor (s * r) + 1) <= IZR (Z.of_nat k)) by (apply IZR_le; lia).
        assert (Hk2 : IZR (Z.of_nat k) <= IZR (Zfloor (e * r))) by (apply IZR_le; lia).
        rewrite plus_IZR in Hk1.
        apply andb_true_iff. split; apply ExactOrder.nle_true.
        + apply (Rmult_le_reg_r r); [exact Hr|].
          unfold Rdiv. rewrite Rmult_assoc, Rinv_l by lra. lra.
        + apply (Rmult_le_reg_r r); [exact Hr|].
          unfold Rdiv. rewrite Rmult_assoc, Rinv_l by lra. lra. }
    apply le_INR in Hm. rewrite INR_IZR_INZ, Z2Nat.id in Hm by lia.
    rewrite minus_IZR in Hm. lra.
Qed.

(** The linear part lies between time 0 and 1.2 s before the end. *)
Lemma linear_part_inside (physics : TrialPhysics R) (d : R) :
  moved physics = true ->
  0 <= linearStartS physics /\ linearEndS physics d <= d.
Proof.
  intros Hm. pose proof (rampWindow_positive physics Hm) as Hr.
  unfold linearStartS, linearEndS, accelEnd, accelStart, clamp in *. rewrite Hm.
  exact_ops. split; [lra|].
  match goal with |- Rmin ?a ?b - _ <= _ => pose proof (Rmin_l a b) end.
  lra.
Qed.
End ExactLinearPart.

Local Open Scope R_scope.

(** X29. The measurement recovers the model.  In binary64 arithmetic and
    whatever [Math] computes: for every input the application offers,
    after the settings are chosen with noise off, the trial is run and
    the velocity window [1 s, 1.5 s] is selected, the acceleration
    [updateMeasurementValues] stores for a trial that moved is within
    1e-14 of the acceleration of the physics result, though not always
    equal to it.  In exact arithmetic and without noise, for a trial
    that moved and a velocity window that lies inside the linear part of
    the acceleration phase: the window holds more than
    [(endS - startS) * sampleRateHz - 1] samples; when it holds at least
    two, they are fitted by a line whose slope is exactly the
    acceleration of the physics result, with [r2 = 1]; and when the
    window also passes the two gates (0.12 s wide, 6 samples), the
    acceleration [updateMeasurementValues] stores is that
    acceleration. *)
Theorem measured_acceleration_is_model_acceleration :
  (forall L : Libm float,
      forallb
        (measuresModel (N := IEEE754) 272 (lit 1 100000000000000)
           {| Signals.startS := ofZ 1; Signals.endS := lit 15 10 |})
        offeredInputs = true)
  /\ (forall L : Libm float,
         forallb
           (measuresModel (N := IEEE754) 272 (ofZ 0)
              {| Signals.startS := ofZ 1; Signals.endS := lit 15 10 |})
           offeredInputs = false)
  /\ (forall (physics : TrialPhysics R) (options : Options R) (fuel : nat)
             (startS endS : R),
         moved physics = true ->
         noiseEnabled options = false ->
         0 < ExactSignals.rateOf options ->
         (ExactSignals.turns options < fuel)%nat ->
         linearStartS physics <= startS ->
         startS <= endS ->
         endS <= linearEndS physics (ExactSignals.durationOf options) ->
         exists signals,
           generateTrialSignals fuel physics options = Some signals
           /\ let n := length (Regression.times
                                 (Regression.sliceWindow (timesS signals) (velocityMps signals)
                                    startS endS)) in
              (endS - startS) * ExactSignals.rateOf options - 1 < INR n
              /\ ((2 <= n)%nat ->
               Regression.linearRegressionInWindow (timesS signals) (velocityMps signals)
                 startS endS
               = Some {| Regression.slope := accelerationMps2 physics;
                         Regression.intercept :=
                           5 / 10 * accelerationMps2 physics * rampWindowS physics
                           - accelerationMps2 physics * linearStartS physics;
                         Regression.r2 := 1;
                         Regression.count := n |})
              /\ ((6 <= n)%nat -> 12 / 100 <= endS - startS ->
                  forall state trialId,
                    State.currentTrial state
                    = Some {| State.id := trialId; State.physics := physics;
                              State.signals := signals |} ->
                    State.velocityWindow (State.measurement state)
                    = Some {| Signals.startS := startS; Signals.endS := endS |} ->
                    State.accelerationMps2 (State.measurement (updateMeasurementValues state))
                    = Some (accelerationMps2 physics))).
Proof.
  split; [intros L; vm_compute; reflexivity|].
  split; [intros L; vm_compute; reflexivity|].
  intros physics options fuel startS endS.
  intros Hm Hquiet Hrate Hfuel Hstart Horder Hend.
  destruct (ExactSignalsFacts.sampleLoop_ends physics options fuel
              (buildNoiseSampler (seed options) (noiseEnabled options)) Hfuel)
    as (samples & Hs & Hlen & Hnth).
  assert (Hgen : generateTrialSignals fuel physics options
                 = Some {| timesS := map (fun s => fst (fst s)) samples;
                           forceN := map (fun s => snd (fst s)) samples;
                           velocityMps := map snd samples;
                           motionWindow :=
                             if moved physics
                             then Some {| Signals.startS := accelStart;
                                          Signals.endS :=
                                            accelEnd physics (ExactSignals.durationOf options) |}
                             else None;
                           phases :=
                             {| initialStartS := initialStart;
                                accelStartS := accelStart;
                                accelEndS := accelEnd physics (ExactSignals.durationOf options);
                                stopEndS := stopEnd physics (ExactSignals.durationOf options) |} |}).
  { unfold generateTrialSignals.
    fold (ExactSignals.durationOf options). fold (ExactSignals.rateOf options).
    rewrite ExactSignalsFacts.count_is_countOf.
    change (ofZ 0) with (IZR 0). rewrite Hs. reflexivity. }
  eexists. split; [exact Hgen|]. cbn [timesS velocityMps].
  set (ts := map (fun s => fst (fst s)) samples).
  set (vs := map snd samples).
  set (a := accelerationMps2 physics).
  set (c := 5 / 10 * a * rampWindowS physics - a * linearStartS physics).
  set (line := fun t : R => a * t + c).
  rewrite Hquiet in Hs. cbn [buildNoiseSampler negb] in Hs.
  pose proof (sampleLoop_quiet physics _ _ _ Hm _ _ _ Hs) as Hsamples.
  assert (Hslice : Regression.sliceWindow ts vs startS endS
                   = Regression.sliceWindow ts (map line ts) startS endS).
  { unfold Regression.sliceWindow. apply sliceLoop_agree.
    intros k Hk Hin. unfold ts in Hk. rewrite length_map in Hk.
    change (Math_min startS endS) with (Rmin startS endS) in Hin.
    change (Math_max startS endS) with (Rmax startS endS) in Hin.
    rewrite Rmin_left, Rmax_right in Hin by lra.
    apply andb_true_iff in Hin. destruct Hin as [Hlow Hhigh].
    apply ExactOrder.nle_true in Hlow. apply ExactOrder.nle_true in Hhigh.
    rewrite (nth_indep ts NaN 0) in Hlow, Hhigh by (unfold ts; rewrite length_map; exact Hk).
    rewrite (nth_indep vs NaN 0) by (unfold vs; rewrite length_map; exact Hk).
    rewrite (nth_indep (map line ts) NaN (line 0))
      by (unfold ts; rewrite !length_map; exact Hk).
    rewrite (map_nth line ts 0 k).
    unfold ts, vs in *. rewrite nth_map_times in *.
    change 0 with (snd (0, 0, 0)) at 1. rewrite (map_nth snd samples (0, 0, 0) k).
    rewrite Forall_forall in Hsamples.
    destruct (Hsamples (nth k samples (0, 0, 0)) (nth_In _ _ Hk)) as [_ Hv].
    rewrite Hv.
    match goal with
    | |- (snd (movedSample ?p ?d ?t) + _)%js = _ =>
        pose proof (ExactLinearPart.linear_velocity p d t Hm) as Hvel
    end.
    assert (Hvel' := Hvel ltac:(lra) ltac:(lra)).
    etransitivity; [exact (f_equal (fun x => x + 0) Hvel')|].
    unfold line, c, a. ring. }
  assert (Himage : Regression.values (Regression.sliceWindow ts (map line ts) startS endS)
                   = map line (Regression.times
                                 (Regression.sliceWindow ts (map line ts) startS endS)))
    by (unfold Regression.sliceWindow; apply sliceLoop_image).
  assert (Hdistinct : NoDup (Regression.times (Regression.sliceWindow ts vs startS endS))).
  { unfold Regression.sliceWindow. rewrite sliceLoop_times. apply NoDup_filter.
    apply (ExactLinearPart.distinct_times (ExactSignals.rateOf options) samples Hrate).
    intros k Hk. apply Hnth. lia. }
  assert (Hfit : (2 <= length (Regression.times (Regression.sliceWindow ts vs startS endS)))%nat ->
                 Regression.linearRegressionInWindow ts vs startS endS
                 = Some {| Regression.slope := a; Regression.intercept := c;
                           Regression.r2 := 1;
                           Regression.count :=
                             length (Regression.times
                                       (Regression.sliceWindow ts vs startS endS)) |}).
  { intros Htwo. unfold Regression.linearRegressionInWindow.
    rewrite Hslice in *. rewrite Himage.
    apply (ExactLineFit.fit_of_line a c _ Htwo).
    apply ExactLinearPart.two_distinct; assumption. }
  split.
  { unfold Regression.sliceWindow. rewrite sliceLoop_times.
    change (Math_min startS endS) with (Rmin startS endS).
    change (Math_max startS endS) with (Rmax startS endS).
    rewrite Rmin_left, Rmax_right by lra.
    destruct (ExactLinearPart.linear_part_inside physics (ExactSignals.durationOf options) Hm)
      as [Hzero Hinside].
    apply ExactLinearPart.window_count; [exact Hrate|lra| |].
    - rewrite Hlen. unfold ExactSignals.turns, ExactSignals.countOf.
      assert (Hmono : (Zfloor (endS * ExactSignals.rateOf options)
                       <= Zfloor (ExactSignals.durationOf options
                                  * ExactSignals.rateOf options))%Z)
        by (apply Zfloor_le; nra).
      assert (Hpos : (0 <= Zfloor (endS * ExactSignals.rateOf options))%Z)
        by (apply Zfloor_lub; simpl; nra).
      lia.
    - intros k Hk. apply Hnth. lia. }
  split; [exact Hfit|].
  intros Hsix Hwide state trialId Htrial Hwindow.
  rewrite (acceleration_gate state _ _ Htrial Hwindow). cbn zeta.
  cbn [State.signals timesS velocityMps Signals.startS Signals.endS]. fold ts vs.
  unfold width, MIN_SELECTION_WIDTH_S, MIN_POINTS. cbn [Signals.startS Signals.endS].
  exact_ops. rewrite (Rabs_right (endS - startS)) by lra.
  rewrite (proj2 (ExactOrder.leb_true _ _)) by lra.
  rewrite (proj2 (Nat.leb_le _ _)) by exact Hsix. cbn [andb].
  unfold Regression.linearRegressionInWindow in Hfit.
  rewrite Hfit by lia. reflexivity.
Qed.

Lemma measured_acceleration_is_model_acceleration_witness :
  exists signals n,
    generateTrialSignals (N := ExactReal) 272 Examples.movedTrial
      (Examples.quietOptions 1 None None) = Some signals
    /\ (6 <= n)%nat
    /\ Regression.linearRegressionInWindow (timesS signals) (velocityMps signals)
         1 (15 / 10)
       = Some {| Regression.slope := accelerationMps2 Examples.movedTrial;
                 Regression.intercept :=
                   5 / 10 * accelerationMps2 Examples.movedTrial
                   * rampWindowS Examples.movedTrial
                   - accelerationMps2 Examples.movedTrial
                     * linearStartS Examples.movedTrial;
                 Regression.r2 := 1;
                 Regression.count := n |}.
Proof.
  assert (Hrate : ExactSignals.rateOf (Examples.quietOptions 1 None None) = 60)
    by (cbv [ExactSignals.rateOf Examples.quietOptions orElse sampleRateHz]; exact_ops; lra).
  assert (Hturns : (ExactSignals.turns (Examples.quietOptions 1%R None None) < 272)%nat).
  { unfold ExactSignals.turns, ExactSignals.countOf, ExactSignals.durationOf,
      ExactSignals.rateOf. cbn [durationS sampleRateHz Examples.quietOptions orElse].
    exact_ops. replace (45 / 10 * 60) with (IZR 270) by lra.
    rewrite ZfloorZ. simpl. lia. }
  assert (Hramp : rampWindowS (N := ExactReal) Examples.movedTrial = 154 / 1000).
  { unfold rampWindowS, accelDurationS, clamp. cbn [moved travelTimeS Examples.movedTrial orElse].
    exact_ops. unfold Rmin, Rmax. repeat (destruct (Rle_dec _ _); try lra). }
  assert (Hstart : linearStartS (N := ExactReal) Examples.movedTrial <= 1).
  { unfold linearStartS, accelStart. rewrite Hramp. exact_ops. lra. }
  assert (Hend : 15 / 10 <= linearEndS (N := ExactReal) Examples.movedTrial
                              (ExactSignals.durationOf (Examples.quietOptions 1 None None))).
  { unfold linearEndS. rewrite Hramp.
    unfold accelEnd, accelDurationS, accelStart, clamp, ExactSignals.durationOf.
    cbn [moved travelTimeS Examples.movedTrial orElse durationS Examples.quietOptions].
    exact_ops. unfold Rmin, Rmax. repeat (destruct (Rle_dec _ _); try lra). }
  assert (Hpositive : 0 < ExactSignals.rateOf (Examples.quietOptions 1 None None))
    by (rewrite Hrate; lra).
  assert (Horder : 1 <= 15 / 10) by lra.
  destruct (proj2 (proj2 measured_acceleration_is_model_acceleration) Examples.movedTrial
              (Examples.quietOptions 1 None None) 272%nat 1 (15 / 10)
              eq_refl eq_refl Hpositive Hturns Hstart Horder Hend)
    as (signals & Hsignals & Hcount & Hfit & _).
  rewrite Hrate in Hcount.
  match type of Hcount with _ < INR ?len => set (n := len) in * end.
  assert (Hsix : (6 <= n)%nat) by (apply INR_le; simpl INR; lra).
  exists signals, n.
  split; [exact Hsignals|]. split; [exact Hsix|]. apply Hfit. lia.
Defined.
